(* ===== verification/_CoqProject ===== *)
-Q . S2P
Prelude.v
Memory.v
Bitmap.v
Layout.v
Libc.v
Printf.v
MMap.v
PMem.v
Paging.v
PagingInit.v
Heap.v
HeapSpec.v
HeapInv.v
HeapGrow.v
PMemProps.v
PagingProps.v
HeapProps.v
HeapClient.v
Framebuffer.v
Console.v
ConsoleProps.v
Terminal.v
OneMemory.v
Machine.v
Sim.v
Keyboard.v
Acpi.v
Apic.v
Hpet.v
Descriptors.v
CpuInfo.v
Interrupts.v
IntSession.v
Debug.v
Kernel.v
BootMem.v
Boot.v
BootDev.v
BootProps.v
BootSample.v
Efi.v
Loader.v
Bootloader.v
Structs.v
Firmware.v
LoaderProps.v
Handover.v
EfiSim.v
BootloaderProps.v
