(* ===== verification/Prelude.v ===== *)
(** * printOS: a verification development of the bootloader and the kernel

    printOS (src/) is a small operating system for x86-64: a UEFI bootloader in C
    (src/bootloader) that loads the kernel's ELF file, a font and the memory map, and a
    kernel in C++ (src/kernel/src) that sets up physical memory, page tables, a heap,
    descriptor tables, interrupt controllers and a text console, and then runs a
    self test of its heap.  This library models that code function by function and proves
    what it does.  Paths below are relative to src/kernel/src unless they name
    src/bootloader.

    ** Conventions

    - A w-bit integer is a [Z]; the wrap-around of its type is written where the code
      can overflow ([u8] to [u64], this file).
    - Memory is a total map from addresses to bytes with little-endian loads and stores
      (Memory).  Structures that the code accesses through pointers, such as block headers,
      page tables, bitmaps, memory descriptors, ACPI tables, descriptor tables, ELF and
      PSF headers, are read and written there at their offsets.
    - Stateful code is in the monad [M S A], a state transformer that may end in a
      [fault]; [runs m s Q] says that [m] returns from [s], in [Q].  A failed [ASSERT] is
      [AssertFailed] (the kernel prints and stops); an access to a member through a null
      pointer is [NullDeref].  The latter is undefined behaviour of the program, where the
      model ends a run; it does not say that the processor stops, which depends on whether
      the page at address 0 is mapped.
    - Loops that follow pointers have fuel.  The theorems ask for fuel in the number
      of blocks or characters and show that it is enough; [heap_loops_terminate] bounds it
      by the size of the heap.  Counted loops recurse on their count and need none.
    - Code that is not in the repository is a parameter: the processor and its devices are
      the classes [Machine], [LapicDev], [IoapicDev], [HpetDev], [ScanSource], [EoiDev] and
      [ApicPlatform], whose laws state what the hardware documents; the UEFI firmware is the
      class [Efi] with the laws of the class [Firmware].  Sim and EfiSim are concrete
      instances, on which the theorems are applied.

    ** Files

    - Prelude: integers, outcomes, the monad, counted loops, counting.
    - Memory, Libc, Printf, Debug: cpu/mmio.h, libc/stdlib.cpp, kutils/console.cpp,
      kutils/assertions.cpp, debug/print.cpp.  Printf is proved for every console.
    - Bitmap, MMap, PMem, PMemProps: kutils/bitmap.cpp, memory/mmap.cpp and the frame
      allocator memory/pmem.cpp.  Its state is the record [PMem] and the bitmap in memory;
      [pmem_ok] is its invariant.
    - Paging, PagingInit, PagingProps: memory/paging.cpp, against [translate], the
      four-level translation of the processor.  [paging_ok] is the invariant of the tables.
    - Heap, HeapSpec, HeapInv, HeapGrow, HeapProps, HeapClient: memory/heap.cpp.  HeapSpec has
      the abstract heap, a list of blocks with first fit and coalescing; [heap_inv] relates it
      to the linked headers in memory and to the regions that clients hold.  HeapClient has
      the clients of a growing heap as a step relation over heap, frames and page tables.
    - Framebuffer, Console, ConsoleProps, Terminal: framebuffer/ and console/.  Terminal has the
      abstract terminal, a grid of cells, and [shows], which relates it to the pixels.
    - OneMemory: runs in which clients use the heap and print, in one memory.
    - Machine, Sim: the processor's ports, MSRs, CPUID and bus (cpu/), and a simulated one.
    - Keyboard, Acpi, Apic, Hpet, Descriptors, CpuInfo, Interrupts, IntSession: drivers/,
      acpi/, gdt/, idt/, cpu/cpu.cpp.  IntSession has the interrupts as a step relation.
    - Layout, Structs: the structs of the headers as declarations, and their layout.
    - Kernel, BootMem, Boot, BootDev, BootProps, BootSample: kernel.cpp.  Boot has [_start]
      over the state of all components; BootMem composes the three memory constructors,
      BootDev the devices, BootProps the whole start, BootSample runs it on a machine.
    - Efi, Loader, Bootloader: src/bootloader, function by function.  Firmware has the laws
      of the firmware, LoaderProps and Handover what is loaded and handed over, EfiSim and
      BootloaderProps the simulated firmware and the ways to fail.

    ** What the theorems show

    - Frames: [request_frame] and [request_frames] return the first free frame or run and
      lock exactly it ([request_frames] panics for one frame, and answers with a short run
      where only the end of memory is free), the constructor frees exactly the usable frames,
      and no frame is handed out twice over any sequence of calls that return.
    - Paging: [allocate_page] changes the translation of exactly one page; the constructor
      maps the first [n / 4097 + 1] pages of every region of the memory map and of the devices
      to themselves, which is all of a region of up to 4097 pages; [is_page_allocated] agrees with the
      translation.
    - Heap: [malloc] and [free] refine the abstract heap, freeing undoes allocating, growth
      takes frames and maps them.  Over any run of clients, with growth as long as the run of
      frames it needs ends below the bitmap and four free frames per page are left there, no
      two share a byte, none loses one, and neither allocator nor page tables use their memory
      ([kernel_heap_client_safe], [kernel_heap_keeps_data]).
    - Output: [kprintf] prints what its format says; the console stays inside the video
      memory and implements a terminal, cell by cell ([console_refines_terminal]), so
      that the expansion of a format is what the screen displays ([kprintf_displays_line]).
    - Memory of both: a heap that grows as above and a console that prints text without
      backspaces keep off each other's bytes, and in the one memory that joins theirs both
      invariants hold ([heap_and_screen_share_memory]).
    - Devices: the interrupt controllers, the timer, the keyboard and the tables are
      programmed and read as the hardware documents; the timer is periodic and routed where its
      capability bits allow it, which the code does not check ([hpet_periodic_correct]).
    - Interrupts: over any sequence of keyboard and timer interrupts the console gets what
      they stand for, in their order, and each is ended ([interrupts_interleave]).
    - Layout: bootloader and kernel agree, member by member, on the structs that are handed
      over ([handover_layouts_agree]); the loads, offsets, sizes and bit-fields listed in
      Structs are those of the declarations.
    - Start: [boot_init_correct] composes all this into the start of the kernel, from
      the hand-over to the self test; [bootloader_hands_over] shows that the bootloader
      gets there on a firmware whose memory map does not grow when a pool is allocated,
      [handover_starts_console] that the kernel reads what it stored, and
      [kernel_entered_only_complete] that it enters the kernel only when all is there.
    - Failures: theorems on what the code does where it does not do what it means to,
      among them that the self test dereferences a null pointer
      ([boot_self_test_dereferences_null]).

    ** The bitmap and the horizon

    The allocator does not lock the frames of its own bitmap ([bitmap_frame_left_free]), so
    that it can hand out the frame of the bitmap, twice ([bitmap_frame_allocated_twice]).
    Paging and heap are proved for the frames below it: [horizon] is the first
    frame of an unlocked bitmap, [avail] counts the free frames below, and operations
    that take frames ask for enough of them ([tables] counts the tables of a mapping).

    ** Not modelled

    - klog/klog.hpp declares a log that has no code; drivers/ps2.hpp declares functions
      of the second port that have none.
    - Interrupts come between the steps of no other code: sequences of handlers are
      modelled, with the loop at the end of [_start] between them, but not a handler in the
      middle of a constructor.  The entry and exit sequence of a handler is the compiler's.
    - The console has its own copy of the memory in the state; OneMemory shows for the heap and
      its clients that nothing is lost by this, the constructors of the start are not joined.
      Caches, the TLB and timing are left out, and the counter of the HPET does not run.
    - The build (linker script, Makefiles, startup.nsh). *)
From Stdlib Require Export ZArith Lia.
From stdpp Require Export base tactics list zmap.

#[export] Set Default Goal Selector "!".
#[export] Unset Program Cases.
Global Open Scope Z_scope.

(** ** Machine integers

    A [w]-bit unsigned integer is a [Z] kept in range by the wrap-around of
    its type (src/kernel/src/libc/stdint.hpp). *)
Definition u8 (z : Z) : Z := z mod 2 ^ 8.
Definition u16 (z : Z) : Z := z mod 2 ^ 16.
Definition u32 (z : Z) : Z := z mod 2 ^ 32.
Definition u64 (z : Z) : Z := z mod 2 ^ 64.

(** A C truth value as an integer. *)
Definition b2z (b : bool) : Z := if b then 1 else 0.

Create HintDb word.

Lemma u8_range z : 0 <= u8 z < 256.
Proof. unfold u8. apply Z.mod_pos_bound. lia. Qed.
Lemma u16_range z : 0 <= u16 z < 65536.
Proof. unfold u16. apply Z.mod_pos_bound. lia. Qed.
Lemma u32_range z : 0 <= u32 z < 2 ^ 32.
Proof. unfold u32. apply Z.mod_pos_bound. lia. Qed.
Lemma u64_range z : 0 <= u64 z < 2 ^ 64.
Proof. unfold u64. apply Z.mod_pos_bound. lia. Qed.
#[export] Hint Resolve u8_range u16_range u32_range u64_range : word.

Lemma u8_small z : 0 <= z < 256 -> u8 z = z.
Proof. intros. unfold u8. apply Z.mod_small. lia. Qed.
Lemma u16_small z : 0 <= z < 65536 -> u16 z = z.
Proof. intros. unfold u16. apply Z.mod_small. lia. Qed.
Lemma u32_small z : 0 <= z < 2 ^ 32 -> u32 z = z.
Proof. intros. unfold u32. apply Z.mod_small. lia. Qed.
Lemma u64_small z : 0 <= z < 2 ^ 64 -> u64 z = z.
Proof. intros. unfold u64. apply Z.mod_small. lia. Qed.

Lemma u8_u8 z : u8 (u8 z) = u8 z.
Proof. apply u8_small, u8_range. Qed.

(** [wordify] removes every wrap-around whose argument [lia] can bound. *)
Ltac wordify :=
  repeat match goal with
  | |- context [u8 ?z] => rewrite (u8_small z) by lia
  | |- context [u16 ?z] => rewrite (u16_small z) by lia
  | |- context [u32 ?z] => rewrite (u32_small z) by lia
  | |- context [u64 ?z] => rewrite (u64_small z) by lia
  end.

(** Linear arithmetic with divisions and remainders. *)
Ltac zdm := Z.to_euclidean_division_equations; lia.

(** ** Outcomes and the kernel's monad

    What a piece of kernel code can do besides returning: an [ASSERT] that
    fails (kutils/assertions.cpp never returns), a dereference of a null pointer
    (undefined in C++; the model ends there, whatever is mapped at address 0), a write past the end of a local array, a variadic argument read at the
    wrong type, an access to an unmapped page, a division by zero, a loop that is
    meant never to end, or a loop whose fuel is used up. *)
Inductive fault : Type :=
| AssertFailed
| NullDeref
| BufferOverflow
| BadVaArg
| PageFault
| DivideError
| Hang
| OutOfFuel.

Inductive outcome (A : Type) : Type :=
| Done (a : A)
| Fail (f : fault).
Arguments Done {_} _.
Arguments Fail {_} _.

Global Instance fault_eq_dec : EqDecision fault.
Proof. solve_decision. Defined.

Global Instance outcome_ret : MRet outcome := fun A a => Done a.
Global Instance outcome_bind : MBind outcome := fun A B f o =>
  match o with Done a => f a | Fail e => Fail e end.

(** Stateful kernel code: a state transformer that may fault. *)
Definition M (S A : Type) : Type := S -> outcome (A * S).

Global Instance M_ret S : MRet (M S) := fun A a s => Done (a, s).
Global Instance M_bind S : MBind (M S) := fun A B f m s =>
  match m s with Done (a, s') => f a s' | Fail e => Fail e end.

Definition fail {S A} (e : fault) : M S A := fun _ => Fail e.
Definition gets {S A} (f : S -> A) : M S A := fun s => Done (f s, s).
Definition modify {S} (f : S -> S) : M S unit := fun s => Done (tt, f s).

(** [m] returns from [s], with a result and a state that satisfy [Q]. *)
Definition runs {S A} (m : M S A) (s : S) (Q : A -> S -> Prop) : Prop :=
  exists a s', m s = Done (a, s') /\ Q a s'.

Section Runs.
Context {S A B : Type}.
Implicit Types (m : M S A) (s : S).

Lemma runs_ret (a : A) s (Q : A -> S -> Prop) : Q a s -> runs (mret a) s Q.
Proof. intros H. by exists a, s. Qed.

Lemma runs_bind m (k : A -> M S B) s (Q : B -> S -> Prop) :
  runs m s (fun a s' => runs (k a) s' Q) -> runs (mbind k m) s Q.
Proof.
  intros (a & s' & E & b & s'' & E' & HQ). exists b, s''. split; [|done].
  unfold mbind, M_bind. by rewrite E.
Qed.

Lemma runs_bind_inv m (k : A -> M S B) s (Q : B -> S -> Prop) :
  runs (mbind k m) s Q -> runs m s (fun a s' => runs (k a) s' Q).
Proof.
  intros (b & s2 & E & HQ). unfold mbind, M_bind in E. destruct (m s) as [[a s1]|] eqn:Em; [|done].
  exists a, s1. split; [done|]. by exists b, s2.
Qed.

Lemma runs_mono m s (P Q : A -> S -> Prop) :
  runs m s P -> (forall a s', P a s' -> Q a s') -> runs m s Q.
Proof. intros (a & s' & E & HP) H. exists a, s'. auto. Qed.

Lemma runs_eq m s a s' (Q : A -> S -> Prop) :
  m s = Done (a, s') -> Q a s' -> runs m s Q.
Proof. intros. by exists a, s'. Qed.

Lemma runs_exact m s a s' :
  runs m s (fun a' s'' => a' = a /\ s'' = s') -> m s = Done (a, s').
Proof. intros (a0 & s0 & E & -> & ->). done. Qed.

Lemma bind_done m (k : A -> M S B) s a s' :
  m s = Done (a, s') -> (mbind k m) s = k a s'.
Proof. intros E. unfold mbind, M_bind. by rewrite E. Qed.

(** A sequence faults when its first part runs into a continuation that faults. *)
Lemma runs_bind_fail m (k : A -> M S B) s e :
  runs m s (fun a s' => k a s' = Fail e) -> (mbind k m) s = Fail e.
Proof. intros (a & s' & E & Hk). by rewrite (bind_done _ _ _ _ _ E). Qed.

Lemma bind_fail m (k : A -> M S B) s e :
  m s = Fail e -> (mbind k m) s = Fail e.
Proof. intros E. unfold mbind, M_bind. by rewrite E. Qed.
End Runs.

Lemma runs_modify {S} (f : S -> S) s (Q : unit -> S -> Prop) :
  Q tt (f s) -> runs (modify f) s Q.
Proof. intros. by exists tt, (f s). Qed.

Lemma runs_gets {S A} (f : S -> A) s (Q : A -> S -> Prop) :
  Q (f s) s -> runs (gets f) s Q.
Proof. intros. by exists (f s), s. Qed.

(** [ASSERT(expr)] of kutils/assertions.hpp. *)
Definition ASSERT {S} (b : bool) : M S unit := if b then mret tt else fail AssertFailed.

Lemma runs_assert {S} (b : bool) (s : S) (Q : unit -> S -> Prop) :
  b = true -> Q tt s -> runs (ASSERT b) s Q.
Proof. intros -> H. by exists tt, s. Qed.

(** ** Counted loops

    [for_loop n i body] runs [body i; body (i+1); ...; body (i+n-1)], the
    loop [for (size j = i; j < i + n; j++) body(j)]. *)
Fixpoint for_loop {S} (n : nat) (i : Z) (body : Z -> M S unit) : M S unit :=
  match n with
  | O => mret tt
  | Datatypes.S n' => body i;; for_loop n' (i + 1) body
  end.

(** The invariant rule for counted loops. *)
Lemma runs_for_loop {S} (n : nat) (lo : Z) (body : Z -> M S unit) (s : S)
    (I : Z -> S -> Prop) (Q : unit -> S -> Prop) :
  I lo s ->
  (forall i t, lo <= i < lo + Z.of_nat n -> I i t -> runs (body i) t (fun _ t' => I (i + 1) t')) ->
  (forall t, I (lo + Z.of_nat n) t -> Q tt t) ->
  runs (for_loop n lo body) s Q.
Proof.
  revert lo s. induction n as [|n IH]; intros lo s HI Hb HQ; simpl.
  - apply runs_ret, HQ. by rewrite Z.add_0_r.
  - apply runs_bind. eapply runs_mono; [apply Hb; [lia|done]|].
    intros u t Ht. apply IH; [done| |].
    + intros i t' Hi. apply Hb. lia.
    + intros t' Ht'. apply HQ. by replace (lo + Z.of_nat (Datatypes.S n)) with (lo + 1 + Z.of_nat n) by lia.
Qed.

(** Pure counted loop over a state. *)
Fixpoint iterate {S} (n : nat) (i : Z) (body : Z -> S -> S) (s : S) : S :=
  match n with
  | O => s
  | Datatypes.S n' => iterate n' (i + 1) body (body i s)
  end.

Lemma iterate_inv {S} (n : nat) (lo : Z) (body : Z -> S -> S) (s : S) (I : Z -> S -> Prop) :
  I lo s ->
  (forall i t, lo <= i < lo + Z.of_nat n -> I i t -> I (i + 1) (body i t)) ->
  I (lo + Z.of_nat n) (iterate n lo body s).
Proof.
  revert lo s. induction n as [|n IH]; intros lo s HI Hb; simpl.
  - by rewrite Z.add_0_r.
  - replace (lo + Z.of_nat (Datatypes.S n)) with (lo + 1 + Z.of_nat n) by lia.
    apply IH; [apply Hb; [lia|done]|]. intros i t Hi. apply Hb. lia.
Qed.

(** Equal outcomes have equal results and states. *)
Lemma done_inj {S A} (a b : A) (s t : S) : Done (a, s) = Done (b, t) -> a = b /\ s = t.
Proof. by intros [= -> ->]. Qed.

(** One step of the weakest-precondition rules above. *)
Ltac run := first [apply runs_bind | apply runs_modify | apply runs_gets | apply runs_ret].
