(* ===== verification/Memory.v ===== *)
(** * Memory: the byte-addressed memory and the routines that touch it

    Models the raw memory accesses of the kernel (cpu/mmio.h), and [memset] and
    [memcpy] of libc/stdlib.cpp.  Memory is total: every address holds a byte
    (a byte never written is whatever the initial map says, 0 by default). *)
From S2P Require Import Prelude.

Abbreviation mem := (Zmap Z).

(** The byte at address [a]. *)
Definition mget (m : mem) (a : Z) : Z := u8 (default 0 (m !! a)).

(** A byte store of [v] at [a]. *)
Definition mput (m : mem) (a v : Z) : mem := <[a := u8 v]> m.

(** Little-endian loads and stores of [n] bytes (x86-64). *)
Fixpoint load (n : nat) (m : mem) (a : Z) : Z :=
  match n with
  | O => 0
  | S n' => mget m a + 256 * load n' m (a + 1)
  end.

Fixpoint store (n : nat) (m : mem) (a v : Z) : mem :=
  match n with
  | O => m
  | S n' => store n' (mput m a v) (a + 1) (v / 256)
  end.

Definition read8 (m : mem) (p : Z) : Z := load 1 m p.
Definition read16 (m : mem) (p : Z) : Z := load 2 m p.
Definition read32 (m : mem) (p : Z) : Z := load 4 m p.
Definition read64 (m : mem) (p : Z) : Z := load 8 m p.
Definition write8 (m : mem) (p v : Z) : mem := store 1 m p v.
Definition write16 (m : mem) (p v : Z) : mem := store 2 m p v.
Definition write32 (m : mem) (p v : Z) : mem := store 4 m p v.
Definition write64 (m : mem) (p v : Z) : mem := store 8 m p v.

(** [while (n--) *p++ = v;] *)
Fixpoint memset_loop (n : nat) (m : mem) (p v : Z) : mem :=
  match n with
  | O => m
  | S n' => memset_loop n' (mput m p v) (p + 1) v
  end.
Definition memset (m : mem) (ptr v n : Z) : mem := memset_loop (Z.to_nat n) m ptr v.

(** [while (n--) *d++ = *s++;], byte by byte, lowest address first. *)
Fixpoint memcpy_loop (n : nat) (m : mem) (d s : Z) : mem :=
  match n with
  | O => m
  | S n' => memcpy_loop n' (mput m d (mget m s)) (d + 1) (s + 1)
  end.
Definition memcpy (m : mem) (dest src n : Z) : mem := memcpy_loop (Z.to_nat n) m dest src.

(** [mmio::readn]: the same loop, on a volatile source. *)
Definition readn (m : mem) (dst src bytes : Z) : mem := memcpy_loop (Z.to_nat bytes) m dst src.

(** Two memories that agree on every address of a region. *)
Definition agree (P : Z -> Prop) (m m' : mem) : Prop := forall a, P a -> mget m a = mget m' a.

Lemma mget_range m a : 0 <= mget m a < 256.
Proof. apply u8_range. Qed.

Lemma mget_mput m a b v : mget (mput m a v) b = if decide (a = b) then u8 v else mget m b.
Proof.
  unfold mget, mput. rewrite lookup_insert. case_decide; simpl; [apply u8_u8|done].
Qed.

Lemma load_range n m a : 0 <= load n m a < 256 ^ Z.of_nat n.
Proof.
  revert a. induction n as [|n IH]; intros a; simpl load.
  - rewrite Z.pow_0_r. lia.
  - specialize (IH (a + 1)). pose proof (mget_range m a).
    rewrite Nat2Z.inj_succ, Z.pow_succ_r by lia. lia.
Qed.

Lemma load_agree n m m' a :
  (forall b, a <= b < a + Z.of_nat n -> mget m b = mget m' b) -> load n m a = load n m' a.
Proof.
  revert a. induction n as [|n IH]; intros a H; simpl; [done|].
  rewrite (H a) by lia. rewrite (IH (a + 1)); [done|]. intros b Hb. apply H. lia.
Qed.

Lemma mget_store_out n m a v b : ~ (a <= b < a + Z.of_nat n) -> mget (store n m a v) b = mget m b.
Proof.
  revert m a v. induction n as [|n IH]; intros m a v H; simpl; [done|].
  rewrite IH by lia. rewrite mget_mput. case_decide; [lia|done].
Qed.

Lemma load_store_same n m a v : load n (store n m a v) a = v mod 256 ^ Z.of_nat n.
Proof.
  revert m a v. induction n as [|n IH]; intros m a v; simpl load; simpl store.
  - by rewrite Z.pow_0_r, Z.mod_1_r.
  - rewrite mget_store_out by lia. rewrite mget_mput, decide_True by done. rewrite IH.
    rewrite Nat2Z.inj_succ, Z.pow_succ_r by lia.
    rewrite Z.rem_mul_r by lia. done.
Qed.

Lemma load_store_out k n m a v b :
  b + Z.of_nat k <= a \/ a + Z.of_nat n <= b -> load k (store n m a v) b = load k m b.
Proof. intros H. apply load_agree. intros c Hc. apply mget_store_out. lia. Qed.

Lemma mget_memset_loop n m p v a :
  mget (memset_loop n m p v) a = if decide (p <= a < p + Z.of_nat n) then u8 v else mget m a.
Proof.
  revert m p. induction n as [|n IH]; intros m p; simpl.
  - case_decide; [lia|done].
  - rewrite IH, mget_mput. repeat case_decide; try done; lia.
Qed.

Lemma mget_memset m p v n a :
  0 <= n -> mget (memset m p v n) a = if decide (p <= a < p + n) then u8 v else mget m a.
Proof. intros. unfold memset. rewrite mget_memset_loop. by rewrite Z2Nat.id. Qed.

Lemma load_memset_zero k m p n a :
  0 <= n -> p <= a -> a + Z.of_nat k <= p + n -> load k (memset m p 0 n) a = 0.
Proof.
  revert a. induction k as [|k IH]; intros a Hn Hp Ha; simpl; [done|].
  rewrite IH by lia. rewrite mget_memset by done. rewrite decide_True by lia. done.
Qed.

Lemma mget_memcpy_loop_out n m d s a :
  ~ (d <= a < d + Z.of_nat n) -> mget (memcpy_loop n m d s) a = mget m a.
Proof.
  revert m d s. induction n as [|n IH]; intros m d s H; simpl; [done|].
  rewrite IH by lia. rewrite mget_mput. case_decide; [lia|done].
Qed.

(** A forward copy to a lower (or a disjoint) address moves every byte. *)
Lemma mget_memcpy_loop n m d s i :
  d <= s \/ s + Z.of_nat n <= d -> 0 <= i < Z.of_nat n ->
  mget (memcpy_loop n m d s) (d + i) = mget m (s + i).
Proof.
  revert m d s i. induction n as [|n IH]; intros m d s i Hd Hi; simpl; [lia|].
  destruct (decide (i = 0)) as [->|Hi0].
  - rewrite mget_memcpy_loop_out by lia. rewrite mget_mput, decide_True by lia.
    rewrite Z.add_0_r. apply u8_small, mget_range.
  - replace (d + i) with (d + 1 + (i - 1)) by lia. rewrite IH by lia.
    rewrite mget_mput. case_decide; [lia|]. f_equal. lia.
Qed.

Lemma mget_memcpy m d s n i :
  0 <= n -> d <= s \/ s + n <= d -> 0 <= i < n ->
  mget (memcpy m d s n) (d + i) = mget m (s + i).
Proof. intros. apply mget_memcpy_loop; rewrite Z2Nat.id; lia. Qed.

Lemma mget_memcpy_out m d s n a : 0 <= n -> ~ (d <= a < d + n) -> mget (memcpy m d s n) a = mget m a.
Proof. intros. apply mget_memcpy_loop_out. by rewrite Z2Nat.id. Qed.

(** The 64-bit instances used throughout. *)
Lemma read64_range m p : 0 <= read64 m p < 2 ^ 64.
Proof. pose proof (load_range 8 m p). unfold read64. lia. Qed.
Lemma read64_write64 m p v : 0 <= v < 2 ^ 64 -> read64 (write64 m p v) p = v.
Proof. intros. unfold read64, write64. rewrite load_store_same. apply Z.mod_small. lia. Qed.
Lemma read64_write64_out m p q v : q + 8 <= p \/ p + 8 <= q -> read64 (write64 m p v) q = read64 m q.
Proof. intros. unfold read64, write64. apply load_store_out. lia. Qed.
Lemma mget_write64_out m p v a : ~ (p <= a < p + 8) -> mget (write64 m p v) a = mget m a.
Proof. intros. unfold write64. apply mget_store_out. lia. Qed.
Lemma read64_agree m m' p :
  (forall b, p <= b < p + 8 -> mget m b = mget m' b) -> read64 m p = read64 m' p.
Proof. intros H. apply load_agree. intros b Hb. apply H. lia. Qed.
Lemma read8_mget m p : read8 m p = mget m p.
Proof. unfold read8. simpl. lia. Qed.
Lemma read8_write8 m p v : 0 <= v < 256 -> read8 (write8 m p v) p = v.
Proof. intros. unfold read8, write8. rewrite load_store_same. apply Z.mod_small. lia. Qed.
Lemma mget_write8_out m p v a : a <> p -> mget (write8 m p v) a = mget m a.
Proof. intros. unfold write8. apply mget_store_out. lia. Qed.
