(* ===== verification/Bitmap.v ===== *)
(** * Bitmap: kutils/bits.hpp and kutils/bitmap.cpp

    A [Bitmap] object keeps a pointer to its buffer and the buffer's size; the
    bits live in memory.  [bm_self] is the address of the object itself, which
    the public member [buf] exposes (its initialiser is [&__buf], and [__buf] is
    the first member). *)
From S2P Require Import Prelude Memory.

(** kutils/bits.hpp.  The positions the kernel uses are below 31, where the
    [int] shift does not overflow. *)
Definition set_bit (var pos : Z) : Z := Z.lor var (Z.shiftl 1 pos).
Definition clear_bit (var pos : Z) : Z := Z.land var (Z.lnot (Z.shiftl 1 pos)).
Definition test_bit (var pos : Z) : Z := Z.land var (Z.shiftl 1 pos).

Record Bitmap : Type := mkBitmap {
  bm_self : Z;   (** address of the object *)
  bm_buf : Z;    (** [__buf] *)
  bm_size : Z    (** [__size], in bytes *)
}.

Module Bm.

(** [Bitmap::Bitmap]: clears the buffer. *)
Definition make (m : mem) (self buf size_in_bits : Z) : mem * Bitmap :=
  let size := u64 (size_in_bits + 7) / 8 in
  (memset m buf 0 size, mkBitmap self buf size).

(** The public member [buf]. *)
Definition buf (b : Bitmap) : Z := bm_self b.

Definition get (m : mem) (b : Bitmap) (idx : Z) : bool :=
  let rest := idx mod 8 in
  let base := (idx - rest) / 8 in
  let result := mget m (bm_buf b + base) in
  negb (Z.land result (Z.shiftl 1 rest) =? 0).

Definition set (m : mem) (b : Bitmap) (idx : Z) : mem :=
  let rest := idx mod 8 in
  let base := (idx - rest) / 8 in
  let addr := bm_buf b + base in
  mput m addr (set_bit (mget m addr) rest).

Definition unset (m : mem) (b : Bitmap) (idx : Z) : mem :=
  let rest := idx mod 8 in
  let base := (idx - rest) / 8 in
  let addr := bm_buf b + base in
  mput m addr (clear_bit (mget m addr) rest).

Definition get_mem_size (b : Bitmap) : Z := bm_size b.

End Bm.

(** ** Bit-fields

    Reading and writing the [n]-bit field of a word that starts at bit [lo],
    as the bit-fields of the packed structs of the kernel do. *)
Definition get_field (w lo n : Z) : Z := Z.land (Z.shiftr w lo) (Z.ones n).
Definition set_field (w lo n v : Z) : Z :=
  Z.lor (Z.land w (Z.lnot (Z.shiftl (Z.ones n) lo))) (Z.shiftl (Z.land v (Z.ones n)) lo).

Lemma get_field_bits w lo n i : 0 <= lo -> 0 <= n -> 0 <= i ->
  Z.testbit (get_field w lo n) i = (i <? n) && Z.testbit w (i + lo).
Proof.
  intros. unfold get_field. rewrite Z.land_spec, Z.shiftr_spec, Z.testbit_ones_nonneg by lia.
  apply andb_comm.
Qed.

Lemma set_field_bits w lo n v i : 0 <= lo -> 0 <= n -> 0 <= i ->
  Z.testbit (set_field w lo n v) i =
    if (lo <=? i) && (i <? lo + n) then Z.testbit v (i - lo) else Z.testbit w i.
Proof.
  intros. unfold set_field. rewrite Z.lor_spec, Z.land_spec, Z.lnot_spec, !Z.shiftl_spec by lia.
  destruct (Z.leb_spec lo i); simpl.
  - rewrite Z.land_spec, !Z.testbit_ones_nonneg by lia.
    destruct (Z.ltb_spec (i - lo) n), (Z.ltb_spec i (lo + n)); try lia; simpl.
    + by rewrite andb_false_r, andb_true_r.
    + by rewrite andb_true_r, andb_false_r, orb_false_r.
  - rewrite !(Z.testbit_neg_r _ (i - lo)) by lia. simpl. by rewrite andb_true_r, orb_false_r.
Qed.

Lemma set_field_bound b w lo n v :
  0 <= w < 2 ^ b -> 0 <= lo -> 0 <= n -> lo + n <= b -> 0 <= set_field w lo n v < 2 ^ b.
Proof.
  intros Hw Hlo Hn Hl.
  assert (E : set_field w lo n v = set_field w lo n v mod 2 ^ b).
  { apply Z.bits_inj'. intros i Hi. destruct (decide (i < b)).
    - by rewrite Z.mod_pow2_bits_low by lia.
    - rewrite Z.mod_pow2_bits_high by lia. rewrite set_field_bits by lia.
      destruct (Z.ltb_spec i (lo + n)); [lia|]. rewrite andb_false_r.
      rewrite <- (Z.mod_small w (2 ^ b)) by lia. apply Z.mod_pow2_bits_high. lia. }
  rewrite E. apply Z.mod_pos_bound. lia.
Qed.

Lemma set_field_range w lo n v :
  0 <= w < 2 ^ 64 -> 0 <= lo -> 0 <= n -> lo + n <= 64 -> 0 <= set_field w lo n v < 2 ^ 64.
Proof. apply (set_field_bound 64). Qed.

Lemma get_field_ext w w' lo n : 0 <= lo -> 0 <= n ->
  (forall k, lo <= k < lo + n -> Z.testbit w k = Z.testbit w' k) -> get_field w lo n = get_field w' lo n.
Proof.
  intros ?? H. apply Z.bits_inj'. intros i Hi. rewrite !get_field_bits by lia.
  destruct (Z.ltb_spec i n); [|done]. simpl. apply H. lia.
Qed.

Lemma get_set_field w lo n v : 0 <= lo -> 0 <= n -> get_field (set_field w lo n v) lo n = Z.land v (Z.ones n).
Proof.
  intros. apply Z.bits_inj'. intros i Hi.
  rewrite get_field_bits, set_field_bits, Z.land_spec, Z.testbit_ones_nonneg by lia.
  destruct (Z.ltb_spec i n); [|by rewrite andb_false_r]. rewrite andb_true_r. simpl.
  destruct (Z.leb_spec lo (i + lo)), (Z.ltb_spec (i + lo) (lo + n)); try lia. simpl. f_equal. lia.
Qed.

Lemma get_set_field_other w lo n v lo' n' : 0 <= lo -> 0 <= n -> 0 <= lo' -> 0 <= n' ->
  lo' + n' <= lo \/ lo + n <= lo' -> get_field (set_field w lo n v) lo' n' = get_field w lo' n'.
Proof.
  intros. apply get_field_ext; [lia..|]. intros k Hk. rewrite set_field_bits by lia.
  destruct (Z.leb_spec lo k), (Z.ltb_spec k (lo + n)); try done. lia.
Qed.

(** ** Bit-level facts *)

Lemma land_pow2_testbit v p : 0 <= p -> negb (Z.land v (Z.shiftl 1 p) =? 0) = Z.testbit v p.
Proof.
  intros Hp. rewrite Z.shiftl_1_l. destruct (Z.testbit v p) eqn:E.
  - apply negb_true_iff, Z.eqb_neq. intros H0.
    assert (Z.testbit (Z.land v (2 ^ p)) p = false) by (rewrite H0; apply Z.bits_0).
    rewrite Z.land_spec, E, Z.pow2_bits_true in H by done. done.
  - apply negb_false_iff, Z.eqb_eq, Z.bits_inj'. intros n Hn.
    rewrite Z.land_spec, Z.bits_0. destruct (decide (n = p)) as [->|Hne].
    + by rewrite E.
    + rewrite Z.pow2_bits_false by done. apply andb_false_r.
Qed.

Lemma set_bit_spec v p q : 0 <= p -> 0 <= q ->
  Z.testbit (set_bit v p) q = (p =? q) || Z.testbit v q.
Proof.
  intros. unfold set_bit. rewrite Z.lor_spec, Z.shiftl_1_l, Z.pow2_bits_eqb by done. apply orb_comm.
Qed.

Lemma clear_bit_spec v p q : 0 <= p -> 0 <= q ->
  Z.testbit (clear_bit v p) q = negb (p =? q) && Z.testbit v q.
Proof.
  intros. unfold clear_bit.
  rewrite Z.land_spec, Z.lnot_spec, Z.shiftl_1_l, Z.pow2_bits_eqb by done. apply andb_comm.
Qed.

Lemma u8_testbit v p : 0 <= p < 8 -> Z.testbit (u8 v) p = Z.testbit v p.
Proof. intros. unfold u8. apply Z.mod_pow2_bits_low. lia. Qed.

(** ** The bitmap as an array of booleans *)
Section Bits.
Context (b : Bitmap).

(** The byte that holds bit [i]. *)
Definition bit_addr (i : Z) : Z := bm_buf b + i / 8.

Lemma bit_base i : (i - i mod 8) / 8 = i / 8.
Proof. zdm. Qed.

Lemma get_testbit m i : Bm.get m b i = Z.testbit (mget m (bit_addr i)) (i mod 8).
Proof. unfold Bm.get. rewrite bit_base. apply land_pow2_testbit. zdm. Qed.

Lemma get_set m i j : Bm.get (Bm.set m b i) b j = (i =? j) || Bm.get m b j.
Proof.
  rewrite !get_testbit. unfold Bm.set. rewrite bit_base. fold (bit_addr i).
  rewrite mget_mput. case_decide as Ha.
  - rewrite u8_testbit, set_bit_spec by zdm. rewrite Ha.
    assert (i / 8 = j / 8) by (unfold bit_addr in Ha; lia).
    f_equal. destruct (Z.eqb_spec (i mod 8) (j mod 8)), (Z.eqb_spec i j); try done; zdm.
  - destruct (Z.eqb_spec i j) as [->|]; done.
Qed.

Lemma get_unset m i j : Bm.get (Bm.unset m b i) b j = negb (i =? j) && Bm.get m b j.
Proof.
  rewrite !get_testbit. unfold Bm.unset. rewrite bit_base. fold (bit_addr i).
  rewrite mget_mput. case_decide as Ha.
  - rewrite u8_testbit, clear_bit_spec by zdm. rewrite Ha.
    assert (i / 8 = j / 8) by (unfold bit_addr in Ha; lia).
    f_equal. destruct (Z.eqb_spec (i mod 8) (j mod 8)), (Z.eqb_spec i j); try done; zdm.
  - destruct (Z.eqb_spec i j) as [->|]; done.
Qed.

(** Addresses of the buffer. *)
Definition in_buf (a : Z) : Prop := bm_buf b <= a < bm_buf b + bm_size b.

Lemma bit_addr_in_buf i : 0 <= i < 8 * bm_size b -> in_buf (bit_addr i).
Proof. unfold in_buf, bit_addr. zdm. Qed.

Lemma mget_set_out m i a : 0 <= i < 8 * bm_size b -> ~ in_buf a -> mget (Bm.set m b i) a = mget m a.
Proof.
  intros Hi Ha. unfold Bm.set. rewrite bit_base, mget_mput. case_decide as E; [|done].
  pose proof (bit_addr_in_buf i Hi). unfold bit_addr in *. rewrite <- E in Ha. done.
Qed.

Lemma mget_unset_out m i a : 0 <= i < 8 * bm_size b -> ~ in_buf a -> mget (Bm.unset m b i) a = mget m a.
Proof.
  intros Hi Ha. unfold Bm.unset. rewrite bit_base, mget_mput. case_decide as E; [|done].
  pose proof (bit_addr_in_buf i Hi). unfold bit_addr in *. rewrite <- E in Ha. done.
Qed.

(** Bits depend on the buffer only. *)
Lemma get_agree m m' i : 0 <= i < 8 * bm_size b -> agree in_buf m m' -> Bm.get m b i = Bm.get m' b i.
Proof. intros Hi H. rewrite !get_testbit. f_equal. apply H, bit_addr_in_buf, Hi. Qed.
End Bits.


(** [Bitmap::Bitmap] gives a buffer that is large enough, with every bit clear. *)
Lemma make_spec m self p n :
  0 <= n < 2 ^ 64 - 7 ->
  let '(m', b) := Bm.make m self p n in
  bm_buf b = p /\ bm_self b = self /\ n <= 8 * bm_size b < n + 8 /\
  (forall i, 0 <= i < 8 * bm_size b -> Bm.get m' b i = false) /\
  (forall a, ~ in_buf b a -> mget m' a = mget m a).
Proof.
  intros Hn. unfold Bm.make. wordify. simpl. split_and!; try done; try zdm.
  - intros i Hi. rewrite get_testbit. unfold bit_addr. simpl.
    rewrite mget_memset by zdm. rewrite decide_True by zdm. apply Z.bits_0.
  - intros a Ha. unfold in_buf in Ha. simpl in Ha. rewrite mget_memset by zdm.
    by rewrite decide_False.
Qed.

(** ** Refinement: an array of booleans *)
Inductive bm_op : Type :=
| BSet (i : Z)
| BUnset (i : Z).

(** A sequence of operations on the memory, and on the array. *)
Definition bm_step (b : Bitmap) (m : mem) (o : bm_op) : mem :=
  match o with BSet i => Bm.set m b i | BUnset i => Bm.unset m b i end.
Definition array_step (f : Z -> bool) (o : bm_op) : Z -> bool :=
  match o with
  | BSet i => fun k => (i =? k) || f k
  | BUnset i => fun k => negb (i =? k) && f k
  end.
Definition bm_index (o : bm_op) : Z := match o with BSet i | BUnset i => i end.

Lemma bm_steps b os m f :
  Forall (fun o => 0 <= bm_index o < 8 * bm_size b) os -> (forall k, 0 <= k < 8 * bm_size b -> Bm.get m b k = f k) ->
  (forall k, 0 <= k < 8 * bm_size b -> Bm.get (foldl (bm_step b) m os) b k = foldl array_step f os k) /\
  (forall a, ~ in_buf b a -> mget (foldl (bm_step b) m os) a = mget m a).
Proof.
  intros Hos. revert m f. induction Hos as [|o os Ho _ IH]; intros m f Hf; simpl; [by split|].
  destruct (IH (bm_step b m o) (array_step f o)) as [H1 H2].
  - intros k Hk. destruct o; simpl; [rewrite get_set|rewrite get_unset]; by rewrite Hf.
  - split; [done|]. intros a Ha. rewrite H2 by done. destruct o; [by apply mget_set_out|by apply mget_unset_out].
Qed.

(** C31: the bitmap is an array of booleans.  A bitmap constructed for [n] bits
    has a buffer for them; after any sequence of [set] and [unset] at valid
    indices, [get] answers what an array of booleans, all false at first, would;
    no byte outside the buffer changes. *)
Theorem bitmap_refines_bool_array (m : mem) (self p n : Z) (os : list bm_op) :
  0 <= n < 2 ^ 64 - 7 -> Forall (fun o => 0 <= bm_index o < n) os ->
  let '(m1, b) := Bm.make m self p n in
  let m' := foldl (bm_step b) m1 os in
  n <= 8 * Bm.get_mem_size b < n + 8 /\
  (forall k, 0 <= k < n -> Bm.get m' b k = foldl array_step (fun _ => false) os k) /\
  (forall a, ~ (p <= a < p + Bm.get_mem_size b) -> mget m' a = mget m a).
Proof.
  intros Hn Hos. pose proof (make_spec m self p n Hn) as Hm. destruct (Bm.make m self p n) as [m1 b].
  destruct Hm as (Hb & _ & Hsz & Hz & Hout). destruct (bm_steps b os m1 (fun _ => false)) as [H1 H2]; [|done|].
  - eapply Forall_impl; [exact Hos|]. intros o Ho. cbv beta in Ho. lia.
  - unfold Bm.get_mem_size. split_and!; [lia|lia|intros k Hk; apply H1; lia|].
    intros a Ha. rewrite H2, Hout; [done|..]; unfold in_buf; by rewrite Hb.
Qed.

Lemma bitmap_refines_bool_array_witness :
  let '(m1, b) := Bm.make ∅ 0 100 12 in
  let m' := foldl (bm_step b) m1 [BSet 9; BSet 3; BUnset 9] in
  Bm.get m' b 3 = true /\ Bm.get m' b 9 = false.
Proof.
  pose proof (bitmap_refines_bool_array ∅ 0 100 12 [BSet 9; BSet 3; BUnset 9] ltac:(lia)) as H.
  destruct (Bm.make ∅ 0 100 12) as [m1 b]. destruct H as (_ & H & _).
  { repeat (apply Forall_cons; split; [simpl; lia|]). apply Forall_nil_2. }
  cbv zeta. by rewrite !H by lia.
Defined.
