(* ===== verification/Layout.v ===== *)
(** * Layout: the layout of C structs

    The structs of the repository describe registers, tables of the firmware and
    the data that the bootloader passes to the kernel, so what the code does
    depends on where their members are.  This file computes that from a
    declaration, by the rules of the System V ABI for x86-64 and of the attribute
    [packed] of GCC, and shows that the members of a well-formed declaration do not
    overlap.  The declarations are in Structs. *)
From stdpp Require Import strings.
From S2P Require Import Prelude Memory Bitmap.

(** A type, as far as the layout depends on it: size and alignment in bytes. *)
Record cty : Type := mkTy { ty_size : Z; ty_align : Z }.

(** The types of libc/stdint.hpp, of efi.h, and pointers. *)
Definition t_u8 : cty := mkTy 1 1.
Definition t_u16 : cty := mkTy 2 2.
Definition t_u32 : cty := mkTy 4 4.
Definition t_u64 : cty := mkTy 8 8.
Definition t_ptr : cty := mkTy 8 8.
Definition t_array (t : cty) (n : Z) : cty := mkTy (ty_size t * n) (ty_align t).

(** A member, with its width when it is a bit-field. *)
Record member : Type := mkMember { m_name : string; m_ty : cty; m_width : option Z }.
Definition fld (n : string) (t : cty) : member := mkMember n t None.
Definition bits (n : string) (t : cty) (w : Z) : member := mkMember n t (Some w).

(** A struct: the attributes [packed] and [aligned], the members in order. *)
Record cstruct : Type := mkStruct { s_packed : bool; s_aligned : Z; s_members : list member }.
Definition plain (l : list member) : cstruct := mkStruct false 1 l.
Definition packed (l : list member) : cstruct := mkStruct true 1 l.

(** ** The layout, in bits *)
Definition align_up (n a : Z) : Z := (n + a - 1) / a * a.
Definition width (f : member) : Z := default (8 * ty_size (m_ty f)) (m_width f).

(** Where a member starts when [pos] bits are taken.  A bit-field of an
    unpacked struct does not cross a boundary of its type. *)
Definition start (packed : bool) (pos : Z) (f : member) : Z :=
  match m_width f with
  | None => align_up pos (8 * if packed then 1 else ty_align (m_ty f))
  | Some w =>
      if packed then pos
      else let u := 8 * ty_size (m_ty f) in
        if pos / u =? (pos + w - 1) / u then pos else align_up pos u
  end.

(** The slots of the members: name, first bit and width. *)
Fixpoint place (packed : bool) (pos : Z) (l : list member) : list (string * (Z * Z)) :=
  match l with
  | [] => []
  | f :: l' => let a := start packed pos f in (m_name f, (a, width f)) :: place packed (a + width f) l'
  end.
Definition slots (s : cstruct) : list (string * (Z * Z)) := place (s_packed s) 0 (s_members s).

Fixpoint place_end (packed : bool) (pos : Z) (l : list member) : Z :=
  match l with
  | [] => pos
  | f :: l' => place_end packed (start packed pos f + width f) l'
  end.

Definition alignof (s : cstruct) : Z :=
  Z.max (s_aligned s) (if s_packed s then 1 else foldr (fun f a => Z.max (ty_align (m_ty f)) a) 1 (s_members s)).
Definition sizeof (s : cstruct) : Z := align_up (place_end (s_packed s) 0 (s_members s)) (8 * alignof s) / 8.

(** A struct as the type of a member. *)
Definition t_struct (s : cstruct) : cty := mkTy (sizeof s) (alignof s).

Fixpoint find_slot (name : string) (l : list (string * (Z * Z))) : option (Z * Z) :=
  match l with
  | [] => None
  | (n, sl) :: l' => if String.eqb n name then Some sl else find_slot name l'
  end.
Definition slot (s : cstruct) (name : string) : option (Z * Z) := find_slot name (slots s).
Definition offsetof (s : cstruct) (name : string) : Z := default 0 (fst <$> slot s name) / 8.

(** ** Values

    The value of a struct is the integer that its bytes stand for; a member is a
    field of it. *)
Definition struct_at (s : cstruct) (m : mem) (p : Z) : Z := load (Z.to_nat (sizeof s)) m p.
Definition get_member (s : cstruct) (name : string) (w : Z) : Z :=
  match slot s name with Some (o, n) => get_field w o n | None => 0 end.
Definition set_member (s : cstruct) (name : string) (w v : Z) : Z :=
  match slot s name with Some (o, n) => set_field w o n v | None => w end.

(** ** Well-formed declarations *)
Definition wf_member (f : member) : bool :=
  (0 <=? ty_size (m_ty f)) && (1 <=? ty_align (m_ty f)) &&
  match m_width f with None => true | Some w => (1 <=? w) && (w <=? 8 * ty_size (m_ty f)) end.
Definition wf_struct (s : cstruct) : bool := forallb wf_member (s_members s).

Lemma align_up_ge n a : 0 <= n -> 1 <= a -> n <= align_up n a.
Proof. intros. unfold align_up. zdm. Qed.

Lemma wf_member_spec f : wf_member f = true ->
  0 <= ty_size (m_ty f) /\ 1 <= ty_align (m_ty f) /\ 0 <= width f /\ (m_width f = None \/ 1 <= width f).
Proof.
  unfold wf_member, width. destruct (m_width f); rewrite !andb_true_iff, ?Z.leb_le; cbn [default from_option id].
  - lia.
  - intros. split_and!; [lia..|]. by left.
Qed.

Lemma start_ge packed pos f : wf_member f = true -> 0 <= pos -> pos <= start packed pos f.
Proof.
  intros Hf Hp. unfold start. pose proof (wf_member_spec f Hf) as (Hs & Ha & Hw & _). unfold width in Hw.
  unfold wf_member in Hf. destruct (m_width f) as [w|].
  - destruct packed; [lia|]. case_match; [lia|]. apply align_up_ge; [done|].
    assert (ty_size (m_ty f) <> 0) by lia. lia.
  - apply align_up_ge; [done|]. destruct packed; lia.
Qed.

(** Every slot lies between the position it was placed from and the end, and the
    slots of different members do not overlap. *)
Lemma place_within packed l : forall pos n o w,
  forallb wf_member l = true -> 0 <= pos -> find_slot n (place packed pos l) = Some (o, w) ->
  pos <= o /\ 0 <= w /\ o + w <= place_end packed pos l.
Proof.
  assert (Hend : forall l pos, forallb wf_member l = true -> 0 <= pos -> pos <= place_end packed pos l).
  { clear l. induction l as [|f l IH]; intros pos Hl Hp; cbn in *; [lia|].
    apply andb_prop in Hl as [Hf Hl]. pose proof (start_ge packed pos f Hf Hp).
    pose proof (wf_member_spec f Hf) as (_ & _ & Hw & _).
    specialize (IH (start packed pos f + width f) Hl ltac:(lia)). lia. }
  induction l as [|f l IH]; intros pos n o w Hl Hp Hn; cbn in *; [done|].
  apply andb_prop in Hl as [Hf Hl]. pose proof (start_ge packed pos f Hf Hp).
  pose proof (wf_member_spec f Hf) as (_ & _ & Hw & _).
  destruct (String.eqb _ _).
  - inv Hn. specialize (Hend l (start packed pos f + width f) Hl ltac:(lia)). lia.
  - apply IH in Hn; [lia|done|lia].
Qed.

Lemma place_disjoint packed l : forall pos n n' o w o' w',
  forallb wf_member l = true -> 0 <= pos -> n <> n' ->
  find_slot n (place packed pos l) = Some (o, w) -> find_slot n' (place packed pos l) = Some (o', w') ->
  o + w <= o' \/ o' + w' <= o.
Proof.
  induction l as [|f l IH]; intros pos n n' o w o' w' Hl Hp Hne Hn Hn'; cbn in *; [done|].
  apply andb_prop in Hl as [Hf Hl]. pose proof (start_ge packed pos f Hf Hp).
  pose proof (wf_member_spec f Hf) as (_ & _ & Hw & _).
  destruct (String.eqb_spec (m_name f) n), (String.eqb_spec (m_name f) n'); simplify_eq.
  - apply place_within in Hn'; [lia|done|lia].
  - apply place_within in Hn; [lia|done|lia].
  - eapply IH; [exact Hl| |exact Hne|exact Hn|exact Hn']. lia.
Qed.

Lemma slot_within s n o w : wf_struct s = true -> slot s n = Some (o, w) ->
  0 <= o /\ 0 <= w /\ o + w <= 8 * sizeof s.
Proof.
  intros Hs Hn. apply place_within in Hn as (Ho & Hw & He); [|done|lia]. split; [done|]. split; [done|].
  etrans; [exact He|]. unfold sizeof, align_up.
  assert (1 <= alignof s).
  { unfold alignof. destruct (s_packed s); [lia|]. clear. induction (s_members s); cbn in *; lia. }
  set (e := place_end _ _ _) in *. replace ((e + 8 * alignof s - 1) / (8 * alignof s) * (8 * alignof s) / 8)
    with ((e + 8 * alignof s - 1) / (8 * alignof s) * alignof s).
  - pose proof (align_up_ge e (8 * alignof s)). unfold align_up in *. lia.
  - apply Z.div_unique_exact; lia.
Qed.

(** The low bytes of a load are a shorter load. *)
Lemma load_low k : forall n m p, (k <= n)%nat -> load n m p mod 256 ^ Z.of_nat k = load k m p.
Proof.
  induction k as [|k IH]; intros n m p Hn; [apply Z.mod_1_r|].
  destruct n as [|n]; [lia|]. cbn [load]. rewrite Nat2Z.inj_succ, Z.pow_succ_r by lia.
  rewrite Z.rem_mul_r by lia. rewrite <- (IH n) by lia. pose proof (mget_range m p).
  replace ((mget m p + 256 * load n m (p + 1)) mod 256) with (mget m p) by zdm.
  replace ((mget m p + 256 * load n m (p + 1)) / 256) with (load n m (p + 1)) by zdm. done.
Qed.

Lemma get_field_load_low k n m p o w : (k <= n)%nat -> 0 <= o -> 0 <= w -> o + w <= 8 * Z.of_nat k ->
  get_field (load n m p) o w = get_field (load k m p) o w.
Proof.
  intros Hk Ho Hw He. apply get_field_ext; [done..|]. intros i Hi. rewrite <- (load_low k n) by done.
  change 256 with (2 ^ 8). rewrite <- Z.pow_mul_r by lia. by rewrite Z.mod_pow2_bits_low by lia.
Qed.

(** A member of whole bytes is a load at its offset. *)
Lemma get_field_load k : forall n m p j, (j + k <= n)%nat ->
  get_field (load n m p) (8 * Z.of_nat j) (8 * Z.of_nat k) = load k m (p + Z.of_nat j).
Proof.
  assert (Hhigh : forall j n m p, (j <= n)%nat -> load n m p / 256 ^ Z.of_nat j = load (n - j) m (p + Z.of_nat j)).
  { clear. induction j as [|j IH]; intros n m p Hn.
    - rewrite Z.div_1_r, Z.add_0_r, Nat.sub_0_r. done.
    - destruct n as [|n]; [lia|]. cbn [load Nat.sub]. rewrite Nat2Z.inj_succ, Z.pow_succ_r, <- Z.div_div by lia.
      pose proof (mget_range m p). replace ((mget m p + 256 * load n m (p + 1)) / 256) with (load n m (p + 1)) by zdm.
      rewrite IH by lia. f_equal. lia. }
  intros n m p j Hj. unfold get_field. rewrite Z.shiftr_div_pow2, Z.land_ones by lia.
  rewrite !(Z.pow_mul_r 2 8) by lia. change (2 ^ 8) with 256. rewrite Hhigh by lia. apply load_low. lia.
Qed.

Lemma get_member_load s n k m p j :
  slot s n = Some (8 * Z.of_nat j, 8 * Z.of_nat k) -> (j + k <= Z.to_nat (sizeof s))%nat ->
  get_member s n (struct_at s m p) = load k m (p + Z.of_nat j).
Proof. intros E H. unfold get_member. rewrite E. by apply get_field_load. Qed.

(** ** Members are independent *)
Lemma get_set_member s n w v o k : wf_struct s = true -> slot s n = Some (o, k) ->
  get_member s n (set_member s n w v) = v mod 2 ^ k.
Proof.
  intros Hs Hn. pose proof (slot_within s n o k Hs Hn). unfold get_member, set_member. rewrite Hn.
  by rewrite get_set_field, Z.land_ones by lia.
Qed.

Lemma get_set_member_other s n n' w v : wf_struct s = true -> n <> n' ->
  get_member s n' (set_member s n w v) = get_member s n' w.
Proof.
  intros Hs Hne. unfold get_member, set_member.
  destruct (slot s n) as [[o k]|] eqn:E, (slot s n') as [[o' k']|] eqn:E'; try done.
  pose proof (slot_within s n o k Hs E). pose proof (slot_within s n' o' k' Hs E').
  apply get_set_field_other; try lia. pose proof (place_disjoint (s_packed s) (s_members s) 0 n n' o k o' k' Hs) as Hd.
  specialize (Hd ltac:(lia) Hne E E'). lia.
Qed.

Lemma set_member_range s n w v : wf_struct s = true -> 0 <= w < 2 ^ (8 * sizeof s) ->
  0 <= set_member s n w v < 2 ^ (8 * sizeof s).
Proof.
  intros Hs Hw. unfold set_member. destruct (slot s n) as [[o k]|] eqn:E; [|done].
  pose proof (slot_within s n o k Hs E). apply set_field_bound; lia.
Qed.
