(* ===== verification/Libc.v ===== *)
(** * Libc: the string and conversion routines of libc/stdlib.cpp

    Strings are bytes in memory ended by a NUL; pointers are addresses. *)
From S2P Require Import Prelude Memory.

Module Libc.

(** [while (str[count] != '\0') count++;] *)
Fixpoint str_len_loop (fuel : nat) (m : mem) (str count : Z) : outcome Z :=
  match fuel with
  | O => Fail OutOfFuel
  | S f => if mget m (str + count) =? 0 then Done count else str_len_loop f m str (count + 1)
  end.
Definition str_len (fuel : nat) (m : mem) (str : Z) : outcome Z := str_len_loop fuel m str 0.

(** The swap of iteration [i] of [str_reverse]. *)
Definition swap (str len i : Z) (m : mem) : mem :=
  let temp := mget m (str + i) in
  let m1 := mput m (str + i) (mget m (str + (len - i - 1))) in
  mput m1 (str + (len - i - 1)) temp.
Definition str_reverse (m : mem) (str len : Z) : mem :=
  iterate (Z.to_nat (Z.quot len 2)) 0 (swap str len) m.

(** The character of a digit: [(rem > 9) ? (rem - 10) + 'a' : rem + '0']. *)
Definition digit_char (rem : Z) : Z := if 9 <? rem then rem - 10 + 97 else rem + 48.

(** [while (num != 0) { ... }]: least significant digit first; returns the
    memory and the final [i]. *)
Fixpoint itoa_loop (fuel : nat) (m : mem) (num buf base i : Z) : outcome (mem * Z) :=
  if num =? 0 then Done (m, i) else
  match fuel with
  | O => Fail OutOfFuel
  | S f => itoa_loop f (mput m (buf + i) (digit_char (num mod base))) (num / base) buf base (i + 1)
  end.

(** [itoa]; a 64-bit number has at most 64 digits in a base of at least 2. *)
Definition itoa (m : mem) (num buf base : Z) : outcome mem :=
  if num =? 0 then Done (mput (mput m buf 48) (buf + 1) 0)
  else '(m1, i) ← itoa_loop 64 m num buf base 0;
       Done (str_reverse (mput m1 (buf + i) 0) buf i).

(** [strcmp]: the difference of the first bytes that differ, as a [uint8_t]. *)
Fixpoint strcmp (fuel : nat) (m : mem) (s1 s2 : Z) : outcome Z :=
  match fuel with
  | O => Fail OutOfFuel
  | S f =>
      if (mget m s1 =? 0) || negb (mget m s1 =? mget m s2)
      then Done (u8 (mget m s1 - mget m s2))
      else strcmp f m (s1 + 1) (s2 + 1)
  end.

(** [strncmp]: at most [n] characters. *)
Fixpoint strncmp (n : nat) (m : mem) (s1 s2 : Z) : Z :=
  match n with
  | O => 0
  | S n' =>
      if negb (mget m s1 =? 0) && (mget m s1 =? mget m s2)
      then strncmp n' m (s1 + 1) (s2 + 1)
      else u8 (mget m s1 - mget m s2)
  end.

End Libc.

(** ** Byte strings in memory *)

(** The [n] bytes at [p], and a copy of a byte string to [p]. *)
Fixpoint get_bytes (n : nat) (m : mem) (p : Z) : list Z :=
  match n with
  | O => []
  | S n' => mget m p :: get_bytes n' m (p + 1)
  end.
Fixpoint put_bytes (m : mem) (p : Z) (l : list Z) : mem :=
  match l with
  | [] => m
  | c :: l' => put_bytes (mput m p c) (p + 1) l'
  end.

(** A byte, and a byte that can occur inside a C string. *)
Definition is_byte (c : Z) : Prop := 0 <= c < 256.
Definition is_char (c : Z) : Prop := 0 < c < 256.

Lemma length_get_bytes n m p : length (get_bytes n m p) = n.
Proof. revert p. induction n; intros; simpl; auto. Qed.

Lemma get_bytes_agree n m m' p :
  (forall a, p <= a < p + Z.of_nat n -> mget m a = mget m' a) -> get_bytes n m p = get_bytes n m' p.
Proof.
  revert p. induction n as [|n IH]; intros p H; simpl; [done|].
  rewrite (H p) by lia. f_equal. apply IH. intros a Ha. apply H. lia.
Qed.

Lemma get_bytes_app n1 n2 m p :
  get_bytes (n1 + n2) m p = get_bytes n1 m p ++ get_bytes n2 m (p + Z.of_nat n1).
Proof.
  revert p. induction n1 as [|n1 IH]; intros p; simpl.
  - by rewrite Z.add_0_r.
  - rewrite IH. do 3 f_equal. lia.
Qed.

Lemma mget_put_bytes_out m p l a :
  ~ (p <= a < p + Z.of_nat (length l)) -> mget (put_bytes m p l) a = mget m a.
Proof.
  revert m p. induction l as [|c l IH]; intros m p H; simpl in *; [done|].
  rewrite IH by lia. rewrite mget_mput. case_decide; [lia|done].
Qed.

Lemma get_put_bytes m p l : Forall is_byte l -> get_bytes (length l) (put_bytes m p l) p = l.
Proof.
  revert m p. induction l as [|c l IH]; intros m p H; simpl; [done|]. inv H. f_equal.
  - rewrite mget_put_bytes_out by lia. rewrite mget_mput, decide_True by done. by apply u8_small.
  - by apply IH.
Qed.

Lemma lookup_get_bytes n m p (k : nat) :
  (k < n)%nat -> get_bytes n m p !! k = Some (mget m (p + Z.of_nat k)).
Proof.
  revert p k. induction n as [|n IH]; intros p k H; [lia|]. destruct k as [|k]; simpl.
  - by rewrite Z.add_0_r.
  - rewrite IH by lia. do 2 f_equal. lia.
Qed.

Lemma is_char_byte l : Forall is_char l -> Forall is_byte l.
Proof. intros H. eapply Forall_impl; [exact H|]. unfold is_char, is_byte. lia. Qed.

(** A C string with contents [s] at address [p]. *)
Definition cstr (m : mem) (p : Z) (s : list Z) : Prop :=
  Forall is_char s /\ get_bytes (length s) m p = s /\ mget m (p + Z.of_nat (length s)) = 0.

Lemma cstr_cons m p c s : cstr m p (c :: s) <-> is_char c /\ mget m p = c /\ cstr m (p + 1) s.
Proof.
  unfold cstr. simpl. rewrite Forall_cons.
  replace (p + Z.of_nat (S (length s))) with (p + 1 + Z.of_nat (length s)) by lia.
  split; [intros ((?&?)&E&?); injection E; auto|intros (?&->&?&->&?); auto].
Qed.

(** ** [str_len], [strncmp] and [strcmp] *)
Lemma str_len_loop_cstr fuel m p k s :
  cstr m (p + k) s -> (length s < fuel)%nat ->
  Libc.str_len_loop fuel m p k = Done (k + Z.of_nat (length s)).
Proof.
  revert fuel k. induction s as [|c s IH]; intros [|fuel] k H Hf; simpl in *; try lia.
  - destruct H as (_ & _ & H). rewrite Z.add_0_r in H. rewrite H. simpl. f_equal. lia.
  - apply cstr_cons in H as (Hc & Hm & H).
    destruct (Z.eqb_spec (mget m (p + k)) 0); [unfold is_char in *; lia|].
    rewrite IH; [f_equal; lia| |lia]. by rewrite Z.add_assoc.
Qed.

Lemma str_len_cstr fuel m p s :
  cstr m p s -> (length s < fuel)%nat -> Libc.str_len fuel m p = Done (Z.of_nat (length s)).
Proof. intros. apply (str_len_loop_cstr _ _ _ 0); [by rewrite Z.add_0_r|done]. Qed.

(** [strncmp] is 0 exactly when the strings agree on their first [n] characters. *)
Lemma strncmp_zero n m p q s t :
  cstr m p s -> cstr m q t ->
  Libc.strncmp n m p q = 0 <-> take n s = take n t.
Proof.
  revert p q s t. induction n as [|n IH]; intros p q s t Hs Ht; [done|].
  assert (Hz : forall r x, cstr m r x -> x = [] -> mget m r = 0).
  { intros r x (_ & _ & H) ->. simpl in H. by rewrite Z.add_0_r in H. }
  assert (Hu : forall a b, 0 <= a < 256 -> 0 <= b < 256 -> u8 (a - b) = 0 <-> a = b).
  { intros a b Ha Hb. unfold u8. split; intros; zdm. }
  simpl. destruct s as [|c s], t as [|d t]; simpl.
  - rewrite (Hz p []), (Hz q []) by done. done.
  - apply cstr_cons in Ht as (Hd & Hq & _). rewrite (Hz p []) by done. simpl.
    rewrite Hu by (rewrite ?Hq; unfold is_char in *; lia). unfold is_char in *. split; [lia|done].
  - apply cstr_cons in Hs as (Hc & Hp & _). rewrite (Hz q []) by done. unfold is_char in *.
    destruct (Z.eqb_spec (mget m p) 0); [lia|]. simpl. rewrite Hu by lia. split; [lia|done].
  - apply cstr_cons in Hs as (Hc & Hp & Hs), Ht as (Hd & Hq & Ht). unfold is_char in *.
    rewrite Hp, Hq. destruct (Z.eqb_spec c 0); [lia|]. simpl.
    destruct (Z.eqb_spec c d) as [->|Hne].
    + rewrite IH by done. split; congruence.
    + rewrite Hu by lia. split; [done|congruence].
Qed.

(** ** [str_reverse] *)
Lemma swap_mget str len i m a : 0 <= i < len - i - 1 -> 
  mget (Libc.swap str len i m) a =
    if decide (a = str + i) then mget m (str + (len - i - 1))
    else if decide (a = str + (len - i - 1)) then mget m (str + i) else mget m a.
Proof.
  intros Hi. unfold Libc.swap. rewrite !mget_mput.
  repeat case_decide; try lia; try done; apply u8_small, mget_range.
Qed.

Lemma str_reverse_mget m str len a : 0 <= len ->
  mget (Libc.str_reverse m str len) a =
    if decide (str <= a < str + len) then mget m (str + len - 1 - (a - str)) else mget m a.
Proof.
  intros Hlen. unfold Libc.str_reverse. revert a.
  set (I := fun (i : Z) (m' : mem) => forall a, mget m' a =
    if decide (str <= a < str + i \/ str + (len - i) <= a < str + len)
    then mget m (str + len - 1 - (a - str)) else mget m a).
  assert (Hq : Z.quot len 2 = len / 2) by (apply Z.quot_div_nonneg; lia). rewrite Hq.
  assert (H : I (0 + Z.of_nat (Z.to_nat (len / 2)))
                (iterate (Z.to_nat (len / 2)) 0 (Libc.swap str len) m)).
  { apply iterate_inv.
    - intros a. case_decide; [lia|done].
    - intros i t Hi HI a. rewrite Z2Nat.id in Hi by zdm. rewrite swap_mget by zdm.
      assert (i < len - i - 1) by zdm.
      repeat case_decide; subst; rewrite ?HI; repeat case_decide; try lia; try done; f_equal; lia. }
  intros a. rewrite H, Z2Nat.id by zdm.
  repeat case_decide; try done; try zdm.
  f_equal. zdm.
Qed.

Lemma get_bytes_reverse m str n :
  get_bytes n (Libc.str_reverse m str (Z.of_nat n)) str = reverse (get_bytes n m str).
Proof.
  apply list_eq_same_length with (n := n); rewrite ?length_reverse, ?length_get_bytes; try done.
  intros k x y Hk. rewrite lookup_get_bytes by done.
  rewrite reverse_lookup by (by rewrite length_get_bytes).
  rewrite length_get_bytes, lookup_get_bytes by lia. intros [= <-] [= <-].
  rewrite str_reverse_mget by lia. rewrite decide_True by lia. f_equal. lia.
Qed.

(** ** [itoa] *)

(** Reference: the digits of a number, least and most significant first, and
    the number that a list of digits (most significant first) denotes. *)
Fixpoint lsd (fuel : nat) (base num : Z) : list Z :=
  if num =? 0 then [] else
  match fuel with O => [] | S f => num mod base :: lsd f base (num / base) end.
Definition digits (base num : Z) : list Z :=
  if num =? 0 then [0] else reverse (lsd 64 base num).
Definition numeral (base num : Z) : list Z := Libc.digit_char <$> digits base num.
Definition value (base : Z) (ds : list Z) : Z := foldl (fun acc d => acc * base + d) 0 ds.

(** The digit a character of a numeral stands for. *)
Definition char_digit (c : Z) : Z := if 97 <=? c then c - 97 + 10 else c - 48.

Lemma value_snoc base ds d : value base (ds ++ [d]) = value base ds * base + d.
Proof. unfold value. by rewrite foldl_app. Qed.

Lemma pow_le_mono_base base f : 2 <= base -> 2 ^ Z.of_nat f <= base ^ Z.of_nat f.
Proof. intros. apply Z.pow_le_mono_l. lia. Qed.

Lemma lsd_value fuel base num :
  2 <= base -> 0 <= num < base ^ Z.of_nat fuel -> value base (reverse (lsd fuel base num)) = num.
Proof.
  revert num. induction fuel as [|fuel IH]; intros num Hb Hn.
  - simpl. rewrite Z.pow_0_r in Hn. destruct (Z.eqb_spec num 0); [subst; done|lia].
  - simpl. destruct (Z.eqb_spec num 0); [subst; done|].
    rewrite reverse_cons, value_snoc, IH; [pose proof (Z.div_mod num base); lia|done|].
    rewrite Nat2Z.inj_succ, Z.pow_succ_r in Hn by lia. split.
    + apply Z.div_pos; lia.
    + apply Z.div_lt_upper_bound; lia.
Qed.

Lemma digits_value base num : 2 <= base -> 0 <= num < 2 ^ 64 -> value base (digits base num) = num.
Proof.
  intros Hb Hn. unfold digits. destruct (Z.eqb_spec num 0); [subst; done|].
  apply lsd_value; [done|]. pose proof (pow_le_mono_base base 64). lia.
Qed.

Lemma lsd_range fuel base num : 0 < base -> Forall (fun d => 0 <= d < base) (lsd fuel base num).
Proof.
  intros Hb. revert num. induction fuel as [|fuel IH]; intros num; simpl; destruct (_ =? _); constructor.
  - by apply Z.mod_pos_bound.
  - apply IH.
Qed.

Lemma digits_range base num : 0 < base -> Forall (fun d => 0 <= d < base) (digits base num).
Proof.
  intros. unfold digits. destruct (_ =? _); [by repeat constructor|].
  apply Forall_reverse. by apply lsd_range.
Qed.

Lemma digit_char_is_char d : 0 <= d < 36 -> is_char (Libc.digit_char d).
Proof. intros. unfold Libc.digit_char, is_char. destruct (Z.ltb_spec 9 d); lia. Qed.

Lemma char_digit_char d : 0 <= d < 36 -> char_digit (Libc.digit_char d) = d.
Proof.
  intros. unfold Libc.digit_char, char_digit. destruct (Z.ltb_spec 9 d).
  - destruct (Z.leb_spec 97 (d - 10 + 97)); lia.
  - destruct (Z.leb_spec 97 (d + 48)); lia.
Qed.

Lemma numeral_chars base num : 0 < base <= 36 -> Forall is_char (numeral base num).
Proof.
  intros. unfold numeral. apply Forall_fmap. eapply Forall_impl; [apply digits_range; lia|].
  intros d Hd. cbv beta in Hd. apply digit_char_is_char. lia.
Qed.

(** Reading the numeral back gives the number. *)
Lemma numeral_value base num :
  2 <= base <= 36 -> 0 <= num < 2 ^ 64 -> value base (char_digit <$> numeral base num) = num.
Proof.
  intros Hb Hn. unfold numeral. rewrite <- list_fmap_compose.
  rewrite <- (digits_value base num) at 2 by lia. f_equal.
  rewrite <- (list_fmap_id (digits base num)) at 2. apply list_fmap_ext.
  intros i d Hd. pose proof (digits_range base num ltac:(lia)) as H.
  pose proof (Forall_lookup_1 _ _ _ _ H Hd) as Hr. cbv beta in Hr.
  unfold compose, id. apply char_digit_char. lia.
Qed.

Lemma length_lsd fuel base num : (length (lsd fuel base num) <= fuel)%nat.
Proof.
  revert num. induction fuel as [|fuel IH]; intros num; simpl; destruct (_ =? _); simpl; try lia.
  specialize (IH (num / base)). lia.
Qed.

Lemma length_lsd_pow fuel k base num :
  2 <= base -> 0 <= num < base ^ Z.of_nat k -> (length (lsd fuel base num) <= k)%nat.
Proof.
  intros Hb. revert k num. induction fuel as [|fuel IH]; intros k num Hn; simpl.
  - destruct (_ =? _); simpl; lia.
  - destruct (Z.eqb_spec num 0); simpl; [lia|]. destruct k as [|k]; [rewrite Z.pow_0_r in Hn; lia|].
    specialize (IH k (num / base)). rewrite Nat2Z.inj_succ, Z.pow_succ_r in Hn by lia.
    assert (length (lsd fuel base (num / base)) <= k)%nat; [|lia]. apply IH. split.
    + apply Z.div_pos; lia.
    + apply Z.div_lt_upper_bound; lia.
Qed.

Lemma length_numeral base num k :
  2 <= base -> 0 <= num < base ^ Z.of_nat k -> (0 < k)%nat -> (length (numeral base num) <= k)%nat.
Proof.
  intros Hb Hn Hk. unfold numeral, digits. rewrite length_fmap.
  destruct (num =? 0); [by apply Nat.le_succ_l|]. rewrite length_reverse. by apply length_lsd_pow.
Qed.

Lemma itoa_loop_spec fuel m num buf base i :
  2 <= base -> 0 <= num < base ^ Z.of_nat fuel ->
  let l := Libc.digit_char <$> lsd fuel base num in
  Libc.itoa_loop fuel m num buf base i = Done (put_bytes m (buf + i) l, i + Z.of_nat (length l)).
Proof.
  intros Hb. revert m num i. induction fuel as [|fuel IH]; intros m num i Hn; simpl.
  - rewrite Z.pow_0_r in Hn. destruct (Z.eqb_spec num 0); [|lia]. simpl. do 2 f_equal. lia.
  - destruct (Z.eqb_spec num 0); simpl; [do 2 f_equal; lia|].
    rewrite IH; [|rewrite Nat2Z.inj_succ, Z.pow_succ_r in Hn by lia; split;
      [apply Z.div_pos; lia|apply Z.div_lt_upper_bound; lia]].
    rewrite Z.add_assoc. f_equal. f_equal. change (list_fmap Z Z ?f ?l) with (f <$> l); lia.
Qed.

Arguments lsd : simpl never.
Arguments Libc.itoa_loop : simpl never.

(** [itoa] leaves the numeral of [num] at [buf], NUL-terminated, and touches
    nothing else. *)
Lemma itoa_spec m num buf base :
  2 <= base <= 36 -> 0 <= num < 2 ^ 64 ->
  exists m', Libc.itoa m num buf base = Done m' /\ cstr m' buf (numeral base num) /\
    forall a, ~ (buf <= a <= buf + Z.of_nat (length (numeral base num))) -> mget m' a = mget m a.
Proof.
  intros Hb Hn. unfold Libc.itoa. destruct (Z.eqb_spec num 0) as [->|H0].
  { eexists. split; [done|]. change (numeral base 0) with [48]. split.
    - split; [by repeat constructor|]. simpl. rewrite !mget_mput.
      rewrite decide_False, decide_True, decide_True by lia. done.
    - intros a Ha. simpl in Ha. rewrite !mget_mput. repeat case_decide; lia || done. }
  assert (Hp : 0 <= num < base ^ Z.of_nat 64) by (pose proof (pow_le_mono_base base 64); lia).
  rewrite itoa_loop_spec by (done || lia). cbn [mbind outcome_bind]. eexists. split; [done|].
  assert (Hnum : numeral base num = reverse (Libc.digit_char <$> lsd 64 base num)).
  { unfold numeral, digits. rewrite (proj2 (Z.eqb_neq _ _) H0). apply fmap_reverse. }
  pose proof (numeral_chars base num ltac:(lia)) as Hc. rewrite Hnum in *. clear Hnum.
  set (l := Libc.digit_char <$> lsd 64 base num) in *. rewrite length_reverse.
  rewrite Forall_reverse in Hc. rewrite Z.add_0_r, Z.add_0_l.
  set (m1 := mput (put_bytes m buf l) (buf + Z.of_nat (length l)) 0).
  split.
  - split; [by apply Forall_reverse|]. rewrite length_reverse. split.
    + rewrite get_bytes_reverse. f_equal.
      etransitivity; [|apply (get_put_bytes m buf l); by apply is_char_byte].
      apply get_bytes_agree. intros a Ha. unfold m1. rewrite mget_mput. by rewrite decide_False by lia.
    + rewrite str_reverse_mget by lia. rewrite decide_False by lia.
      unfold m1. rewrite mget_mput. by rewrite decide_True.
  - intros a Ha. rewrite str_reverse_mget by lia. rewrite decide_False by lia.
    unfold m1. rewrite mget_mput, decide_False by lia. apply mget_put_bytes_out. lia.
Qed.

(** ** Properties *)

(** C30: [itoa] round trip.  For a base from 2 to 36 and a 64-bit number, [itoa]
    returns with a NUL-terminated string of digits at [buf] that reads back, most
    significant digit first, as the number; the string is at most 64 characters
    long and no byte outside it and its NUL changes. *)
Theorem itoa_roundtrip (m : mem) (num buf base : Z) :
  2 <= base <= 36 -> 0 <= num < 2 ^ 64 ->
  exists m' str, Libc.itoa m num buf base = Done m' /\ cstr m' buf str /\
    value base (char_digit <$> str) = num /\ (length str <= 64)%nat /\
    forall a, ~ (buf <= a <= buf + Z.of_nat (length str)) -> mget m' a = mget m a.
Proof.
  intros Hb Hn. destruct (itoa_spec m num buf base Hb Hn) as (m' & E & Hc & Hout).
  exists m', (numeral base num). split_and!; [done|done|by apply numeral_value| |done].
  apply length_numeral; [lia| |lia]. pose proof (pow_le_mono_base base 64). lia.
Qed.

Lemma itoa_roundtrip_witness :
  exists m' str, Libc.itoa ∅ 48879 100 16 = Done m' /\ cstr m' 100 str /\
    value 16 (char_digit <$> str) = 48879.
Proof.
  destruct (itoa_roundtrip ∅ 48879 100 16 ltac:(lia) ltac:(lia)) as (m' & str & E & Hc & Hv & _).
  exists m', str. split; [exact E|]. split; [exact Hc|exact Hv].
Defined.

(** [strncmp(s1, s2, n)] is 0 exactly when the two C strings agree on their
    first [n] characters, and [str_len] of a C string is its length. *)
Theorem string_compare_correct (m : mem) (p q : Z) (s t : list Z) (n fuel : nat) :
  cstr m p s -> cstr m q t -> (length s < fuel)%nat ->
  (Libc.strncmp n m p q = 0 <-> take n s = take n t) /\ Libc.str_len fuel m p = Done (Z.of_nat (length s)).
Proof. intros Hs Ht Hf. split; [by apply strncmp_zero|by apply str_len_cstr]. Qed.

Lemma string_compare_correct_witness :
  Libc.strncmp 2 (put_bytes (put_bytes ∅ 10 [65; 66; 67]) 20 [65; 66; 68]) 10 20 = 0.
Proof.
  apply (string_compare_correct (put_bytes (put_bytes ∅ 10 [65; 66; 67]) 20 [65; 66; 68]) 10 20
    [65; 66; 67] [65; 66; 68] 2 4); [..|simpl; lia|done];
    (split; [repeat constructor|]; split; by vm_compute).
Defined.

(** [str_reverse] reverses the bytes of its argument in place, and nothing else. *)
Theorem str_reverse_correct (m : mem) (str : Z) (n : nat) :
  get_bytes n (Libc.str_reverse m str (Z.of_nat n)) str = reverse (get_bytes n m str) /\
  (forall a, ~ (str <= a < str + Z.of_nat n) -> mget (Libc.str_reverse m str (Z.of_nat n)) a = mget m a).
Proof.
  split; [apply get_bytes_reverse|]. intros a Ha. rewrite str_reverse_mget by lia. by rewrite decide_False.
Qed.
