(* ===== verification/Printf.v ===== *)
(** * Printf: the formatted output of kutils/console.cpp

    [__printf] builds its result in a local array of 4096 bytes and hands it to
    [kernel.console->print].  The console is an interface here, so that the
    memory components, which print, are proved for every console; console/console.cpp
    is one implementation of it. *)
From Stdlib Require Import Ascii String.
From S2P Require Import Prelude Memory Libc.

(** The characters of a string literal. *)
Definition cs (s : string) : list Z := (fun c => Z.of_N (N_of_ascii c)) <$> list_ascii_of_string s.
Definition NL : list Z := [10].

(** What the kernel asks of a console: [Console::print] on a string, given the
    characters before the NUL, and the blue screen of [__prepare_kpanic]. *)
Class ConsoleI (C : Type) : Type := {
  console_print : list Z -> C -> C;
  console_panic : C -> C
}.

(** The console that keeps a transcript of what it was asked to do. *)
Inductive console_event : Type :=
| Printed (s : list Z)
| BlueScreen.
Global Instance transcript : ConsoleI (list console_event) := {|
  console_print s c := c ++ [Printed s];
  console_panic c := c ++ [BlueScreen]
|}.

(** A variadic argument: a string or a 64-bit number. *)
Inductive va_arg : Type :=
| VaStr (s : list Z)
| VaU64 (n : Z).

Module Printf.

Definition BUF_SZ : Z := 4096.
Definition TEMP_SZ : nat := 64.

(** The locals of [__printf]. *)
Record locals : Type := mkLocals {
  buf : mem;          (** [char buf[4096]] *)
  temp_buf : mem;     (** [char temp_buf[64]] *)
  is_percent : bool;
  j : Z;              (** [u16 j] *)
  args : list va_arg
}.

Definition init (a : list va_arg) : locals :=
  mkLocals (memset ∅ 0 0 BUF_SZ) (memset ∅ 0 0 (Z.of_nat TEMP_SZ)) false 0 a.

(** [memcpy(buf + j, arg, temp_len); j += temp_len;] *)
Definition append (l : list Z) (st : locals) : outcome locals :=
  if BUF_SZ <? j st + Z.of_nat (length l) then Fail BufferOverflow
  else Done (mkLocals (put_bytes (buf st) (j st) l) (temp_buf st) false
               (u16 (j st + Z.of_nat (length l))) (args st)).

(** The cases ['d'] and ['p']: [itoa] into [temp_buf], then append it. *)
Definition append_num (base : Z) (st : locals) : outcome locals :=
  match args st with
  | VaU64 n :: rest =>
      t ← Libc.itoa (temp_buf st) n 0 base;
      temp_len ← Libc.str_len (S TEMP_SZ) t 0;
      append (get_bytes (Z.to_nat temp_len) t 0) (mkLocals (buf st) t true (j st) rest)
  | _ => Fail BadVaArg
  end.

(** The body of the loop, for the character [c] of the format. *)
Definition step (c : Z) (st : locals) : outcome locals :=
  if is_percent st then
    if c =? 115 (* 's' *) then
      match args st with
      | VaStr s :: rest => append s (mkLocals (buf st) (temp_buf st) true (j st) rest)
      | _ => Fail BadVaArg
      end
    else if c =? 100 (* 'd' *) then append_num 10 st
    else if c =? 112 (* 'p' *) then append_num 16 st
    else Done (mkLocals (buf st) (temp_buf st) false (j st) (args st))
  else if c =? 37 (* '%' *) then Done (mkLocals (buf st) (temp_buf st) true (j st) (args st))
  else append [c] st.

Fixpoint loop (str : list Z) (st : locals) : outcome locals :=
  match str with
  | [] => Done st
  | c :: str' => st' ← step c st; loop str' st'
  end.

(** The characters from [p] up to the first NUL. *)
Fixpoint c_read (fuel : nat) (m : mem) (p : Z) : list Z :=
  match fuel with
  | O => []
  | S f => if mget m p =? 0 then [] else mget m p :: c_read f m (p + 1)
  end.

(** [__printf]: the string given to [Console::print].  The loop counter is a
    [u16], so the loop cannot end on a format of 65536 characters or more. *)
Definition format (str : list Z) (a : list va_arg) : outcome (list Z) :=
  if 65535 <? Z.of_nat (length str) then Fail OutOfFuel else
  st ← loop str (init a);
  if BUF_SZ <=? j st then Fail BufferOverflow
  else Done (c_read (Z.to_nat BUF_SZ) (mput (buf st) (j st) 0) 0).

(** [kprintf] on any state that holds a console.  The check of [__printf] that
    [kernel.console] is not null is the type of the state: there is a [C]; the code
    before the console exists does not print ([Boot.start_console]). *)
Definition kprintf {C} `{ConsoleI C} (str : list Z) (a : list va_arg) (c : C) : outcome C :=
  s ← format str a; Done (console_print s c).

(** [kprint_err], [kprint_succ], [kprint_info] and the one-argument [kpanic],
    which prints and returns. *)
Definition kprint_err {C} `{ConsoleI C} (msg : list Z) (c : C) : outcome C :=
  kprintf (cs "[!] Kernel error: %s " ++ NL) [VaStr msg] c.
Definition kprint_succ {C} `{ConsoleI C} (msg : list Z) (c : C) : outcome C :=
  kprintf (cs "[+] Kernel success: %s " ++ NL) [VaStr msg] c.
Definition kprint_info {C} `{ConsoleI C} (msg : list Z) (c : C) : outcome C :=
  kprintf (cs "[*] Kernel info: %s " ++ NL) [VaStr msg] c.
Definition __prepare_kpanic {C} `{ConsoleI C} (c : C) : outcome C :=
  kprintf (cs "===== Kernel panic ===== " ++ NL) [] (console_panic c).
Definition kpanic {C} `{ConsoleI C} (msg : list Z) (c : C) : outcome C :=
  c1 ← __prepare_kpanic c; kprintf (cs "Error: %s") [VaStr msg] c1.
(** The four-argument [kpanic] of a failed assertion. *)
Definition kpanic_at {C} `{ConsoleI C} (msg file : list Z) (line : Z) (func : list Z) (c : C) : outcome C :=
  c1 ← __prepare_kpanic c;
  c2 ← kprintf (cs "Message: %s" ++ NL) [VaStr msg] c1;
  c3 ← kprintf (cs "File: %s" ++ NL) [VaStr file] c2;
  c4 ← kprintf (cs "Line: %d" ++ NL) [VaU64 line] c3;
  kprintf (cs "Func: %s" ++ NL) [VaStr func] c4.

(** ** Reference: what a format expands to *)
Fixpoint expand (str : list Z) (a : list va_arg) : option (list Z) :=
  match str with
  | [] => Some []
  | c :: str' =>
      if c =? 37 then
        match str' with
        | [] => Some []
        | d :: str'' =>
            if d =? 115 then
              match a with VaStr s :: a' => app s <$> expand str'' a' | _ => None end
            else if d =? 100 then
              match a with VaU64 n :: a' => app (numeral 10 n) <$> expand str'' a' | _ => None end
            else if d =? 112 then
              match a with VaU64 n :: a' => app (numeral 16 n) <$> expand str'' a' | _ => None end
            else expand str'' a
        end
      else cons c <$> expand str' a
  end.

(** The expansion of literal text, and of a number behind it. *)
Definition literal (l : list Z) : Prop := Forall (fun c => c <> 37) l.
Lemma expand_lit lit str a : literal lit -> expand (lit ++ str) a = app lit <$> expand str a.
Proof.
  induction 1 as [|c lit Hc _ IH]; cbn [app expand]; [by destruct (expand str a)|].
  rewrite (proj2 (Z.eqb_neq c 37)) by done. rewrite IH. by destruct (expand str a).
Qed.
Lemma expand_num lit str n a out : literal lit ->
  expand str a = Some out -> expand (lit ++ 37 :: 100 :: str) (VaU64 n :: a) = Some (lit ++ numeral 10 n ++ out).
Proof. intros Hl E. rewrite expand_lit by done. cbn [expand]. change (37 =? 37) with true. cbn. by rewrite E. Qed.

Definition arg_ok (x : va_arg) : Prop :=
  match x with VaStr s => Forall is_char s | VaU64 n => 0 <= n < 2 ^ 64 end.

(** The bytes written so far are [pre]. *)
Definition holds (pre : list Z) (st : locals) : Prop :=
  j st = Z.of_nat (length pre) /\ get_bytes (length pre) (buf st) 0 = pre /\ Forall is_char pre.

Lemma append_spec pre l st :
  holds pre st -> Forall is_char l -> Z.of_nat (length pre + length l) <= BUF_SZ ->
  exists st', append l st = Done st' /\ holds (pre ++ l) st' /\
    is_percent st' = false /\ args st' = args st.
Proof.
  intros (Hj & Hb & Hp) Hl Hlen. unfold append, BUF_SZ in *. rewrite Hj.
  destruct (Z.ltb_spec 4096 (Z.of_nat (length pre) + Z.of_nat (length l))); [lia|].
  eexists. split; [done|]. split; [|done]. unfold holds. simpl.
  rewrite length_app. wordify. split_and!; [lia| |by apply Forall_app].
  rewrite get_bytes_app. f_equal.
  - rewrite <- Hb at 3. apply get_bytes_agree. intros a Ha. apply mget_put_bytes_out. lia.
  - rewrite Z.add_0_l. apply get_put_bytes. by apply is_char_byte.
Qed.

Lemma append_num_spec base pre n rest st :
  2 <= base <= 36 -> 10 <= base -> args st = VaU64 n :: rest -> 0 <= n < 2 ^ 64 -> holds pre st ->
  Z.of_nat (length pre + length (numeral base n)) <= BUF_SZ ->
  exists st', append_num base st = Done st' /\ holds (pre ++ numeral base n) st' /\
    is_percent st' = false /\ args st' = rest.
Proof.
  intros Hb Hb' Ha Hn Hh Hlen. unfold append_num. rewrite Ha.
  destruct (itoa_spec (temp_buf st) n 0 base Hb Hn) as (t & -> & Ht & _). simpl mbind.
  assert (Hl : (length (numeral base n) <= TEMP_SZ)%nat).
  { apply length_numeral; [lia| |unfold TEMP_SZ; lia].
    pose proof (pow_le_mono_base base 64). unfold TEMP_SZ. lia. }
  rewrite (str_len_cstr _ _ _ _ Ht) by lia. simpl mbind. rewrite Nat2Z.id.
  destruct Ht as (Hc & -> & _).
  apply (append_spec pre (numeral base n)); done.
Qed.

Arguments append : simpl never.
Arguments append_num : simpl never.

Lemma loop_spec str a out pre st :
  expand str a = Some out -> Forall is_char str -> Forall arg_ok a -> args st = a ->
  is_percent st = false -> holds pre st -> Z.of_nat (length pre + length out) <= BUF_SZ ->
  exists st', loop str st = Done st' /\ holds (pre ++ out) st'.
Proof.
  revert a out pre st. induction str as [str IH] using (induction_ltof1 _ (@length Z)).
  unfold ltof in IH. intros a out pre st Hx Hs Ha Hargs Hpct Hh Hlen.
  destruct str as [|c str]; simpl in Hx.
  { injection Hx as <-. exists st. rewrite app_nil_r. done. }
  simpl loop. unfold step at 1. rewrite Hpct.
  apply Forall_cons in Hs as [Hc Hs]. destruct (Z.eqb_spec c 37) as [->|Hc37].
  - simpl mbind. destruct str as [|d str].
    { injection Hx as <-. eexists. rewrite app_nil_r. split; [done|]. done. }
    apply Forall_cons in Hs as [Hd Hs]. simpl loop. unfold step. simpl is_percent. cbv iota.
    set (st1 := mkLocals (buf st) (temp_buf st) true (j st) (args st)).
    assert (Hk : forall p a', (exists out', app p <$> expand str a' = Some out' /\ out' = out) ->
      Forall arg_ok a' -> forall st2, holds (pre ++ p) st2 -> is_percent st2 = false -> args st2 = a' ->
      exists st', loop str st2 = Done st' /\ holds (pre ++ out) st').
    { intros p a' (o & Hx' & ->) Ha' st2 Hh2 Hp2 Ha2. destruct (expand str a') as [o'|] eqn:E; [|done].
      injection Hx' as <-. rewrite app_assoc. apply (IH str) with (a := a'); simpl; auto.
      rewrite length_app in *. lia. }
    assert (Hle : forall p a', app p <$> expand str a' = Some out ->
      Z.of_nat (length pre + length p) <= BUF_SZ).
    { intros p a' E. destruct (expand str a'); [|done]. injection E as <-. rewrite length_app in Hlen. lia. }
    destruct (Z.eqb_spec d 115); [|destruct (Z.eqb_spec d 100); [|destruct (Z.eqb_spec d 112)]].
    + destruct a as [|[s|num] a]; try done. simpl args. rewrite Hargs. apply Forall_cons in Ha as [Has Ha].
      edestruct (append_spec pre s) as (st2 & -> & Hh2 & Hp2 & Ha2); [..|eapply Hk; eauto]; eauto.
    + destruct a as [|[s|num] a]; try done. apply Forall_cons in Ha as [Has Ha].
      edestruct (append_num_spec 10 pre num a st1) as (st2 & E & Hh2 & Hp2 & Ha2);
        [lia|lia|done|done|done|eauto|]. fold st1. rewrite E. eapply Hk; eauto.
    + destruct a as [|[s|num] a]; try done. apply Forall_cons in Ha as [Has Ha].
      edestruct (append_num_spec 16 pre num a st1) as (st2 & E & Hh2 & Hp2 & Ha2);
        [lia|lia|done|done|done|eauto|]. fold st1. rewrite E. eapply Hk; eauto.
    + simpl mbind. eapply (IH str); simpl; eauto.
  - destruct (expand str a) as [o|] eqn:E; [|done]. injection Hx as <-.
    edestruct (append_spec pre [c]) as (st2 & -> & Hh2 & Hp2 & Ha2); [done|by constructor|simpl in *; lia|].
    simpl mbind. rewrite (cons_middle c pre o), app_assoc.
    eapply (IH str); simpl; eauto; [congruence|]. rewrite length_app. simpl in *. lia.
Qed.

Lemma c_read_cstr fuel m p s : cstr m p s -> (length s < fuel)%nat -> c_read fuel m p = s.
Proof.
  revert fuel p. induction s as [|c s IH]; intros [|fuel] p H Hf; simpl in *; try lia.
  - destruct H as (_ & _ & H). rewrite Z.add_0_r in H. by rewrite H.
  - apply cstr_cons in H as (Hc & -> & H). destruct (Z.eqb_spec c 0); [unfold is_char in *; lia|].
    f_equal. apply IH; [done|lia].
Qed.

(** [__printf] prints the expansion of its format, when it fits the buffer. *)
Lemma format_spec str a out :
  expand str a = Some out -> Forall is_char str -> Forall arg_ok a ->
  Z.of_nat (length str) <= 65535 -> Z.of_nat (length out) < BUF_SZ ->
  format str a = Done out.
Proof.
  intros Hx Hs Ha Hl Ho. unfold format. destruct (Z.ltb_spec 65535 (Z.of_nat (length str))); [lia|].
  destruct (loop_spec str a out [] (init a)) as (st & -> & Hj & Hb & Hc); try done; [simpl; lia|].
  cbn [mbind outcome_bind]. rewrite Hj. simpl app in *. destruct (Z.leb_spec BUF_SZ (Z.of_nat (length out))); [lia|].
  f_equal. apply c_read_cstr; [|unfold BUF_SZ in *; lia]. split_and!; [done| |].
  - rewrite <- Hb at 3. apply get_bytes_agree. intros b Hb'. rewrite mget_mput, decide_False by lia. done.
  - rewrite mget_mput, decide_True by lia. done.
Qed.

(** Formats of literal text and decimal numbers. *)
Fixpoint num_format (parts : list (list Z * Z)) (last : list Z) : list Z :=
  match parts with [] => last | (lit, _) :: ps => lit ++ 37 :: 100 :: num_format ps last end.
Fixpoint num_text (parts : list (list Z * Z)) (last : list Z) : list Z :=
  match parts with [] => last | (lit, n) :: ps => lit ++ numeral 10 n ++ num_text ps last end.

Lemma format_numbers parts last :
  Forall (fun '(lit, n) => literal lit /\ 0 <= n < 2 ^ 64) parts -> literal last ->
  Forall is_char (num_format parts last) ->
  Z.of_nat (length (num_format parts last)) + 20 * Z.of_nat (length parts) < 4096 ->
  format (num_format parts last) ((fun p => VaU64 p.2) <$> parts) = Done (num_text parts last).
Proof.
  intros Hp Hl Hc Hlen.
  assert (Hx : expand (num_format parts last) ((fun p => VaU64 p.2) <$> parts) = Some (num_text parts last)).
  { clear Hc Hlen. induction Hp as [|[lit n] ps [H1 _] _ IH]; cbn.
    - rewrite <- (app_nil_r last) at 1. rewrite expand_lit by done. cbn. by rewrite app_nil_r.
    - by apply expand_num. }
  assert (Hn : Z.of_nat (length (num_text parts last)) <=
    Z.of_nat (length (num_format parts last)) + 20 * Z.of_nat (length parts)).
  { clear Hc Hlen Hx. induction Hp as [|[lit n] ps [_ H1] _ IH]; cbn [num_text num_format length]; [lia|].
    rewrite !length_app. pose proof (length_numeral 10 n 20 ltac:(lia) ltac:(cbn; lia) ltac:(lia)). cbn [length]. lia. }
  apply format_spec; [done|done| |unfold BUF_SZ; lia..].
  clear Hx Hn Hc Hlen. induction Hp as [|[lit n] ps [_ H1] _ IH]; constructor; done.
Qed.


(** C21: [__printf] prints the expansion of its format: [%s] the string argument,
    [%d] and [%p] the decimal and hexadecimal numeral of the 64-bit argument, any
    other conversion nothing, every other character itself; when the arguments
    have the types the format asks for and the result is shorter than the
    4096-byte buffer. *)
Theorem kprintf_prints_expansion {C} `{ConsoleI C} (str : list Z) (a : list va_arg) (out : list Z) (c : C) :
  expand str a = Some out -> Forall is_char str -> Forall arg_ok a ->
  Z.of_nat (length str) <= 65535 -> Z.of_nat (length out) < BUF_SZ ->
  kprintf str a c = Done (console_print out c).
Proof. intros. unfold kprintf. by rewrite (format_spec str a out). Qed.

Lemma kprintf_prints_expansion_witness :
  kprintf (cs "%s: %d, 0x%p") [VaStr (cs "frames"); VaU64 42; VaU64 255] [] = Done [Printed (cs "frames: 42, 0xff")].
Proof.
  rewrite (kprintf_prints_expansion (cs "%s: %d, 0x%p") [VaStr (cs "frames"); VaU64 42; VaU64 255]
    (cs "frames: 42, 0xff") []);
    [reflexivity|by vm_compute|by repeat constructor|repeat constructor; by vm_compute|by vm_compute|by vm_compute].
Defined.

End Printf.
