(* ===== verification/MMap.v ===== *)
(** * MMap: the UEFI memory map, memory/mmap.cpp *)
From Stdlib Require Import String.
From S2P Require Import Prelude Memory Libc Printf.

(** [PMemConsts::FRAME_SZ]. *)
Definition FRAME_SZ : Z := 4096.

(** [EfiMMapDesc], as the bytes at its address say. *)
Record EfiMMapDesc : Type := mkDesc {
  d_type : Z;
  d_pad : Z;
  d_paddr : Z;
  d_vaddr : Z;
  d_pages : Z;
  d_attr : Z
}.

Definition read_desc (m : mem) (p : Z) : EfiMMapDesc :=
  mkDesc (read32 m p) (read32 m (p + 4)) (read64 m (p + 8)) (read64 m (p + 16))
         (read64 m (p + 24)) (read64 m (p + 32)).

(** [EfiMemoryType], with its values. *)
Inductive EfiMemoryType : Type :=
| EFI_RESERVED_MEMORY_TYPE | EFI_LOADER_CODE | EFI_LOADER_DATA
| EFI_BOOT_SERVICES_CODE | EFI_BOOT_SERVICES_DATA
| EFI_RUNTIME_SERVICES_CODE | EFI_RUNTIME_SERVICES_DATA
| EFI_CONVENTIONAL_MEMORY | EFI_UNUSABLE_MEMORY
| EFI_ACPI_RECLAIM_MEMORY | EFI_ACPI_MEMORY_NVS
| EFI_MEMORY_MAPPED_IO | EFI_MEMORY_MAPPED_IO_PORT_SPACE
| EFI_PAL_CODE | EFI_MAX_MEMORY_TYPE.

Definition efi_code (t : EfiMemoryType) : Z :=
  match t with
  | EFI_RESERVED_MEMORY_TYPE => 0 | EFI_LOADER_CODE => 1 | EFI_LOADER_DATA => 2
  | EFI_BOOT_SERVICES_CODE => 3 | EFI_BOOT_SERVICES_DATA => 4
  | EFI_RUNTIME_SERVICES_CODE => 5 | EFI_RUNTIME_SERVICES_DATA => 6
  | EFI_CONVENTIONAL_MEMORY => 7 | EFI_UNUSABLE_MEMORY => 8
  | EFI_ACPI_RECLAIM_MEMORY => 9 | EFI_ACPI_MEMORY_NVS => 10
  | EFI_MEMORY_MAPPED_IO => 11 | EFI_MEMORY_MAPPED_IO_PORT_SPACE => 12
  | EFI_PAL_CODE => 13 | EFI_MAX_MEMORY_TYPE => 14
  end.

(** [MemoryData], the bootloader's description of the map. *)
Record MemoryData : Type := mkMemoryData {
  md_mmap : Z;
  md_mmap_sz : Z;
  md_desc_sz : Z;
  md_entries : Z
}.

Record MemoryMap : Type := mkMemoryMap {
  mm_mmap_sz : Z;
  mm_desc_sz : Z;
  mm_entries : Z;
  mm_mmap : Z
}.

Module MM.

(** [MemoryMap::MemoryMap]. *)
Definition make (data : MemoryData) : outcome MemoryMap :=
  if negb (0 <? md_entries data) then Fail AssertFailed
  else Done (mkMemoryMap (md_mmap_sz data) (md_desc_sz data) (md_entries data) (md_mmap data)).

Definition get_desc (mm : MemoryMap) (idx : Z) : Z := mm_mmap mm + u64 (idx * mm_desc_sz mm).

Definition desc (m : mem) (mm : MemoryMap) (idx : Z) : EfiMMapDesc := read_desc m (get_desc mm idx).

Definition __get_entire_memory_size (m : mem) (mm : MemoryMap) : Z :=
  let last_desc := desc m mm (u64 (mm_entries mm - 1)) in
  u64 (d_paddr last_desc + FRAME_SZ * d_pages last_desc + FRAME_SZ).

Definition get_page_frames_number (m : mem) (mm : MemoryMap) : Z :=
  __get_entire_memory_size m mm / FRAME_SZ.

(** One iteration of [get_largest_free_seg]: [(max_sz, mem_seg)]. *)
Definition largest_step (m : mem) (mm : MemoryMap) (i : Z) (acc : Z * Z) : Z * Z :=
  let d := desc m mm i in
  if d_type d =? efi_code EFI_CONVENTIONAL_MEMORY then
    let seg_sz := u64 (d_pages d * FRAME_SZ) in
    if fst acc <? seg_sz then (seg_sz, d_paddr d) else acc
  else acc.

(** [entries] is [kernel.memory->entries]; [mem_seg] is the caller's variable. *)
Definition get_largest_free_seg (m : mem) (mm : MemoryMap) (entries mem_seg : Z) : Z * Z :=
  iterate (Z.to_nat entries) 0 (largest_step m mm) (0, mem_seg).

Definition is_usable_memory (d : EfiMMapDesc) : bool :=
  (d_type d =? efi_code EFI_CONVENTIONAL_MEMORY) ||
  (d_type d =? efi_code EFI_BOOT_SERVICES_CODE) ||
  (d_type d =? efi_code EFI_BOOT_SERVICES_DATA).

(** [dbg_print_mmap]. *)
Definition dbg_print_desc {C} `{ConsoleI C} (m : mem) (mm : MemoryMap) (i : Z) : M C unit := fun c =>
  let d := desc m mm i in
  c' ← Printf.kprintf (cs "%p-%p: type=%d, frames=%d " ++ NL)
         [VaU64 (d_paddr d); VaU64 (u64 (d_paddr d + d_pages d * FRAME_SZ));
          VaU64 (d_type d); VaU64 (d_pages d)] c;
  Done (tt, c').
Definition dbg_print_mmap {C} `{ConsoleI C} (m : mem) (mm : MemoryMap) : M C unit := fun c =>
  c' ← Printf.kprintf (cs "Memory map (all entries: %d)") [VaU64 (mm_entries mm)] c;
  for_loop (Z.to_nat (mm_entries mm)) 0 (dbg_print_desc m mm) c'.

End MM.

(** A descriptor depends on its own 40 bytes only. *)
Lemma desc_agree m m' mm i :
  (forall a, MM.get_desc mm i <= a < MM.get_desc mm i + 40 -> mget m a = mget m' a) ->
  MM.desc m mm i = MM.desc m' mm i.
Proof.
  intros H. unfold MM.desc, read_desc, read32, read64.
  f_equal; apply load_agree; intros b Hb; apply H; lia.
Qed.

(** ** The largest free segment *)
Section Largest.
Context (m : mem) (mm : MemoryMap).

Definition conventional (i : Z) : Prop := d_type (MM.desc m mm i) = efi_code EFI_CONVENTIONAL_MEMORY.
Definition seg_size (i : Z) : Z := u64 (d_pages (MM.desc m mm i) * FRAME_SZ).

(** [(sz, seg)] describes the largest conventional segment below entry [n],
    the first one of that size; [(0, seg0)] if there is none. *)
Definition largest_upto (n seg0 : Z) (r : Z * Z) : Prop :=
  (forall i, 0 <= i < n -> conventional i -> seg_size i <= fst r) /\
  ((r = (0, seg0)) \/
   exists i, 0 <= i < n /\ conventional i /\ seg_size i = fst r /\ 0 < fst r /\
     snd r = d_paddr (MM.desc m mm i) /\
     forall k, 0 <= k < i -> conventional k -> seg_size k < fst r).

Lemma largest_step_spec n seg0 r :
  0 <= n -> largest_upto n seg0 r -> largest_upto (n + 1) seg0 (MM.largest_step m mm n r).
Proof.
  intros Hn [Hmax Hr]. unfold MM.largest_step. fold (seg_size n).
  destruct (Z.eqb_spec (d_type (MM.desc m mm n)) (efi_code EFI_CONVENTIONAL_MEMORY)) as [Hc|Hc];
    [destruct (Z.ltb_spec (fst r) (seg_size n)) as [Hlt|Hge]|].
  - assert (0 <= fst r) by (destruct Hr as [->|(?&?&?&?&?&?)]; simpl; lia). split.
    + intros i Hi Hci. simpl. destruct (decide (i = n)) as [->|]; [lia|].
      specialize (Hmax i). assert (seg_size i <= fst r); [apply Hmax; [lia|done]|lia].
    + right. exists n. simpl. split_and!; try done; try lia.
      intros k Hk Hck. specialize (Hmax k Hk Hck). lia.
  - split; [|destruct Hr as [->|(i&?&?)]; [by left|right; exists i; split; [lia|done]]].
    intros i Hi Hci. destruct (decide (i = n)) as [->|]; [lia|]. apply Hmax; [lia|done].
  - split; [|destruct Hr as [->|(i&?&?)]; [by left|right; exists i; split; [lia|done]]].
    intros i Hi Hci. destruct (decide (i = n)) as [->|]; [done|]. apply Hmax; [lia|done].
Qed.

Lemma largest_free_seg_spec entries seg0 :
  0 <= entries -> largest_upto entries seg0 (MM.get_largest_free_seg m mm entries seg0).
Proof.
  intros He. unfold MM.get_largest_free_seg.
  pose proof (iterate_inv (Z.to_nat entries) 0 (MM.largest_step m mm) (0, seg0)
    (fun i r => 0 <= i /\ largest_upto i seg0 r)) as H.
  rewrite Z2Nat.id in H by done. apply H.
  - split; [done|]. split; [intros; lia|by left].
  - intros i t Hi [_ HI]. split; [lia|]. apply largest_step_spec; [lia|done].
Qed.
End Largest.

(** [MemoryMap::get_largest_free_seg] finds the largest segment of
    conventional memory among the entries, the first one of that size, and
    returns its size and address; it returns 0 and leaves the address alone when
    every conventional segment is empty. *)
Theorem largest_free_seg_correct (m : mem) (mm : MemoryMap) (entries seg0 : Z) :
  0 <= entries ->
  let r := MM.get_largest_free_seg m mm entries seg0 in
  (forall i, 0 <= i < entries -> conventional m mm i -> seg_size m mm i <= fst r) /\
  (r = (0, seg0) \/
   exists i, 0 <= i < entries /\ conventional m mm i /\ seg_size m mm i = fst r /\ 0 < fst r /\
     snd r = d_paddr (MM.desc m mm i) /\ forall k, 0 <= k < i -> conventional m mm k -> seg_size m mm k < fst r).
Proof. intros He r. apply (largest_free_seg_spec m mm entries seg0 He). Qed.

(** Two conventional segments of 3 and 5 frames. *)
Definition sample_map : mem :=
  write64 (write64 (write32 (write64 (write64 (write32 ∅ 1000 7) 1008 0x1000) 1024 3) 1040 7) 1048 0x8000) 1064 5.

Lemma largest_free_seg_correct_witness :
  let r := MM.get_largest_free_seg sample_map (mkMemoryMap 80 40 2 1000) 2 0 in
  r = (20480, 0x8000) /\ seg_size sample_map (mkMemoryMap 80 40 2 1000) 0 <= fst r.
Proof.
  destruct (largest_free_seg_correct sample_map (mkMemoryMap 80 40 2 1000) 2 0 ltac:(lia)) as [H _].
  split; [by vm_compute|]. apply (H 0); [lia|by vm_compute].
Defined.
