(* ===== verification/PMem.v ===== *)
(** * PMem: the physical frame allocator, memory/pmem.cpp

    One bit per frame, set when the frame is locked; the bits live in memory. *)
From Stdlib Require Import String.
From S2P Require Import Prelude Memory Libc Printf Bitmap MMap.

Record PMem : Type := mkPMem {
  last_free_idx : Z;   (** [__last_free_idx] *)
  free_frames : Z;     (** [__free_frames] *)
  locked_frames : Z;   (** [__locked_frames] *)
  frames : Z;          (** [__frames] *)
  bitmap : Bitmap      (** [__bitmap] *)
}.

(** The part of the kernel's state that the memory components work on: the
    memory, the allocator object and the console they print to. *)
Record kst (C : Type) : Type := mkK {
  k_mem : mem;
  k_pmem : PMem;
  k_con : C
}.
Arguments mkK {_} _ _ _.
Arguments k_mem {_} _.
Arguments k_pmem {_} _.
Arguments k_con {_} _.

(** The rest of [KernelData] that the constructors read. *)
Record kenv : Type := mkEnv {
  e_mmap : MemoryMap;     (** [*kernel.mmap] *)
  e_entries : Z;          (** [kernel.memory->entries] *)
  e_stack : Z;            (** [kernel.stack] *)
  e_bitmap_self : Z       (** address of the [__bitmap] member of the [PMem] object *)
}.

Module PM.
Section PM.
Context {C : Type} `{ConsoleI C}.
Local Abbreviation K := (M (kst C)).

Definition set_mem (m : mem) : K unit := modify (fun s => mkK m (k_pmem s) (k_con s)).
Definition set_pmem (p : PMem) : K unit := modify (fun s => mkK (k_mem s) p (k_con s)).
Definition kprintf (str : list Z) (a : list va_arg) : K unit := fun s =>
  c ← Printf.kprintf str a (k_con s); Done (tt, mkK (k_mem s) (k_pmem s) c).

(** [this->__bitmap.get(idx)], the body of the query. *)
Definition bit (s : kst C) (idx : Z) : bool := Bm.get (k_mem s) (bitmap (k_pmem s)) idx.

Definition ptr_to_frame_idx (ptr : Z) : Z := ptr / FRAME_SZ.
Definition idx_to_frame_ptr (idx : Z) : Z := u64 (idx * FRAME_SZ).

Definition free_frame (idx : Z) : K unit := fun s =>
  let p := k_pmem s in
  if bit s idx then
    Done (tt, mkK (Bm.unset (k_mem s) (bitmap p) idx)
      (mkPMem (last_free_idx p) (u64 (free_frames p + 1)) (u64 (locked_frames p - 1))
              (frames p) (bitmap p)) (k_con s))
  else Done (tt, s).

Definition lock_frame (idx : Z) : K unit := fun s =>
  let p := k_pmem s in
  if negb (bit s idx) then
    Done (tt, mkK (Bm.set (k_mem s) (bitmap p) idx)
      (mkPMem (last_free_idx p) (u64 (free_frames p - 1)) (u64 (locked_frames p + 1))
              (frames p) (bitmap p)) (k_con s))
  else Done (tt, s).

(** [this->__last_free_idx = i]. *)
Definition set_last (i : Z) : K unit := modify (fun s =>
  let p := k_pmem s in
  mkK (k_mem s) (mkPMem i (free_frames p) (locked_frames p) (frames p) (bitmap p)) (k_con s)).

(** The loop of [request_frame], [n] iterations from index [i]. *)
Fixpoint request_loop (n : nat) (i : Z) : K Z :=
  match n with
  | O => mret 0
  | S n' =>
      locked ← gets (fun s => bit s i);
      if negb locked then
        lock_frame i;; set_last i;; mret (idx_to_frame_ptr i)
      else request_loop n' (i + 1)
  end.

Definition request_frame : K Z :=
  p ← gets k_pmem;
  ASSERT (0 <? free_frames p);;
  request_loop (Z.to_nat (frames p - last_free_idx p)) (last_free_idx p).

(** The search loop of [request_frames]: [(free_start_idx, free_end_idx)]. *)
Fixpoint search (get : Z -> bool) (number : Z) (n : nat) (i st en : Z) : Z * Z :=
  match n with
  | O => (st, en)
  | S n' =>
      if (0 <? st) && (u64 (i - st) =? number) then (st, u64 (i - 1))
      else
        let current := get i in
        if (0 <? st) && negb current then search get number n' (i + 1) st i
        else if current then search get number n' (i + 1) 0 en
        else if st =? 0 then search get number n' (i + 1) i i
        else search get number n' (i + 1) st en
  end.

Definition request_frames (number : Z) : K Z :=
  ASSERT (0 <? number);;
  s ← gets id;
  let p := k_pmem s in
  let '(st, en) := search (bit s) number (Z.to_nat (frames p - last_free_idx p)) (last_free_idx p) 0 0 in
  ASSERT (0 <? st);;
  ASSERT (0 <? en);;
  ASSERT (number <=? u64 (st - en));;
  kprintf (cs "%d, %d" ++ NL) [VaU64 st; VaU64 en];;
  for_loop (Z.to_nat (en + 1 - st)) st lock_frame;;
  mret (idx_to_frame_ptr st).

(** [PMem::__init_bitmap]. *)
Definition __init_bitmap (e : kenv) : K Bitmap := fun s =>
  let '(free_mem_sz, free_mem) := MM.get_largest_free_seg (k_mem s) (e_mmap e) (e_entries e) 0 in
  if negb (0 <? free_mem_sz) then Fail AssertFailed else
  let page_frames := MM.get_page_frames_number (k_mem s) (e_mmap e) in
  if negb (0 <? page_frames) then Fail AssertFailed else
  if negb (page_frames / 8 <? free_mem_sz) then Fail AssertFailed else
  let '(m, b) := Bm.make (k_mem s) (e_bitmap_self e) free_mem page_frames in
  Done (b, mkK m (k_pmem s) (k_con s)).

(** Freeing the frames of descriptor [i], when it is usable memory. *)
Definition free_desc (e : kenv) (i : Z) : K unit :=
  d ← gets (fun s => MM.desc (k_mem s) (e_mmap e) i);
  if MM.is_usable_memory d then
    for_loop (Z.to_nat (d_pages d)) 0
      (fun n => free_frame (ptr_to_frame_idx (d_paddr d + n * FRAME_SZ)))
  else mret tt.

(** [PMem::PMem], after [__init_bitmap] initialised the member [__bitmap]. *)
Definition construct (e : kenv) : K unit :=
  b ← __init_bitmap e;
  n ← gets (fun s => MM.get_page_frames_number (k_mem s) (e_mmap e));
  set_pmem (mkPMem 0 n 0 n b);;
  ASSERT (0 <? n);;
  for_loop (Z.to_nat n) 0 lock_frame;;
  for_loop (Z.to_nat (mm_entries (e_mmap e))) 0 (free_desc e);;
  lock_frame 0;;
  lock_frame (ptr_to_frame_idx (e_stack e));;
  for_loop (Z.to_nat (Bm.get_mem_size b / FRAME_SZ)) 0
    (fun i => lock_frame (ptr_to_frame_idx (Bm.buf b) + i));;
  p ← gets k_pmem;
  ASSERT (0 <? locked_frames p);;
  ASSERT (0 <? free_frames p);;
  z ← gets (fun s => bit s 0);
  ASSERT z.

End PM.
End PM.

(** ** Counting *)
Fixpoint count (f : Z -> bool) (n : nat) : Z :=
  match n with
  | O => 0
  | S n' => count f n' + b2z (f (Z.of_nat n'))
  end.

Lemma count_ext f g n : (forall i, 0 <= i < Z.of_nat n -> f i = g i) -> count f n = count g n.
Proof.
  induction n as [|n IH]; intros H; simpl; [done|]. rewrite IH by (intros; apply H; lia).
  by rewrite H by lia.
Qed.

Lemma count_range f n : 0 <= count f n <= Z.of_nat n.
Proof. induction n as [|n IH]; simpl; [lia|]. unfold b2z. destruct (f _); lia. Qed.

Lemma count_update f g n i :
  0 <= i < Z.of_nat n -> (forall k, k <> i -> f k = g k) -> count g n = count f n + b2z (g i) - b2z (f i).
Proof.
  intros Hi H. induction n as [|n IH]; simpl; [lia|]. destruct (decide (i = Z.of_nat n)) as [->|Hne].
  - rewrite (count_ext f g) by (intros; apply H; lia). lia.
  - rewrite (H (Z.of_nat n)) by lia. rewrite IH by lia. lia.
Qed.

Lemma count_negb f n : count (fun i => negb (f i)) n = Z.of_nat n - count f n.
Proof. induction n as [|n IH]; simpl; [done|]. rewrite IH. unfold b2z. destruct (f _); simpl; lia. Qed.

Lemma count_all f n : (forall i, 0 <= i < Z.of_nat n -> f i = true) -> count f n = Z.of_nat n.
Proof.
  induction n as [|n IH]; intros H; simpl; [done|]. rewrite IH by (intros; apply H; lia).
  rewrite H by lia. simpl. lia.
Qed.

Lemma count_pos f n i : 0 <= i < Z.of_nat n -> f i = true -> 0 < count f n.
Proof.
  induction n as [|n IH]; intros Hi Hf; simpl; [lia|]. pose proof (count_range f n).
  destruct (decide (i = Z.of_nat n)) as [->|]; [rewrite Hf; simpl; lia|].
  specialize (IH ltac:(lia) Hf). unfold b2z. destruct (f (Z.of_nat n)); lia.
Qed.

Lemma count_pos_inv f n : 0 < count f n -> exists i, 0 <= i < Z.of_nat n /\ f i = true.
Proof.
  induction n as [|n IH]; simpl; [lia|]. intros Hp. destruct (f (Z.of_nat n)) eqn:E.
  - exists (Z.of_nat n). split; [lia|done].
  - simpl in Hp. destruct IH as (i & ? & ?); [lia|]. exists i. split; [lia|done].
Qed.

(** Setting one bit moves one unit between the two counts. *)
Lemma counts_lock f g n i :
  0 <= i < Z.of_nat n -> (forall k, g k = (i =? k) || f k) -> f i = false ->
  count g n = count f n + 1 /\
  count (fun k => negb (g k)) n = count (fun k => negb (f k)) n - 1 /\
  0 <= count f n < Z.of_nat n /\ 0 < count (fun k => negb (f k)) n <= Z.of_nat n.
Proof.
  intros Hi Hg Hf. rewrite !count_negb.
  pose proof (count_pos (fun k => negb (f k)) n i Hi ltac:(simpl; by rewrite Hf)) as Hp.
  rewrite count_negb in Hp. pose proof (count_range f n).
  rewrite (count_update f g n i Hi).
  - rewrite (Hg i), Z.eqb_refl, Hf. simpl. lia.
  - intros k Hk. rewrite Hg. by destruct (Z.eqb_spec i k).
Qed.

(** ** The allocator's invariant *)
Section Inv.
Context {C : Type} `{ConsoleI C}.
Implicit Types s : kst C.

Definition frame_locked (s : kst C) (i : Z) : bool := PM.bit s i.

(** The counters count the bits, and the bitmap covers every frame. *)
Record pmem_ok (s : kst C) : Prop := {
  ok_frames : 0 < frames (k_pmem s) < 2 ^ 52;
  ok_size : frames (k_pmem s) <= 8 * bm_size (bitmap (k_pmem s));
  ok_last : 0 <= last_free_idx (k_pmem s) <= frames (k_pmem s);
  ok_free : free_frames (k_pmem s) = count (fun i => negb (frame_locked s i)) (Z.to_nat (frames (k_pmem s)));
  ok_locked : locked_frames (k_pmem s) = count (frame_locked s) (Z.to_nat (frames (k_pmem s)))
}.

(** The allocator keeps its geometry and writes its own bitmap only. *)
Record pm_pres (s s' : kst C) : Prop := {
  pres_frames : frames (k_pmem s') = frames (k_pmem s);
  pres_bitmap : bitmap (k_pmem s') = bitmap (k_pmem s);
  pres_mem : forall a, ~ in_buf (bitmap (k_pmem s)) a -> mget (k_mem s') a = mget (k_mem s) a
}.

Global Instance pm_pres_preorder : PreOrder pm_pres.
Proof.
  split.
  - intros s. by split.
  - intros s1 s2 s3 [F1 B1 M1] [F2 B2 M2]. split; [congruence|congruence|].
    intros a Ha. rewrite M2 by (by rewrite B1). auto.
Qed.

(** Bits after a change at one index. *)
Definition locks_only (i : Z) (s s' : kst C) : Prop :=
  forall k, frame_locked s' k = (i =? k) || frame_locked s k.
Definition frees_only (i : Z) (s s' : kst C) : Prop :=
  forall k, frame_locked s' k = negb (i =? k) && frame_locked s k.

Lemma lock_frame_spec s i :
  pmem_ok s -> 0 <= i < frames (k_pmem s) ->
  runs (PM.lock_frame i) s (fun _ s' => pmem_ok s' /\ pm_pres s s' /\ locks_only i s s' /\
    last_free_idx (k_pmem s') = last_free_idx (k_pmem s) /\ k_con s' = k_con s).
Proof.
  intros Hok Hi. destruct Hok as [Hf Hs Hl Hc Hk] eqn:Eok.
  unfold runs, PM.lock_frame. destruct (PM.bit s i) eqn:E; simpl negb; cbv iota.
  - exists tt, s. split; [done|]. split_and!; try done.
    intros k. destruct (Z.eqb_spec i k) as [->|]; [unfold frame_locked; by rewrite E|done].
  - match goal with |- exists _ _, Done (_, ?t) = _ /\ _ => set (s' := t) end.
    exists tt, s'. split; [done|].
    assert (Hlo : locks_only i s s') by (intros k; apply get_set).
    destruct (counts_lock (frame_locked s) (frame_locked s') (Z.to_nat (frames (k_pmem s))) i)
      as (C1 & C2 & C3 & C4); [lia|done|done|].
    split_and!; try done; split; try done.
    + change (u64 (free_frames (k_pmem s) - 1) = count (fun i => negb (frame_locked s' i)) (Z.to_nat (frames (k_pmem s)))).
      rewrite Hc. wordify. lia.
    + change (u64 (locked_frames (k_pmem s) + 1) = count (frame_locked s') (Z.to_nat (frames (k_pmem s)))).
      rewrite Hk. wordify. lia.
    + intros a Ha. apply mget_set_out; [lia|done].
Qed.

Lemma free_frame_spec s i :
  pmem_ok s -> 0 <= i < frames (k_pmem s) ->
  runs (PM.free_frame i) s (fun _ s' => pmem_ok s' /\ pm_pres s s' /\ frees_only i s s' /\
    last_free_idx (k_pmem s') = last_free_idx (k_pmem s) /\ k_con s' = k_con s).
Proof.
  intros Hok Hi. destruct Hok as [Hf Hs Hl Hc Hk] eqn:Eok.
  unfold runs, PM.free_frame. destruct (PM.bit s i) eqn:E.
  - match goal with |- exists _ _, Done (_, ?t) = _ /\ _ => set (s' := t) end.
    exists tt, s'. split; [done|].
    assert (Hlo : frees_only i s s') by (intros k; apply get_unset).
    destruct (counts_lock (frame_locked s') (frame_locked s) (Z.to_nat (frames (k_pmem s))) i)
      as (C1 & C2 & C3 & C4); [lia|..].
    { intros k. rewrite (Hlo k). destruct (Z.eqb_spec i k) as [->|]; simpl; done. }
    { rewrite (Hlo i), Z.eqb_refl. done. }
    split_and!; try done; split; try done.
    + change (u64 (free_frames (k_pmem s) + 1) = count (fun i => negb (frame_locked s' i)) (Z.to_nat (frames (k_pmem s)))).
      rewrite Hc. wordify. lia.
    + change (u64 (locked_frames (k_pmem s) - 1) = count (frame_locked s') (Z.to_nat (frames (k_pmem s)))).
      rewrite Hk. wordify. lia.
    + intros a Ha. apply mget_unset_out; [lia|done].
  - exists tt, s. split; [done|]. split_and!; try done.
    intros k. destruct (Z.eqb_spec i k) as [->|]; [unfold frame_locked; by rewrite E|done].
Qed.

(** ** [request_frame] *)

Lemma set_last_spec s i :
  pmem_ok s -> 0 <= i <= frames (k_pmem s) ->
  runs (PM.set_last i) s (fun _ s' => pmem_ok s' /\ pm_pres s s' /\
    (forall k, frame_locked s' k = frame_locked s k) /\ last_free_idx (k_pmem s') = i /\ k_con s' = k_con s).
Proof. intros [] Hi. apply runs_modify. split_and!; try done; by split. Qed.

(** What [request_frame] does when it finds frame [i]. *)
Definition took_frame (i : Z) (s : kst C) (p : Z) (s' : kst C) : Prop :=
  p = i * FRAME_SZ /\ pmem_ok s' /\ pm_pres s s' /\ locks_only i s s' /\
  last_free_idx (k_pmem s') = i /\ k_con s' = k_con s.

Lemma request_loop_spec s n i :
  pmem_ok s -> 0 <= i -> i + Z.of_nat n = frames (k_pmem s) ->
  (exists k, i <= k < frames (k_pmem s) /\ frame_locked s k = false /\
     (forall l, i <= l < k -> frame_locked s l = true) /\
     runs (PM.request_loop n i) s (took_frame k s)) \/
  ((forall k, i <= k < frames (k_pmem s) -> frame_locked s k = true) /\
     PM.request_loop n i s = Done (0, s)).
Proof.
  intros Hok. pose proof Hok as [Hf _ _ _ _]. revert i. induction n as [|n IH]; intros i Hi Hn.
  { right. split; [intros; lia|done]. }
  destruct (PM.bit s i) eqn:E.
  - assert (Heq : PM.request_loop (S n) i s = PM.request_loop n (i + 1) s).
    { simpl. unfold mbind at 1, M_bind, gets. by rewrite E. }
    unfold runs. rewrite Heq.
    destruct (IH (i + 1)) as [(k & Hk & Hkf & Hl & Hr)|[Hall Hr]]; [lia|lia|left|right].
    + exists k. split_and!; [lia|lia|done| |done]. intros l Hll.
      destruct (decide (l = i)) as [->|]; [done|]. apply Hl. lia.
    + split; [|done]. intros k Hk. destruct (decide (k = i)) as [->|]; [done|]. apply Hall. lia.
  - left. exists i. split_and!; [lia|lia|done|intros; lia|]. simpl.
    apply runs_bind, runs_gets. rewrite E. simpl negb. cbv iota.
    apply runs_bind. eapply runs_mono; [apply lock_frame_spec; [done|lia]|].
    intros [] s1 (Hok1 & Hp1 & Hl1 & Hlast1 & Hc1).
    apply runs_bind. pose proof (pres_frames _ _ Hp1).
    eapply runs_mono; [apply (set_last_spec s1 i); [done|lia]|].
    intros [] s2 (Hok2 & Hp2 & Hl2 & Hlast2 & Hc2). apply runs_ret.
    split_and!; [|done|by etransitivity| |done|congruence].
    + unfold PM.idx_to_frame_ptr, FRAME_SZ. wordify. lia.
    + intros k. rewrite Hl2. apply Hl1.
Qed.

(** [request_frame] takes the first free frame at or after [__last_free_idx],
    and returns null, changing nothing, exactly when there is none. *)
Lemma request_frame_cases s :
  pmem_ok s -> 0 < free_frames (k_pmem s) ->
  (exists k, last_free_idx (k_pmem s) <= k < frames (k_pmem s) /\ frame_locked s k = false /\
     (forall l, last_free_idx (k_pmem s) <= l < k -> frame_locked s l = true) /\
     runs PM.request_frame s (took_frame k s)) \/
  ((forall k, last_free_idx (k_pmem s) <= k < frames (k_pmem s) -> frame_locked s k = true) /\
     PM.request_frame s = Done (0, s)).
Proof.
  intros Hok Hfree. pose proof Hok as [Hf _ Hl _ _].
  assert (E : PM.request_frame s = PM.request_loop
    (Z.to_nat (frames (k_pmem s) - last_free_idx (k_pmem s))) (last_free_idx (k_pmem s)) s).
  { unfold PM.request_frame, mbind, M_bind, gets, ASSERT. destruct (Z.ltb_spec 0 (free_frames (k_pmem s))); [done|lia]. }
  unfold runs. rewrite E. apply request_loop_spec; [done|lia|lia].
Qed.

Lemma request_frame_exhausted s : free_frames (k_pmem s) = 0 -> PM.request_frame s = Fail AssertFailed.
Proof. intros E. unfold PM.request_frame, mbind, M_bind, gets, ASSERT. by rewrite E. Qed.

(** The first frame of the bitmap's own buffer, when it is not locked: a request
    that gets this far hands out the bitmap.  When that frame is locked, the
    number of frames. *)
Definition horizon (s : kst C) : Z :=
  let f := bm_buf (bitmap (k_pmem s)) / FRAME_SZ in
  if (0 <=? f) && (f <? frames (k_pmem s)) && negb (frame_locked s f) then f else frames (k_pmem s).

Lemma horizon_le s : horizon s <= frames (k_pmem s).
Proof.
  unfold horizon. destruct (_ && _) eqn:E; [|lia]. apply andb_true_iff in E as [[_ E%Z.ltb_lt]%andb_true_iff _]. lia.
Qed.

(** Steps that lock frames below the horizon only leave it where it is. *)
Lemma horizon_same s s' :
  frames (k_pmem s') = frames (k_pmem s) -> bitmap (k_pmem s') = bitmap (k_pmem s) ->
  (forall j, 0 <= j < frames (k_pmem s) -> frame_locked s j = true -> frame_locked s' j = true) ->
  (forall j, 0 <= j < frames (k_pmem s) -> horizon s <= j -> frame_locked s' j = frame_locked s j) ->
  horizon s' = horizon s.
Proof.
  unfold horizon. intros -> -> Hmono Htop. set (f := bm_buf _ / FRAME_SZ) in *.
  destruct (Z.leb_spec 0 f); [|done]. destruct (Z.ltb_spec f (frames (k_pmem s))); [|done]. simpl in *.
  destruct (frame_locked s f) eqn:E; simpl in *.
  - by rewrite Hmono by (done || lia).
  - by rewrite Htop, E by lia.
Qed.

Lemma horizon_bits s s' :
  k_pmem s' = k_pmem s -> (forall j, 0 <= j < frames (k_pmem s) -> frame_locked s' j = frame_locked s j) ->
  horizon s' = horizon s.
Proof. intros Hp Hb. apply horizon_same; [by rewrite Hp|by rewrite Hp| |]; intros j Hj; rewrite Hb; done. Qed.

(** The frames below the horizon that [request_frame] can still find. *)
Definition avail (s : kst C) : Z :=
  count (fun k => (last_free_idx (k_pmem s) <=? k) && (k <? horizon s) && negb (frame_locked s k))
    (Z.to_nat (frames (k_pmem s))).

Lemma request_frame_avail s :
  pmem_ok s -> 0 < avail s ->
  exists k, last_free_idx (k_pmem s) <= k < horizon s /\ frame_locked s k = false /\
    (forall l, last_free_idx (k_pmem s) <= l < k -> frame_locked s l = true) /\
    runs PM.request_frame s (fun p s' => took_frame k s p s' /\ avail s' = avail s - 1).
Proof.
  intros Hok Hav. pose proof Hok as [Hf _ Hl Hfree _]. pose proof (horizon_le s) as Hh.
  destruct (count_pos_inv _ _ Hav) as (k0 & Hk0 & [[Hlk0%Z.leb_le Hhk0%Z.ltb_lt]%andb_true_iff
    Hfk0%negb_true_iff]%andb_true_iff).
  rewrite Z2Nat.id in Hk0 by lia.
  destruct (request_frame_cases s Hok) as [(k & Hk & Hfk & Hmin & Hr)|[Hall _]].
  - rewrite Hfree. apply count_pos with (i := k0); [lia|]. by rewrite Hfk0.
  - assert (Hkk : k <= k0).
    { destruct (decide (k <= k0)); [done|]. rewrite Hmin in Hfk0 by lia. done. }
    exists k. split_and!; try done; try lia. eapply runs_mono; [exact Hr|].
    intros p s' Ht. split; [done|]. destruct Ht as (_ & _ & [Pf Pb _] & Hlo & Hlast & _).
    assert (Ehor : horizon s' = horizon s).
    { apply horizon_same; [done|done| |]; intros j Hj; rewrite (Hlo j).
      - intros ->. apply orb_true_r.
      - intros Hjh. by rewrite (proj2 (Z.eqb_neq k j)) by lia. }
    unfold avail. rewrite Pf, Hlast, Ehor.
    rewrite (count_update (fun k => (last_free_idx (k_pmem s) <=? k) && (k <? horizon s) && negb (frame_locked s k)) _ _ k).
    + rewrite (Hlo k), Z.eqb_refl, Hfk. simpl. rewrite andb_false_r.
      rewrite (proj2 (Z.leb_le _ k)), (proj2 (Z.ltb_lt k _)) by lia. simpl. lia.
    + lia.
    + intros l Hne. rewrite (Hlo l). destruct (Z.eqb_spec k l); [congruence|]. simpl.
      destruct (Z.leb_spec (last_free_idx (k_pmem s)) l), (Z.leb_spec k l); try done; try lia.
      rewrite Hmin by lia. by rewrite andb_false_r.
  - rewrite Hall in Hfk0 by lia. done.
Qed.

(** ** [request_frames] *)
Section Search.
Context (get : Z -> bool) (number lo hi : Z).
Hypothesis Hnum : 0 < number.
Hypothesis Hlo : 0 <= lo.
Hypothesis Hhi : hi < 2 ^ 52.

(** No run of [number] free frames starts in [lo, cur): each start is blocked
    by a locked frame. *)
Definition blocked (cur : Z) : Prop :=
  forall b, lo <= b < cur -> 0 < b -> exists k, b <= k < b + number /\ k < cur /\ get k = true.

Definition search_inv (i st en : Z) : Prop :=
  (st = 0 /\ blocked i) \/
  (0 < st /\ lo <= st < i /\ en = i - 1 /\ (forall k, st <= k < i -> get k = false) /\
   i - st <= number /\ blocked st).

(** What the search returns: nothing, a run of [number] frames, or the
    shorter run of free frames at the very end of memory. *)
Definition search_post (st en : Z) : Prop :=
  (st = 0 /\ blocked hi) \/
  (0 < st /\ lo <= st <= en /\ en < hi /\ (forall k, st <= k <= en -> get k = false) /\ blocked st /\
   (en = st + number - 1 \/ (en = hi - 1 /\ en < st + number - 1))).

Lemma search_spec n i st en :
  lo <= i -> i + Z.of_nat n = hi -> search_inv i st en ->
  let '(st', en') := PM.search get number n i st en in search_post st' en'.
Proof.
  revert i st en. induction n as [|n IH]; intros i st en Hi Hn HI; simpl.
  { destruct HI as [[-> Hb]|(H0 & Hst & -> & Hfree & Hle & Hb)].
    - left. replace hi with i by lia. done.
    - right. split_and!; try lia; [intros; apply Hfree; lia|done]. }
  destruct HI as [[-> Hb]|(H0 & Hst & -> & Hfree & Hle & Hb)]; simpl.
  - destruct (get i) eqn:E; apply IH; try lia.
    + left. split; [done|]. intros b Hbb Hb0. destruct (decide (b = i)) as [->|].
      * exists i. split_and!; [lia|lia|lia|done].
      * destruct (Hb b) as (k & ? & ? & ?); [lia|lia|]. exists k. split_and!; [lia|lia|lia|done].
    + destruct (decide (i = 0)) as [->|].
      * left. split; [done|]. intros b Hbb Hb0. lia.
      * right. split_and!; try lia; [|done]. intros k Hk. by replace k with i by lia.
  - destruct (Z.ltb_spec 0 st); [|lia]. simpl. wordify.
    destruct (Z.eqb_spec (i - st) number) as [Heq|Hne].
    + right. split_and!; try lia; [|done]. intros. apply Hfree. lia.
    + destruct (get i) eqn:E; simpl; apply IH; try lia.
      * left. split; [done|]. intros b Hbb Hb0. destruct (decide (b < st)).
        -- destruct (Hb b) as (k & ? & ? & ?); [lia|lia|]. exists k. split_and!; [lia|lia|lia|done].
        -- exists i. split_and!; [lia|lia|lia|done].
      * right. split_and!; try lia; [|done]. intros k Hk.
        destruct (decide (k = i)) as [->|]; [done|]. apply Hfree. lia.
Qed.
End Search.

(** The line printed by [request_frames]. *)
Lemma frames_line (a b : Z) : 0 <= a < 2 ^ 64 -> 0 <= b < 2 ^ 64 ->
  Printf.format (cs "%d, %d" ++ NL) [VaU64 a; VaU64 b] =
    Done (numeral 10 a ++ cs ", " ++ numeral 10 b ++ NL).
Proof.
  intros Ha Hb. apply Printf.format_spec; [done|vm_compute; by repeat constructor| |done|].
  - apply Forall_cons; split; [done|]. apply Forall_cons; by split.
  - pose proof (length_numeral 10 a 20). pose proof (length_numeral 10 b 20).
    unfold Printf.BUF_SZ. rewrite !length_app. simpl length. lia.
Qed.

(** Locking a range. *)
Definition locks_range (lo hi : Z) (s s' : kst C) : Prop :=
  forall k, frame_locked s' k = bool_decide (lo <= k < hi) || frame_locked s k.

Lemma lock_loop_spec s lo n :
  pmem_ok s -> 0 <= lo -> lo + Z.of_nat n <= frames (k_pmem s) ->
  runs (for_loop n lo PM.lock_frame) s (fun _ s' => pmem_ok s' /\ pm_pres s s' /\
    locks_range lo (lo + Z.of_nat n) s s' /\
    last_free_idx (k_pmem s') = last_free_idx (k_pmem s) /\ k_con s' = k_con s).
Proof.
  intros Hok Hlo Hn.
  apply runs_for_loop with (I := fun i t => pmem_ok t /\ pm_pres s t /\ locks_range lo i s t /\
    last_free_idx (k_pmem t) = last_free_idx (k_pmem s) /\ k_con t = k_con s); [|..|done].
  - split_and!; try done. intros k. rewrite bool_decide_false by lia. done.
  - intros i t Hi (Hokt & Hp & Hr & Hl & Hc).
    eapply runs_mono; [apply lock_frame_spec; [done|rewrite (pres_frames _ _ Hp); lia]|].
    intros [] t' (Hok' & Hp' & Hlo' & Hl' & Hc').
    split_and!; [done|by etransitivity| |congruence|congruence].
    intros k. rewrite (Hlo' k), (Hr k), orb_assoc. f_equal.
    destruct (Z.eqb_spec i k); repeat case_bool_decide; done || lia.
Qed.

(** The outcome of the search from [s]. *)
Definition found (s : kst C) (number : Z) : Z * Z :=
  PM.search (frame_locked s) number (Z.to_nat (frames (k_pmem s) - last_free_idx (k_pmem s)))
    (last_free_idx (k_pmem s)) 0 0.

Lemma found_spec s number :
  pmem_ok s -> 0 < number ->
  search_post (frame_locked s) number (last_free_idx (k_pmem s)) (frames (k_pmem s))
    (fst (found s number)) (snd (found s number)).
Proof.
  intros [Hf _ Hl _ _] Hn. unfold found.
  pose proof (search_spec (frame_locked s) number (last_free_idx (k_pmem s)) (frames (k_pmem s))
    ltac:(lia) ltac:(lia) ltac:(lia)
    (Z.to_nat (frames (k_pmem s) - last_free_idx (k_pmem s))) (last_free_idx (k_pmem s)) 0 0) as Hs.
  destruct (PM.search _ _ _ _ _ _). apply Hs; [lia|lia|]. left. split; [done|]. intros b Hb. lia.
Qed.

(** What [request_frames] prints for the frames [st .. st + number - 1]. *)
Definition run_line (st number : Z) : list Z := numeral 10 st ++ cs ", " ++ numeral 10 (st + number - 1) ++ NL.

(** The result of a successful [request_frames]: frames [st .. en] were free and
    are now locked, nothing else changed but the console. *)
Definition took_range (st en : Z) (s : kst C) (p : Z) (s' : kst C) : Prop :=
  p = st * FRAME_SZ /\ pmem_ok s' /\ pm_pres s s' /\ locks_range st (en + 1) s s' /\
  last_free_idx (k_pmem s') = last_free_idx (k_pmem s) /\
  k_con s' = console_print (numeral 10 st ++ cs ", " ++ numeral 10 en ++ NL) (k_con s).

(** The last check compares the wrapped difference [start - end]. *)
Lemma wrapped_gap st en : 0 <= st < en -> en < 2 ^ 52 -> u64 (st - en) = 2 ^ 64 - (en - st).
Proof.
  intros H1 H2. unfold u64. replace (st - en) with (2 ^ 64 - (en - st) + (-1) * 2 ^ 64) by lia.
  rewrite Z.mod_add by lia. apply Z.mod_small. lia.
Qed.

Lemma request_frames_takes s number st en :
  pmem_ok s -> 0 < number -> found s number = (st, en) -> 0 < st < en -> number <= u64 (st - en) ->
  runs (PM.request_frames number) s (took_range st en s).
Proof.
  intros Hok Hn E Hst Hen. pose proof (found_spec s number Hok Hn) as Hpost. rewrite E in Hpost.
  simpl in Hpost. pose proof (ok_frames _ Hok). pose proof (ok_last _ Hok).
  destruct Hpost as [[? _]|(_ & Hlo & Hhi & _ & _ & _)]; [lia|].
  unfold PM.request_frames. apply runs_bind, runs_assert; [apply Z.ltb_lt; lia|].
  apply runs_bind, runs_gets. unfold id. change (PM.search (PM.bit s) _ _ _ _ _) with (found s number). rewrite E.
  apply runs_bind, runs_assert; [apply Z.ltb_lt; lia|].
  apply runs_bind, runs_assert; [apply Z.ltb_lt; lia|].
  apply runs_bind, runs_assert; [by apply Z.leb_le|].
  apply runs_bind. eapply runs_eq.
  { unfold PM.kprintf, Printf.kprintf. rewrite frames_line by lia. done. }
  apply runs_bind. set (s1 := mkK _ _ _).
  assert (Hok1 : pmem_ok s1) by (destruct Hok; by split).
  eapply runs_mono; [apply (lock_loop_spec s1 st (Z.to_nat (en + 1 - st)) Hok1); simpl; lia|].
  intros [] s' (Hok' & [Hp1 Hp2 Hp3] & Hr & Hl & Hc). apply runs_ret.
  split_and!; [|done|by split| |done|done].
  - unfold PM.idx_to_frame_ptr, FRAME_SZ. wordify. done.
  - intros k. rewrite Hr. do 2 f_equal. rewrite Z2Nat.id by lia. by replace (st + (en + 1 - st)) with (en + 1) by lia.
Qed.

Lemma request_frames_runs s number st en :
  pmem_ok s -> 0 < number < 2 ^ 63 -> found s number = (st, en) -> 0 < st -> st < en ->
  runs (PM.request_frames number) s (took_range st en s).
Proof.
  intros Hok Hn E Hst Hen. pose proof (found_spec s number Hok ltac:(lia)) as Hp. rewrite E in Hp. simpl in Hp.
  pose proof (ok_frames _ Hok). destruct Hp as [[? _]|(_ & _ & ? & _)]; [lia|].
  apply (request_frames_takes s number st en); [done|lia|done|lia|]. rewrite wrapped_gap; lia.
Qed.

Lemma request_frames_panics s number st en :
  pmem_ok s -> 0 < number -> found s number = (st, en) -> st = 0 \/ st <= en /\ u64 (st - en) < number ->
  PM.request_frames number s = Fail AssertFailed.
Proof.
  intros Hok Hn E Hst. unfold PM.request_frames.
  erewrite bind_done by (unfold ASSERT; rewrite (proj2 (Z.ltb_lt _ _)) by lia; done).
  erewrite bind_done by done. unfold id. change (PM.search (PM.bit s) _ _ _ _ _) with (found s number). rewrite E.
  destruct (Z.ltb_spec 0 st).
  - destruct Hst as [->|[Hle Hgap]]; [lia|].
    erewrite bind_done by done. destruct (Z.ltb_spec 0 en); [|lia].
    erewrite bind_done by done. apply bind_fail. unfold ASSERT.
    by rewrite (proj2 (Z.leb_gt _ _)) by lia.
  - by apply bind_fail.
Qed.

(** A call that returns has taken the frames its search found: at least two
    free ones, from [st] on, [number] of them or all that are left up to the
    end of memory. *)
Lemma request_frames_inv s number p s' :
  pmem_ok s -> PM.request_frames number s = Done (p, s') ->
  exists st en, 0 < st < en /\ en = Z.min (st + number) (frames (k_pmem s)) - 1 /\
    (forall k, st <= k <= en -> frame_locked s k = false) /\ took_range st en s p s'.
Proof.
  intros Hok E. pose proof (ok_frames _ Hok). pose proof (ok_last _ Hok).
  destruct (Z.ltb_spec 0 number) as [Hn|Hn].
  2: { unfold PM.request_frames in E. rewrite bind_fail with (e := AssertFailed) in E; [done|].
       unfold ASSERT. by rewrite (proj2 (Z.ltb_ge _ _)). }
  pose proof (found_spec s number Hok Hn) as Hp. destruct (found s number) as [st en] eqn:Ef. simpl in Hp.
  destruct Hp as [[-> _]|(P1 & P2 & P3 & P4 & _ & P6)].
  { by rewrite (request_frames_panics s number 0 en) in E by (try done; by left). }
  destruct (decide (u64 (st - en) < number)).
  { rewrite (request_frames_panics s number st en) in E; [done|done|done|done|]. right. split; [lia|done]. }
  assert (st <> en) by (intros ->; rewrite Z.sub_diag in *; change (u64 0) with 0 in *; lia).
  destruct (request_frames_takes s number st en) as (q & t & E' & Ht); [done|done|done|lia|lia|].
  rewrite E in E'. injection E' as -> <-. exists st, en. split_and!; try done; lia.
Qed.

(** A run of one frame never passes the last check. *)
Lemma request_one_fails s : pmem_ok s -> PM.request_frames 1 s = Fail AssertFailed.
Proof.
  intros Hok. pose proof (found_spec s 1 Hok ltac:(lia)) as Hp. destruct (found s 1) as [st en] eqn:E. simpl in Hp.
  eapply (request_frames_panics s 1 st en); [done|lia|done|].
  destruct Hp as [[-> _]|(? & ? & ? & _ & _ & [->|?])]; [by left| |lia].
  right. split; [lia|]. replace (st - (st + 1 - 1)) with 0 by lia. by vm_compute.
Qed.

(** A run of [number] free frames at [b]. *)
Definition free_run (s : kst C) (b number : Z) : Prop :=
  last_free_idx (k_pmem s) <= b /\ 0 < b /\ b + number <= frames (k_pmem s) /\
  forall k, b <= k < b + number -> frame_locked s k = false.

(** One that ends before the horizon. *)
Definition spare_run (s : kst C) (b number : Z) : Prop := free_run s b number /\ b + number <= horizon s.

Lemma found_run s number b :
  pmem_ok s -> 0 < number < 2 ^ 63 -> free_run s b number ->
  exists st, found s number = (st, st + number - 1) /\ free_run s st number /\
    forall c, free_run s c number -> st <= c.
Proof.
  intros Hok Hn (Hb & Hb0 & Hbf & Hfree).
  pose proof (found_spec s number Hok ltac:(lia)) as Hpost. destruct (found s number) as [st en]. simpl in Hpost.
  destruct Hpost as [[-> Hbl]|(H0 & Hlo & Hhi & Hfr & Hbl & Hen)].
  { destruct (Hbl b) as (k & ? & ? & Hk); [lia|lia|]. rewrite Hfree in Hk by lia. done. }
  assert (Hmin : forall c, free_run s c number -> st <= c).
  { intros c (Hc & Hc0 & Hcf & Hcfree). destruct (decide (st <= c)); [done|].
    destruct (Hbl c) as (k & ? & ? & Hk); [lia|lia|]. rewrite Hcfree in Hk by lia. done. }
  exists st. assert (en = st + number - 1) as ->.
  { specialize (Hmin b ltac:(by split_and!)). lia. }
  split_and!; [done|split_and!; try lia|done].
  intros k Hk. apply Hfr. lia.
Qed.
End Inv.

(** ** The constructor *)
Section Construct.
Context {C : Type} `{ConsoleI C}.
Context (e : kenv) (m0 : mem).

(** The number of frames, and the descriptor of entry [i], of the initial memory. *)
Definition init_frames : Z := MM.get_page_frames_number m0 (e_mmap e).
Definition init_desc (i : Z) : EfiMMapDesc := MM.desc m0 (e_mmap e) i.
Definition init_seg : Z * Z := MM.get_largest_free_seg m0 (e_mmap e) (e_entries e) 0.
Definition init_size : Z := (init_frames + 7) / 8.

(** Descriptor [i] makes frame [k] usable. *)
Definition covers (i k : Z) : Prop :=
  MM.is_usable_memory (init_desc i) = true /\
  d_paddr (init_desc i) / FRAME_SZ <= k < d_paddr (init_desc i) / FRAME_SZ + d_pages (init_desc i).
Definition covered_below (i k : Z) : Prop := exists d, 0 <= d < i /\ covers d k.

(** The frames the constructor locks again at its end. *)
Definition relocked (k : Z) : Prop :=
  k = 0 \/ k = e_stack e / FRAME_SZ \/
  e_bitmap_self e / FRAME_SZ <= k < e_bitmap_self e / FRAME_SZ + init_size / FRAME_SZ.

(** The boot environment: room for the bitmap, the memory map outside the
    bitmap's buffer, every usable frame inside the map. *)
Record boot_ok : Prop := {
  boot_frames : 0 < init_frames;
  boot_room : init_frames / 8 < fst init_seg;
  boot_entries : 0 < mm_entries (e_mmap e) < 2 ^ 64;
  boot_map : forall i a, 0 <= i < mm_entries (e_mmap e) ->
    MM.get_desc (e_mmap e) i <= a < MM.get_desc (e_mmap e) i + 40 ->
    ~ (snd init_seg <= a < snd init_seg + init_size);
  boot_usable : forall i k, 0 <= i < mm_entries (e_mmap e) -> covers i k -> 0 <= k < init_frames;
  boot_stack : 0 <= e_stack e / FRAME_SZ < init_frames;
  boot_self : 0 <= e_bitmap_self e / FRAME_SZ /\
    e_bitmap_self e / FRAME_SZ + init_size / FRAME_SZ <= init_frames
}.

Hypothesis Hboot : boot_ok.

Lemma init_frames_lt : init_frames < 2 ^ 52.
Proof.
  unfold init_frames, MM.get_page_frames_number, MM.__get_entire_memory_size, FRAME_SZ.
  match goal with |- u64 ?x / _ < _ => pose proof (u64_range x) end. zdm.
Qed.

(** What holds while the constructor runs: the bitmap describes [P], the
    frames free at this point, and the memory outside the buffer is [m0]. *)
Record building (P : Z -> Prop) (s : kst C) : Prop := {
  bd_ok : pmem_ok s;
  bd_frames : frames (k_pmem s) = init_frames;
  bd_bitmap : bitmap (k_pmem s) = mkBitmap (e_bitmap_self e) (snd init_seg) init_size;
  bd_last : last_free_idx (k_pmem s) = 0;
  bd_mem : forall a, ~ (snd init_seg <= a < snd init_seg + init_size) -> mget (k_mem s) a = mget m0 a;
  bd_bits : forall k, 0 <= k < init_frames -> frame_locked s k = false <-> P k
}.

Lemma building_pres P Q s s' :
  building P s -> pmem_ok s' -> pm_pres s s' -> last_free_idx (k_pmem s') = last_free_idx (k_pmem s) ->
  (forall k, 0 <= k < init_frames -> frame_locked s' k = false <-> Q k) -> building Q s'.
Proof.
  intros [Hok Hf Hb Hl Hm Hbits] Hok' [Pf Pb Pm] Hl' HQ. split; try done; try congruence.
  intros a Ha. rewrite Pm; [by apply Hm|]. rewrite Hb. done.
Qed.

Lemma building_iff P Q s : (forall k, 0 <= k < init_frames -> P k <-> Q k) -> building P s -> building Q s.
Proof. intros Hi []. split; try done. intros k Hk. rewrite <- Hi by done. auto. Qed.

Lemma building_lock P s i :
  building P s -> 0 <= i < init_frames ->
  runs (PM.lock_frame i) s (fun _ s' => building (fun k => P k /\ k <> i) s').
Proof.
  intros HB Hi. pose proof HB as [Hok Hf _ _ _ Hbits].
  eapply runs_mono; [apply lock_frame_spec; [done|by rewrite Hf]|].
  intros [] s' (Hok' & Hp & Hlo & Hl & _). eapply building_pres; eauto.
  intros k Hk. rewrite (Hlo k), orb_false_iff, Z.eqb_neq, Hbits by done. intuition congruence.
Qed.

Lemma building_free P s i :
  building P s -> 0 <= i < init_frames ->
  runs (PM.free_frame i) s (fun _ s' => building (fun k => P k \/ k = i) s').
Proof.
  intros HB Hi. pose proof HB as [Hok Hf _ _ _ Hbits].
  eapply runs_mono; [apply free_frame_spec; [done|by rewrite Hf]|].
  intros [] s' (Hok' & Hp & Hlo & Hl & _). eapply building_pres; eauto.
  intros k Hk. rewrite (Hlo k), andb_false_iff, negb_false_iff, Z.eqb_eq, Hbits by done. intuition congruence.
Qed.

Lemma free_desc_spec s i :
  building (covered_below i) s -> 0 <= i < mm_entries (e_mmap e) ->
  runs (PM.free_desc e i) s (fun _ s' => building (covered_below (i + 1)) s').
Proof.
  intros HB Hi. apply runs_bind, runs_gets.
  assert (Hd : MM.desc (k_mem s) (e_mmap e) i = init_desc i).
  { apply desc_agree. intros a Ha. apply (bd_mem _ _ HB). by eapply boot_map. }
  rewrite Hd. destruct (MM.is_usable_memory (init_desc i)) eqn:Eu.
  - pose proof (read64_range m0 (MM.get_desc (e_mmap e) i + 24)) as Hpg.
    change (0 <= d_pages (init_desc i) < 2 ^ 64) in Hpg.
    apply runs_for_loop with (I := fun n t => building (fun k => covered_below i k \/
      d_paddr (init_desc i) / FRAME_SZ <= k < d_paddr (init_desc i) / FRAME_SZ + n) t).
    + eapply building_iff; [|exact HB]. intros k Hk. split; [by left|]. intros [?|?]; [done|lia].
    + intros n t Hn HBt. rewrite Z2Nat.id in Hn by lia.
      unfold PM.ptr_to_frame_idx. rewrite Z.div_add by done.
      eapply runs_mono; [apply building_free; [done|]|].
      * eapply boot_usable; [done|done|]. split; [done|lia].
      * intros [] t'. apply building_iff. intros k Hk. split; [intros [[?|?]|?]|intros [?|?]]; auto.
        -- right. lia.
        -- right. lia.
        -- destruct (decide (k = d_paddr (init_desc i) / FRAME_SZ + n)); [by right|left; right; lia].
    + intros t. apply building_iff. intros k Hk. rewrite Z2Nat.id by lia. split.
      * intros [(d & Hd' & Hc)|Hr]; [exists d; split; [lia|done]|exists i; split; [lia|by split]].
      * intros (d & Hd' & Hc). destruct (decide (d = i)) as [->|]; [right; apply Hc|left; exists d; split; [lia|done]].
  - apply runs_ret. eapply building_iff; [|exact HB]. intros k Hk. split.
    + intros (d & Hd' & Hc). exists d. split; [lia|done].
    + intros (d & Hd' & Hc). exists d. split; [|done]. destruct (decide (d = i)) as [->|]; [|lia].
      destruct Hc as [Hc _]. congruence.
Qed.

(** The bitmap object just after [__init_bitmap]. *)
Lemma init_bitmap_spec (s : kst C) :
  k_mem s = m0 ->
  runs (PM.__init_bitmap e) s (fun b s' => b = mkBitmap (e_bitmap_self e) (snd init_seg) init_size /\
    (forall i, 0 <= i < init_frames -> Bm.get (k_mem s') b i = false) /\
    (forall a, ~ (snd init_seg <= a < snd init_seg + init_size) -> mget (k_mem s') a = mget m0 a) /\
    MM.get_page_frames_number (k_mem s') (e_mmap e) = init_frames).
Proof.
  intros Hm. unfold runs, PM.__init_bitmap. rewrite Hm. fold init_seg init_frames.
  pose proof Hboot as [B1 B2 B3 B4 B5 B6 B7]. pose proof init_frames_lt.
  destruct init_seg as [sz seg] eqn:Eseg. simpl in B2. fold init_frames.
  assert (0 <= init_frames / 8) by (apply Z.div_pos; lia).
  destruct (Z.ltb_spec 0 sz); [|lia]. destruct (Z.ltb_spec 0 init_frames); [|lia].
  destruct (Z.ltb_spec (init_frames / 8) sz); [|lia]. simpl negb. cbv iota.
  pose proof (make_spec m0 (e_bitmap_self e) seg init_frames ltac:(lia)) as Hmk.
  unfold Bm.make in *. rewrite u64_small in * by lia. fold init_size in *.
  destruct Hmk as (_ & _ & Hsz & Hbits & Hout). simpl in *.
  do 2 eexists. split; [done|]. simpl. split_and!; [done| |done|].
  - intros i Hi. apply Hbits. lia.
  - unfold init_frames, MM.get_page_frames_number, MM.__get_entire_memory_size.
    rewrite (u64_small (mm_entries (e_mmap e) - 1)) by lia. erewrite desc_agree; [done|].
    intros a Ha. apply Hout. intros Hin. eapply B4; [|exact Ha|exact Hin]. lia.
Qed.

(** All frames are free before the loops. *)
Lemma count_none n : count (fun _ => false) n = 0.
Proof. induction n; simpl; lia. Qed.

Lemma building_start m c :
  let b := mkBitmap (e_bitmap_self e) (snd init_seg) init_size in
  (forall i, 0 <= i < init_frames -> Bm.get m b i = false) ->
  (forall a, ~ (snd init_seg <= a < snd init_seg + init_size) -> mget m a = mget m0 a) ->
  building (fun _ => True) (mkK m (mkPMem 0 init_frames 0 init_frames b) c).
Proof.
  intros b Hbits Hmem. pose proof Hboot as [B1 B2 B3 B4 B5 B6 B7]. pose proof init_frames_lt. set (s := mkK _ _ _).
  assert (Hall : forall k, 0 <= k < init_frames -> frame_locked s k = false) by (intros; by apply Hbits).
  split; try done.
  - split; simpl; try lia; [unfold init_size; zdm| |].
    + rewrite count_negb, (count_ext _ (fun _ => false)), count_none by (intros; apply Hall; lia). lia.
    + by rewrite (count_ext _ (fun _ => false)), count_none by (intros; apply Hall; lia).
  - intros k Hk. by rewrite Hall by done.
Qed.

(** The checks at the end pass when some frame is left. *)
Lemma construct_checks s k0 :
  building (fun k => covered_below (mm_entries (e_mmap e)) k /\ ~ relocked k) s ->
  0 <= k0 < init_frames -> covered_below (mm_entries (e_mmap e)) k0 /\ ~ relocked k0 ->
  0 < locked_frames (k_pmem s) /\ 0 < free_frames (k_pmem s) /\ frame_locked s 0 = true.
Proof.
  intros [Hok Hfr _ _ _ Hb] Hk0 Hfree. pose proof Hboot as [B1 B2 B3 B4 B5 B6 B7].
  assert (Hz : frame_locked s 0 = true).
  { destruct (frame_locked s 0) eqn:E; [done|]. apply Hb in E; [|lia]. destruct E as [_ []]. by left. }
  split_and!; [| |done].
  - rewrite (ok_locked _ Hok). apply count_pos with (i := 0); [lia|done].
  - rewrite (ok_free _ Hok). apply count_pos with (i := k0); [lia|]. by rewrite (proj2 (Hb k0 Hk0)).
Qed.

(** [PMem::PMem] builds a consistent allocator in which a frame is free exactly
    when the memory map makes it usable and it is not locked again. *)
Lemma construct_spec (s : kst C) :
  k_mem s = m0 ->
  (exists k, 0 <= k < init_frames /\ covered_below (mm_entries (e_mmap e)) k /\ ~ relocked k) ->
  runs (PM.construct e) s (fun _ s' =>
    building (fun k => covered_below (mm_entries (e_mmap e)) k /\ ~ relocked k) s').
Proof.
  intros Hm (k0 & Hk0 & Hcov & Hre). pose proof Hboot as [B1 B2 B3 B4 B5 B6 B7]. pose proof init_frames_lt.
  unfold PM.construct. apply runs_bind. eapply runs_mono; [by apply init_bitmap_spec|].
  intros b s1 (-> & Hbits & Hmem & Hn). apply runs_bind, runs_gets. rewrite Hn.
  apply runs_bind, runs_modify. apply runs_bind, runs_assert; [by apply Z.ltb_lt|].
  apply runs_bind. pose proof (building_start (k_mem s1) (k_con s1) Hbits Hmem) as HB2.
  apply runs_for_loop with (I := fun i t => building (fun k => i <= k) t).
  { eapply building_iff; [|exact HB2]. intros. split; [lia|done]. }
  { intros i t Hi HBt. eapply runs_mono; [apply building_lock; [done|lia]|].
    intros [] t'. apply building_iff. intros k Hk. lia. }
  intros s3 HB3. apply runs_bind.
  apply runs_for_loop with (I := fun i t => building (covered_below i) t).
  { eapply building_iff; [|exact HB3]. intros k Hk. split; [lia|]. intros (d & Hd & _). lia. }
  { intros i t Hi HBt. apply free_desc_spec; [done|lia]. }
  intros s4 HB4. rewrite Z2Nat.id, Z.add_0_l in HB4 by lia.
  apply runs_bind. eapply runs_mono; [apply building_lock; [exact HB4|lia]|]. intros [] s5 HB5.
  apply runs_bind. eapply runs_mono; [apply building_lock; [exact HB5|done]|]. intros [] s6 HB6.
  apply runs_bind. unfold Bm.get_mem_size, Bm.buf, PM.ptr_to_frame_idx. simpl bm_size. simpl bm_self.
  assert (Hsz : 0 <= init_size / FRAME_SZ) by (unfold init_size; apply Z.div_pos; [zdm|done]).
  apply runs_for_loop with (I := fun i t => building (fun k =>
    ((covered_below (mm_entries (e_mmap e)) k /\ k <> 0) /\ k <> e_stack e / FRAME_SZ) /\
    ~ (e_bitmap_self e / FRAME_SZ <= k < e_bitmap_self e / FRAME_SZ + i)) t).
  { eapply building_iff; [|exact HB6]. intros k Hk. simpl. intuition lia. }
  { intros i t Hi HBt. eapply runs_mono; [apply building_lock; [done|lia]|].
    intros [] t'. apply building_iff. intros k Hk. simpl. intuition lia. }
  intros s7 HB7. rewrite Z2Nat.id, Z.add_0_l in HB7 by lia.
  assert (HB : building (fun k => covered_below (mm_entries (e_mmap e)) k /\ ~ relocked k) s7).
  { eapply building_iff; [|exact HB7]. intros k Hk. unfold relocked. simpl. intuition lia. }
  destruct (construct_checks s7 k0 HB Hk0) as (H1 & H2 & H3); [done|]. apply runs_bind, runs_gets.
  do 2 (apply runs_bind, runs_assert; [by apply Z.ltb_lt|]). apply runs_bind, runs_gets, runs_assert; done.
Qed.
End Construct.
