(* ===== verification/Paging.v ===== *)
(** * Paging: the 4-level page tables, memory/paging.cpp

    Page tables are 64-bit entries in physical memory.  The hardware's view of
    them (IM3, 4.5) is the reference: [translate] is the walk the MMU performs. *)
From Stdlib Require Import String.
From S2P Require Import Prelude Memory Libc Printf Bitmap MMap PMem.

(** [PagingConsts::PAGE_SZ], [PAGE_OFFSET_BITS], [BITS_9_MASK]. *)
Definition PAGE_SZ : Z := FRAME_SZ.
Definition PAGE_OFFSET_BITS : Z := 12.
Definition BITS_9_MASK : Z := 0x1ff.

(** ** Bit-fields of a 64-bit entry *)

(** The fields the code uses; the four entry types have the same layout here:
    [present] bit 0, [rw] bit 1, and the address field, 32 bits from bit 12
    ([pdpt_addr], [pd_addr], [pt_addr], [page_addr]). *)
Definition e_present (w : Z) : bool := negb (get_field w 0 1 =? 0).
Definition e_addr (w : Z) : Z := get_field w 12 32.
Definition set_present (w : Z) : Z := set_field w 0 1 1.
Definition set_rw (w : Z) : Z := set_field w 1 1 1.
Definition set_addr (w v : Z) : Z := set_field w 12 32 v.

(** [entry->xx_addr << PAGE_OFFSET_BITS]: a 32-bit bit-field promotes to
    [unsigned int], so the shift is done in 32 bits. *)
Definition table_ptr (w : Z) : Z := u32 (Z.shiftl (e_addr w) PAGE_OFFSET_BITS).

(** ** The MMU's view: IM3, 4.5 *)

(** The table an entry of a PML4, PDPT or PD points to (bits 51:12), unless it
    is absent or maps a large page (bit 7). *)
Definition hw_next (w : Z) : option Z :=
  if e_present w && negb (Z.testbit w 7) then Some (Z.shiftl (get_field w 12 40) 12) else None.

Fixpoint walk (m : mem) (t : Z) (path : list Z) : option Z :=
  match path with
  | [] => Some t
  | i :: path' => t' ← hw_next (read64 m (t + 8 * i)); walk m t' path'
  end.

(** The indices of a linear address, 9 bits each, from the root down. *)
Definition va_index (lvl va : Z) : Z := (va / 2 ^ (12 + 9 * lvl)) mod 512.
Definition va_path (va : Z) : list Z := [va_index 3 va; va_index 2 va; va_index 1 va].

Definition translate (m : mem) (root va : Z) : option Z :=
  t ← walk m root (va_path va);
  let w := read64 m (t + 8 * va_index 0 va) in
  if e_present w then Some (Z.shiftl (get_field w 12 40) 12 + va mod 4096) else None.

Record PageIndexer : Type := mkPageIndexer {
  ix_pml4 : Z;
  ix_pdpt : Z;
  ix_pd : Z;
  ix_pt : Z
}.

Module Pg.

(** [PageIndexer::PageIndexer]. *)
Definition indexer (vaddr : Z) : PageIndexer :=
  let v1 := Z.shiftr vaddr PAGE_OFFSET_BITS in
  let v2 := Z.shiftr v1 9 in
  let v3 := Z.shiftr v2 9 in
  let v4 := Z.shiftr v3 9 in
  mkPageIndexer (u16 (Z.land v4 BITS_9_MASK)) (u16 (Z.land v3 BITS_9_MASK))
                (u16 (Z.land v2 BITS_9_MASK)) (u16 (Z.land v1 BITS_9_MASK)).

(** [&T[i]] for a table of 8-byte entries. *)
Definition entry_at (table i : Z) : Z := table + 8 * i.

(** The value [set_cr3_register] loads into CR3. *)
Definition cr3_value (paddr : Z) (pwt pcd : bool) : Z :=
  let c1 := if pwt then set_bit paddr 3 else paddr in
  if pcd then set_bit c1 4 else c1.

Section Pg.
Context {C : Type} `{ConsoleI C}.
Local Abbreviation K := (M (kst C)).

(** A bit-field assignment: read, change and write back the entry at [ea]. *)
Definition update_entry (ea : Z) (f : Z -> Z) : K unit := modify (fun s =>
  mkK (write64 (k_mem s) ea (f (read64 (k_mem s) ea))) (k_pmem s) (k_con s)).

(** One level of [allocate_page]: the table that the entry at [ea] points to,
    created when the entry is not present. *)
Definition next_table (ea : Z) : K Z :=
  w ← gets (fun s => read64 (k_mem s) ea);
  if negb (e_present w) then
    t ← PM.request_frame;
    ASSERT (negb (t =? 0));;
    modify (fun s => mkK (memset (k_mem s) t 0 PAGE_SZ) (k_pmem s) (k_con s));;
    update_entry ea (fun w => set_addr w (Z.shiftr t PAGE_OFFSET_BITS));;
    update_entry ea set_present;;
    update_entry ea set_rw;;
    mret t
  else mret (table_ptr w).

(** [Paging::allocate_page]; [pml4] is the address of the [PML4] array. *)
Definition allocate_page (pml4 vaddr paddr : Z) : K unit :=
  let index := indexer vaddr in
  pdpt ← next_table (entry_at pml4 (ix_pml4 index));
  pd ← next_table (entry_at pdpt (ix_pdpt index));
  pt ← next_table (entry_at pd (ix_pd index));
  let ea := entry_at pt (ix_pt index) in
  update_entry ea (fun w => set_addr w (Z.shiftr paddr PAGE_OFFSET_BITS));;
  update_entry ea set_present;;
  update_entry ea set_rw.

(** [Paging::is_page_allocated]. *)
Definition is_page_allocated (pml4 vaddr : Z) (m : mem) : bool :=
  let index := indexer vaddr in
  let w4 := read64 m (entry_at pml4 (ix_pml4 index)) in
  if negb (e_present w4) then false else
  let w3 := read64 m (entry_at (table_ptr w4) (ix_pdpt index)) in
  if negb (e_present w3) then false else
  let w2 := read64 m (entry_at (table_ptr w3) (ix_pd index)) in
  if negb (e_present w2) then false else
  e_present (read64 m (entry_at (table_ptr w2) (ix_pt index))).

(** [Paging::__identity_paging]. *)
Definition identity_count (n : Z) : Z := u64 (n / (PAGE_SZ + 1) + 1).
Fixpoint identity_loop (pml4 : Z) (k : nat) (addr : Z) : K unit :=
  match k with
  | O => mret tt
  | S k' => allocate_page pml4 addr addr;; identity_loop pml4 k' (u64 (addr + PAGE_SZ))
  end.
Definition __identity_paging (pml4 addr n : Z) : K unit :=
  identity_loop pml4 (Z.to_nat (identity_count n)) addr.

(** The device regions [Paging::init] maps besides the memory map. *)
Record regions : Type := mkRegions {
  r_fb_addr : Z;      (** [kernel.framebuffer->get_fb_addr()] *)
  r_fb_size : Z;      (** [kernel.framebuffer->b_size] *)
  r_lapic_addr : Z;   (** [kernel.acpi_tables.madt->lapic_addr] *)
  r_ioapic_addr : Z;  (** [kernel.acpi_tables.ioapic->io_apic_addr] *)
  r_hpet_addr : Z;    (** [kernel.acpi_tables.hpet->base_address.address] *)
  r_hpet_size : Z     (** [hpet::get_mmio_sz()] *)
}.

(** [Paging::init]. *)
Definition init (pml4 : Z) (mm : MemoryMap) (r : regions) : K unit :=
  for_loop (Z.to_nat (mm_entries mm)) 0 (fun i =>
    d ← gets (fun s => MM.desc (k_mem s) mm i);
    __identity_paging pml4 (d_paddr d) (u64 (FRAME_SZ * d_pages d)));;
  __identity_paging pml4 (r_fb_addr r) (r_fb_size r);;
  __identity_paging pml4 (r_lapic_addr r) 4096;;
  __identity_paging pml4 (r_ioapic_addr r) 8;;
  __identity_paging pml4 (r_hpet_addr r) (r_hpet_size r).

(** The control registers the constructor writes. *)
Record cpu_regs : Type := mkRegs {
  cr0 : Z;
  cr3 : Z;
  cr4 : Z;
  efer : Z   (** the MSR [IA32_EFER] *)
}.

(** [enable_cpu_4_level_paging] of memory/paging.asm, with its operands as the source
    writes them: the one of the last [and] has bit 57 clear only.  (The instructions have
    immediates of 32 bits, which the processor extends by their sign, so that neither
    [1 << 31] nor [~(1 << 57)] can be encoded exactly.  The theorems speak of PG, PAE and
    LME only, which are set in either reading.) *)
Definition enable_cpu_4_level_paging (r : cpu_regs) : cpu_regs :=
  let c4 := Z.lor (cr4 r) (Z.shiftl 1 5) in
  mkRegs (Z.lor (cr0 r) (Z.shiftl 1 31)) (cr3 r) (Z.land c4 (Z.lnot (Z.shiftl 1 57))) (efer r).

(** A byte access through the MMU: the walk starts at bits 51:12 of CR3. *)
Definition mmu (r : cpu_regs) (m : mem) (va : Z) : option Z :=
  translate m (Z.shiftl (get_field (cr3 r) 12 40) 12) va.
Definition vstore8 (r : cpu_regs) (va v : Z) : K unit := fun s =>
  match mmu r (k_mem s) va with
  | None => Fail PageFault
  | Some pa => Done (tt, mkK (mput (k_mem s) pa v) (k_pmem s) (k_con s))
  end.
Definition vload8 (r : cpu_regs) (va : Z) : K Z := fun s =>
  match mmu r (k_mem s) va with
  | None => Fail PageFault
  | Some pa => Done (mget (k_mem s) pa, s)
  end.
Definition kpanic (msg : list Z) : K unit := fun s =>
  c ← Printf.kpanic msg (k_con s); Done (tt, mkK (k_mem s) (k_pmem s) c).

(** [Paging::Paging]; returns the control registers. *)
Definition construct (pml4 : Z) (mm : MemoryMap) (rg : regions) (regs : cpu_regs) : K cpu_regs :=
  modify (fun s => mkK (memset (k_mem s) pml4 0 (8 * 512)) (k_pmem s) (k_con s));;
  let r1 := enable_cpu_4_level_paging regs in
  let r2 := mkRegs (cr0 r1) (cr3 r1) (cr4 r1) (set_bit (efer r1) 8) in
  init pml4 mm rg;;
  let r3 := mkRegs (cr0 r2) (cr3_value pml4 false false) (cr4 r2) (efer r2) in
  let test_addr := 0x99999999999 in
  allocate_page pml4 test_addr 0;;
  vstore8 r3 test_addr 123;;
  v ← vload8 r3 test_addr;
  (if negb (v =? 123) then kpanic (cs "Paging test failed!") else mret tt);;
  mret r3.

End Pg.
End Pg.

(** ** Bit-field lemmas *)
Lemma e_present_bit w : e_present w = Z.testbit w 0.
Proof.
  unfold e_present. rewrite <- (land_pow2_testbit w 0) by lia. unfold get_field.
  by rewrite Z.shiftr_0_r.
Qed.

(** The entry written for an address field [v] over the old value [w]. *)
Definition new_entry (w v : Z) : Z := set_rw (set_present (set_addr w v)).

(** No bit outside the fields that the code uses: not a large page, and the
    address fits the 32 bits of the software field. *)
Definition clean (w : Z) : Prop := Z.testbit w 7 = false /\ forall i, 44 <= i -> Z.testbit w i = false.

Lemma clean_0 : clean 0.
Proof. split; intros; apply Z.bits_0. Qed.

Lemma new_entry_bits w v i : 0 <= i ->
  Z.testbit (new_entry w v) i =
    (i =? 0) || (i =? 1) || (if (12 <=? i) && (i <? 44) then Z.testbit v (i - 12) else Z.testbit w i).
Proof.
  intros Hi. unfold new_entry, set_rw, set_present, set_addr. rewrite !set_field_bits by lia.
  destruct (Z.eqb_spec i 0) as [->|]; [done|]. destruct (Z.eqb_spec i 1) as [->|]; [done|].
  replace ((1 <=? i) && (i <? 1 + 1)) with false by (symmetry; apply andb_false_iff; lia).
  replace ((0 <=? i) && (i <? 0 + 1)) with false by (symmetry; apply andb_false_iff; lia).
  done.
Qed.

Lemma new_entry_range w v : 0 <= w < 2 ^ 64 -> 0 <= new_entry w v < 2 ^ 64.
Proof.
  intros. unfold new_entry, set_rw, set_present, set_addr.
  do 3 (apply set_field_range; [|lia..]). done.
Qed.

Lemma new_entry_present w v : e_present (new_entry w v) = true.
Proof. rewrite e_present_bit, new_entry_bits by lia. done. Qed.

Lemma new_entry_clean w v : clean w -> clean (new_entry w v).
Proof.
  intros [H7 Hhi]. split.
  - rewrite new_entry_bits by lia. done.
  - intros i Hi. rewrite new_entry_bits by lia. rewrite Hhi by lia.
    destruct (Z.eqb_spec i 0), (Z.eqb_spec i 1), (Z.ltb_spec i 44); try lia. by rewrite andb_false_r.
Qed.

Lemma new_entry_addr w v : clean w -> get_field (new_entry w v) 12 40 = u32 v.
Proof.
  intros [_ Hhi]. apply Z.bits_inj'. intros i Hi. rewrite get_field_bits, new_entry_bits by lia.
  unfold u32. destruct (decide (i < 32)).
  - rewrite Z.mod_pow2_bits_low by lia.
    destruct (Z.ltb_spec i 40), (Z.eqb_spec (i + 12) 0), (Z.eqb_spec (i + 12) 1), (Z.leb_spec 12 (i + 12)),
      (Z.ltb_spec (i + 12) 44); try lia. simpl. f_equal. lia.
  - rewrite Z.mod_pow2_bits_high by lia. rewrite Hhi by lia.
    destruct (Z.eqb_spec (i + 12) 0), (Z.eqb_spec (i + 12) 1), (Z.ltb_spec (i + 12) 44); try lia.
    by rewrite !andb_false_r.
Qed.

Lemma clean_addr w : clean w -> get_field w 12 40 = e_addr w.
Proof.
  intros [_ Hhi]. apply Z.bits_inj'. intros i Hi. unfold e_addr. rewrite !get_field_bits by lia.
  destruct (Z.ltb_spec i 40), (Z.ltb_spec i 32); try lia; try done. rewrite Hhi by lia. done.
Qed.

Lemma hw_next_clean w : clean w -> hw_next w = if e_present w then Some (Z.shiftl (e_addr w) 12) else None.
Proof.
  intros Hc. unfold hw_next. rewrite (proj1 Hc), andb_true_r, clean_addr by done. done.
Qed.

(** ** Walks *)
Lemma walk_snoc m t path i :
  walk m t (path ++ [i]) = (t' ← walk m t path; hw_next (read64 m (t' + 8 * i))).
Proof.
  revert t. induction path as [|k path IH]; intros t; simpl.
  - by destruct (hw_next _).
  - destruct (hw_next _); simpl; auto.
Qed.

Definition path_ok (p : list Z) : Prop := (length p <= 3)%nat /\ Forall (fun i => 0 <= i < 512) p.

Lemma path_ok_snoc p i : path_ok (p ++ [i]) <-> path_ok p /\ (length p < 3)%nat /\ 0 <= i < 512.
Proof.
  unfold path_ok. rewrite length_app, Forall_app, Forall_singleton. simpl. intuition lia.
Qed.

Definition in_page (t a : Z) : Prop := t <= a < t + PAGE_SZ.

Lemma page_disjoint t t' a : t mod 4096 = 0 -> t' mod 4096 = 0 -> in_page t a -> in_page t' a -> t = t'.
Proof. unfold in_page, PAGE_SZ, FRAME_SZ. intros. zdm. Qed.

Lemma in_page_frame t a : t mod 4096 = 0 -> in_page t a -> a / 4096 = t / 4096.
Proof. unfold in_page, PAGE_SZ, FRAME_SZ. intros. zdm. Qed.

(** [m'] differs from [m] at one entry of one table, and on pages of no table. *)
Section WalkUpdate.
Context (m m' : mem) (root : Z).
Hypothesis inj : forall p q t, path_ok p -> path_ok q ->
  walk m root p = Some t -> walk m root q = Some t -> p = q.

(** Entries of the tables of [m], apart from [(t0, i0)], read the same. *)
Definition same_entries (t0 i0 : Z) : Prop :=
  forall p t i, path_ok p -> walk m root p = Some t -> 0 <= i < 512 -> (t, i) <> (t0, i0) ->
    read64 m' (t + 8 * i) = read64 m (t + 8 * i).

(** Linking a fresh, empty table [nt] at entry [i0] of the table at [p0] adds
    exactly that path. *)
Lemma walk_link p0 t0 i0 nt :
  path_ok (p0 ++ [i0]) -> walk m root p0 = Some t0 -> same_entries t0 i0 ->
  e_present (read64 m (t0 + 8 * i0)) = false ->
  hw_next (read64 m' (t0 + 8 * i0)) = Some nt ->
  (forall i, 0 <= i < 512 -> e_present (read64 m' (nt + 8 * i)) = false) ->
  forall q, path_ok q ->
    walk m' root q = if decide (q = p0 ++ [i0]) then Some nt else walk m root q.
Proof.
  intros Hp0 Hw0 Hsame Habs Hnew Hempty q. apply path_ok_snoc in Hp0 as (Hp0 & Hl0 & Hi0).
  assert (Hnone : walk m root (p0 ++ [i0]) = None).
  { rewrite walk_snoc, Hw0. simpl. unfold hw_next. by rewrite Habs. }
  induction q as [|i q IH] using rev_ind; intros Hq.
  - rewrite decide_False; [done|]. intros E. symmetry in E. by apply app_nil in E as [_ ?].
  - apply path_ok_snoc in Hq as (Hq & Hlq & Hi). rewrite !walk_snoc, IH by done.
    case_decide as E1.
    + subst q. simpl. rewrite Hnone. simpl. rewrite decide_False; [|by intros ?%app_inj_tail_iff%proj1%(f_equal length);
        rewrite length_app in *; simpl in *; lia].
      unfold hw_next. by rewrite Hempty.
    + destruct (walk m root q) as [t|] eqn:Ew; simpl.
      * case_decide as E2.
        -- apply app_inj_tail in E2 as [-> ->]. rewrite Hw0 in Ew. injection Ew as <-. done.
        -- rewrite (Hsame q t i); try done. intros [= -> ->]. apply E2.
           by rewrite (inj q p0 t0 Hq Hp0 Ew Hw0).
      * rewrite decide_False; [done|]. intros [-> ->]%app_inj_tail. congruence.
Qed.

(** Changing an entry of a last-level table changes no walk. *)
Lemma walk_leaf p0 t0 i0 :
  path_ok p0 -> length p0 = 3%nat -> walk m root p0 = Some t0 -> same_entries t0 i0 ->
  forall q, path_ok q -> walk m' root q = walk m root q.
Proof.
  intros Hp0 Hl0 Hw0 Hsame q. induction q as [|i q IH] using rev_ind; intros Hq; [done|].
  apply path_ok_snoc in Hq as (Hq & Hlq & Hi). rewrite !walk_snoc, IH by done.
  destruct (walk m root q) as [t|] eqn:Ew; simpl; [|done]. f_equal. apply (Hsame q t i); try done.
  intros [= -> ->]. rewrite (inj q p0 t0 Hq Hp0 Ew Hw0) in Hlq. lia.
Qed.
End WalkUpdate.

(** ** The invariant of the page tables *)
Section Inv.
Context {C : Type} `{ConsoleI C} (root : Z).
Implicit Types s : kst C.

(** The tables form a tree: aligned pages, each in a locked frame below 4 GiB
    and outside the allocator's bitmap, reached by one path only. *)
Record pt_wf (s : kst C) : Prop := {
  wf_align : forall p t, path_ok p -> walk (k_mem s) root p = Some t -> t mod 4096 = 0;
  wf_frame : forall p t, path_ok p -> walk (k_mem s) root p = Some t ->
    0 < t / 4096 < frames (k_pmem s) /\ frame_locked s (t / 4096) = true;
  wf_buf : forall p t a, path_ok p -> walk (k_mem s) root p = Some t -> in_page t a ->
    ~ in_buf (bitmap (k_pmem s)) a;
  wf_inj : forall p q t, path_ok p -> path_ok q ->
    walk (k_mem s) root p = Some t -> walk (k_mem s) root q = Some t -> p = q;
  wf_clean : forall p t i, path_ok p -> walk (k_mem s) root p = Some t -> 0 <= i < 512 ->
    clean (read64 (k_mem s) (t + 8 * i))
}.

Record paging_ok (s : kst C) : Prop := {
  pg_pmem : pmem_ok s;
  pg_zero : frame_locked s 0 = true;
  pg_low : frames (k_pmem s) <= 2 ^ 20;
  pg_bitmap : forall a, in_buf (bitmap (k_pmem s)) a ->
    0 <= a / 4096 < frames (k_pmem s) /\ (frame_locked s (a / 4096) = true \/ horizon s <= a / 4096);
  pg_wf : pt_wf s
}.

(** Addresses that no paging operation may touch: in locked frames, outside the
    bitmap and outside every table. *)
Definition private (s : kst C) (a : Z) : Prop :=
  0 <= a / 4096 < frames (k_pmem s) /\ frame_locked s (a / 4096) = true /\
  ~ in_buf (bitmap (k_pmem s)) a /\
  forall p t, path_ok p -> walk (k_mem s) root p = Some t -> ~ in_page t a.

(** What every paging operation guarantees: geometry kept, locked frames stay
    locked, private bytes kept and still private, bytes behind the last frame kept, tables
    stay linked. *)
Record pg_pres (s s' : kst C) : Prop := {
  pp_frames : frames (k_pmem s') = frames (k_pmem s);
  pp_bitmap : bitmap (k_pmem s') = bitmap (k_pmem s);
  pp_locked : forall k, 0 <= k < frames (k_pmem s) -> frame_locked s k = true -> frame_locked s' k = true;
  pp_last : last_free_idx (k_pmem s) <= last_free_idx (k_pmem s');
  pp_con : k_con s' = k_con s;
  pp_mem : forall a, private s a -> mget (k_mem s') a = mget (k_mem s) a;
  pp_high : forall a, frames (k_pmem s) <= a / 4096 -> mget (k_mem s') a = mget (k_mem s) a;
  pp_private : forall a, private s a -> private s' a;
  pp_walk : forall q t, path_ok q -> walk (k_mem s) root q = Some t -> walk (k_mem s') root q = Some t
}.

Global Instance pg_pres_preorder : PreOrder pg_pres.
Proof.
  split.
  - intros s. by split.
  - intros s1 s2 s3 [] []. split; try congruence; auto; try lia.
    + intros k Hk Hl. apply pp_locked1; [by rewrite pp_frames0|auto].
    + intros a Ha. rewrite pp_mem1 by auto. auto.
    + intros a Ha. rewrite pp_high1 by (by rewrite pp_frames0). auto.
Qed.

Lemma pt_entry_in_page t i : 0 <= i < 512 -> forall b, t + 8 * i <= b < t + 8 * i + 8 -> in_page t b.
Proof. unfold in_page, PAGE_SZ, FRAME_SZ. intros. lia. Qed.

(** The memory after the three bit-field assignments of an entry. *)
Definition write_entry (m : mem) (ea v : Z) : mem :=
  let m1 := write64 m ea (set_addr (read64 m ea) v) in
  let m2 := write64 m1 ea (set_present (read64 m1 ea)) in
  write64 m2 ea (set_rw (read64 m2 ea)).

Lemma write_entry_out m ea v a : ~ (ea <= a < ea + 8) -> mget (write_entry m ea v) a = mget m a.
Proof. intros. unfold write_entry. by rewrite !mget_write64_out. Qed.

(** They amount to one write of [new_entry]. *)
Lemma write_entry_same m ea v : read64 (write_entry m ea v) ea = new_entry (read64 m ea) v.
Proof.
  pose proof (read64_range m ea) as Hr. unfold write_entry.
  assert (H1 : 0 <= set_addr (read64 m ea) v < 2 ^ 64) by (apply set_field_range; lia).
  assert (H2 : 0 <= set_present (set_addr (read64 m ea) v) < 2 ^ 64) by (apply set_field_range; lia).
  rewrite (read64_write64 _ _ (set_addr _ _)) by done.
  rewrite (read64_write64 _ _ (set_present _)) by done.
  rewrite read64_write64; [done|]. by apply new_entry_range.
Qed.

(** The allocator does not notice writes outside its bitmap. *)
Lemma paging_bits_agree s s' :
  pmem_ok s -> k_pmem s' = k_pmem s -> agree (in_buf (bitmap (k_pmem s))) (k_mem s') (k_mem s) ->
  pmem_ok s' /\ (forall k, 0 <= k < frames (k_pmem s) -> frame_locked s' k = frame_locked s k) /\
  avail s' = avail s.
Proof.
  intros Hok Hp Ha. pose proof Hok as [Hf Hs Hl Hfree Hlock].
  assert (Hb : forall k, 0 <= k < frames (k_pmem s) -> frame_locked s' k = frame_locked s k).
  { intros k Hk. unfold frame_locked, PM.bit. rewrite Hp. apply get_agree; [lia|done]. }
  split_and!; [|done|].
  - split; rewrite Hp; try done.
    + rewrite Hfree. apply count_ext. intros. by rewrite Hb by lia.
    + rewrite Hlock. apply count_ext. intros. by rewrite Hb by lia.
  - unfold avail. rewrite Hp, (horizon_bits s s') by done. apply count_ext. intros. by rewrite Hb by lia.
Qed.

Lemma table_ptr_walk s p t i nt :
  paging_ok s -> path_ok (p ++ [i]) -> walk (k_mem s) root p = Some t ->
  e_present (read64 (k_mem s) (t + 8 * i)) = true ->
  nt = table_ptr (read64 (k_mem s) (t + 8 * i)) -> walk (k_mem s) root (p ++ [i]) = Some nt.
Proof.
  intros [Hok Hz Hlow Hbm Hwf] Hp Hw He ->. pose proof Hp as (Hp0 & Hl & Hi)%path_ok_snoc.
  assert (Hc : clean (read64 (k_mem s) (t + 8 * i))) by (by eapply wf_clean).
  assert (E : walk (k_mem s) root (p ++ [i]) = Some (Z.shiftl (e_addr (read64 (k_mem s) (t + 8 * i))) 12)).
  { rewrite walk_snoc, Hw. simpl. rewrite hw_next_clean by done. by rewrite He. }
  rewrite E. f_equal. destruct (wf_frame _ Hwf _ _ Hp E) as [Hr _].
  unfold table_ptr, PAGE_OFFSET_BITS. rewrite u32_small; [done|]. zdm.
Qed.

(** What linking a fresh table does to the memory. *)
Section Link.
Context (s s' : kst C) (p : list Z) (t i k : Z).
Hypothesis Hpg : paging_ok s.
Hypothesis Hp : path_ok (p ++ [i]).
Hypothesis Hw : walk (k_mem s) root p = Some t.
Hypothesis Habs : e_present (read64 (k_mem s) (t + 8 * i)) = false.
Hypothesis Hk : 0 <= k < horizon s.
Hypothesis Hfree : frame_locked s k = false.
Let nt := k * 4096.
Hypothesis Hgeo : frames (k_pmem s') = frames (k_pmem s) /\ bitmap (k_pmem s') = bitmap (k_pmem s).
Hypothesis Hok' : pmem_ok s'.
Hypothesis Hbits : forall j, 0 <= j < frames (k_pmem s) -> frame_locked s' j = (k =? j) || frame_locked s j.
Hypothesis Hlast : last_free_idx (k_pmem s) <= last_free_idx (k_pmem s').
Hypothesis Hcon : k_con s' = k_con s.
Hypothesis Hmem : forall a, ~ in_buf (bitmap (k_pmem s)) a -> ~ in_page nt a ->
  ~ (t + 8 * i <= a < t + 8 * i + 8) -> mget (k_mem s') a = mget (k_mem s) a.
Hypothesis Hent : read64 (k_mem s') (t + 8 * i) = new_entry (read64 (k_mem s) (t + 8 * i)) (Z.shiftr nt 12).
Hypothesis Hzero : forall j, 0 <= j < 512 -> read64 (k_mem s') (nt + 8 * j) = 0.

Let wf : pt_wf s := pg_wf _ Hpg.
Local Lemma nt_align : nt mod 4096 = 0.
Proof. unfold nt. apply Z.mod_mul. lia. Qed.
Local Lemma nt_frame : nt / 4096 = k.
Proof. unfold nt. apply Z.div_mul. lia. Qed.

(** The fresh page meets no table, and not the bitmap. *)
Local Lemma nt_not_table q tq : path_ok q -> walk (k_mem s) root q = Some tq -> tq <> nt.
Proof.
  intros Hq Hwq ->. destruct (wf_frame _ wf _ _ Hq Hwq) as [_ Hl]. rewrite nt_frame in Hl. congruence.
Qed.
Local Lemma nt_not_buf a : in_page nt a -> ~ in_buf (bitmap (k_pmem s)) a.
Proof.
  intros Ha Hb. destruct (pg_bitmap _ Hpg _ Hb) as [_ Hl].
  rewrite (in_page_frame nt a nt_align Ha), nt_frame in Hl. destruct Hl; [congruence|lia].
Qed.
Local Lemma link_horizon : horizon s' = horizon s.
Proof.
  destruct Hgeo as [Gf Gb]. apply horizon_same; [done|done| |]; intros j Hj; rewrite Hbits by done.
  - intros ->. apply orb_true_r.
  - intros Hjh. by rewrite (proj2 (Z.eqb_neq k j)) by lia.
Qed.

Local Lemma link_same : same_entries (k_mem s) (k_mem s') root t i.
Proof.
  intros q tq j Hq Hwq Hj Hne. apply path_ok_snoc in Hp as (Hp0 & Hl0 & Hi).
  apply read64_agree. intros b Hb. pose proof (pt_entry_in_page tq j Hj b Hb) as Hin.
  pose proof (wf_align _ wf _ _ Hq Hwq) as Haq.
  apply Hmem; [by eapply wf_buf| |].
  - intros Hn. apply (nt_not_table q tq Hq Hwq). by eapply page_disjoint; eauto using nt_align.
  - intros Hn. assert (tq = t) as ->.
    { eapply page_disjoint; [done|by apply (wf_align _ wf p t)|exact Hin|]. by apply (pt_entry_in_page t i). }
    apply Hne. f_equal. lia.
Qed.

Local Lemma link_new : hw_next (read64 (k_mem s') (t + 8 * i)) = Some nt.
Proof.
  pose proof Hp as (Hp0 & Hl0 & Hi)%path_ok_snoc.
  assert (Hc : clean (read64 (k_mem s) (t + 8 * i))) by (by eapply wf_clean).
  rewrite Hent, hw_next_clean by (by apply new_entry_clean).
  rewrite new_entry_present. f_equal. rewrite <- clean_addr by (by apply new_entry_clean).
  rewrite new_entry_addr by done. pose proof (pg_low _ Hpg).
  rewrite Z.shiftr_div_pow2, Z.shiftl_mul_pow2 by lia. change (2 ^ 12) with 4096.
  rewrite nt_frame. pose proof (horizon_le s). rewrite u32_small by lia. done.
Qed.

Lemma link_walk q : path_ok q ->
  walk (k_mem s') root q = if decide (q = p ++ [i]) then Some nt else walk (k_mem s) root q.
Proof.
  apply (walk_link (k_mem s) (k_mem s') root (wf_inj _ wf) p t i nt); auto using link_same, link_new.
  intros j Hj. rewrite Hzero by done. done.
Qed.

Lemma link_translate va : translate (k_mem s') root va = translate (k_mem s) root va.
Proof.
  assert (Hv : path_ok (va_path va)).
  { split; [done|]. repeat constructor; unfold va_index; apply Z.mod_pos_bound; lia. }
  assert (Hi0 : 0 <= va_index 0 va < 512) by (apply Z.mod_pos_bound; lia).
  unfold translate. rewrite link_walk by done. case_decide as E; cbn [mbind option_bind].
  - rewrite Hzero by done. rewrite E, walk_snoc, Hw. simpl. unfold hw_next. by rewrite Habs.
  - destruct (walk (k_mem s) root (va_path va)) as [tq|] eqn:Ew; [|done]. cbn [mbind option_bind].
    rewrite (link_same (va_path va) tq); [done|done|done|done|]. intros [= -> _].
    apply path_ok_snoc in Hp as (Hp0 & Hl0 & _).
    pose proof (wf_inj _ wf _ _ _ Hv Hp0 Ew Hw) as <-. simpl in Hl0. lia.
Qed.

Lemma link_wf : pt_wf s'.
Proof.
  destruct Hgeo as [Gf Gb]. pose proof Hp as (Hp0 & Hl0 & Hi)%path_ok_snoc.
  assert (Hsplit : forall q tq, path_ok q -> walk (k_mem s') root q = Some tq ->
    (q = p ++ [i] /\ tq = nt) \/ (q <> p ++ [i] /\ walk (k_mem s) root q = Some tq)).
  { intros q tq Hq. rewrite link_walk by done. case_decide; [intros [= <-]; by left|by right]. }
  split.
  - intros q tq Hq Hwq. destruct (Hsplit q tq Hq Hwq) as [[_ ->]|[_ Ho]]; [apply nt_align|by eapply wf_align].
  - intros q tq Hq Hwq. rewrite Gf. destruct (Hsplit q tq Hq Hwq) as [[_ ->]|[_ Ho]].
    + rewrite nt_frame. pose proof (horizon_le s). rewrite Hbits, Z.eqb_refl by lia. split; [|done].
      assert (k <> 0) by (intros ->; pose proof (pg_zero _ Hpg); congruence). lia.
    + destruct (wf_frame _ wf _ _ Hq Ho) as [Hr Hl]. split; [done|].
      rewrite Hbits by lia. by rewrite Hl, orb_true_r.
  - intros q tq a Hq Hwq Ha. rewrite Gb. destruct (Hsplit q tq Hq Hwq) as [[_ ->]|[_ Ho]].
    + by apply nt_not_buf.
    + by eapply wf_buf.
  - intros q r tq Hq Hr Hwq Hwr.
    destruct (Hsplit q tq Hq Hwq) as [[Eq Et]|[_ Hoq]], (Hsplit r tq Hr Hwr) as [[Er Et']|[_ Hor]].
    + congruence.
    + by destruct (nt_not_table r tq Hr Hor).
    + by destruct (nt_not_table q tq Hq Hoq).
    + by eapply wf_inj.
  - intros q tq j Hq Hwq Hj. destruct (Hsplit q tq Hq Hwq) as [[_ ->]|[_ Ho]].
    + rewrite Hzero by done. apply clean_0.
    + destruct (decide ((tq, j) = (t, i))) as [[= -> ->]|Hne].
      * rewrite Hent. apply new_entry_clean. by eapply wf_clean.
      * rewrite (link_same q tq j) by done. by eapply wf_clean.
Qed.

Lemma link_ok : paging_ok s' /\ pg_pres s s'.
Proof.
  destruct Hgeo as [Gf Gb]. pose proof Hpg as [Hok Hz Hlow Hbm Hwf].
  pose proof Hp as (Hp0 & Hl0 & Hi)%path_ok_snoc.
  pose proof (ok_frames _ Hok).
  assert (Hmono : forall j, 0 <= j < frames (k_pmem s) -> frame_locked s j = true -> frame_locked s' j = true).
  { intros j Hj Hl. rewrite Hbits by done. by rewrite Hl, orb_true_r. }
  split; [split|split]; try done; rewrite ?Gf, ?Gb; auto using link_wf.
  - apply Hmono; [lia|done].
  - intros a Ha. rewrite link_horizon. destruct (Hbm a Ha) as [? [?|?]]; auto.
  - intros a (Har & Hal & Hab & Hat). apply Hmem; [done| |].
    + intros Hn. rewrite (in_page_frame nt a nt_align Hn), nt_frame in Hal. congruence.
    + intros Hn. by apply (Hat p t Hp0 Hw), (pt_entry_in_page t i).
  - intros a Ha. apply Hmem.
    + intros Hb. destruct (Hbm a Hb) as [? _]. lia.
    + intros Hn. rewrite (in_page_frame nt a nt_align Hn), nt_frame in Ha. pose proof (horizon_le s). lia.
    + intros Hn%(pt_entry_in_page t i); [|done]. destruct (wf_frame _ Hwf p t Hp0 Hw) as [? _].
      rewrite (in_page_frame t a) in Ha; [lia| |done]. by eapply wf_align.
  - intros a (Har & Hal & Hab & Hat). split_and!; rewrite ?Gf, ?Gb; auto; try lia.
    intros q tq Hq. rewrite link_walk by done. case_decide; [intros [= <-]|by apply Hat].
    intros Hn. rewrite (in_page_frame nt a nt_align Hn), nt_frame in Hal. congruence.
  - intros q tq Hq Hwq. rewrite link_walk by done. rewrite decide_False; [done|]. intros ->.
    rewrite walk_snoc, Hw in Hwq. simpl in Hwq. unfold hw_next in Hwq. by rewrite Habs in Hwq.
Qed.
End Link.

(** The table at the end of a path that is still to be made. *)
Definition missing (s : kst C) (path : list Z) : Z :=
  match walk (k_mem s) root path with Some _ => 0 | None => 1 end.

Lemma missing_le s s' path : path_ok path -> pg_pres s s' -> 0 <= missing s' path <= missing s path.
Proof.
  intros Hp Hpp. unfold missing. destruct (walk (k_mem s) root path) as [t|] eqn:E.
  - by rewrite (pp_walk _ _ Hpp path t).
  - destruct (walk (k_mem s') root path); lia.
Qed.

(** What one level of [allocate_page] guarantees. *)
Definition table_step (path : list Z) (s : kst C) (nt : Z) (s' : kst C) : Prop :=
  paging_ok s' /\ pg_pres s s' /\ walk (k_mem s') root path = Some nt /\
  (forall va, translate (k_mem s') root va = translate (k_mem s) root va) /\
  avail s - missing s path <= avail s'.

(** The memory of [next_table] when it makes a table: the frame [k] cleared, its entry written. *)
Definition linked_mem (m : mem) (k ea : Z) : mem :=
  write_entry (memset m (k * 4096) 0 PAGE_SZ) ea (Z.shiftr (k * 4096) 12).

(** A frame that was free, linked as a table. *)
Section NewTable.
Context (s s1 : kst C) (p : list Z) (t i k : Z).
Hypothesis Hpg : paging_ok s.
Hypothesis Hp : path_ok (p ++ [i]).
Hypothesis Hw : walk (k_mem s) root p = Some t.
Hypothesis Habs : e_present (read64 (k_mem s) (t + 8 * i)) = false.
Hypothesis Hk : last_free_idx (k_pmem s) <= k < horizon s.
Hypothesis Hfree : frame_locked s k = false.
Hypothesis Htook : took_frame k s (k * 4096) s1.
Let ea := t + 8 * i.
Let nt := k * 4096.
Let s3 : kst C := mkK (linked_mem (k_mem s1) k ea) (k_pmem s1) (k_con s1).
Let wf : pt_wf s := pg_wf _ Hpg.

Local Lemma new_table_page : nt mod 4096 = 0 /\ nt / 4096 = k.
Proof. unfold nt. split; [apply Z.mod_mul|apply Z.div_mul]; lia. Qed.

(** The new page is neither in the bitmap nor in the table that links it. *)
Local Lemma new_table_buf a : in_page nt a -> ~ in_buf (bitmap (k_pmem s)) a.
Proof.
  intros Ha Hb. destruct new_table_page as [E1 E2], (pg_bitmap _ Hpg _ Hb) as [_ Hlk].
  rewrite (in_page_frame _ a E1 Ha), E2 in Hlk. destruct Hlk; [congruence|lia].
Qed.
Local Lemma new_table_entry a : ea <= a < ea + 8 -> in_page t a /\ ~ in_page nt a.
Proof.
  pose proof Hp as (Hp0 & Hl0 & Hi)%path_ok_snoc. intros Ha. assert (H1 : in_page t a) by (by apply (pt_entry_in_page t i)).
  split; [done|]. intros H2. destruct new_table_page as [E1 E2].
  assert (t = nt) as -> by (eapply page_disjoint; eauto; by eapply wf_align).
  destruct (wf_frame _ wf _ _ Hp0 Hw) as [_ Hlk]. rewrite E2 in Hlk. congruence.
Qed.

Local Lemma new_table_mem a : ~ (ea <= a < ea + 8) ->
  mget (k_mem s3) a = if decide (in_page nt a) then 0 else mget (k_mem s1) a.
Proof. intros Ha. simpl. unfold linked_mem. rewrite write_entry_out by done. by rewrite mget_memset by done. Qed.

Local Lemma new_table_zero j : 0 <= j < 512 -> read64 (k_mem s3) (nt + 8 * j) = 0.
Proof.
  intros Hj. rewrite <- (load_memset_zero 8 (k_mem s1) nt PAGE_SZ (nt + 8 * j)); [|done|lia|unfold PAGE_SZ, FRAME_SZ; lia].
  apply read64_agree. intros b Hb. simpl. unfold linked_mem. rewrite write_entry_out; [done|].
  intros [_ Hn]%new_table_entry. by apply Hn, (pt_entry_in_page _ j).
Qed.

Local Lemma new_table_value : read64 (k_mem s3) ea = new_entry (read64 (k_mem s) ea) (Z.shiftr nt 12).
Proof.
  pose proof Hp as (Hp0 & Hl0 & Hi)%path_ok_snoc. destruct Htook as (_ & _ & [_ _ Pm] & _).
  simpl. unfold linked_mem. rewrite write_entry_same. f_equal. apply read64_agree. intros b [H1 H2]%new_table_entry.
  rewrite mget_memset, decide_False by done. apply Pm. by eapply wf_buf.
Qed.

Lemma new_table_step : avail s - 1 <= avail s1 -> table_step (p ++ [i]) s nt s3.
Proof.
  intros Hav. destruct Htook as (_ & Hok1 & [Pf1 Pb1 Pm1] & Hlo1 & Hlast1 & Hc1). pose proof (ok_last _ (pg_pmem _ Hpg)).
  pose proof Hp as (Hp0 & Hl0 & Hi)%path_ok_snoc. destruct new_table_page as [E1 E2].
  assert (k <> 0) by (intros ->; pose proof (pg_zero _ Hpg); congruence).
  destruct (paging_bits_agree s1 s3) as (Hok3 & Hb3 & Hav3); [done|done| |].
  { intros a Ha. rewrite Pb1 in Ha. rewrite new_table_mem, decide_False; [done| |].
    - intros Hn. by apply (new_table_buf a).
    - intros [Hn _]%new_table_entry. by eapply wf_buf. }
  assert (Hbit3 : forall j, 0 <= j < frames (k_pmem s) -> frame_locked s3 j = (k =? j) || frame_locked s j).
  { intros j Hj. rewrite Hb3 by (by rewrite Pf1). apply Hlo1. }
  assert (Hmem3 : forall a, ~ in_buf (bitmap (k_pmem s)) a -> ~ in_page nt a -> ~ (ea <= a < ea + 8) ->
    mget (k_mem s3) a = mget (k_mem s) a).
  { intros a A1 A2 A3. rewrite new_table_mem, decide_False by done. by apply Pm1. }
  pose proof new_table_zero as Hz3. pose proof new_table_value as He3.
  destruct (link_ok s s3 p t i k) as [Hpg3 Hpp3]; auto; [lia|simpl; lia|].
  split_and!; [done|done| | |].
  - rewrite (link_walk s s3 p t i k) by (auto; lia). by rewrite decide_True.
  - intros va. apply (link_translate s s3 p t i k); auto. lia.
  - assert (missing s (p ++ [i]) = 1); [|lia]. unfold missing. rewrite walk_snoc, Hw. simpl. unfold hw_next. by rewrite Habs.
Qed.
End NewTable.

Lemma next_table_spec s p t i :
  paging_ok s -> path_ok (p ++ [i]) -> walk (k_mem s) root p = Some t -> missing s (p ++ [i]) <= avail s ->
  runs (Pg.next_table (Pg.entry_at t i)) s (table_step (p ++ [i]) s).
Proof.
  intros Hpg Hp Hw Hav. unfold Pg.next_table, Pg.entry_at. apply runs_bind, runs_gets.
  destruct (e_present (read64 (k_mem s) (t + 8 * i))) eqn:Epr; simpl negb; cbv iota.
  { apply runs_ret. pose proof (missing_le s s (p ++ [i]) Hp ltac:(done)).
    split_and!; try done; [|lia]. by eapply table_ptr_walk. }
  assert (Em : missing s (p ++ [i]) = 1).
  { unfold missing. rewrite walk_snoc, Hw. simpl. unfold hw_next. by rewrite Epr. }
  pose proof (ok_last _ (pg_pmem _ Hpg)).
  destruct (request_frame_avail s (pg_pmem _ Hpg) ltac:(lia)) as (k & Hk & Hfree & _ & Hr).
  apply runs_bind. eapply runs_mono; [exact Hr|]. intros nt s1 [Htook Hav1]. pose proof Htook as (-> & _).
  change FRAME_SZ with 4096 in *. assert (k <> 0) by (intros ->; pose proof (pg_zero _ Hpg); congruence).
  apply runs_bind, runs_assert; [apply negb_true_iff, Z.eqb_neq; lia|].
  apply runs_bind, runs_modify. do 3 apply runs_bind, runs_modify. apply runs_ret.
  apply (new_table_step s s1 p t i k); try done. lia.
Qed.

(** Writing an entry of a last-level table. *)
Section Leaf.
Context (s : kst C) (p : list Z) (t i v : Z).
Hypothesis Hpg : paging_ok s.
Hypothesis Hp : path_ok p.
Hypothesis Hlen : length p = 3%nat.
Hypothesis Hw : walk (k_mem s) root p = Some t.
Hypothesis Hi : 0 <= i < 512.
Let s' : kst C := mkK (write_entry (k_mem s) (t + 8 * i) v) (k_pmem s) (k_con s).
Let wf : pt_wf s := pg_wf _ Hpg.

Local Lemma leaf_same : same_entries (k_mem s) (k_mem s') root t i.
Proof.
  intros q tq j Hq Hwq Hj Hne. apply read64_agree. intros b Hb. apply write_entry_out. intros Hn.
  assert (tq = t) as ->.
  { apply (page_disjoint tq t b); [by apply (wf_align _ wf q)|by apply (wf_align _ wf p)| |];
      [by apply (pt_entry_in_page tq j)|by apply (pt_entry_in_page t i)]. }
  apply Hne. f_equal. lia.
Qed.

Local Lemma leaf_walk q : path_ok q -> walk (k_mem s') root q = walk (k_mem s) root q.
Proof. apply (walk_leaf _ _ _ (wf_inj _ wf) p t i); auto using leaf_same. Qed.

Lemma leaf_ok : paging_ok s' /\ pg_pres s s' /\ avail s' = avail s.
Proof.
  pose proof Hpg as [Hok Hz Hlow Hbm Hwf]. pose proof (ok_frames _ Hok).
  assert (Hout : forall a, ~ in_page t a -> mget (k_mem s') a = mget (k_mem s) a).
  { intros a Ha. apply write_entry_out. intros Hn. by apply Ha, (pt_entry_in_page t i). }
  destruct (paging_bits_agree s s') as (Hok' & Hb & Hav); [done|done| |].
  { intros a Ha. apply Hout. intros Hn. by apply (wf_buf _ wf p t a). }
  split_and!; [|split; try done|done].
  - split; try done; [by rewrite Hb by lia| |].
    { intros a Ha. rewrite (horizon_bits s s') by done. destruct (Hbm a Ha) as [? ?]. by rewrite Hb. }
    split.
    + intros q tq Hq Hwq. rewrite leaf_walk in Hwq by done. by eapply wf_align.
    + intros q tq Hq Hwq. rewrite leaf_walk in Hwq by done.
      destruct (wf_frame _ wf q tq) as [? ?]; try done. rewrite Hb by (simpl; lia). done.
    + intros q tq a Hq Hwq. rewrite leaf_walk in Hwq by done. by apply (wf_buf _ wf q).
    + intros q r tq Hq Hr Hwq Hwr. rewrite leaf_walk in Hwq, Hwr by done. by apply (wf_inj _ wf q r tq).
    + intros q tq j Hq Hwq Hj. rewrite leaf_walk in Hwq by done.
      destruct (decide ((tq, j) = (t, i))) as [[= -> ->]|Hne].
      * simpl. rewrite write_entry_same. apply new_entry_clean. by apply (wf_clean _ wf p).
      * rewrite (leaf_same q tq j) by done. by apply (wf_clean _ wf q).
  - intros k Hk Hl. by rewrite Hb.
  - intros a (Har & Hal & Hab & Hat). by apply Hout, (Hat p).
  - intros a Ha. apply Hout. intros Hn. destruct (wf_frame _ wf p t Hp Hw) as [? _].
    rewrite (in_page_frame t a) in Ha; [lia| |done]. by eapply wf_align.
  - intros a (Har & Hal & Hab & Hat). split_and!; try done; [simpl; lia|simpl; lia|by rewrite Hb|].
    intros q tq Hq. rewrite leaf_walk by done. by apply Hat.
  - intros q tq Hq Hwq. by rewrite leaf_walk.
Qed.

Lemma leaf_translate va :
  translate (k_mem s') root va =
    if decide (va_path va = p /\ va_index 0 va = i)
    then Some (u32 v * 4096 + va mod 4096) else translate (k_mem s) root va.
Proof.
  assert (Hv : path_ok (va_path va)).
  { split; [done|]. repeat constructor; unfold va_index; apply Z.mod_pos_bound; lia. }
  assert (Hi0 : 0 <= va_index 0 va < 512) by (apply Z.mod_pos_bound; lia).
  unfold translate. rewrite leaf_walk by done. case_decide as E.
  - destruct E as [-> ->]. rewrite Hw. cbn [mbind option_bind]. simpl k_mem.
    rewrite write_entry_same, new_entry_present, new_entry_addr by (by eapply (wf_clean _ wf p)).
    by rewrite Z.shiftl_mul_pow2 by lia.
  - destruct (walk (k_mem s) root (va_path va)) as [tq|] eqn:Ew; [|done]. cbn [mbind option_bind].
    rewrite (leaf_same (va_path va) tq); [done|done|done|done|]. intros [= -> Ei]. apply E.
    split; [by apply (wf_inj _ wf _ _ t)|done].
Qed.
End Leaf.
End Inv.

(** ** Linear addresses *)

(** The page of a linear address: the 36 bits above the page offset. *)
Definition vpage (va : Z) : Z := (va / 4096) mod 2 ^ 36.

Lemma va_index_div lvl va : 0 <= lvl -> va_index lvl va = (va / 4096 / 512 ^ lvl) mod 512.
Proof.
  intros. unfold va_index. rewrite Z.div_div by lia. do 2 f_equal.
  rewrite Z.pow_add_r by lia. rewrite Z.pow_mul_r by lia. done.
Qed.

Lemma vpage_indices va :
  vpage va = va_index 0 va + 512 * (va_index 1 va + 512 * (va_index 2 va + 512 * va_index 3 va)).
Proof.
  rewrite !va_index_div by lia. unfold vpage. generalize (va / 4096). intros x.
  change (512 ^ 0) with 1. change (512 ^ 1) with 512. change (512 ^ 2) with (512 * 512).
  change (512 ^ 3) with (512 * 512 * 512). rewrite Z.div_1_r, <- !Z.div_div by lia. zdm.
Qed.

Lemma va_index_range lvl va : 0 <= va_index lvl va < 512.
Proof. unfold va_index. apply Z.mod_pos_bound. lia. Qed.

Lemma vpage_path va va' :
  vpage va' = vpage va <-> va_path va' = va_path va /\ va_index 0 va' = va_index 0 va.
Proof.
  pose proof (va_index_range 0 va). pose proof (va_index_range 1 va). pose proof (va_index_range 2 va).
  pose proof (va_index_range 3 va). pose proof (va_index_range 0 va'). pose proof (va_index_range 1 va').
  pose proof (va_index_range 2 va'). pose proof (va_index_range 3 va').
  rewrite !vpage_indices. unfold va_path. split.
  - intros E. assert (va_index 0 va' = va_index 0 va) by lia. assert (va_index 1 va' = va_index 1 va) by lia.
    assert (va_index 2 va' = va_index 2 va) by lia. assert (va_index 3 va' = va_index 3 va) by lia.
    split; congruence.
  - intros [[= -> -> ->] ->]. done.
Qed.

Lemma indexer_spec va : 0 <= va ->
  Pg.indexer va = mkPageIndexer (va_index 3 va) (va_index 2 va) (va_index 1 va) (va_index 0 va).
Proof.
  intros Hva. unfold Pg.indexer, PAGE_OFFSET_BITS, BITS_9_MASK, va_index.
  rewrite !Z.shiftr_shiftr by lia. change 0x1ff with (Z.ones 9).
  rewrite !Z.land_ones, !Z.shiftr_div_pow2 by lia. simpl Z.add.
  f_equal; apply u16_small; match goal with |- 0 <= ?x mod ?y < _ => pose proof (Z.mod_pos_bound x y); lia end.
Qed.

(** Paths made of the indices of an address. *)
Ltac index_path := split; [simpl; lia|];
  repeat (apply Forall_cons; split; [apply va_index_range|]); apply Forall_nil_2.

Section Allocate.
Context {C : Type} `{ConsoleI C} (root : Z).
Implicit Types s : kst C.

(** [allocate_page] maps the page of [va] to the frame of [pa] and changes no
    other translation. *)
Definition mapped (va pa : Z) (s s' : kst C) : Prop :=
  forall va', translate (k_mem s') root va' =
    if decide (vpage va' = vpage va) then Some (u32 (pa / 4096) * 4096 + va' mod 4096)
    else translate (k_mem s) root va'.

(** The tables that the page of [va] still needs. *)
Definition misses (s : kst C) (va : Z) : Z :=
  missing root s [va_index 3 va] + missing root s [va_index 3 va; va_index 2 va] + missing root s (va_path va).

Lemma misses_le s va : 0 <= misses s va <= 3.
Proof.
  unfold misses, missing. repeat match goal with |- context [walk ?m ?r ?p] => destruct (walk m r p) end; lia.
Qed.

Lemma allocate_page_tight s va pa :
  paging_ok root s -> misses s va <= avail s -> 0 <= va ->
  runs (Pg.allocate_page root va pa) s (fun _ s' =>
    paging_ok root s' /\ pg_pres root s s' /\ avail s - misses s va <= avail s' /\ mapped va pa s s' /\
    is_Some (walk (k_mem s') root (va_path va))).
Proof.
  intros Hpg Hav Hva. unfold misses in Hav |- *.
  assert (Q1 : path_ok [va_index 3 va]) by index_path. assert (Q3 : path_ok (va_path va)) by index_path.
  assert (Q2 : path_ok [va_index 3 va; va_index 2 va]) by index_path. unfold Pg.allocate_page. rewrite indexer_spec by done. simpl ix_pml4. simpl ix_pdpt.
  simpl ix_pd. simpl ix_pt. pose proof (va_index_range 3 va). pose proof (va_index_range 2 va).
  pose proof (va_index_range 1 va). pose proof (va_index_range 0 va).
  pose proof (missing_le root s s _ Q1 ltac:(done)). pose proof (missing_le root s s _ Q2 ltac:(done)).
  pose proof (missing_le root s s _ Q3 ltac:(done)).
  apply runs_bind. eapply runs_mono; [apply (next_table_spec root s [] root); [done|done|done|simpl app; lia]|].
  intros pdpt s1 (Hpg1 & Hpp1 & Hw1 & Htr1 & Hav1). simpl in Hw1. simpl app in Hav1.
  pose proof (missing_le root s s1 _ Q2 Hpp1).
  apply runs_bind. eapply runs_mono; [apply (next_table_spec root s1 [va_index 3 va] pdpt); [done|done|done|simpl app; lia]|].
  intros pd s2 (Hpg2 & Hpp2 & Hw2 & Htr2 & Hav2). simpl app in Hw2, Hav2.
  pose proof (missing_le root s1 s2 _ Q3 Hpp2). pose proof (missing_le root s s1 _ Q3 Hpp1).
  apply runs_bind. eapply runs_mono; [apply (next_table_spec root s2 [va_index 3 va; va_index 2 va] pd);
    [done|done|done|simpl app; fold (va_path va); lia]|].
  intros pt s3 (Hpg3 & Hpp3 & Hw3 & Htr3 & Hav3). simpl app in Hw3, Hav3. fold (va_path va) in Hw3, Hav3.
  do 2 apply runs_bind, runs_modify. apply runs_modify. simpl. unfold Pg.entry_at.
  assert (Hvp : path_ok (va_path va)) by index_path.
  set (v := Z.shiftr pa PAGE_OFFSET_BITS).
  destruct (leaf_ok root s3 (va_path va) pt (va_index 0 va) v) as (Hpg4 & Hpp4 & Hav4); try done.
  change (write64 _ _ _) with (write_entry (k_mem s3) (pt + 8 * va_index 0 va) v).
  split_and!; [done| |lia| |exists pt; exact (pp_walk _ _ _ Hpp4 _ _ Q3 Hw3)].
  - by do 3 (etransitivity; [eassumption|]).
  - intros va'. pose proof (leaf_translate root s3 (va_path va) pt (va_index 0 va) v Hpg3 Hvp eq_refl Hw3 ltac:(done) va') as E.
    simpl in E |- *. rewrite E, Htr3, Htr2, Htr1.
    unfold v, PAGE_OFFSET_BITS. rewrite Z.shiftr_div_pow2 by lia. change (2 ^ 12) with 4096.
    repeat case_decide; try done; exfalso; by rewrite vpage_path in *.
Qed.

Lemma allocate_page_spec s va pa :
  paging_ok root s -> 3 <= avail s -> 0 <= va ->
  runs (Pg.allocate_page root va pa) s (fun _ s' =>
    paging_ok root s' /\ pg_pres root s s' /\ avail s - 3 <= avail s' /\ mapped va pa s s').
Proof.
  intros Hpg Hav Hva. pose proof (misses_le s va).
  eapply runs_mono; [apply (allocate_page_tight s va pa Hpg); lia|].
  intros [] s' (? & ? & ? & ? & _). split_and!; try done. lia.
Qed.

Lemma walk_none_app m t p q : walk m t p = None -> walk m t (p ++ q) = None.
Proof.
  revert t. induction p as [|j p IH]; simpl; intros t E; [done|].
  destruct (hw_next _); simpl in *; auto.
Qed.

(** A present entry leads to the table that the code follows; an absent one ends
    every walk through it. *)
Lemma walk_next s p t i q :
  paging_ok root s -> path_ok (p ++ [i]) -> walk (k_mem s) root p = Some t ->
  let w := read64 (k_mem s) (t + 8 * i) in
  if e_present w then walk (k_mem s) root (p ++ [i]) = Some (table_ptr w)
  else walk (k_mem s) root ((p ++ [i]) ++ q) = None.
Proof.
  intros Hpg Hp Hw w. unfold w. destruct (e_present _) eqn:E.
  - by eapply table_ptr_walk.
  - apply walk_none_app. rewrite walk_snoc, Hw. simpl. unfold hw_next. by rewrite E.
Qed.

(** [is_page_allocated] answers whether the MMU translates the address. *)
Lemma is_page_allocated_spec s va :
  paging_ok root s -> 0 <= va ->
  Pg.is_page_allocated root va (k_mem s) =
    match translate (k_mem s) root va with Some _ => true | None => false end.
Proof.
  intros Hpg Hva. unfold Pg.is_page_allocated. rewrite indexer_spec by done.
  cbn [ix_pml4 ix_pdpt ix_pd ix_pt]. unfold Pg.entry_at, translate.
  assert (P1 : path_ok ([] ++ [va_index 3 va])) by index_path.
  assert (P2 : path_ok ([va_index 3 va] ++ [va_index 2 va])) by index_path.
  assert (P3 : path_ok ([va_index 3 va; va_index 2 va] ++ [va_index 1 va])) by index_path.
  pose proof (walk_next s [] root (va_index 3 va) [va_index 2 va; va_index 1 va] Hpg P1 eq_refl) as W1.
  cbv zeta in W1. destruct (e_present (read64 (k_mem s) (root + 8 * va_index 3 va))); cbn [negb].
  2: { unfold va_path. cbn [app] in W1. by rewrite W1. }
  pose proof (walk_next s _ _ (va_index 2 va) [va_index 1 va] Hpg P2 W1) as W2.
  cbv zeta in W2. destruct (e_present (read64 (k_mem s) (_ + 8 * va_index 2 va))); cbn [negb].
  2: { unfold va_path. cbn [app] in W2. by rewrite W2. }
  pose proof (walk_next s _ _ (va_index 1 va) [] Hpg P3 W2) as W3.
  cbv zeta in W3. destruct (e_present (read64 (k_mem s) (_ + 8 * va_index 1 va))); cbn [negb].
  2: { unfold va_path. cbn [app] in W3. by rewrite W3. }
  unfold va_path. cbn [app] in W3. rewrite W3. cbn [mbind option_bind].
  by destruct (e_present _).
Qed.

Lemma vpage_small va : 0 <= va < 2 ^ 48 -> vpage va = va / 4096.
Proof. intros. unfold vpage. apply Z.mod_small. zdm. Qed.

(** [k] pages from [addr] on become identity mapped, and nothing else changes. *)
Definition identity_range (addr k : Z) (s s' : kst C) : Prop :=
  forall va, 0 <= va < 2 ^ 48 ->
    translate (k_mem s') root va =
      if decide (addr / 4096 <= va / 4096 < addr / 4096 + k) then Some va
      else translate (k_mem s) root va.

(** The tables that begin with page [v]: one per level of which [v] is the first page. *)
Definition starts (v : Z) : Z := b2z (v mod 512 =? 0) + b2z (v mod 512 ^ 2 =? 0) + b2z (v mod 512 ^ 3 =? 0).
Fixpoint run_starts (k : nat) (v : Z) : Z :=
  match k with O => 0 | S k' => starts v + run_starts k' (v + 1) end.

(** A bound on the tables for [k] consecutive pages. *)
Definition tables (k : Z) : Z :=
  3 + (k + 510) / 512 + (k + (512 ^ 2 - 2)) / 512 ^ 2 + (k + (512 ^ 3 - 2)) / 512 ^ 3.

(** Multiples of [n] among consecutive numbers. *)
Lemma multiples_step v n : 0 < n -> b2z (v mod n =? 0) = v / n - (v - 1) / n.
Proof.
  intros Hn. pose proof (Z.div_mod v n ltac:(lia)). pose proof (Z.mod_pos_bound v n Hn). unfold b2z.
  destruct (Z.eqb_spec (v mod n) 0).
  - rewrite <- (Z.div_unique (v - 1) n (v / n - 1) (n - 1)) by lia. lia.
  - rewrite <- (Z.div_unique (v - 1) n (v / n) (v mod n - 1)) by lia. lia.
Qed.

Lemma run_starts_sum k v : run_starts k v =
  (v + Z.of_nat k - 1) / 512 - (v - 1) / 512 + ((v + Z.of_nat k - 1) / 512 ^ 2 - (v - 1) / 512 ^ 2) +
  ((v + Z.of_nat k - 1) / 512 ^ 3 - (v - 1) / 512 ^ 3).
Proof.
  revert v. induction k as [|k IH]; intros v; cbn [run_starts].
  - replace (v + Z.of_nat 0 - 1) with (v - 1) by lia. lia.
  - rewrite IH. unfold starts. rewrite !multiples_step by lia.
    replace (v + 1 + Z.of_nat k - 1) with (v + Z.of_nat (S k) - 1) by lia. replace (v + 1 - 1) with v by lia. lia.
Qed.

Lemma run_starts_bound k v : 3 + run_starts k (v + 1) <= tables (Z.of_nat k + 1).
Proof.
  rewrite run_starts_sum. unfold tables. replace (v + 1 + Z.of_nat k - 1) with (v + Z.of_nat k) by lia.
  replace (v + 1 - 1) with v by lia. generalize (Z.of_nat k). intros x.
  assert (Hb : forall n, 1 < n -> (v + x) / n - v / n <= (x + 1 + (n - 2)) / n).
  { intros n Hn. pose proof (Z.div_mod v n ltac:(lia)). pose proof (Z.mod_pos_bound v n ltac:(lia)).
    replace (v + x) with (v / n * n + (v mod n + x)) by lia. rewrite Z.div_add_l by lia.
    pose proof (Z.div_le_mono (v mod n + x) (x + 1 + (n - 2)) n). lia. }
  pose proof (Hb 512 ltac:(lia)). pose proof (Hb (512 ^ 2) ltac:(lia)). pose proof (Hb (512 ^ 3) ltac:(lia)).
  change (512 - 2) with 510 in *. lia.
Qed.

Lemma tables_ge k : 0 < k -> 3 <= tables k.
Proof.
  intros Hk. unfold tables.
  assert (forall n, 1 < n -> 0 <= (k + (n - 2)) / n) as Hb by (intros; apply Z.div_pos; lia).
  pose proof (Hb 512 ltac:(lia)). pose proof (Hb (512 ^ 2) ltac:(lia)). pose proof (Hb (512 ^ 3) ltac:(lia)).
  change (512 - 2) with 510 in *. lia.
Qed.

(** Neighbouring pages share the tables that do not begin between them. *)
Lemma va_index_next lvl va : 0 <= va -> 1 <= lvl -> (va / 4096 + 1) mod 512 ^ lvl <> 0 ->
  va_index lvl (va + 4096) = va_index lvl va.
Proof.
  intros Hva Hl Hm. rewrite !va_index_div by lia.
  replace ((va + 4096) / 4096) with (va / 4096 + 1) by zdm. f_equal.
  assert (0 < 512 ^ lvl) by lia. revert Hm. generalize (va / 4096). intros v Hm.
  pose proof (multiples_step (v + 1) (512 ^ lvl) ltac:(lia)) as E. rewrite (proj2 (Z.eqb_neq _ 0) Hm) in E.
  replace (v + 1 - 1) with v in E by lia. cbn [b2z] in E. lia.
Qed.

Lemma missing_some s p t q : walk (k_mem s) root (p ++ q) = Some t -> missing root s p = 0.
Proof.
  intros E. unfold missing. destruct (walk (k_mem s) root p) eqn:Ep; [done|].
  assert (walk (k_mem s) root (p ++ q) = None) by (by apply walk_none_app). congruence.
Qed.

Lemma misses_next s va : 0 <= va -> is_Some (walk (k_mem s) root (va_path va)) ->
  misses s (va + 4096) <= starts (va / 4096 + 1).
Proof.
  intros Hva [t Ht]. unfold misses, starts. set (v := va / 4096 + 1).
  assert (Hle : forall p, missing root s p <= 1) by (intros p; unfold missing; case_match; lia).
  assert (Hup : v mod 512 <> 0 -> v mod 512 ^ 2 <> 0) by (intros Hm Hn; apply Hm; change (512 ^ 2) with (512 * 512) in Hn; zdm).
  assert (Hup' : v mod 512 ^ 2 <> 0 -> v mod 512 ^ 3 <> 0).
  { intros Hm Hn. apply Hm. change (512 ^ 3) with (512 ^ 2 * 512) in Hn. zdm. }
  assert (Hge : forall x, 0 <= b2z x) by (intros []; simpl; lia).
  assert (H3 : v mod 512 ^ 3 <> 0 -> va_index 3 (va + 4096) = va_index 3 va) by (apply (va_index_next 3); lia).
  assert (H2 : v mod 512 ^ 2 <> 0 -> va_index 2 (va + 4096) = va_index 2 va) by (apply (va_index_next 2); lia).
  assert (H1 : v mod 512 <> 0 -> va_index 1 (va + 4096) = va_index 1 va) by (apply (va_index_next 1); lia).
  assert (M1 : missing root s [va_index 3 (va + 4096)] <= b2z (v mod 512 ^ 3 =? 0)).
  { destruct (Z.eqb_spec (v mod 512 ^ 3) 0); [apply Hle|]. rewrite H3 by done.
    erewrite (missing_some s [va_index 3 va]); [done|exact Ht]. }
  assert (M2 : missing root s [va_index 3 (va + 4096); va_index 2 (va + 4096)] <= b2z (v mod 512 ^ 2 =? 0)).
  { destruct (Z.eqb_spec (v mod 512 ^ 2) 0); [apply Hle|]. rewrite H3, H2 by auto.
    erewrite (missing_some s [va_index 3 va; va_index 2 va]); [done|exact Ht]. }
  assert (M3 : missing root s (va_path (va + 4096)) <= b2z (v mod 512 =? 0)).
  { destruct (Z.eqb_spec (v mod 512) 0); [apply Hle|]. unfold va_path. rewrite H3, H2, H1 by auto.
    fold (va_path va). erewrite (missing_some s (va_path va) t []); [done|]. rewrite app_nil_r. exact Ht. }
  lia.
Qed.

(** The frames that the loop may take for [k] pages. *)
Definition loop_cost (s : kst C) (k : nat) (addr : Z) : Z :=
  match k with O => 0 | S k' => misses s addr + run_starts k' (addr / 4096 + 1) end.

Lemma loop_cost_bound s k addr : (0 < k)%nat -> loop_cost s k addr <= tables (Z.of_nat k).
Proof.
  intros Hk. destruct k as [|k]; [lia|]. cbn [loop_cost]. pose proof (misses_le s addr).
  pose proof (run_starts_bound k (addr / 4096)). replace (Z.of_nat (S k)) with (Z.of_nat k + 1) by lia. lia.
Qed.

Lemma run_starts_pos k v : 0 <= run_starts k v.
Proof.
  revert v. induction k as [|k IH]; intros v; cbn [run_starts]; [lia|]. specialize (IH (v + 1)).
  unfold starts, b2z. repeat match goal with |- context [if ?b then _ else _] => destruct b end; lia.
Qed.

Lemma identity_loop_spec s k addr :
  paging_ok root s -> loop_cost s k addr <= avail s -> 0 <= addr -> addr + 4096 * Z.of_nat k <= 2 ^ 44 ->
  runs (Pg.identity_loop root k addr) s (fun _ s' =>
    paging_ok root s' /\ pg_pres root s s' /\ avail s - loop_cost s k addr <= avail s' /\
    identity_range addr (Z.of_nat k) s s').
Proof.
  revert s addr. induction k as [|k IH]; intros s addr Hpg Hav Ha Hb.
  { apply runs_ret. split_and!; try done; [cbn; lia|]. intros va Hva. rewrite decide_False by lia. done. }
  cbn [loop_cost] in *. pose proof (run_starts_pos k (addr / 4096 + 1)).
  simpl. apply runs_bind. eapply runs_mono; [apply (allocate_page_tight s addr addr Hpg); lia|].
  intros [] s1 (Hpg1 & Hpp1 & Hav1 & Hmap & Hsome). unfold PAGE_SZ, FRAME_SZ. rewrite u64_small by lia.
  assert (Hd : (addr + 4096) / 4096 = addr / 4096 + 1) by zdm.
  assert (Hc : loop_cost s1 k (addr + 4096) <= run_starts k (addr / 4096 + 1)).
  { destruct k as [|k]; [done|]. cbn [loop_cost run_starts]. rewrite Hd.
    pose proof (misses_next s1 addr Ha Hsome). lia. }
  eapply runs_mono; [apply IH; [done|lia|lia|lia]|].
  intros [] s2 (Hpg2 & Hpp2 & Hav2 & Hid). split_and!; [done|by etransitivity|lia|].
  intros va Hva. rewrite Hid by done. rewrite (Hmap va), !vpage_small by lia.
  rewrite Hd.
  repeat case_decide; try lia; try done. f_equal.
  rewrite u32_small by zdm. pose proof (Z.div_mod va 4096 ltac:(lia)). lia.
Qed.

Lemma identity_paging_spec s addr n :
  paging_ok root s -> 0 <= n < 2 ^ 63 -> tables (n / 4097 + 1) <= avail s ->
  0 <= addr -> addr + 4096 * (n / 4097 + 1) <= 2 ^ 44 ->
  runs (Pg.__identity_paging root addr n) s (fun _ s' =>
    paging_ok root s' /\ pg_pres root s s' /\ avail s - tables (n / 4097 + 1) <= avail s' /\
    identity_range addr (n / 4097 + 1) s s').
Proof.
  intros Hpg Hn Hav Ha Hb. unfold Pg.__identity_paging, Pg.identity_count, PAGE_SZ, FRAME_SZ.
  change (4096 + 1) with 4097. rewrite u64_small by zdm. assert (0 <= n / 4097) by zdm.
  pose proof (loop_cost_bound s (Z.to_nat (n / 4097 + 1)) addr ltac:(lia)) as Hc. rewrite Z2Nat.id in Hc by lia.
  eapply runs_mono; [apply identity_loop_spec; rewrite ?Z2Nat.id by lia; (done || lia)|].
  intros [] s'. rewrite Z2Nat.id by lia. intros (? & ? & ? & ?). split_and!; try done. lia.
Qed.
End Allocate.
