(* ===== verification/PagingInit.v ===== *)
(** * PagingInit: bringing up the page tables

    What keeps the page tables intact, and the constructor of [Paging], from an
    empty PML4 to its end: every region it maps is identity mapped, and the self
    test passes. *)
From Stdlib Require Import String.
From S2P Require Import Prelude Memory Libc Printf Bitmap MMap PMem Paging.

(** ** Steps that leave the tables alone *)

(** Walks read the entries of tables only. *)
Lemma walk_keeps m m' root q :
  (forall p t j, path_ok p -> walk m root p = Some t -> 0 <= j < 512 ->
     read64 m' (t + 8 * j) = read64 m (t + 8 * j)) ->
  path_ok q -> walk m' root q = walk m root q.
Proof.
  intros Hsame. induction q as [|i q IH] using rev_ind; [done|]. intros Hq%path_ok_snoc.
  rewrite !walk_snoc, IH by apply Hq. destruct (walk m root q) as [t|] eqn:Ew; [|done].
  cbn [mbind option_bind]. by rewrite (Hsame q t) by apply Hq || done.
Qed.

Section Keep.
Context {C : Type} `{ConsoleI C} (root : Z).
Implicit Types s : kst C.

Definition in_table s (a : Z) : Prop :=
  exists p t, path_ok p /\ walk (k_mem s) root p = Some t /\ in_page t a.

(** Steps that leave the tables alone and only lock frames below the horizon keep
    the paging invariant. *)
Record table_keep s s' : Prop := {
  tk_pmem : pmem_ok s';
  tk_frames : frames (k_pmem s') = frames (k_pmem s);
  tk_bitmap : bitmap (k_pmem s') = bitmap (k_pmem s);
  tk_locked : forall k, 0 <= k < frames (k_pmem s) -> frame_locked s k = true -> frame_locked s' k = true;
  tk_top : forall k, 0 <= k < frames (k_pmem s) -> horizon s <= k -> frame_locked s' k = frame_locked s k;
  tk_mem : forall a, in_table s a -> mget (k_mem s') a = mget (k_mem s) a
}.

Lemma keep_horizon s s' : table_keep s s' -> horizon s' = horizon s.
Proof. intros []. by apply horizon_same. Qed.

Lemma keep_entry s s' p t j :
  table_keep s s' -> path_ok p -> walk (k_mem s) root p = Some t -> 0 <= j < 512 ->
  read64 (k_mem s') (t + 8 * j) = read64 (k_mem s) (t + 8 * j).
Proof.
  intros Hk Hp Hw Hj. apply read64_agree. intros b Hb. apply (tk_mem _ _ Hk).
  exists p, t. split_and!; [done..|]. by eapply pt_entry_in_page.
Qed.

Lemma keep_walk s s' q : table_keep s s' -> path_ok q -> walk (k_mem s') root q = walk (k_mem s) root q.
Proof. intros Hk. apply walk_keeps. intros. by apply (keep_entry s s' p t j). Qed.

Lemma keep_translate s s' va : table_keep s s' -> translate (k_mem s') root va = translate (k_mem s) root va.
Proof.
  intros Hk. assert (Hv : path_ok (va_path va)).
  { split; [done|]. repeat constructor; apply va_index_range. }
  unfold translate. rewrite (keep_walk s s') by done.
  destruct (walk (k_mem s) root (va_path va)) as [t|] eqn:Ew; [|done]. cbn [mbind option_bind].
  by rewrite (keep_entry s s' (va_path va) t) by (done || apply va_index_range).
Qed.

Lemma keep_ok s s' : paging_ok root s -> table_keep s s' -> paging_ok root s'.
Proof.
  intros [Hok Hz Hlow Hbm Hwf] Hk. pose proof Hk as [K1 K2 K3 K4 _ K5]. pose proof (ok_frames _ Hok).
  split; rewrite ?K2, ?K3; auto.
  - apply K4; [lia|done].
  - intros a Ha. rewrite (keep_horizon s s') by done. destruct (Hbm a Ha) as [? [?|?]]; auto.
  - split.
    + intros p t Hp. rewrite (keep_walk s s') by done. by apply (wf_align _ _ Hwf).
    + intros p t Hp. rewrite (keep_walk s s') by done. intros Hw. rewrite K2.
      destruct (wf_frame _ _ Hwf p t Hp Hw). split; [done|]. apply K4; [lia|done].
    + intros p t a Hp. rewrite (keep_walk s s'), K3 by done. by apply (wf_buf _ _ Hwf).
    + intros p q t Hp Hq. rewrite !(keep_walk s s') by done. by apply (wf_inj _ _ Hwf).
    + intros p t i Hp. rewrite (keep_walk s s') by done. intros Hw Hi.
      rewrite (keep_entry s s' p t) by done. by eapply (wf_clean _ _ Hwf).
Qed.

(** The steps of the allocator keep the tables. *)
Lemma pm_keep s s' :
  paging_ok root s -> pmem_ok s' -> pm_pres s s' ->
  (forall k, 0 <= k < frames (k_pmem s) -> frame_locked s k = true -> frame_locked s' k = true) ->
  (forall k, 0 <= k < frames (k_pmem s) -> horizon s <= k -> frame_locked s' k = frame_locked s k) ->
  table_keep s s'.
Proof.
  intros Hpg Hok' [F B Mm] Hmono Htop. split; auto. intros a (p & t & Hp & Hw & Ha). apply Mm.
  by eapply (wf_buf _ _ (pg_wf _ _ Hpg)).
Qed.

(** A private byte stays private. *)
Lemma keep_private s s' a : table_keep s s' -> private root s a -> private root s' a.
Proof.
  intros Hk (Hr & Hl & Hb & Ht). pose proof Hk as [K1 K2 K3 K4 _ K5]. split_and!; rewrite ?K2, ?K3; auto; try lia.
  intros p t Hp. rewrite (keep_walk s s') by done. by apply Ht.
Qed.

(** A frame that was free and is now locked holds private bytes. *)
Lemma fresh_private s s' a :
  paging_ok root s -> table_keep s s' -> 0 <= a / 4096 < horizon s ->
  frame_locked s (a / 4096) = false -> frame_locked s' (a / 4096) = true -> private root s' a.
Proof.
  intros Hpg Hk Hr Hf Hl. pose proof Hk as [K1 K2 K3 K4 _ K5]. pose proof (horizon_le s).
  split_and!; rewrite ?K2, ?K3; try done; try lia.
  - intros Hb. destruct (pg_bitmap _ _ Hpg _ Hb) as [_ [?|?]]; [congruence|lia].
  - intros p t Hp. rewrite (keep_walk s s') by done. intros Hw Ha.
    destruct (wf_frame _ _ (pg_wf _ _ Hpg) p t Hp Hw) as [_ Ht].
    rewrite (in_page_frame t a) in Hf; [congruence| |done]. by eapply (wf_align _ _ (pg_wf _ _ Hpg)).
Qed.

(** Bytes that neither the allocator nor paging may write: private ones, and those behind the
    last frame, such as the registers of a device or the framebuffer. *)
Definition reserved s (a : Z) : Prop := private root s a \/ frames (k_pmem s) <= a / 4096.

Lemma reserved_out s a : paging_ok root s -> reserved s a -> ~ in_buf (bitmap (k_pmem s)) a /\ ~ in_table s a.
Proof.
  intros Hpg [(_ & _ & Hb & Ht)|Hh].
  - split; [done|]. intros (p & t & Hp & Hw & Ha). by apply (Ht p t).
  - split.
    + intros Hb. destruct (pg_bitmap _ _ Hpg _ Hb) as [? _]. lia.
    + intros (p & t & Hp & Hw & Ha). destruct (wf_frame _ _ (pg_wf _ _ Hpg) p t Hp Hw) as [? _].
      rewrite (in_page_frame t a) in Hh; [lia| |done]. by eapply (wf_align _ _ (pg_wf _ _ Hpg)).
Qed.

Lemma keep_reserved s s' a : table_keep s s' -> reserved s a -> reserved s' a.
Proof. intros Hk [Hp|Hh]; [left; by eapply keep_private|right; by rewrite (tk_frames _ _ Hk)]. Qed.

Lemma pres_reserved s s' a : pg_pres root s s' -> reserved s a -> reserved s' a /\ mget (k_mem s') a = mget (k_mem s) a.
Proof.
  intros Hpp [Hp|Hh].
  - split; [left; by apply (pp_private _ _ _ Hpp)|by apply (pp_mem _ _ _ Hpp)].
  - split; [right; by rewrite (pp_frames _ _ _ Hpp)|by apply (pp_high _ _ _ Hpp)].
Qed.

(** Writes to reserved bytes, the allocator untouched. *)
Lemma reserved_write s s' :
  paging_ok root s -> k_pmem s' = k_pmem s ->
  (forall a, ~ reserved s a -> mget (k_mem s') a = mget (k_mem s) a) -> table_keep s s' /\ avail s' = avail s.
Proof.
  intros Hpg Hp Hm. destruct (paging_bits_agree s s' (pg_pmem _ _ Hpg) Hp) as (Hok & Hbits & Hav).
  { intros a Ha. apply Hm. intros Hr. destruct (reserved_out s a Hpg Hr). done. }
  split; [|done]. split; rewrite ?Hp; try done.
  - intros k Hk Hl. by rewrite Hbits.
  - intros k Hk _. by rewrite Hbits.
  - intros a Ha. apply Hm. intros Hr. destruct (reserved_out s a Hpg Hr). done.
Qed.

Lemma private_write s s' :
  paging_ok root s -> k_pmem s' = k_pmem s ->
  (forall a, ~ private root s a -> mget (k_mem s') a = mget (k_mem s) a) -> table_keep s s' /\ avail s' = avail s.
Proof. intros Hpg Hp Hm. apply reserved_write; [done|done|]. intros a Ha. apply Hm. intros Hpr. apply Ha. by left. Qed.
End Keep.

(** ** The empty PML4 *)
Section Fresh.
Context {C : Type} `{ConsoleI C} (root : Z).
Implicit Types s : kst C.

(** The allocator and the place of the PML4 before the constructor runs. *)
Record fresh_root s : Prop := {
  fr_pmem : pmem_ok s;
  fr_zero : frame_locked s 0 = true;
  fr_low : frames (k_pmem s) <= 2 ^ 20;
  fr_bitmap : forall a, in_buf (bitmap (k_pmem s)) a ->
    0 <= a / 4096 < frames (k_pmem s) /\ (frame_locked s (a / 4096) = true \/ horizon s <= a / 4096);
  fr_align : root mod 4096 = 0;
  fr_frame : 0 < root / 4096 < frames (k_pmem s) /\ frame_locked s (root / 4096) = true;
  fr_buf : forall a, in_page root a -> ~ in_buf (bitmap (k_pmem s)) a
}.

(** The bytes of locked frames outside the bitmap and the PML4. *)
Definition quiet s (a : Z) : Prop :=
  0 <= a / 4096 < frames (k_pmem s) /\ frame_locked s (a / 4096) = true /\
  ~ in_buf (bitmap (k_pmem s)) a /\ ~ in_page root a.

(** The state after the first statement of the constructor. *)
Definition cleared s : kst C := mkK (memset (k_mem s) root 0 (8 * 512)) (k_pmem s) (k_con s).

Lemma cleared_entry s i : 0 <= i < 512 -> read64 (k_mem (cleared s)) (root + 8 * i) = 0.
Proof. intros Hi. apply (load_memset_zero 8); lia. Qed.

Lemma cleared_out s a : ~ in_page root a -> mget (k_mem (cleared s)) a = mget (k_mem s) a.
Proof.
  intros Ha. simpl. rewrite mget_memset by lia. rewrite decide_False; [done|].
  unfold in_page, PAGE_SZ, FRAME_SZ in Ha. lia.
Qed.

(** The empty PML4 is the only table. *)
Lemma cleared_walk s p t : path_ok p -> walk (k_mem (cleared s)) root p = Some t -> p = [] /\ t = root.
Proof.
  destruct p as [|i p]; intros [_ Hp] Hw; [by injection Hw as <-|].
  apply Forall_cons in Hp as [Hi _]. exfalso. cbn [walk] in Hw. rewrite cleared_entry in Hw by done. done.
Qed.

Lemma cleared_spec s :
  fresh_root s ->
  paging_ok root (cleared s) /\ avail (cleared s) = avail s /\ (forall a, quiet s a -> private root (cleared s) a).
Proof.
  intros [F1 F2 F3 F4 F5 [F6 F7] F8].
  destruct (paging_bits_agree s (cleared s) F1 eq_refl) as (Hok & Hbits & Hav).
  { intros a Ha. apply cleared_out. intros Hin. by apply (F8 a). }
  pose proof (ok_frames _ F1).
  split_and!; [split; simpl; try done|done|].
  - rewrite Hbits by lia. done.
  - intros a Ha. destruct (F4 a Ha). rewrite (horizon_bits s (cleared s)) by done. by rewrite Hbits.
  - split.
    + intros p t Hp [-> ->]%cleared_walk; done.
    + intros p t Hp [-> ->]%cleared_walk; [|done]. simpl. by rewrite Hbits by lia.
    + intros p t a Hp [-> ->]%cleared_walk; [|done]. apply F8.
    + intros p q t Hp Hq [-> ->]%cleared_walk [-> _]%cleared_walk; done.
    + intros p t i Hp [-> ->]%cleared_walk; [|done]. intros Hi. rewrite cleared_entry by done. apply clean_0.
  - intros a (Q1 & Q2 & Q3 & Q4). split; [done|]. split; [by rewrite Hbits|]. split; [done|].
    intros p t Hp [-> ->]%cleared_walk; done.
Qed.

(** ** [Paging::init] *)

(** The pages that [__identity_paging] maps for [n] bytes. *)
Definition id_pages (n : Z) : Z := n / 4097 + 1.

(** Every address of the first [k] pages from [addr] on translates to itself. *)
Definition identity_mapped s (addr k : Z) : Prop :=
  forall va, addr / 4096 <= va / 4096 < addr / 4096 + k -> translate (k_mem s) root va = Some va.

(** A region that can be mapped: it lies below the address of the self test. *)
Definition region_ok (addr n : Z) : Prop :=
  0 <= n < 2 ^ 63 /\ 0 <= addr /\ addr + 4096 * id_pages n <= 0x99999999000.

Lemma identity_keeps s s' addr k addr' k' :
  identity_range root addr k s s' -> 0 <= addr' -> addr' + 4096 * k' <= 2 ^ 48 ->
  identity_mapped s addr' k' -> identity_mapped s' addr' k'.
Proof.
  intros Hr Ha Hk Hm va Hva. rewrite Hr by zdm. case_decide; [done|]. by apply Hm.
Qed.

(** What a step of the initialisation that takes up to [need] frames keeps. *)
Record init_step (need : Z) s s' : Prop := {
  is_paging : paging_ok root s';
  is_pres : pg_pres root s s';
  is_avail : avail s - need <= avail s';
  is_keeps : forall addr k, 0 <= addr -> addr + 4096 * k <= 2 ^ 48 ->
    identity_mapped s addr k -> identity_mapped s' addr k
}.

Lemma init_step_refl s : paging_ok root s -> init_step 0 s s.
Proof. intros. split; try done. lia. Qed.

Lemma init_step_trans n1 n2 s1 s2 s3 : init_step n1 s1 s2 -> init_step n2 s2 s3 -> init_step (n1 + n2) s1 s3.
Proof. intros [] []. split; [done|by etransitivity|lia|auto]. Qed.

Lemma map_region s addr n :
  paging_ok root s -> region_ok addr n -> tables (id_pages n) <= avail s ->
  runs (Pg.__identity_paging root addr n) s (fun _ s' =>
    init_step (tables (id_pages n)) s s' /\ identity_mapped s' addr (id_pages n)).
Proof.
  intros Hpg (Hn & Ha & Hb) Hav. unfold id_pages in *.
  eapply runs_mono; [apply identity_paging_spec; try done; lia|].
  intros [] s' (Hpg' & Hpp & Hav' & Hid). assert (0 <= n / 4097) by zdm. split; [split; [done|done|lia|]|].
  - intros addr' k' H1 H2. by apply (identity_keeps s s' addr (n / 4097 + 1)).
  - intros va Hva. rewrite Hid by zdm. by rewrite decide_True.
Qed.

(** The regions of the memory map: address and bytes of entry [i]. *)
Definition map_addr (m : mem) (mm : MemoryMap) (i : Z) : Z := d_paddr (MM.desc m mm i).
Definition map_bytes (m : mem) (mm : MemoryMap) (i : Z) : Z := u64 (FRAME_SZ * d_pages (MM.desc m mm i)).

(** The frames for the tables of the first [k] entries. *)
Fixpoint map_need (m : mem) (mm : MemoryMap) (k : nat) : Z :=
  match k with O => 0 | S k' => map_need m mm k' + tables (id_pages (map_bytes m mm (Z.of_nat k'))) end.

Lemma region_tables n : 0 <= n -> 3 <= tables (id_pages n).
Proof. intros. apply tables_ge. unfold id_pages. zdm. Qed.

Lemma map_need_mono m mm j k : (j <= k)%nat -> map_need m mm j <= map_need m mm k.
Proof.
  induction 1 as [|k _ IH]; [lia|]. simpl.
  pose proof (region_tables (map_bytes m mm (Z.of_nat k)) ltac:(apply u64_range)). lia.
Qed.

(** The bytes of the memory map stay as they are. *)
Definition map_private s (mm : MemoryMap) : Prop :=
  forall i a, 0 <= i < mm_entries mm -> MM.get_desc mm i <= a < MM.get_desc mm i + 40 -> private root s a.

Lemma init_loop_spec s mm :
  paging_ok root s -> map_private s mm -> 0 <= mm_entries mm ->
  (forall i, 0 <= i < mm_entries mm -> region_ok (map_addr (k_mem s) mm i) (map_bytes (k_mem s) mm i)) ->
  map_need (k_mem s) mm (Z.to_nat (mm_entries mm)) <= avail s ->
  runs (for_loop (Z.to_nat (mm_entries mm)) 0 (fun i =>
    d ← gets (fun s => MM.desc (k_mem s) mm i);
    Pg.__identity_paging root (d_paddr d) (u64 (FRAME_SZ * d_pages d)))) s (fun _ s' =>
    init_step (map_need (k_mem s) mm (Z.to_nat (mm_entries mm))) s s' /\
    forall i, 0 <= i < mm_entries mm ->
      identity_mapped s' (map_addr (k_mem s) mm i) (id_pages (map_bytes (k_mem s) mm i))).
Proof.
  intros Hpg Hmap He Hreg Hav.
  apply runs_for_loop with (I := fun i t => init_step (map_need (k_mem s) mm (Z.to_nat i)) s t /\
    forall j, 0 <= j < i -> identity_mapped t (map_addr (k_mem s) mm j) (id_pages (map_bytes (k_mem s) mm j))).
  - split; [by apply init_step_refl|]. intros j Hj. lia.
  - intros i t Hi [Hst Hid]. rewrite Z2Nat.id in Hi by lia. apply runs_bind, runs_gets.
    assert (Ed : MM.desc (k_mem t) mm i = MM.desc (k_mem s) mm i).
    { apply desc_agree. intros a Ha. apply (pp_mem _ _ _ (is_pres _ _ _ Hst)). eapply Hmap; [|exact Ha]. lia. }
    rewrite Ed. fold (map_addr (k_mem s) mm i) (map_bytes (k_mem s) mm i).
    assert (Hsum : map_need (k_mem s) mm (Z.to_nat (i + 1)) =
      map_need (k_mem s) mm (Z.to_nat i) + tables (id_pages (map_bytes (k_mem s) mm i))).
    { rewrite Z2Nat.inj_add, Nat.add_comm by lia. simpl. by rewrite Z2Nat.id by lia. }
    pose proof (map_need_mono (k_mem s) mm (Z.to_nat (i + 1)) (Z.to_nat (mm_entries mm)) ltac:(lia)).
    pose proof (is_avail _ _ _ Hst).
    eapply runs_mono; [apply (map_region t); [apply Hst|apply Hreg; lia|lia]|].
    intros [] t' [Hst' Hid']. split; [rewrite Hsum; by eapply init_step_trans|].
    intros j Hj. destruct (decide (j = i)) as [->|]; [done|].
    destruct (Hreg j ltac:(lia)) as (? & ? & ?). apply (is_keeps _ _ _ Hst'); [lia|lia|]. apply Hid. lia.
  - intros t Ht. rewrite Z2Nat.id, Z.add_0_l in Ht by lia. exact Ht.
Qed.

(** The device regions, after the memory map. *)
Definition device_regions (r : Pg.regions) : list (Z * Z) :=
  [(Pg.r_fb_addr r, Pg.r_fb_size r); (Pg.r_lapic_addr r, 4096); (Pg.r_ioapic_addr r, 8);
   (Pg.r_hpet_addr r, Pg.r_hpet_size r)].
Definition need (l : list (Z * Z)) : Z := foldr (fun '(_, n) z => tables (id_pages n) + z) 0 l.

(** The regions of a list, mapped in order. *)
Fixpoint map_all (l : list (Z * Z)) : M (kst C) unit :=
  match l with
  | [] => mret tt
  | [(a, n)] => Pg.__identity_paging root a n
  | (a, n) :: l' => Pg.__identity_paging root a n;; map_all l'
  end.

Lemma need_nonneg l : Forall (fun '(a, n) => region_ok a n) l -> 0 <= need l.
Proof.
  induction 1 as [|[a n] l (? & _) _ IH]; simpl; [lia|]. pose proof (region_tables n). lia.
Qed.

Lemma map_all_spec s l :
  paging_ok root s -> Forall (fun '(a, n) => region_ok a n) l -> need l <= avail s ->
  runs (map_all l) s (fun _ s' => init_step (need l) s s' /\
    forall a n, (a, n) ∈ l -> identity_mapped s' a (id_pages n)).
Proof.
  revert s. induction l as [|[a n] l IH]; intros s Hpg Hr Hav.
  { apply runs_ret. split; [by apply init_step_refl|]. intros ? ? []%not_elem_of_nil. }
  apply Forall_cons in Hr as [Ha Hr]. simpl need in *. pose proof (need_nonneg l Hr).
  assert (Hrun : runs (Pg.__identity_paging root a n;; map_all l) s (fun _ s' =>
    init_step (tables (id_pages n) + need l) s s' /\ forall a' n', (a', n') ∈ (a, n) :: l -> identity_mapped s' a' (id_pages n'))).
  { apply runs_bind. eapply runs_mono; [apply (map_region s a n); [done|done|lia]|]. intros [] t [Hst Hid].
    pose proof (is_avail _ _ _ Hst). eapply runs_mono; [apply (IH t); [apply Hst|done|lia]|].
    intros [] t' [Hst' Hid']. split; [by eapply init_step_trans|].
    intros a' n' [[= -> ->]|Hin]%elem_of_cons; [|by apply Hid'].
    destruct Ha as (? & ? & ?). apply (is_keeps _ _ _ Hst'); [lia|lia|done]. }
  destruct l; [|exact Hrun]. destruct Hrun as ([] & t & E & Ht). exists tt, t. split; [|done].
  simpl map_all in *. unfold mbind, M_bind in E. destruct (Pg.__identity_paging root a n s) as [[[] t0]|]; [|done].
  exact E.
Qed.

Lemma init_spec s mm r :
  let nd := map_need (k_mem s) mm (Z.to_nat (mm_entries mm)) in
  paging_ok root s -> map_private s mm -> 0 <= mm_entries mm ->
  (forall i, 0 <= i < mm_entries mm -> region_ok (map_addr (k_mem s) mm i) (map_bytes (k_mem s) mm i)) ->
  Forall (fun '(a, n) => region_ok a n) (device_regions r) ->
  nd + need (device_regions r) <= avail s ->
  runs (Pg.init root mm r) s (fun _ s' => init_step (nd + need (device_regions r)) s s' /\
    (forall i, 0 <= i < mm_entries mm ->
       identity_mapped s' (map_addr (k_mem s) mm i) (id_pages (map_bytes (k_mem s) mm i))) /\
    (forall a n, (a, n) ∈ device_regions r -> identity_mapped s' a (id_pages n))).
Proof.
  intros nd Hpg Hmap He Hreg Hdev Hav. pose proof (need_nonneg _ Hdev).
  change (Pg.init root mm r) with (for_loop (Z.to_nat (mm_entries mm)) 0 (fun i =>
    d ← gets (fun s => MM.desc (k_mem s) mm i);
    Pg.__identity_paging root (d_paddr d) (u64 (FRAME_SZ * d_pages d)));; map_all (device_regions r)).
  apply runs_bind. eapply runs_mono; [apply init_loop_spec; try done; unfold nd in *; lia|].
  intros [] t [Hst Hid]. fold nd in Hst. pose proof (is_avail _ _ _ Hst).
  eapply runs_mono; [apply (map_all_spec t); [apply Hst|done|lia]|].
  intros [] t' [Hst' Hid']. split_and!; [by eapply init_step_trans| |done].
  intros i Hi. destruct (Hreg i Hi) as (? & ? & ?). apply (is_keeps _ _ _ Hst'); [lia|lia|auto].
Qed.

(** ** The constructor *)
Lemma root_cr3 : 0 <= root < 2 ^ 52 -> root mod 4096 = 0 ->
  Z.shiftl (get_field (Pg.cr3_value root false false) 12 40) 12 = root.
Proof.
  intros Hr Ha. unfold Pg.cr3_value, get_field. rewrite Z.land_ones by lia.
  rewrite Z.shiftr_div_pow2, Z.shiftl_mul_pow2 by lia. change (2 ^ 12) with 4096.
  rewrite Z.mod_small by zdm. zdm.
Qed.

Definition TEST_ADDR : Z := 0x99999999999.

Lemma test_page va : 0 <= va < 0x99999999000 -> vpage va <> vpage TEST_ADDR.
Proof. intros Hva. rewrite !vpage_small by (unfold TEST_ADDR; lia). unfold TEST_ADDR. zdm. Qed.

(** The self test: the page of [TEST_ADDR] goes to frame 0, and the byte written
    through it is read back. *)
Lemma self_test {A} s regs (x : A) (Q : A -> kst C -> Prop) :
  paging_ok root s -> 3 <= avail s -> private root s 0x999 -> Pg.cr3 regs = Pg.cr3_value root false false ->
  root mod 4096 = 0 -> 0 <= root < 2 ^ 52 ->
  (forall s', paging_ok root s' -> k_con s' = k_con s -> avail s - 3 <= avail s' ->
     (forall a, private root s a -> a <> 0x999 -> mget (k_mem s') a = mget (k_mem s) a) ->
     (forall a, private root s a -> private root s' a) -> mget (k_mem s') 0x999 = 123 ->
     mapped root TEST_ADDR 0 s s' -> Q x s') ->
  runs (Pg.allocate_page root TEST_ADDR 0;; Pg.vstore8 regs TEST_ADDR 123;;
        v ← Pg.vload8 regs TEST_ADDR;
        (if negb (v =? 123) then Pg.kpanic (cs "Paging test failed!") else mret tt);; mret x) s Q.
Proof.
  intros Hpg Hav Hpr Hcr Ha Hb HQ. apply runs_bind.
  eapply runs_mono; [apply (allocate_page_spec root s TEST_ADDR 0); [done|lia|by unfold TEST_ADDR]|].
  intros [] s1 (Hpg1 & Hpp1 & Hav1 & Hmap).
  assert (Hmmu : forall t : kst C, (forall va, translate (k_mem t) root va = translate (k_mem s1) root va) ->
    Pg.mmu regs (k_mem t) TEST_ADDR = Some 0x999).
  { intros t Ht. unfold Pg.mmu. rewrite Hcr, root_cr3, Ht by done. rewrite (Hmap TEST_ADDR).
    by rewrite decide_True by done. }
  set (s2 := mkK (mput (k_mem s1) 0x999 123) (k_pmem s1) (k_con s1)).
  destruct (private_write root s1 s2 Hpg1 eq_refl) as [Hk Hav2].
  { intros a Hna. unfold s2; cbn [k_mem]. rewrite mget_mput, decide_False; [done|]. intros <-.
    by apply Hna, (pp_private _ _ _ Hpp1). }
  apply runs_bind. eapply (runs_eq _ _ tt s2).
  { unfold Pg.vstore8. by rewrite (Hmmu s1) by done. }
  assert (Hv : mget (k_mem s2) 0x999 = 123) by (unfold s2; cbn [k_mem]; by rewrite mget_mput, decide_True).
  apply runs_bind. eapply (runs_eq _ _ 123 s2).
  { unfold Pg.vload8. rewrite (Hmmu s2), Hv; [done|]. intros va. by apply keep_translate. }
  apply runs_bind, runs_ret, runs_ret, HQ; [by eapply keep_ok|apply Hpp1|lia| | |done|].
  - intros a Hpa Hne. unfold s2; cbn [k_mem]. rewrite mget_mput, decide_False by congruence. by apply (pp_mem _ _ _ Hpp1).
  - intros a Hpa. by apply (keep_private root s1 s2), (pp_private _ _ _ Hpp1).
  - intros va. rewrite (keep_translate root s1 s2) by done. apply Hmap.
Qed.

Lemma construct_paging_spec s mm r regs :
  let nd := map_need (k_mem s) mm (Z.to_nat (mm_entries mm)) in
  fresh_root s -> 0 <= mm_entries mm -> quiet s 0x999 ->
  (forall i a, 0 <= i < mm_entries mm -> MM.get_desc mm i <= a < MM.get_desc mm i + 40 -> quiet s a) ->
  (forall i, 0 <= i < mm_entries mm -> region_ok (map_addr (k_mem s) mm i) (map_bytes (k_mem s) mm i)) ->
  Forall (fun '(a, n) => region_ok a n) (device_regions r) ->
  nd + need (device_regions r) + 3 <= avail s ->
  runs (Pg.construct root mm r regs) s (fun regs' s' =>
    paging_ok root s' /\ k_con s' = k_con s /\
    Pg.cr3 regs' = root /\ Z.testbit (Pg.cr0 regs') 31 = true /\ Z.testbit (Pg.cr4 regs') 5 = true /\
    Z.testbit (Pg.efer regs') 8 = true /\
    (forall i, 0 <= i < mm_entries mm ->
       identity_mapped s' (map_addr (k_mem s) mm i) (id_pages (map_bytes (k_mem s) mm i))) /\
    (forall a n, (a, n) ∈ device_regions r -> identity_mapped s' a (id_pages n)) /\
    avail s - (nd + need (device_regions r) + 3) <= avail s' /\
    (forall a, quiet s a -> private root s' a /\ (a <> 0x999 -> mget (k_mem s') a = mget (k_mem s) a))).
Proof.
  intros nd Hfr He Hq Hmq Hreg Hdev Hav. destruct (cleared_spec s Hfr) as (Hpg & Hav0 & Hpr).
  assert (Hroot : 0 <= root < 2 ^ 52).
  { destruct (fr_frame _ Hfr) as [? _]. pose proof (fr_low _ Hfr). zdm. }
  unfold Pg.construct. apply runs_bind, runs_modify. fold (cleared s).
  assert (Hd : forall i, 0 <= i < mm_entries mm -> MM.desc (k_mem (cleared s)) mm i = MM.desc (k_mem s) mm i).
  { intros i Hi. apply desc_agree. intros a Ha. apply cleared_out. by destruct (Hmq i a Hi Ha) as (_ & _ & _ & ?). }
  assert (Ha : forall i, 0 <= i < mm_entries mm -> map_addr (k_mem (cleared s)) mm i = map_addr (k_mem s) mm i /\
    map_bytes (k_mem (cleared s)) mm i = map_bytes (k_mem s) mm i).
  { intros i Hi. unfold map_addr, map_bytes. by rewrite Hd. }
  assert (Hn : forall k, Z.of_nat k <= mm_entries mm -> map_need (k_mem (cleared s)) mm k = map_need (k_mem s) mm k).
  { induction k as [|k IH]; intros Hk; [done|]. cbn [map_need]. rewrite IH by lia. by destruct (Ha (Z.of_nat k)) as [_ ->]; [lia|]. }
  pose proof (need_nonneg _ Hdev) as Hnn.
  assert (0 <= nd) by (change 0 with (map_need (k_mem s) mm 0); apply map_need_mono; lia).
  apply runs_bind. eapply runs_mono; [apply (init_spec (cleared s) mm r); try done|].
  { intros i a Hi Hin. apply Hpr. by eapply Hmq. }
  { intros i Hi. destruct (Ha i Hi) as [-> ->]. auto. }
  { rewrite Hn by lia. fold nd. lia. }
  intros [] s1 (Hst & Hid & Hdid). rewrite Hn in Hst by lia. fold nd in Hst.
  pose proof (is_avail _ _ _ Hst). pose proof (is_pres _ _ _ Hst) as Hpp.
  apply self_test; [apply Hst|lia|by apply (pp_private _ _ _ Hpp), Hpr|done|apply Hfr|done|].
  intros s' Hpg' Hcon Hav' Hmem' Hpr' _ Hmap.
  assert (Hkeep : forall a n, region_ok a n -> identity_mapped s1 a (id_pages n) -> identity_mapped s' a (id_pages n)).
  { intros a n (? & ? & ?) Hm va Hva. rewrite (Hmap va), decide_False by (apply test_page; zdm). by apply Hm. }
  split_and!; [done|by rewrite Hcon, (pp_con _ _ _ Hpp)|done|..].
  - unfold Pg.enable_cpu_4_level_paging. cbn [Pg.cr0]. by rewrite Z.lor_spec, orb_true_r.
  - unfold Pg.enable_cpu_4_level_paging. cbn [Pg.cr4]. by rewrite Z.land_spec, Z.lor_spec, orb_true_r.
  - cbn [Pg.efer]. rewrite set_bit_spec by lia. done.
  - intros i Hi. apply Hkeep; [auto|]. destruct (Ha i Hi) as [<- <-]. by apply Hid.
  - intros a n Hin. apply Hkeep; [|by apply Hdid]. rewrite Forall_forall in Hdev. by apply (Hdev (a, n)).
  - lia.
  - intros a Hqa. split; [by apply Hpr', (pp_private _ _ _ Hpp), Hpr|]. intros Hne. rewrite Hmem', (pp_mem _ _ _ Hpp) by (done || by apply (pp_private _ _ _ Hpp), Hpr || by apply Hpr).
    apply cleared_out. by destruct Hqa as (_ & _ & _ & ?).
Qed.
End Fresh.
