(* ===== verification/Heap.v ===== *)
(** * Heap: the kernel's dynamic allocator, memory/heap.cpp

    A doubly-linked list of block headers that live in memory, in front of the
    data they describe.  Headers are read and written field by field, at the
    offsets of [BlockHeader]; a field access through a null pointer faults. *)
From S2P Require Import Prelude Memory Libc Printf Bitmap MMap PMem Paging.

(** [sizeof(BlockHeader)] and the offsets of its members. *)
Definition HDR : Z := 32.
Definition OFF_PREV : Z := 0.
Definition OFF_NEXT : Z := 8.
Definition OFF_FREE : Z := 16.
Definition OFF_BYTES : Z := 24.

Record HeapStats : Type := mkStats {
  all_blocks : Z;
  free_blocks : Z;
  allocated_blocks : Z
}.

Module Hp.
Section Hp.
Context {C : Type} `{ConsoleI C}.
Local Abbreviation K := (M (kst C)).

(** [p->field] and [p->field = v].  Through a null [p] this is undefined behaviour of
    the program: the model ends there, and says nothing of what a machine does whose page
    at address 0 is mapped. *)
Definition ld (off p : Z) : K Z := fun s =>
  if p =? 0 then Fail NullDeref else Done (read64 (k_mem s) (p + off), s).
Definition st (off p v : Z) : K unit := fun s =>
  if p =? 0 then Fail NullDeref
  else Done (tt, mkK (write64 (k_mem s) (p + off) v) (k_pmem s) (k_con s)).
Definition ld_free (p : Z) : K bool := fun s =>
  if p =? 0 then Fail NullDeref else Done (negb (read8 (k_mem s) (p + OFF_FREE) =? 0), s).
Definition st_free (p : Z) (b : bool) : K unit := fun s =>
  if p =? 0 then Fail NullDeref
  else Done (tt, mkK (write8 (k_mem s) (p + OFF_FREE) (b2z b)) (k_pmem s) (k_con s)).

(** [Heap::Heap]; returns [_blocks]. *)
Definition construct (pml4 : Z) : K Z :=
  frame ← PM.request_frame;
  ASSERT (negb (frame =? 0));;
  Pg.allocate_page pml4 frame frame;;
  st_free frame true;;
  st OFF_NEXT frame 0;;
  st OFF_PREV frame 0;;
  st OFF_BYTES frame (PAGE_SZ - HDR);;
  mret frame.

(** [do { ... } while (block != nullptr)] of [_find_free_block]. *)
Fixpoint find_loop (fuel : nat) (block bytes : Z) : K Z :=
  match fuel with
  | O => fail OutOfFuel
  | S f =>
      fr ← ld_free block;
      sz ← ld OFF_BYTES block;
      if fr && (bytes <=? sz) then mret block
      else
        next ← ld OFF_NEXT block;
        if next =? 0 then mret 0 else find_loop f next bytes
  end.
Definition _find_free_block (fuel : nat) (blocks bytes : Z) : K Z :=
  ASSERT (negb (blocks =? 0));;
  find_loop fuel blocks bytes.

Definition get_block_data_addr (block : Z) : Z := block + HDR.
Definition get_total_block_size (block : Z) : K Z :=
  sz ← ld OFF_BYTES block; mret (u64 (HDR + sz)).
Definition are_blocks_contiguous (block next_block : Z) : K bool :=
  if (block =? 0) || (next_block =? 0) then mret false
  else total ← get_total_block_size block; mret (u64 (block + total) =? next_block).

(** [while (block != nullptr)] of [_find_block_close_before_addr]. *)
Fixpoint close_loop (fuel : nat) (block addr : Z) : K Z :=
  match fuel with
  | O => fail OutOfFuel
  | S f =>
      if block =? 0 then fail AssertFailed
      else
        next ← ld OFF_NEXT block;
        if next =? 0 then mret block
        else if (block <? addr) && (next <? addr) then mret block
        else close_loop f next addr
  end.
Definition _find_block_close_before_addr (fuel : nat) (blocks addr : Z) : K Z :=
  close_loop fuel blocks addr.

(** The new block becomes free and is linked into the list. *)
Definition link_block (fuel : nat) (blocks block pages : Z) : K unit :=
  st OFF_BYTES block (u64 (pages * PAGE_SZ - HDR));;
  st_free block true;;
  prev_block ← _find_block_close_before_addr fuel blocks block;
  n ← ld OFF_NEXT prev_block;
  st OFF_NEXT block n;;
  st OFF_PREV block prev_block;;
  st OFF_NEXT prev_block block;;
  n' ← ld OFF_NEXT block;
  if negb (n' =? 0) then st OFF_PREV n' block else mret tt.

(** The first [if] of [malloc]: no free block is large enough. *)
Definition grow (fuel : nat) (pml4 blocks bytes : Z) : K Z :=
  let pages := u64 (bytes / PAGE_SZ + 1) in
  init_block ← PM.request_frames pages;
  for_loop (Z.to_nat pages) 0 (fun i =>
    let page := init_block + u64 (i * PAGE_SZ) in
    Pg.allocate_page pml4 page page);;
  link_block fuel blocks init_block pages;;
  block ← _find_free_block fuel blocks bytes;
  ASSERT (negb (block =? 0));;
  mret block.

(** The rest of [malloc]: use the block as it is, or split it. *)
Definition take_block (block bytes : Z) : K Z :=
  sz ← ld OFF_BYTES block;
  if (sz =? bytes) || (u64 (sz - bytes) <=? HDR) then
    st_free block false;;
    mret (get_block_data_addr block)
  else
    st_free block false;;
    let new_block := get_block_data_addr block + bytes in
    st_free new_block true;;
    st OFF_BYTES new_block (u64 (sz - bytes - HDR));;
    nb ← ld OFF_BYTES new_block;
    ASSERT (0 <? nb);;
    next ← ld OFF_NEXT block;
    (if negb (next =? 0) then st OFF_PREV next new_block else mret tt);;
    st OFF_NEXT new_block next;;
    st OFF_PREV new_block block;;
    st OFF_BYTES block bytes;;
    st OFF_NEXT block new_block;;
    mret (get_block_data_addr block).

(** [Heap::malloc]. *)
Definition malloc (fuel : nat) (pml4 blocks bytes : Z) : K Z :=
  ASSERT (0 <? bytes);;
  block ← _find_free_block fuel blocks bytes;
  block' ← (if block =? 0 then grow fuel pml4 blocks bytes else mret block);
  take_block block' bytes.

(** The first merge of [free]: absorb the next block. *)
Definition merge_next (block : Z) : K unit :=
  next ← ld OFF_NEXT block;
  if next =? 0 then mret tt else
  nf ← ld_free next;
  contiguous ← (if (nf : bool) then are_blocks_contiguous block next else mret false);
  if negb contiguous then mret tt else
  sz ← ld OFF_BYTES block;
  total ← get_total_block_size next;
  st OFF_BYTES block (u64 (sz + total));;
  nn ← ld OFF_NEXT next;
  st OFF_NEXT block nn;;
  if negb (nn =? 0) then st OFF_PREV nn block else mret tt.

(** The second merge: the previous block absorbs this one. *)
Definition merge_prev (block : Z) : K unit :=
  prev ← ld OFF_PREV block;
  if prev =? 0 then mret tt else
  pf ← ld_free prev;
  contiguous ← (if (pf : bool) then are_blocks_contiguous prev block else mret false);
  if negb contiguous then mret tt else
  sz ← ld OFF_BYTES prev;
  total ← get_total_block_size block;
  st OFF_BYTES prev (u64 (sz + total));;
  next ← ld OFF_NEXT block;
  st OFF_NEXT prev next;;
  st OFF_PREV next prev.

(** [Heap::free]. *)
Definition free (ptr : Z) : K unit :=
  if ptr =? 0 then mret tt else
  let block := ptr - HDR in
  st_free block true;;
  merge_next block;;
  merge_prev block.

(** [Heap::get_heap_stats]. *)
Fixpoint stats_loop (fuel : nat) (block : Z) (acc : HeapStats) : K HeapStats :=
  match fuel with
  | O => fail OutOfFuel
  | S f =>
      if block =? 0 then mret acc
      else
        fr ← ld_free block;
        next ← ld OFF_NEXT block;
        stats_loop f next
          (if fr : bool
           then mkStats (u64 (all_blocks acc + 1)) (u64 (free_blocks acc + 1)) (allocated_blocks acc)
           else mkStats (u64 (all_blocks acc + 1)) (free_blocks acc) (u64 (allocated_blocks acc + 1)))
  end.
Definition get_heap_stats (fuel : nat) (blocks : Z) : K HeapStats :=
  stats_loop fuel blocks (mkStats 0 0 0).

End Hp.
End Hp.
