(* ===== verification/HeapSpec.v ===== *)
(** * HeapSpec: the heap as a list of blocks, and the refinement

    The abstract heap is the list of blocks in list order.  [rep] says that the
    headers in memory are that list; each operation of memory/heap.cpp is shown
    to implement its operation on lists. *)
From S2P Require Import Prelude Memory Libc Printf Bitmap MMap PMem Paging Heap.

(** A block: the address of its header, the size of its data, its state. *)
Record blk : Type := mkBlk {
  b_addr : Z;
  b_bytes : Z;
  b_free : bool
}.

Global Instance blk_eq_dec : EqDecision blk.
Proof. solve_decision. Defined.

Definition b_end (b : blk) : Z := b_addr b + HDR + b_bytes b.
Definition in_hdr (b : blk) (a : Z) : Prop := b_addr b <= a < b_addr b + HDR.
Definition in_blk (b : blk) (a : Z) : Prop := b_addr b <= a < b_end b.
Definition in_data (b : blk) (a : Z) : Prop := b_addr b + HDR <= a < b_end b.

Definition blk_ok (b : blk) : Prop := 0 < b_addr b /\ 0 < b_bytes b /\ b_end b < 2 ^ 64.
Definition apart (b c : blk) : Prop := b_end b <= b_addr c \/ b_end c <= b_addr b.

(** Pairwise apart. *)
Fixpoint all_apart (l : list blk) : Prop :=
  match l with
  | [] => True
  | b :: l' => Forall (apart b) l' /\ all_apart l'
  end.

Definition blocks_ok (l : list blk) : Prop := Forall blk_ok l /\ all_apart l.

(** ** Abstract operations *)
Definition fits (n : Z) (b : blk) : Prop := b_free b = true /\ n <= b_bytes b.
Global Instance fits_dec n b : Decision (fits n b).
Proof. apply _. Defined.

(** First fit. *)
Definition a_find (l : list blk) (n : Z) : option (nat * blk) := list_find (fits n) l.

(** The blocks that replace a free block [b] when [n] bytes are taken from it. *)
Definition a_take (b : blk) (n : Z) : list blk :=
  if decide (b_bytes b - n <= HDR) then [mkBlk (b_addr b) (b_bytes b) false]
  else [mkBlk (b_addr b) n false; mkBlk (b_addr b + HDR + n) (b_bytes b - n - HDR) true].

Definition contiguous (b c : blk) : Prop := b_end b = b_addr c.
Global Instance contiguous_dec b c : Decision (contiguous b c).
Proof. unfold contiguous. apply _. Defined.

Definition a_join (b c : blk) : blk := mkBlk (b_addr b) (b_bytes b + HDR + b_bytes c) (b_free b).
Definition joinable (b c : blk) : Prop := b_free c = true /\ contiguous b c.
Global Instance joinable_dec b c : Decision (joinable b c).
Proof. unfold joinable. apply _. Defined.

(** A block and its successors, after the merge with the next block. *)
Definition a_merge_next (b : blk) (l2 : list blk) : list blk :=
  match l2 with
  | c :: l2' => if decide (joinable b c) then a_join b c :: l2' else b :: l2
  | [] => [b]
  end.

(** A block [x] after the blocks [l1] and before [r], after the merge with the previous block. *)
Definition a_merge_prev (l1 : list blk) (x : blk) (r : list blk) : list blk :=
  match last l1 with
  | Some p => if decide (b_free p = true /\ contiguous p x) then removelast l1 ++ a_join p x :: r
              else l1 ++ x :: r
  | None => l1 ++ x :: r
  end.

(** The second merge dereferences the null pointer after the last block. *)
Definition a_merge_prev_null (l1 : list blk) (x : blk) (r : list blk) : Prop :=
  r = [] /\ match last l1 with Some p => b_free p = true /\ contiguous p x | None => False end.
Global Instance a_merge_prev_null_dec l1 x r : Decision (a_merge_prev_null l1 x r).
Proof. unfold a_merge_prev_null. destruct (last l1); apply _. Defined.

Definition a_set (b : blk) (f : bool) : blk := mkBlk (b_addr b) (b_bytes b) f.

(** [malloc] on the list of blocks: the address of the data, the new blocks. *)
Definition a_malloc (l : list blk) (n : Z) : option (Z * list blk) :=
  match a_find l n with
  | Some (i, b) => Some (b_addr b + HDR, take i l ++ a_take b n ++ drop (S i) l)
  | None => None
  end.

(** [free] of the block [b] between [l1] and [l2]; [None] is the null dereference. *)
Definition a_free (l1 : list blk) (b : blk) (l2 : list blk) : option (list blk) :=
  match a_merge_next (a_set b true) l2 with
  | x :: r => if decide (a_merge_prev_null l1 x r) then None else Some (a_merge_prev l1 x r)
  | [] => None
  end.

(** ** The representation in memory *)

(** The header of [b], linked to [p] and [n]. *)
Definition hdr (m : mem) (b : blk) (p n : Z) : Prop :=
  read64 m (b_addr b + OFF_PREV) = p /\ read64 m (b_addr b + OFF_NEXT) = n /\
  read8 m (b_addr b + OFF_FREE) = b2z (b_free b) /\ read64 m (b_addr b + OFF_BYTES) = b_bytes b.

Definition hd_addr (l : list blk) (n : Z) : Z := match l with [] => n | b :: _ => b_addr b end.
Definition last_addr (p : Z) (l : list blk) : Z := match last l with None => p | Some b => b_addr b end.

(** The blocks [l] as a doubly-linked segment between [p] and [n]. *)
Fixpoint rep (m : mem) (p : Z) (l : list blk) (n : Z) : Prop :=
  match l with
  | [] => True
  | b :: l' => hdr m b p (hd_addr l' n) /\ rep m (b_addr b) l' n
  end.

(** ** Facts about segments *)
Lemma hd_addr_app l1 l2 n : hd_addr (l1 ++ l2) n = hd_addr l1 (hd_addr l2 n).
Proof. by destruct l1. Qed.

Lemma last_addr_cons p b l : last_addr p (b :: l) = last_addr (b_addr b) l.
Proof. unfold last_addr. rewrite last_cons. by destruct (last l). Qed.

Lemma rep_app m p l1 l2 n :
  rep m p (l1 ++ l2) n <-> rep m p l1 (hd_addr l2 n) /\ rep m (last_addr p l1) l2 n.
Proof.
  revert p. induction l1 as [|b l1 IH]; intros p; simpl.
  - unfold last_addr. simpl. tauto.
  - rewrite IH, hd_addr_app, last_addr_cons. tauto.
Qed.

Lemma last_addr_snoc p l b : last_addr p (l ++ [b]) = b_addr b.
Proof. unfold last_addr. by rewrite last_snoc. Qed.

Lemma hdr_agree m m' b p n : agree (in_hdr b) m m' -> hdr m b p n -> hdr m' b p n.
Proof.
  intros Ha (H1 & H2 & H3 & H4). unfold in_hdr, HDR, hdr, OFF_PREV, OFF_NEXT, OFF_FREE, OFF_BYTES in *.
  rewrite !read8_mget in *.
  split_and!; [rewrite <- H1|rewrite <- H2|rewrite <- H3|rewrite <- H4];
    try (apply read64_agree; intros a Hb); symmetry; apply Ha; lia.
Qed.

Lemma rep_agree m m' p l n : (forall b, b ∈ l -> agree (in_hdr b) m m') -> rep m p l n -> rep m' p l n.
Proof.
  revert p. induction l as [|b l IH]; intros p Ha; simpl; [done|]. intros [Hh Hr]. split.
  - eapply hdr_agree; [|exact Hh]. apply Ha. by left.
  - apply IH; [|done]. intros c Hc. apply Ha. by right.
Qed.

Lemma all_apart_app l1 l2 :
  all_apart (l1 ++ l2) <-> all_apart l1 /\ all_apart l2 /\ forall b c, b ∈ l1 -> c ∈ l2 -> apart b c.
Proof.
  induction l1 as [|b l1 IH]; simpl.
  - split; [|tauto]. intros. split_and!; [done|done|]. intros b c Hb. by apply not_elem_of_nil in Hb.
  - rewrite IH, Forall_app, !Forall_forall. split.
    + intros ((H1 & H2) & H3 & H4 & H5). split_and!; auto.
      intros x c [->|Hx]%elem_of_cons Hc; auto.
    + intros ((H1 & H3) & H4 & H5). split_and!; auto.
      * intros c Hc. apply H5; [by left|done].
      * intros x c Hx Hc. apply H5; [by right|done].
Qed.

Lemma apart_sym b c : apart b c -> apart c b.
Proof. unfold apart. tauto. Qed.

(** The middle block of a well-formed list is apart from all the others. *)
Lemma blocks_ok_middle l1 b l2 :
  blocks_ok (l1 ++ b :: l2) ->
  blk_ok b /\ (forall c, c ∈ l1 \/ c ∈ l2 -> blk_ok c /\ apart b c) /\ blocks_ok l1 /\ blocks_ok l2 /\
  (forall c d, c ∈ l1 -> d ∈ l2 -> apart c d).
Proof.
  unfold blocks_ok. rewrite all_apart_app, Forall_app, Forall_cons. simpl. rewrite !Forall_forall.
  intros ((H1 & Hb & H2) & (H3 & (H4 & H5) & H6)). split_and!; try done.
  - intros c [Hc|Hc]; split; auto. apply apart_sym, H6; [done|by left].
  - intros c d Hc Hd. apply H6; [done|by right].
Qed.

(** ** Reading through writes *)
Lemma read64_write8_out m p q v : q + 8 <= p \/ p + 1 <= q -> read64 (write8 m p v) q = read64 m q.
Proof. intros. unfold read64, write8. apply load_store_out. lia. Qed.
Lemma read8_write64_out m p q v : q + 1 <= p \/ p + 8 <= q -> read8 (write64 m p v) q = read8 m q.
Proof. intros. unfold read8, write64. apply load_store_out. lia. Qed.
Lemma read8_write8_out m p q v : q <> p -> read8 (write8 m p v) q = read8 m q.
Proof. intros. unfold read8, write8. apply load_store_out. lia. Qed.
Lemma read8_write8_bool m p b : read8 (write8 m p (b2z b)) p = b2z b.
Proof. apply read8_write8. destruct b; simpl; lia. Qed.

Ltac offsets := unfold in_hdr, in_blk, in_data, b_end in *; unfold OFF_PREV, OFF_NEXT, OFF_FREE, OFF_BYTES, HDR in *.

(** Evaluates the loads of a goal through the stores before them. *)
Ltac mem_simp := repeat first
  [ rewrite read8_write8_bool
  | rewrite read8_write8 by lia
  | rewrite read64_write64 by lia
  | rewrite read64_write64_out by lia
  | rewrite read64_write8_out by lia
  | rewrite read8_write64_out by lia
  | rewrite read8_write8_out by lia
  | rewrite mget_write64_out by lia
  | rewrite mget_write8_out by lia ].

Section Access.
Context {C : Type} `{ConsoleI C}.
Implicit Types s : kst C.

Lemma runs_ld s off p (Q : Z -> kst C -> Prop) :
  p <> 0 -> Q (read64 (k_mem s) (p + off)) s -> runs (Hp.ld off p) s Q.
Proof. intros Hp HQ. unfold runs, Hp.ld. rewrite (proj2 (Z.eqb_neq _ _) Hp). eauto. Qed.

Lemma runs_st s off p v (Q : unit -> kst C -> Prop) :
  p <> 0 -> Q tt (mkK (write64 (k_mem s) (p + off) v) (k_pmem s) (k_con s)) -> runs (Hp.st off p v) s Q.
Proof. intros Hp HQ. unfold runs, Hp.st. rewrite (proj2 (Z.eqb_neq _ _) Hp). eauto. Qed.

Lemma runs_ld_free s p (Q : bool -> kst C -> Prop) :
  p <> 0 -> Q (negb (read8 (k_mem s) (p + OFF_FREE) =? 0)) s -> runs (Hp.ld_free p) s Q.
Proof. intros Hp HQ. unfold runs, Hp.ld_free. rewrite (proj2 (Z.eqb_neq _ _) Hp). eauto. Qed.

Lemma runs_st_free s p b (Q : unit -> kst C -> Prop) :
  p <> 0 -> Q tt (mkK (write8 (k_mem s) (p + OFF_FREE) (b2z b)) (k_pmem s) (k_con s)) ->
  runs (Hp.st_free p b) s Q.
Proof. intros Hp HQ. unfold runs, Hp.st_free. rewrite (proj2 (Z.eqb_neq _ _) Hp). eauto. Qed.

End Access.

(** Steps over the loads and stores of a run, when [lia] sees that the pointer is not null. *)
Ltac hstep := apply runs_bind;
  first [apply runs_ld; [lia|] | apply runs_ld_free; [lia|] | apply runs_st; [lia|]
        |apply runs_st_free; [lia|]]; simpl k_mem; simpl k_pmem; simpl k_con.

Section Refine.
Context {C : Type} `{ConsoleI C}.
Implicit Types s : kst C.

Lemma b2z_nonzero b : negb (b2z b =? 0) = b.
Proof. by destruct b. Qed.

(** The successor pointer of a list of well-formed blocks is null iff it is empty. *)
Lemma hd_addr_null l : Forall blk_ok l -> hd_addr l 0 = 0 <-> l = [].
Proof. destruct l as [|b l]; simpl; [done|]. intros [(? & _) _]%Forall_cons. split; [lia|done]. Qed.

Lemma find_loop_spec s fuel p l n :
  l <> [] -> Forall blk_ok l -> rep (k_mem s) p l 0 -> (length l <= fuel)%nat ->
  Hp.find_loop fuel (hd_addr l 0) n s =
    Done (match a_find l n with Some (_, b) => b_addr b | None => 0 end, s).
Proof.
  revert fuel p. induction l as [|b l IH]; intros fuel p Hne Hok Hrep Hf; [done|].
  destruct fuel as [|fuel]; simpl in Hf; [lia|]. apply Forall_cons in Hok as [Hb Hok].
  destruct Hrep as [(H1 & H2 & H3 & H4) Hrep]. apply runs_exact. simpl Hp.find_loop. simpl hd_addr.
  apply runs_bind, runs_ld_free; [destruct Hb; lia|]. rewrite H3, b2z_nonzero.
  apply runs_bind, runs_ld; [destruct Hb; lia|]. rewrite H4. unfold a_find. simpl list_find.
  destruct (decide (fits n b)) as [[Hfr Hn]|Hnf].
  - rewrite Hfr, (proj2 (Z.leb_le _ _) Hn). by apply runs_ret.
  - replace (b_free b && (n <=? b_bytes b)) with false.
    2: { symmetry. apply not_true_iff_false. intros [Hfr Hn%Z.leb_le]%andb_true_iff. by apply Hnf. }
    apply runs_bind, runs_ld; [destruct Hb; lia|]. rewrite H2.
    destruct l as [|c l].
    + simpl. by apply runs_ret.
    + destruct (Z.eqb_spec (hd_addr (c :: l) 0) 0) as [E|E]; [by apply hd_addr_null in E|].
      eapply runs_eq; [by eapply IH; [| |exact Hrep|lia]|]. split; [|done].
      unfold a_find. by destruct (list_find (fits n) (c :: l)) as [[]|].
Qed.

Lemma find_free_block_spec s fuel l n :
  l <> [] -> blocks_ok l -> rep (k_mem s) 0 l 0 -> (length l <= fuel)%nat ->
  Hp._find_free_block fuel (hd_addr l 0) n s =
    Done (match a_find l n with Some (_, b) => b_addr b | None => 0 end, s).
Proof.
  intros Hne [Hok _] Hrep Hf. unfold Hp._find_free_block.
  assert (hd_addr l 0 <> 0) by (by rewrite hd_addr_null).
  erewrite bind_done; [by eapply find_loop_spec|]. unfold ASSERT. by rewrite (proj2 (Z.eqb_neq _ _)).
Qed.

(** A first fit splits the list. *)
Lemma a_find_split l n i b :
  a_find l n = Some (i, b) ->
  exists l1 l2, l = l1 ++ b :: l2 /\ length l1 = i /\ fits n b /\ Forall (fun c => ~ fits n c) l1.
Proof.
  intros (Hl & Hf & Hmin)%list_find_Some. exists (take i l), (drop (S i) l).
  split_and!; [by rewrite take_drop_middle| |done|].
  - rewrite length_take. apply lookup_lt_Some in Hl. lia.
  - apply Forall_lookup. intros k c Hc. apply lookup_take_Some in Hc as [Hc Hk]. by eapply Hmin.
Qed.

(** [a_malloc] replaces one block, the first that fits. *)
Lemma a_malloc_split l n r l' :
  a_malloc l n = Some (r, l') ->
  exists l1 b l2, l = l1 ++ b :: l2 /\ l' = l1 ++ a_take b n ++ l2 /\ r = b_addr b + HDR /\
    fits n b /\ Forall (fun c => ~ fits n c) l1 /\ a_find l n = Some (length l1, b).
Proof.
  unfold a_malloc. intros E. destruct (a_find l n) as [[i b]|] eqn:Ef; simplify_eq.
  pose proof Ef as Ef'. apply a_find_split in Ef' as (l1 & l2 & -> & <- & Hfit & Hno).
  exists l1, b, l2. split_and!; try done. rewrite take_app_length.
  by rewrite drop_app_ge, Nat.sub_succ_l, Nat.sub_diag by lia.
Qed.

(** An operation from the blocks [l] to the blocks [l'] writes to their headers only. *)
Definition heap_frame (l l' : list blk) (m m' : mem) : Prop :=
  forall a, (forall c, c ∈ l \/ c ∈ l' -> ~ in_hdr c a) -> mget m' a = mget m a.

Lemma hd_addr_range l : Forall blk_ok l -> 0 <= hd_addr l 0 < 2 ^ 64.
Proof.
  destruct l as [|b l]; simpl; [lia|]. intros [(? & ? & ?) _]%Forall_cons. offsets. lia.
Qed.

(** ** Taking a block *)
Lemma a_take_ok l1 b l2 n :
  blocks_ok (l1 ++ b :: l2) -> 0 < n <= b_bytes b -> blocks_ok (l1 ++ a_take b n ++ l2).
Proof.
  intros Hok Hn. pose proof (blocks_ok_middle _ _ _ Hok) as (Hb & Ho & [F1 A1] & [F2 A2] & H12).
  unfold blk_ok in Hb. unfold a_take. case_decide; simpl app.
  - split.
    + rewrite Forall_app, Forall_cons. by split_and!.
    + rewrite all_apart_app. simpl. rewrite Forall_forall. split_and!; try done.
      * intros c Hc. apply Ho. by right.
      * intros c d Hc [->|Hd]%elem_of_cons; [|by apply H12].
        destruct (Ho c (or_introl Hc)) as [_ Hap]. unfold apart, b_end in *. simpl. lia.
  - split.
    + rewrite Forall_app, !Forall_cons. unfold blk_ok, b_end, HDR in *. simpl. split_and!; try done; lia.
    + rewrite all_apart_app. simpl. rewrite Forall_cons, !Forall_forall. split_and!; try done.
      * unfold apart, b_end. simpl. lia.
      * intros c Hc. destruct (Ho c (or_intror Hc)) as [_ Hap]. unfold apart, b_end, HDR in *. simpl. lia.
      * intros c Hc. destruct (Ho c (or_intror Hc)) as [_ Hap]. unfold apart, b_end, HDR in *. simpl. lia.
      * intros c d Hc [->|[->|Hd]%elem_of_cons]%elem_of_cons; [| |by apply H12];
          destruct (Ho c (or_introl Hc)) as [_ Hap]; unfold apart, b_end, HDR in *; simpl; lia.
Qed.

(** Writes outside the headers of a segment keep it. *)
Definition clear_of (l : list blk) (a n : Z) : Prop :=
  forall c, c ∈ l -> a + n <= b_addr c \/ b_addr c + HDR <= a.

Lemma rep_write64 m p l n a v : clear_of l a 8 -> rep m p l n -> rep (write64 m a v) p l n.
Proof.
  intros Hc. apply rep_agree. intros b Hb x Hx. specialize (Hc b Hb). cbv beta in Hc. offsets.
  by rewrite mget_write64_out by lia.
Qed.

Lemma rep_write8 m p l n a v : clear_of l a 1 -> rep m p l n -> rep (write8 m a v) p l n.
Proof.
  intros Hc. apply rep_agree. intros b Hb x Hx. specialize (Hc b Hb). cbv beta in Hc. offsets.
  by rewrite mget_write8_out by lia.
Qed.

(** [if (next != nullptr) next->prev = q]. *)
Definition relink (m : mem) (l : list blk) (q : Z) : mem :=
  match l with [] => m | b :: _ => write64 m (b_addr b + OFF_PREV) q end.

Lemma relink_out m l q a : (forall c, c ∈ l -> ~ in_hdr c a) -> mget (relink m l q) a = mget m a.
Proof.
  destruct l as [|b l]; simpl; [done|]. intros Hc. specialize (Hc b ltac:(by left)). offsets.
  by rewrite mget_write64_out by lia.
Qed.

Lemma relink_agree m l q b :
  (forall c, c ∈ l -> blk_ok c /\ apart b c) -> blk_ok b -> agree (in_hdr b) (relink m l q) m.
Proof.
  intros Hl Hb a Ha. rewrite relink_out; [done|]. intros c Hc Hin.
  destruct (Hl c Hc) as [Hc' Hap]. unfold apart, blk_ok in *. offsets. lia.
Qed.

Lemma read64_relink m l q b off :
  (forall c, c ∈ l -> blk_ok c /\ apart b c) -> blk_ok b -> 0 <= off <= 24 ->
  read64 (relink m l q) (b_addr b + off) = read64 m (b_addr b + off).
Proof. intros Hl Hb Ho. apply read64_agree. intros a Ha. apply (relink_agree m l q b); [done..|]. offsets. lia. Qed.

Lemma read8_relink m l q b off :
  (forall c, c ∈ l -> blk_ok c /\ apart b c) -> blk_ok b -> 0 <= off < 32 ->
  read8 (relink m l q) (b_addr b + off) = read8 m (b_addr b + off).
Proof. intros Hl Hb Ho. rewrite !read8_mget. apply (relink_agree m l q b); [done..|]. offsets. lia. Qed.

Lemma rep_relink m p q l n : 0 <= q < 2 ^ 64 -> blocks_ok l -> rep m p l n -> rep (relink m l q) q l n.
Proof.
  intros Hq [Hok Hap]. destruct l as [|b l]; simpl; [done|]. intros [(H1 & H2 & H3 & H4) Hr].
  apply Forall_cons in Hok as [Hb Hok]. destruct Hap as [Hap _]. split.
  - unfold hdr. offsets. mem_simp. done.
  - apply rep_write64; [|done]. intros c Hc. rewrite Forall_forall in Hap, Hok.
    specialize (Hap c Hc). specialize (Hok c Hc). unfold apart, blk_ok in *. offsets. lia.
Qed.

(** A segment that stays clear of a relinked one. *)
Lemma rep_relink_apart m p l n l2 q :
  Forall blk_ok l -> Forall blk_ok l2 -> (forall c d, c ∈ l -> d ∈ l2 -> apart c d) ->
  rep m p l n -> rep (relink m l2 q) p l n.
Proof.
  intros Hl Hl2 Hap. apply rep_agree. intros c Hc a Ha. rewrite relink_out; [done|].
  intros d Hd Hin. specialize (Hap c d Hc Hd). rewrite Forall_forall in Hl, Hl2.
  specialize (Hl c Hc). specialize (Hl2 d Hd). unfold apart, blk_ok in *. offsets. lia.
Qed.

(** [if (next != nullptr) next->prev = q], run. *)
Lemma runs_relink s l q (Q : unit -> kst C -> Prop) :
  Forall blk_ok l ->
  Q tt (mkK (relink (k_mem s) l q) (k_pmem s) (k_con s)) ->
  runs (if negb (hd_addr l 0 =? 0) then Hp.st OFF_PREV (hd_addr l 0) q else mret tt) s Q.
Proof.
  intros Hok HQ. destruct l as [|b l]; simpl.
  - apply runs_ret. by destruct s.
  - apply Forall_cons in Hok as [(? & _) _]. rewrite (proj2 (Z.eqb_neq _ _)) by lia. simpl.
    by apply runs_st; [lia|].
Qed.

(** The state after an operation: the blocks [l'], nothing else changed. *)
Record heap_step (l l' : list blk) (s s' : kst C) : Prop := {
  hs_rep : rep (k_mem s') 0 l' 0;
  hs_ok : blocks_ok l';
  hs_frame : heap_frame l l' (k_mem s) (k_mem s');
  hs_pmem : k_pmem s' = k_pmem s;
  hs_con : k_con s' = k_con s
}.

(** The memory when [b] is split, [m] the memory when [next->prev] is written. *)
Definition split_mem (m : mem) (b nb : blk) (l2 : list blk) : mem :=
  write64 (write64 (write64 (write64 (relink m l2 (b_addr nb)) (b_addr nb + 8) (hd_addr l2 0))
    (b_addr nb + 0) (b_addr b)) (b_addr b + 24) (b_addr nb - b_addr b - 32)) (b_addr b + 8) (b_addr nb).

Lemma split_mem_out m b nb l2 a :
  (forall c, c = b \/ c = nb \/ c ∈ l2 -> ~ in_hdr c a) -> mget (split_mem m b nb l2) a = mget m a.
Proof.
  intros Hc. pose proof (Hc b ltac:(auto)). pose proof (Hc nb ltac:(auto)). unfold split_mem. offsets.
  mem_simp. apply relink_out. intros c Hin. apply Hc. auto.
Qed.

Lemma split_rep m l1 b nb l2 q :
  blocks_ok (l1 ++ b :: nb :: l2) -> b_end b = b_addr nb ->
  rep m 0 l1 (b_addr b) -> rep m q l2 0 ->
  read64 m (b_addr b + OFF_PREV) = last_addr 0 l1 -> read8 m (b_addr b + OFF_FREE) = b2z (b_free b) ->
  read8 m (b_addr nb + OFF_FREE) = b2z (b_free nb) -> read64 m (b_addr nb + OFF_BYTES) = b_bytes nb ->
  rep (split_mem m b nb l2) 0 (l1 ++ b :: nb :: l2) 0.
Proof.
  intros Hok He R1 R2 P1 P3 N3 N4.
  pose proof (blocks_ok_middle _ _ _ Hok) as (Hb & Ho & [F1 _] & HokN & H1).
  pose proof (blocks_ok_middle [] _ _ HokN) as (Hn & HoN & _ & HokL & _).
  pose proof HokN as [FN [AN _]]. apply Forall_cons in FN as [_ F2].
  pose proof (hd_addr_range l2 F2). unfold blk_ok in Hb, Hn. apply rep_app. simpl. split; [|split; [|split]].
  - eapply rep_agree; [|exact R1]. intros c Hc a Ha. rewrite split_mem_out; [done|].
    destruct (Ho c (or_introl Hc)) as [(? & ? & ?) Hap].
    intros d Hd Hin. assert (apart c d /\ blk_ok d) as [Hap' (? & ? & ?)].
    { destruct Hd as [->|Hd]; [by split; [apply apart_sym|]|]. split.
      - apply H1; [done|]. rewrite elem_of_cons. done.
      - destruct Hd as [->|Hd]; [done|]. by apply HoN; right. }
    unfold apart in Hap'. offsets. lia.
  - unfold hdr, split_mem. offsets. mem_simp.
    rewrite read64_relink, read8_relink by (first [done|lia|intros c Hc; apply Ho; right; by right]).
    split_and!; [done|done|done|lia].
  - unfold hdr, split_mem. offsets. mem_simp.
    rewrite read64_relink, read8_relink by (first [done|lia|intros c Hc; apply HoN; by right]). done.
  - unfold split_mem.
    assert (forall c, c ∈ l2 -> b_end nb <= b_addr c \/ b_addr c + HDR <= b_addr b).
    { intros c Hc. destruct (HoN c (or_intror Hc)) as [(? & ? & ?) Hap].
      destruct (Ho c) as [_ Hap2]; [right; by right|]. unfold apart in *. offsets. lia. }
    do 4 (apply rep_write64; [intros c Hc; specialize (H2 c Hc); offsets; lia|]).
    eapply rep_relink; [lia|done|exact R2].
Qed.

(** A block marked as used, its size kept. *)
Lemma mark_used_step s l1 b l2 :
  let b' := mkBlk (b_addr b) (b_bytes b) false in
  blocks_ok (l1 ++ b :: l2) -> blocks_ok (l1 ++ b' :: l2) -> rep (k_mem s) 0 (l1 ++ b :: l2) 0 ->
  heap_step (l1 ++ b :: l2) (l1 ++ b' :: l2) s
    (mkK (write8 (k_mem s) (b_addr b + OFF_FREE) (b2z false)) (k_pmem s) (k_con s)).
Proof.
  intros b' Hok Hok' Hrep. pose proof (blocks_ok_middle _ _ _ Hok) as ((Hb0 & Hb1 & Hb2) & Ho & _).
  apply rep_app in Hrep as [R1 [(P1 & P2 & P3 & P4) R2]].
  assert (Hcl : forall c, c ∈ l1 \/ c ∈ l2 -> b_addr c + 32 <= b_addr b \/ b_end b <= b_addr c).
  { intros c Hc. destruct (Ho c Hc) as [(? & ? & ?) Hap]. unfold apart in Hap. offsets. lia. }
  split; simpl; try done.
  - apply rep_app. simpl. split; [|split].
    + apply rep_write8; [|done]. intros c Hc. specialize (Hcl c (or_introl Hc)). offsets. lia.
    + unfold hdr. simpl. offsets. mem_simp. done.
    + apply rep_write8; [|done]. intros c Hc. specialize (Hcl c (or_intror Hc)). offsets. lia.
  - intros a Ha. specialize (Ha b). offsets. rewrite mget_write8_out; [done|]. intros ->.
    apply Ha; [left; rewrite elem_of_app, elem_of_cons; auto|lia].
Qed.

Lemma take_block_spec s l1 b l2 n :
  blocks_ok (l1 ++ b :: l2) -> rep (k_mem s) 0 (l1 ++ b :: l2) 0 -> 0 < n <= b_bytes b ->
  runs (Hp.take_block (b_addr b) n) s (fun r s' =>
    r = b_addr b + HDR /\ heap_step (l1 ++ b :: l2) (l1 ++ a_take b n ++ l2) s s').
Proof.
  intros Hok Hrep Hn. pose proof (a_take_ok _ _ _ _ Hok Hn) as Hok'.
  pose proof (blocks_ok_middle _ _ _ Hok) as (Hb & Ho & [F1 A1] & [F2 A2] & H12).
  pose proof Hb as (Hb0 & Hb1 & Hb2).
  pose proof Hrep as [R1 [(P1 & P2 & P3 & P4) R2]]%rep_app. simpl in R1.
  unfold Hp.take_block. hstep. rewrite P4.
  assert (Hcl : forall c, c ∈ l1 \/ c ∈ l2 -> b_addr c + 32 <= b_addr b \/ b_end b <= b_addr c).
  { intros c Hc. destruct (Ho c Hc) as [(? & ? & ?) Hap]. unfold apart in Hap. offsets. lia. }
  rewrite u64_small by (offsets; lia).
  unfold a_take in *. destruct (decide (b_bytes b - n <= HDR)) as [Hd|Hd].
  - replace ((b_bytes b =? n) || (b_bytes b - n <=? HDR)) with true by lia.
    hstep. apply runs_ret. split; [done|]. by apply mark_used_step.
  - replace ((b_bytes b =? n) || (b_bytes b - n <=? HDR)) with false by (unfold HDR in *; lia).
    unfold Hp.get_block_data_addr. offsets.
    do 3 hstep. hstep. rewrite read64_write64 by (apply u64_range). rewrite u64_small by lia.
    apply runs_bind, runs_assert; [apply Z.ltb_lt; lia|].
    hstep. offsets. mem_simp. rewrite P2.
    apply runs_bind, runs_relink; [done|]. simpl k_mem. simpl k_pmem. simpl k_con.
    do 4 hstep. apply runs_ret. split; [done|]. simpl app in *.
    pose proof (blocks_ok_middle _ _ _ Hok') as (_ & _ & _ & [FN [AN _]] & _).
    set (nb := mkBlk (b_addr b + 32 + n) (b_bytes b - n - 32) true) in *.
    set (m1 := write64 _ (b_addr b + 32 + n + 24) _).
    set (b' := mkBlk (b_addr b) n false) in *. change (b_addr b) with (b_addr b') at 1 2 3 4 5.
    change (b_addr b + 32 + n) with (b_addr nb).
    replace (write64 (write64 _ _ n) _ _) with (split_mem m1 b' nb l2)
      by (unfold split_mem; subst nb b'; simpl; do 2 f_equal; lia).
    assert (Hm1 : forall a, ~ in_hdr b a -> ~ in_hdr nb a -> mget m1 a = mget (k_mem s) a).
    { intros a ? ?. subst m1 nb. simpl in *. offsets. simpl in *. by mem_simp. }
    split; simpl; try done.
    + apply (split_rep _ _ _ _ _ (b_addr b) Hok'); subst m1 nb b'; simpl;
        try (offsets; simpl; mem_simp; done).
      * eapply rep_agree; [|exact R1]. intros c Hc a Ha. specialize (Hcl c (or_introl Hc)).
        rewrite Hm1; [done| |]; offsets; simpl; lia.
      * eapply rep_agree; [|exact R2]. intros c Hc a Ha. specialize (Hcl c (or_intror Hc)).
        rewrite Hm1; [done| |]; offsets; simpl; lia.
    + intros a Ha. rewrite split_mem_out.
      * apply Hm1; apply Ha; [left|right]; rewrite elem_of_app, !elem_of_cons; auto.
      * intros c Hc. apply Ha. right. rewrite elem_of_app, !elem_of_cons. intuition.
Qed.

(** ** Joining neighbours *)
Lemma a_join_ok l1 b c l2 :
  blocks_ok (l1 ++ b :: c :: l2) -> contiguous b c -> blocks_ok (l1 ++ a_join b c :: l2).
Proof.
  intros Hok Hc. pose proof (blocks_ok_middle _ _ _ Hok) as (Hb & Ho & [F1 A1] & HokC & H12).
  pose proof (blocks_ok_middle [] _ _ HokC) as (Hc' & HoC & _ & [F2 A2] & _).
  assert (Hj : forall d, d ∈ l1 \/ d ∈ l2 -> apart (a_join b c) d).
  { intros d Hd. assert (apart b d /\ apart c d /\ blk_ok d) as (Hap & Hap' & Hd').
    { destruct Hd as [Hd|Hd].
      - destruct (Ho d (or_introl Hd)). split_and!; [done| |done]. apply apart_sym, H12; [done|by left].
      - destruct (HoC d (or_intror Hd)). split_and!; [|done|done]. apply Ho. right. by right. }
    unfold apart, blk_ok, contiguous, a_join in *. offsets. simpl in *. lia. }
  split.
  - rewrite Forall_app, Forall_cons. split_and!; [done| |done].
    unfold blk_ok, contiguous, a_join in *. offsets. simpl. lia.
  - rewrite all_apart_app. simpl. rewrite Forall_forall. split_and!; [done| |done|]; auto.
    intros d x Hd [->|Hx]%elem_of_cons; [apply apart_sym; auto|]. apply H12; [done|by right].
Qed.

(** The memory after [b] absorbed [c]. *)
Definition join_mem (m : mem) (b c : blk) (l2 : list blk) : mem :=
  relink (write64 (write64 m (b_addr b + OFF_BYTES) (b_bytes b + HDR + b_bytes c))
    (b_addr b + OFF_NEXT) (hd_addr l2 0)) l2 (b_addr b).

Lemma join_mem_out m b c l2 a :
  (forall d, d = b \/ d ∈ l2 -> ~ in_hdr d a) -> mget (join_mem m b c l2) a = mget m a.
Proof.
  intros Hc. unfold join_mem. rewrite relink_out by (intros d Hd; apply Hc; by right).
  specialize (Hc b (or_introl eq_refl)). offsets. by mem_simp.
Qed.

Lemma join_rep m l1 b c l2 :
  blocks_ok (l1 ++ b :: c :: l2) -> contiguous b c -> rep m 0 (l1 ++ b :: c :: l2) 0 ->
  rep (join_mem m b c l2) 0 (l1 ++ a_join b c :: l2) 0.
Proof.
  intros Hok Hc Hrep. pose proof (a_join_ok _ _ _ _ Hok Hc) as Hok'.
  apply rep_app in Hrep as [R1 [(P1 & P2 & P3 & P4) [_ R2]]]. simpl in R1.
  pose proof (blocks_ok_middle _ _ _ Hok') as (Hj & Ho & [F1 _] & HokL & H12).
  pose proof HokL as [F2 _]. pose proof (hd_addr_range l2 F2). pose proof Hj as (J1 & J2 & J3).
  apply rep_app. simpl. split; [|split].
  - eapply rep_agree; [|exact R1]. intros d Hd a Ha. rewrite join_mem_out; [done|].
    intros x Hx Hin. destruct (Ho d (or_introl Hd)) as [(? & ? & ?) Hap].
    destruct Hx as [->|Hx].
    + unfold apart in Hap. unfold a_join in *. offsets. simpl in *. lia.
    + specialize (H12 d x Hd Hx). destruct (Ho x (or_intror Hx)) as [(? & ? & ?) _].
      unfold apart in H12. offsets. lia.
  - pose proof (fun d Hd => Ho d (or_intror Hd)) as Ho2.
    change (b_addr b) with (b_addr (a_join b c)). unfold hdr, join_mem.
    change (b_addr b) with (b_addr (a_join b c)).
    rewrite !(read64_relink _ _ _ (a_join b c)), (read8_relink _ _ _ (a_join b c))
      by (first [done | unfold OFF_PREV, OFF_NEXT, OFF_FREE, OFF_BYTES; lia]).
    unfold a_join in *. offsets. simpl in *. mem_simp. done.
  - eapply rep_relink; [offsets; simpl in *; lia|done|].
    do 2 (apply rep_write64; [intros d Hd; destruct (Ho d (or_intror Hd)) as [(? & ? & ?) Hap];
      unfold apart, a_join in *; offsets; simpl in *; lia|]). exact R2.
Qed.

Lemma join_step s s' l1 b c l2 :
  blocks_ok (l1 ++ b :: c :: l2) -> contiguous b c -> rep (k_mem s) 0 (l1 ++ b :: c :: l2) 0 ->
  s' = mkK (join_mem (k_mem s) b c l2) (k_pmem s) (k_con s) ->
  heap_step (l1 ++ b :: c :: l2) (l1 ++ a_join b c :: l2) s s'.
Proof.
  intros Hok Hc Hrep ->. split; simpl; try done; [by apply join_rep|by apply a_join_ok|].
  intros a Ha. apply join_mem_out. intros d Hd. apply Ha. left.
  rewrite elem_of_app, !elem_of_cons. intuition.
Qed.

Lemma heap_step_refl l s : blocks_ok l -> rep (k_mem s) 0 l 0 -> heap_step l l s s.
Proof. intros. by split. Qed.

(** Steps compose when the blocks in between have the addresses of blocks at the ends. *)
Lemma heap_step_trans l l1 l2 s s1 s2 :
  (forall c, c ∈ l1 -> exists d, d ∈ l /\ b_addr d = b_addr c) ->
  heap_step l l1 s s1 -> heap_step l1 l2 s1 s2 -> heap_step l l2 s s2.
Proof.
  intros Hsub [R1 O1 F1 P1 C1] [R2 O2 F2 P2 C2]. split; try done; try congruence.
  assert (Hm : forall c a, c ∈ l1 -> (forall d, d ∈ l \/ d ∈ l2 -> ~ in_hdr d a) -> ~ in_hdr c a).
  { intros c a Hc Ha Hin. destruct (Hsub c Hc) as (d & Hd & E). apply (Ha d (or_introl Hd)).
    unfold in_hdr in *. by rewrite E. }
  intros a Ha. rewrite F2, F1; [done| |].
  - intros c [Hc|Hc]; [by apply Ha; left|by eapply Hm].
  - intros c [Hc|Hc]; [by eapply Hm|by apply Ha; right].
Qed.

Lemma total_block_size s b (Q : Z -> kst C -> Prop) :
  blk_ok b -> read64 (k_mem s) (b_addr b + OFF_BYTES) = b_bytes b ->
  Q (HDR + b_bytes b) s -> runs (Hp.get_total_block_size (b_addr b)) s Q.
Proof.
  intros (? & ? & ?) E HQ. apply runs_bind, runs_ld; [lia|]. rewrite E.
  apply runs_ret. rewrite u64_small by (offsets; lia). done.
Qed.

Lemma are_blocks_contiguous_spec s b c (Q : bool -> kst C -> Prop) :
  blk_ok b -> blk_ok c -> read64 (k_mem s) (b_addr b + OFF_BYTES) = b_bytes b ->
  Q (bool_decide (contiguous b c)) s -> runs (Hp.are_blocks_contiguous (b_addr b) (b_addr c)) s Q.
Proof.
  intros Hb Hc E HQ. pose proof Hb as (? & ? & ?). pose proof Hc as (? & _).
  unfold Hp.are_blocks_contiguous. replace ((b_addr b =? 0) || (b_addr c =? 0)) with false by lia.
  apply runs_bind, total_block_size; [done|done|]. apply runs_ret.
  rewrite u64_small by (offsets; lia). replace (_ =? _) with (bool_decide (contiguous b c)); [done|].
  destruct (decide (contiguous b c)) as [Hd|Hd];
    [rewrite bool_decide_true by done|rewrite bool_decide_false by done]; symmetry;
    [apply Z.eqb_eq|apply Z.eqb_neq]; unfold contiguous in Hd; offsets; lia.
Qed.

(** The test of both merges: the neighbour is free and contiguous. *)
Lemma merge_test s b c (f : bool) (Q : bool -> kst C -> Prop) :
  blk_ok b -> blk_ok c -> read64 (k_mem s) (b_addr b + OFF_BYTES) = b_bytes b ->
  Q (bool_decide (f = true /\ contiguous b c)) s ->
  runs (if f then Hp.are_blocks_contiguous (b_addr b) (b_addr c) else mret false) s Q.
Proof.
  intros Hb Hc E HQ. destruct f.
  - apply are_blocks_contiguous_spec; [done..|].
    by rewrite (bool_decide_ext _ (true = true /\ contiguous b c)) by tauto.
  - apply runs_ret. by rewrite bool_decide_false in HQ by (by intros []).
Qed.

Lemma merge_next_spec s l1 b l2 :
  blocks_ok (l1 ++ b :: l2) -> rep (k_mem s) 0 (l1 ++ b :: l2) 0 ->
  runs (Hp.merge_next (b_addr b)) s (fun _ s' =>
    heap_step (l1 ++ b :: l2) (l1 ++ a_merge_next b l2) s s').
Proof.
  intros Hok Hrep. pose proof Hrep as Hrep'.
  apply rep_app in Hrep' as [_ [(P1 & P2 & P3 & P4) R2]].
  pose proof (blocks_ok_middle _ _ _ Hok) as (Hb & Ho & _ & HokL & _). pose proof Hb as (? & ? & ?).
  unfold Hp.merge_next. hstep. rewrite P2. destruct l2 as [|c l2].
  { by apply runs_ret, heap_step_refl. }
  simpl hd_addr. pose proof (Ho c ltac:(right; by left)) as [Hc Hap]. pose proof Hc as (? & ? & ?).
  rewrite (proj2 (Z.eqb_neq (b_addr c) 0)) by lia.
  destruct R2 as [(C1 & C2 & C3 & C4) R2]. hstep. rewrite C3, b2z_nonzero.
  apply runs_bind. apply merge_test; [done..|]. simpl a_merge_next.
  destruct (decide (joinable b c)) as [Hj|Hj].
  2: { rewrite bool_decide_false by done. by apply runs_ret, heap_step_refl. }
  rewrite bool_decide_true by done. destruct Hj as [Hf Hct]. simpl negb. cbv iota.
  hstep. rewrite P4. apply runs_bind, total_block_size; [done..|].
  assert (Hlt : b_bytes b + (HDR + b_bytes c) < 2 ^ 64) by (unfold contiguous in Hct; offsets; lia).
  rewrite u64_small by (offsets; lia).
  assert (HF2 : Forall blk_ok l2) by (destruct HokL as [HF _]; by apply Forall_cons in HF as [_ ?]).
  hstep. hstep. rewrite read64_write64_out, C2 by (unfold apart in Hap; offsets; lia). hstep.
  apply runs_relink; [done|]. simpl.
  eapply join_step; [done..|]. unfold join_mem.
  by replace (b_bytes b + (HDR + b_bytes c)) with (b_bytes b + HDR + b_bytes c) by lia.
Qed.

Lemma merge_prev_first s x r :
  blk_ok x -> rep (k_mem s) 0 (x :: r) 0 -> Hp.merge_prev (b_addr x) s = Done (tt, s).
Proof.
  intros (? & _) [(P1 & _) _]. unfold Hp.merge_prev. apply runs_exact. hstep. rewrite P1. by apply runs_ret.
Qed.

(** The second merge up to the store through [block->next]. *)
Lemma merge_prev_run s l1 p x r (Q : unit -> kst C -> Prop) :
  blocks_ok (l1 ++ p :: x :: r) -> rep (k_mem s) 0 (l1 ++ p :: x :: r) 0 ->
  (b_free p = true /\ contiguous p x -> r <> [] /\ Q tt (mkK (join_mem (k_mem s) p x r) (k_pmem s) (k_con s))) ->
  (~ (b_free p = true /\ contiguous p x) -> Q tt s) ->
  runs (Hp.merge_prev (b_addr x)) s Q.
Proof.
  intros Hok Hrep HQ1 HQ2. apply rep_app in Hrep as [_ [(P1 & P2 & P3 & P4) [(X1 & X2 & X3 & X4) R]]].
  pose proof (blocks_ok_middle _ _ _ Hok) as (Hp & Ho & _ & HokL & _). pose proof Hp as (? & ? & ?).
  pose proof (Ho x ltac:(right; by left)) as [Hx Hap]. pose proof Hx as (? & ? & ?).
  unfold Hp.merge_prev. hstep. rewrite X1. rewrite (proj2 (Z.eqb_neq (b_addr p) 0)) by lia.
  hstep. rewrite P3, b2z_nonzero. apply runs_bind. apply merge_test; [done..|].
  destruct (decide (b_free p = true /\ contiguous p x)) as [Hj|Hj].
  2: { rewrite bool_decide_false by done. apply runs_ret, HQ2, Hj. }
  rewrite bool_decide_true by done. destruct (HQ1 Hj) as [Hne HQ]. destruct Hj as [Hf Hct]. simpl negb. cbv iota.
  hstep. rewrite P4. apply runs_bind, total_block_size; [done..|].
  assert (Hlt : b_bytes p + (HDR + b_bytes x) < 2 ^ 64) by (unfold contiguous in Hct; offsets; lia).
  rewrite u64_small by (offsets; lia). hstep. hstep.
  rewrite read64_write64_out, X2 by (unfold apart in Hap; offsets; lia). hstep.
  destruct r as [|d r]; [done|]. simpl hd_addr.
  pose proof (Ho d ltac:(right; right; by left)) as [(? & _) _]. apply runs_st; [lia|].
  simpl. replace (b_bytes p + (HDR + b_bytes x)) with (b_bytes p + HDR + b_bytes x) by lia. exact HQ.
Qed.

Lemma merge_prev_spec s l1 x r :
  blocks_ok (l1 ++ x :: r) -> rep (k_mem s) 0 (l1 ++ x :: r) 0 -> ~ a_merge_prev_null l1 x r ->
  runs (Hp.merge_prev (b_addr x)) s (fun _ s' => heap_step (l1 ++ x :: r) (a_merge_prev l1 x r) s s').
Proof.
  intros Hok Hrep Hnn. unfold a_merge_prev, a_merge_prev_null in *.
  destruct l1 as [|p l1 _] using rev_ind; simpl last in *.
  - eapply runs_eq; [apply (merge_prev_first s x r); [|done]|by apply heap_step_refl].
    destruct Hok as [Hx _]. by apply Forall_cons in Hx as [? _].
  - rewrite last_snoc in *. rewrite removelast_last. rewrite <- app_assoc in *. simpl app in *.
    apply (merge_prev_run s l1 p x r); [done..| |].
    + intros Hj. rewrite decide_True by done. split; [intros ->; by apply Hnn|]. by eapply join_step; [| apply Hj| |].
    + intros Hj. rewrite decide_False by done. by apply heap_step_refl.
Qed.

Lemma merge_prev_faults s l1 x r :
  blocks_ok (l1 ++ x :: r) -> rep (k_mem s) 0 (l1 ++ x :: r) 0 -> a_merge_prev_null l1 x r ->
  Hp.merge_prev (b_addr x) s = Fail NullDeref.
Proof.
  intros Hok Hrep [-> Hj]. destruct l1 as [|p l1 _] using rev_ind; [done|].
  rewrite last_snoc in Hj. destruct Hj as [Hf Hct]. rewrite <- app_assoc in *. simpl app in *.
  apply rep_app in Hrep as [_ [(P1 & P2 & P3 & P4) [(X1 & X2 & X3 & X4) _]]].
  pose proof (blocks_ok_middle _ _ _ Hok) as (Hp & Ho & _ & HokL & _). pose proof Hp as (? & ? & ?).
  pose proof (Ho x ltac:(right; by left)) as [Hx Hap]. pose proof Hx as (? & ? & ?).
  unfold Hp.merge_prev. apply runs_bind_fail, runs_ld; [lia|]. rewrite X1, (proj2 (Z.eqb_neq (b_addr p) 0)) by lia.
  apply runs_bind_fail, runs_ld_free; [lia|]. rewrite P3, b2z_nonzero.
  apply runs_bind_fail. apply merge_test; [done..|]. rewrite bool_decide_true by done. simpl negb. cbv iota.
  apply runs_bind_fail, runs_ld; [lia|]. apply runs_bind_fail, total_block_size; [done..|].
  apply runs_bind_fail, runs_st; [lia|]. apply runs_bind_fail, runs_ld; [lia|]. simpl k_mem.
  rewrite read64_write64_out, X2 by (unfold apart in Hap; offsets; lia).
  by apply runs_bind_fail, runs_st; [lia|].
Qed.

Lemma a_set_ok l1 b l2 f : blocks_ok (l1 ++ b :: l2) -> blocks_ok (l1 ++ a_set b f :: l2).
Proof.
  intros [HF HA]. split.
  - rewrite Forall_app, Forall_cons in *. done.
  - rewrite all_apart_app in *. simpl in *. destruct HA as (? & [? ?] & Hx). split_and!; try done.
    intros c d Hc [->|Hd]%elem_of_cons; [apply (Hx c b); [done|by left]|apply Hx; [done|by right]].
Qed.

Lemma set_free_spec s l1 b l2 f :
  blocks_ok (l1 ++ b :: l2) -> rep (k_mem s) 0 (l1 ++ b :: l2) 0 ->
  runs (Hp.st_free (b_addr b) f) s (fun _ s' => heap_step (l1 ++ b :: l2) (l1 ++ a_set b f :: l2) s s').
Proof.
  intros Hok Hrep. pose proof (blocks_ok_middle _ _ _ Hok) as (Hb & Ho & _ & _ & _). pose proof Hb as (? & ? & ?).
  apply runs_st_free; [lia|].
  assert (Hcl : forall c, c ∈ l1 \/ c ∈ l2 -> b_addr c + HDR <= b_addr b \/ b_end b <= b_addr c).
  { intros c Hc. destruct (Ho c Hc) as [(? & ? & ?) Hap]. unfold apart in Hap. offsets. lia. }
  apply rep_app in Hrep as [R1 [(P1 & P2 & P3 & P4) R2]]. split; simpl; try done.
  - apply rep_app. simpl. split; [|split].
    + apply rep_write8; [|done]. intros c Hc. specialize (Hcl c (or_introl Hc)). offsets. lia.
    + unfold hdr. simpl. offsets. mem_simp. done.
    + apply rep_write8; [|done]. intros c Hc. specialize (Hcl c (or_intror Hc)). offsets. lia.
  - by apply a_set_ok.
  - intros a Ha. specialize (Ha b). offsets. rewrite mget_write8_out; [done|]. intros ->.
    apply Ha; [left; rewrite elem_of_app, elem_of_cons; auto|lia].
Qed.

(** The addresses of the blocks after the first merge. *)
Lemma a_merge_next_addrs b l2 c : c ∈ a_merge_next b l2 -> exists d, d ∈ b :: l2 /\ b_addr d = b_addr c.
Proof.
  destruct l2 as [|d l2]; simpl; [intros Hc; by exists c|].
  case_decide; intros Hc; [|by exists c]. apply elem_of_cons in Hc as [->|Hc].
  - exists b. split; [by left|done].
  - exists c. split; [right; by right|done].
Qed.

Lemma a_merge_next_cons b l2 : exists x r, a_merge_next b l2 = x :: r /\ b_addr x = b_addr b.
Proof. destruct l2 as [|c l2]; simpl; [eauto|]. case_decide; eauto. Qed.

(** [free] up to its second merge. *)
Lemma free_prefix s l1 b l2 x r :
  blocks_ok (l1 ++ b :: l2) -> rep (k_mem s) 0 (l1 ++ b :: l2) 0 ->
  a_merge_next (a_set b true) l2 = x :: r ->
  exists s1, heap_step (l1 ++ b :: l2) (l1 ++ x :: r) s s1 /\ b_addr x = b_addr b /\
    Hp.free (b_addr b + HDR) s = Hp.merge_prev (b_addr x) s1.
Proof.
  intros Hok Hrep E. destruct (a_merge_next_cons (a_set b true) l2) as (x' & r' & E' & Hx).
  rewrite E in E'. simplify_eq. simpl in Hx.
  pose proof (blocks_ok_middle _ _ _ Hok) as ((? & ? & ?) & _).
  destruct (set_free_spec s l1 b l2 true Hok Hrep) as ([] & s1 & E1 & Hs1).
  destruct (merge_next_spec s1 l1 (a_set b true) l2) as ([] & s2 & E2 & Hs2); [apply Hs1..|].
  exists s2. rewrite E in Hs2. split_and!; [|done|].
  - eapply heap_step_trans; [|done|done]. intros c Hc. rewrite elem_of_app, elem_of_cons in Hc.
    destruct Hc as [Hc|[->|Hc]]; [exists c|exists b|exists c]; split; try done;
      rewrite elem_of_app, elem_of_cons; auto.
  - unfold Hp.free. rewrite (proj2 (Z.eqb_neq (b_addr b + HDR) 0)) by (unfold HDR; lia).
    rewrite Z.add_simpl_r. erewrite bind_done by exact E1. simpl in E2. erewrite bind_done by exact E2.
    by rewrite Hx.
Qed.

Lemma free_spec s l1 b l2 :
  blocks_ok (l1 ++ b :: l2) -> rep (k_mem s) 0 (l1 ++ b :: l2) 0 ->
  match a_free l1 b l2 with
  | Some l' => runs (Hp.free (b_addr b + HDR)) s (fun _ s' => heap_step (l1 ++ b :: l2) l' s s')
  | None => Hp.free (b_addr b + HDR) s = Fail NullDeref
  end.
Proof.
  intros Hok Hrep. unfold a_free.
  destruct (a_merge_next_cons (a_set b true) l2) as (x & r & E & _). rewrite E.
  destruct (free_prefix s l1 b l2 x r Hok Hrep E) as (s1 & Hs1 & Hx & Ef). case_decide as Hd.
  - rewrite Ef. eapply merge_prev_faults; [apply Hs1..|done].
  - unfold runs. rewrite Ef. eapply runs_mono; [apply merge_prev_spec; [apply Hs1..|done]|].
    intros [] s2 Hs2. eapply heap_step_trans; [|done|done].
    intros c Hc. apply elem_of_app in Hc as [Hc|Hc].
    + exists c. split; [apply elem_of_app; by left|done].
    + rewrite <- E in Hc. apply a_merge_next_addrs in Hc as (d & Hd' & Ed).
      apply elem_of_cons in Hd' as [->|Hd']; [exists b|exists d]; (split; [|done]);
        rewrite elem_of_app, elem_of_cons; auto.
Qed.

(** ** Allocation without growth *)
Lemma malloc_spec s fuel pml4 l n r l' :
  blocks_ok l -> rep (k_mem s) 0 l 0 -> (length l <= fuel)%nat -> 0 < n ->
  a_malloc l n = Some (r, l') ->
  runs (Hp.malloc fuel pml4 (hd_addr l 0) n) s (fun r' s' => r' = r /\ heap_step l l' s s').
Proof.
  intros Hok Hrep Hf Hn (l1 & b & l2 & -> & -> & -> & [Hfr Hfit] & _ & Ef)%a_malloc_split.
  unfold Hp.malloc. apply runs_bind, runs_assert; [by apply Z.ltb_lt|]. apply runs_bind.
  eapply runs_eq; [apply find_free_block_spec; [by destruct l1|done..]|]. rewrite Ef.
  pose proof (blocks_ok_middle _ _ _ Hok) as ((? & _) & _).
  rewrite (proj2 (Z.eqb_neq (b_addr b) 0)) by lia. apply runs_bind, runs_ret.
  by apply take_block_spec.
Qed.
End Refine.
