(* ===== verification/HeapInv.v ===== *)
(** * HeapInv: what the allocator guarantees to its clients

    Invariants of the list of blocks, and the sequences of [malloc], [free] and
    client writes on a heap that does not grow. *)
From S2P Require Import Prelude Memory Libc Printf Bitmap MMap PMem Paging Heap HeapSpec.

(** No free block is followed by a free block that starts where it ends. *)
Definition uncoalesced (b c : blk) : Prop := b_free b = true /\ b_free c = true /\ contiguous b c.
Definition seam (p : option blk) (c : blk) : Prop :=
  match p with Some b => ~ uncoalesced b c | None => True end.
Fixpoint coalesced_after (p : option blk) (l : list blk) : Prop :=
  match l with
  | b :: l' => seam p b /\ coalesced_after (Some b) l'
  | [] => True
  end.
Definition coalesced (l : list blk) : Prop := coalesced_after None l.

(** The bytes the blocks take, headers included. *)
Definition span (l : list blk) : Z := foldr (fun b z => HDR + b_bytes b + z) 0 l.

(** The pointers to the data of the allocated blocks. *)
Definition ptrs (l : list blk) : list Z :=
  (fun b => b_addr b + HDR) <$> filter (fun b => b_free b = false) l.

Lemma span_app l1 l2 : span (l1 ++ l2) = span l1 + span l2.
Proof. induction l1 as [|b l1 IH]; simpl; [done|]. unfold span in *. simpl. lia. Qed.

Lemma span_cons b l : span (b :: l) = HDR + b_bytes b + span l.
Proof. done. Qed.

Lemma span_length l : Forall blk_ok l -> 33 * Z.of_nat (length l) <= span l.
Proof.
  induction 1 as [|b l (? & ? & ?) _ IH]; [done|]. rewrite span_cons. unfold HDR. simpl length. lia.
Qed.

Lemma ptrs_app l1 l2 : ptrs (l1 ++ l2) = ptrs l1 ++ ptrs l2.
Proof. unfold ptrs. by rewrite filter_app, fmap_app. Qed.

Lemma ptrs_free b l : b_free b = true -> ptrs (b :: l) = ptrs l.
Proof. intros E. unfold ptrs. by rewrite filter_cons_False by (by rewrite E). Qed.

Lemma ptrs_used b l : b_free b = false -> ptrs (b :: l) = b_addr b + HDR :: ptrs l.
Proof. intros E. unfold ptrs. by rewrite filter_cons_True by done. Qed.

Lemma elem_of_ptrs p l : p ∈ ptrs l <-> exists b, b ∈ l /\ b_free b = false /\ p = b_addr b + HDR.
Proof.
  unfold ptrs. rewrite list_elem_of_fmap. setoid_rewrite list_elem_of_filter.
  split; [intros (b & -> & ? & ?)|intros (b & ? & ? & ->)]; exists b; auto.
Qed.

(** The block before the end of a list that follows [p]. *)
Definition last_blk (p : option blk) (l : list blk) : option blk :=
  match last l with Some b => Some b | None => p end.

Lemma last_blk_cons p b l : last_blk p (b :: l) = last_blk (Some b) l.
Proof. unfold last_blk. rewrite last_cons. by destruct (last l). Qed.

Lemma last_blk_snoc p l b : last_blk p (l ++ [b]) = Some b.
Proof. unfold last_blk. by rewrite last_snoc. Qed.

Lemma coalesced_app p l1 l2 :
  coalesced_after p (l1 ++ l2) <-> coalesced_after p l1 /\ coalesced_after (last_blk p l1) l2.
Proof.
  revert p. induction l1 as [|b l1 IH]; intros p; simpl; [tauto|]. rewrite IH, last_blk_cons. tauto.
Qed.

(** A block that is no more free, or ends elsewhere, than [b] keeps the seam after it. *)
Lemma coalesced_weaken b c l :
  (b_free c = true -> b_free b = true /\ b_end b = b_end c) ->
  coalesced_after (Some b) l -> coalesced_after (Some c) l.
Proof.
  intros Hbc. destruct l as [|d l]; simpl; [done|]. intros [Hs Hl]. split; [|done].
  intros (H1 & H2 & H3). destruct (Hbc H1) as [? E]. apply Hs. split_and!; [done..|].
  unfold contiguous in *. congruence.
Qed.

(** Likewise the seam before a block. *)
Lemma seam_weaken p b c :
  (b_free c = true -> b_free b = true /\ b_addr b = b_addr c) -> seam p b -> seam p c.
Proof.
  intros Hbc. destruct p as [q|]; simpl; [|done]. intros Hs (H1 & H2 & H3).
  destruct (Hbc H2) as [? E]. apply Hs. split_and!; [done..|]. unfold contiguous in *. congruence.
Qed.

(** ** [malloc] keeps the invariants *)
Lemma a_take_coalesced p l1 b l2 n :
  b_free b = true -> coalesced_after p (l1 ++ b :: l2) -> coalesced_after p (l1 ++ a_take b n ++ l2).
Proof.
  intros Hf. rewrite !coalesced_app. simpl. intros (H1 & H2 & H3). split; [done|].
  unfold a_take. case_decide; simpl; split_and!; try done.
  - by eapply seam_weaken; [|exact H2].
  - by eapply coalesced_weaken; [|exact H3].
  - by eapply seam_weaken; [|exact H2].
  - by intros (? & _).
  - eapply coalesced_weaken; [|exact H3]. intros _. split; [done|]. unfold b_end, HDR. simpl. lia.
Qed.

Lemma a_take_span b n : span (a_take b n) = HDR + b_bytes b.
Proof. unfold a_take. case_decide; unfold span, HDR; simpl; lia. Qed.

Lemma a_take_ptrs b n : ptrs (a_take b n) = [b_addr b + HDR].
Proof. unfold a_take. by case_decide. Qed.

(** ** [free] keeps the invariants *)
Lemma a_merge_next_coalesced b l2 :
  b_free b = true -> coalesced_after None l2 ->
  exists x r, a_merge_next b l2 = x :: r /\ b_free x = true /\ b_addr x = b_addr b /\
    coalesced_after (Some x) r.
Proof.
  intros Hb Hc. destruct l2 as [|c l2]; simpl; [by exists b, []|]. destruct Hc as [_ Hc].
  case_decide as Hj.
  - exists (a_join b c), l2. split_and!; try done. destruct Hj as [Hcf Hct].
    eapply coalesced_weaken; [|exact Hc]. intros _. split; [done|].
    unfold contiguous, a_join, b_end in *. simpl. lia.
  - exists b, (c :: l2). split_and!; try done. simpl. split; [|done].
    intros (_ & ? & ?). by apply Hj.
Qed.

Lemma coalesced_none p l : coalesced_after p l -> coalesced_after None l.
Proof. by destruct l; simpl; [|intros []]. Qed.

Lemma a_merge_prev_coalesced l1 x r :
  b_free x = true -> coalesced_after None l1 -> coalesced_after (Some x) r ->
  coalesced (a_merge_prev l1 x r).
Proof.
  intros Hx H1 H2. unfold a_merge_prev, coalesced.
  destruct l1 as [|p l1 _] using rev_ind; simpl last; [done|].
  rewrite last_snoc, removelast_last. apply coalesced_app in H1 as [H1 [Hs _]]. case_decide as Hj.
  - destruct Hj as [Hf Hct]. apply coalesced_app. split; [done|]. simpl. split.
    + by eapply seam_weaken; [|exact Hs].
    + eapply coalesced_weaken; [|exact H2]. intros _. split; [done|].
      unfold contiguous, a_join, b_end in *. simpl. lia.
  - rewrite !coalesced_app, last_blk_snoc. simpl. split_and!; try done. intros (? & ? & ?). by apply Hj.
Qed.

Lemma a_merge_next_span b l2 : span (a_merge_next b l2) = span (b :: l2).
Proof. destruct l2 as [|c l2]; simpl; [done|]. case_decide; rewrite !span_cons; simpl; lia. Qed.

Lemma a_merge_next_ptrs b l2 : b_free b = true -> ptrs (a_merge_next b l2) = ptrs (b :: l2).
Proof.
  intros Hb. destruct l2 as [|c l2]; simpl; [done|]. case_decide as Hj; [|done].
  destruct Hj as [Hc _]. by rewrite !ptrs_free.
Qed.

Lemma a_merge_prev_span l1 x r : span (a_merge_prev l1 x r) = span (l1 ++ x :: r).
Proof.
  unfold a_merge_prev. destruct l1 as [|p l1 _] using rev_ind; simpl last; [done|].
  rewrite last_snoc, removelast_last. case_decide; [|done].
  rewrite !span_app, !span_cons. unfold a_join, span. simpl. lia.
Qed.

Lemma a_merge_prev_ptrs l1 x r : b_free x = true -> ptrs (a_merge_prev l1 x r) = ptrs (l1 ++ x :: r).
Proof.
  intros Hx. unfold a_merge_prev. destruct l1 as [|p l1 _] using rev_ind; simpl last; [done|].
  rewrite last_snoc, removelast_last. case_decide as Hj; [|done]. destruct Hj as [Hp _].
  rewrite <- app_assoc. simpl app. rewrite !ptrs_app, !ptrs_free by done. done.
Qed.

(** The head of the list never moves. *)
Lemma a_merge_prev_hd l1 x r : hd_addr (a_merge_prev l1 x r) 0 = hd_addr (l1 ++ x :: r) 0.
Proof.
  unfold a_merge_prev. destruct l1 as [|p l1 _] using rev_ind; simpl last; [done|].
  rewrite last_snoc, removelast_last. case_decide; [|done]. by destruct l1.
Qed.

Lemma a_take_hd l1 b l2 n : hd_addr (l1 ++ a_take b n ++ l2) 0 = hd_addr (l1 ++ b :: l2) 0.
Proof. unfold a_take. rewrite !hd_addr_app. by case_decide. Qed.

(** [free] on lists: what it keeps. *)
Lemma a_free_inv l1 b l2 l' :
  coalesced (l1 ++ b :: l2) -> a_free l1 b l2 = Some l' ->
  coalesced l' /\ span l' = span (l1 ++ b :: l2) /\ ptrs l' = ptrs l1 ++ ptrs l2 /\
  hd_addr l' 0 = hd_addr (l1 ++ b :: l2) 0.
Proof.
  unfold a_free, coalesced. rewrite coalesced_app. intros (H1 & _ & H2) E.
  destruct (a_merge_next_coalesced (a_set b true) l2) as (x & r & Ex & Hf & Ha & Hc);
    [done|by eapply coalesced_none|].
  pose proof (a_merge_next_span (a_set b true) l2) as Hsp.
  pose proof (a_merge_next_ptrs (a_set b true) l2 eq_refl) as Hpt.
  rewrite Ex in E, Hsp, Hpt. rewrite (ptrs_free (a_set b true)) in Hpt by done.
  destruct (decide _) in E; simplify_eq. split_and!.
  - by apply a_merge_prev_coalesced.
  - rewrite a_merge_prev_span, !span_app, Hsp, !span_cons. simpl. lia.
  - by rewrite a_merge_prev_ptrs, ptrs_app, Hpt by done.
  - rewrite a_merge_prev_hd, !hd_addr_app. simpl. by rewrite Ha.
Qed.

Lemma a_malloc_inv l n r l' :
  coalesced l -> a_malloc l n = Some (r, l') ->
  coalesced l' /\ span l' = span l /\ ptrs l' ≡ₚ r :: ptrs l /\ hd_addr l' 0 = hd_addr l 0.
Proof.
  intros Hc (l1 & b & l2 & -> & -> & -> & [Hfr Hfit] & _ & _)%a_malloc_split.
  split_and!.
  - by apply a_take_coalesced.
  - rewrite !span_app, a_take_span, span_cons. lia.
  - rewrite !ptrs_app, a_take_ptrs, ptrs_free by done. simpl. by rewrite Permutation_middle.
  - apply a_take_hd.
Qed.

(** Blocks other than [b] that are in use survive its release. *)
Lemma a_free_keeps l1 b l2 l' c :
  a_free l1 b l2 = Some l' -> b_free c = false -> c ∈ l1 \/ c ∈ l2 -> c ∈ l'.
Proof.
  unfold a_free. intros E Hc Hin. destruct (a_merge_next _ l2) as [|x r] eqn:Ex; [done|].
  destruct (decide _) in E; simplify_eq.
  assert (Hr : c ∈ l2 -> c ∈ r).
  { intros Hc2. destruct l2 as [|d l2]; [by apply not_elem_of_nil in Hc2|]. simpl in Ex.
    destruct (decide _) as [[Hd _]|] in Ex; simplify_eq; [|done].
    apply elem_of_cons in Hc2 as [->|?]; [congruence|done]. }
  unfold a_merge_prev. destruct (last l1) as [p|] eqn:El; [case_decide as Hj|];
    rewrite ?elem_of_app, ?elem_of_cons; [|tauto..].
  destruct Hin as [Hin|]; [|tauto]. left. apply last_Some in El as [l1' ->].
  rewrite removelast_last. apply elem_of_app in Hin as [?|Hin]; [done|].
  apply list_elem_of_singleton in Hin as ->. destruct Hj. congruence.
Qed.

(** Blocks of a well-formed list with a common byte are the same. *)
Lemma blocks_ok_unique l b c a : blocks_ok l -> b ∈ l -> c ∈ l -> in_blk b a -> in_blk c a -> b = c.
Proof.
  intros Hok Hb Hc Ha Ha'. apply list_elem_of_split in Hb as (l1 & l2 & ->).
  pose proof (blocks_ok_middle _ _ _ Hok) as (_ & Ho & _).
  rewrite elem_of_app, elem_of_cons in Hc. assert (~ apart b c) by (unfold apart; offsets; lia).
  destruct Hc as [Hc|[?|Hc]]; [|done|]; exfalso; [destruct (Ho c (or_introl Hc))|destruct (Ho c (or_intror Hc))]; auto.
Qed.

Lemma blocks_ok_elem l b : blocks_ok l -> b ∈ l -> blk_ok b.
Proof. intros [HF _] Hb. rewrite Forall_forall in HF. auto. Qed.

Lemma blocks_ok_addr l b c : blocks_ok l -> b ∈ l -> c ∈ l -> b_addr b = b_addr c -> b = c.
Proof.
  intros Hok Hb Hc E. pose proof (blocks_ok_elem _ _ Hok Hb) as (? & ? & _).
  pose proof (blocks_ok_elem _ _ Hok Hc) as (? & ? & _).
  apply (blocks_ok_unique l b c (b_addr b)); [done..| |]; offsets; lia.
Qed.

(** The data of a block is outside every header. *)
Lemma data_not_hdr l b c a : blocks_ok l -> b ∈ l -> c ∈ l -> in_data b a -> ~ in_hdr c a.
Proof.
  intros Hok Hb Hc Ha Hh. pose proof (blocks_ok_elem _ _ Hok Hb) as (? & ? & _).
  pose proof (blocks_ok_elem _ _ Hok Hc) as (? & ? & _).
  assert (b = c) as -> by (apply (blocks_ok_unique l b c a); [done..| |]; offsets; lia). offsets. lia.
Qed.

(** ** The bytes of the blocks *)

(** Every byte of a block of [l'] is a byte of a block of [l]. *)
Definition inside (l l' : list blk) : Prop := forall c a, c ∈ l' -> in_blk c a -> exists b, b ∈ l /\ in_blk b a.

Lemma a_take_inside b n c a : 0 <= n <= b_bytes b -> c ∈ a_take b n -> in_blk c a -> in_blk b a.
Proof.
  unfold a_take. intros Hn Hc Ha. destruct (decide _) as [_|Hd] in Hc;
    repeat (apply elem_of_cons in Hc as [->|Hc]); try (by apply not_elem_of_nil in Hc);
    unfold in_blk, b_end, HDR in *; simpl in *; lia.
Qed.

Lemma take_inside x b y n : 0 <= n <= b_bytes b -> inside (x ++ b :: y) (x ++ a_take b n ++ y).
Proof.
  intros Hn c a Hc Ha. rewrite !elem_of_app in Hc. setoid_rewrite elem_of_app. setoid_rewrite elem_of_cons.
  destruct Hc as [Hc|[Hc|Hc]]; [by exists c; auto| |by exists c; auto].
  exists b. split; [auto|by eapply a_take_inside].
Qed.

Lemma a_join_inside b c a : contiguous b c -> in_blk (a_join b c) a -> in_blk b a \/ in_blk c a.
Proof. unfold contiguous, a_join, in_blk, b_end. simpl. lia. Qed.

Lemma a_merge_next_inside b l2 : inside (b :: l2) (a_merge_next b l2).
Proof.
  intros x a Hx Ha. destruct l2 as [|c l2]; simpl in Hx; [by exists x|].
  destruct (decide _) as [[_ Hj]|] in Hx; [|by exists x].
  apply elem_of_cons in Hx as [->|Hx]; [|exists x; rewrite !elem_of_cons; auto].
  destruct (a_join_inside b c a Hj Ha); [exists b|exists c]; rewrite !elem_of_cons; auto.
Qed.

Lemma a_merge_prev_inside l1 x r : inside (l1 ++ x :: r) (a_merge_prev l1 x r).
Proof.
  unfold a_merge_prev. intros c a Hc Ha. destruct l1 as [|p l1 _] using rev_ind; [by exists c|].
  rewrite last_snoc, removelast_last in Hc. destruct (decide _) as [[_ Hj]|] in Hc; [|by exists c].
  setoid_rewrite elem_of_app. setoid_rewrite elem_of_app. setoid_rewrite elem_of_cons.
  rewrite elem_of_app, elem_of_cons in Hc. destruct Hc as [Hc|[->|Hc]]; [by exists c; auto| |by exists c; auto].
  destruct (a_join_inside p x a Hj Ha); [exists p|exists x]; rewrite ?elem_of_cons; auto.
Qed.

Lemma a_free_inside l1 b l2 l' : a_free l1 b l2 = Some l' -> inside (l1 ++ b :: l2) l'.
Proof.
  unfold a_free. intros E c a Hc Ha. pose proof (a_merge_next_inside (a_set b true) l2) as Hn.
  destruct (a_merge_next _ l2) as [|x r]; [done|]. destruct (decide _) in E; simplify_eq.
  destruct (a_merge_prev_inside l1 x r c a Hc Ha) as (d & Hd & Hda). setoid_rewrite elem_of_app.
  apply elem_of_app in Hd as [Hd|Hd]; [by exists d; auto|].
  destruct (Hn d a Hd Hda) as (e & He & Hea). apply elem_of_cons in He as [->|He].
  - exists b. rewrite elem_of_cons. split; [auto|done].
  - exists e. rewrite elem_of_cons. split; [auto|done].
Qed.

(** Blocks that do not overlap take no more bytes than there are below their ends. *)
Lemma span_bound l : forall N, blocks_ok l -> 0 <= N -> (forall b, b ∈ l -> b_end b <= N) -> span l <= N.
Proof.
  induction l as [l IH] using (induction_ltof1 _ length). unfold ltof in IH. intros N Hok HN Hend.
  destruct (decide (l = [])) as [->|Hne]; [done|].
  assert (Hmax : exists b, b ∈ l /\ forall c, c ∈ l -> b_addr c <= b_addr b).
  { clear -Hne. induction l as [|b l IH]; [done|]. destruct (decide (l = [])) as [->|Hl].
    - exists b. split; [by left|]. intros c ->%list_elem_of_singleton. done.
    - destruct (IH Hl) as (m & Hm & Hle). destruct (decide (b_addr m <= b_addr b)).
      + exists b. split; [by left|]. intros c [->|Hc]%elem_of_cons; [done|]. specialize (Hle c Hc). lia.
      + exists m. split; [by right|]. intros c [->|Hc]%elem_of_cons; [lia|auto]. }
  destruct Hmax as (b & Hb & Hle). pose proof (Hend b Hb) as HbN. apply list_elem_of_split in Hb as (l1 & l2 & ->).
  pose proof (blocks_ok_middle _ _ _ Hok) as ((? & ? & _) & Ho & [F1 A1] & [F2 A2] & H12).
  assert (Hs : span (l1 ++ l2) <= b_addr b).
  { apply IH; [rewrite !length_app; simpl; lia| |lia|].
    - split; [by apply Forall_app|]. by apply all_apart_app.
    - intros c Hc%elem_of_app. destruct (Ho c Hc) as [(? & ? & _) [Hap|Hap]]; [|done].
      specialize (Hle c). rewrite elem_of_app, elem_of_cons in Hle. specialize (Hle ltac:(tauto)).
      unfold b_end, HDR in *. lia. }
  rewrite span_app in *. rewrite span_cons. unfold b_end in HbN. lia.
Qed.

(** ** [free] undoes [malloc] *)
Lemma merge_prev_seam l1 x r :
  b_free x = true -> seam (last l1) x -> a_merge_prev l1 x r = l1 ++ x :: r /\ ~ a_merge_prev_null l1 x r.
Proof.
  intros Hx Hs. unfold a_merge_prev, a_merge_prev_null, seam, uncoalesced in *.
  destruct (last l1) as [p|]; [|tauto]. case_decide as Hj; [|tauto]. exfalso. tauto.
Qed.

Lemma a_free_take l1 b l2 n :
  coalesced (l1 ++ b :: l2) -> fits n b ->
  exists b' rest, a_take b n = b' :: rest /\ b_addr b' = b_addr b /\ a_free l1 b' (rest ++ l2) = Some (l1 ++ b :: l2).
Proof.
  unfold coalesced. rewrite coalesced_app. intros (_ & Hs & H2) [Hf Hn]. fold coalesced_after in H2.
  replace (last_blk None l1) with (last l1) in Hs by (unfold last_blk; by destruct (last l1)).
  destruct (merge_prev_seam l1 b l2 Hf Hs) as [Ep Hnn].
  destruct b as [ba bb bf]. simpl in Hf, Hn. subst bf. unfold a_take. simpl b_addr. simpl b_bytes.
  case_decide as Hd; do 2 eexists; (split_and!; [done|done|]); unfold a_free, a_set; simpl.
  - replace (a_merge_next _ l2) with (mkBlk ba bb true :: l2).
    + by rewrite decide_False, Ep.
    + destruct l2 as [|c l2]; simpl; [done|]. rewrite decide_False; [done|].
      intros [? ?]. destruct H2 as [H2 _]. by apply H2.
  - rewrite decide_True by (split; [done|unfold contiguous, b_end, HDR; simpl; lia]).
    unfold a_join. simpl. replace (n + HDR + (bb - n - HDR)) with bb by lia. by rewrite decide_False, Ep.
Qed.

(** ** Counting blocks *)
Definition n_free (l : list blk) : Z := Z.of_nat (length (filter (fun b => b_free b = true) l)).

Lemma stats_loop_spec {C : Type} `{ConsoleI C} (s : kst C) fuel p l a f u :
  Forall blk_ok l -> rep (k_mem s) p l 0 -> (length l < fuel)%nat ->
  0 <= a -> 0 <= f -> 0 <= u ->
  a + Z.of_nat (length l) < 2 ^ 64 -> f + Z.of_nat (length l) < 2 ^ 64 -> u + Z.of_nat (length l) < 2 ^ 64 ->
  Hp.stats_loop fuel (hd_addr l 0) (mkStats a f u) s =
    Done (mkStats (a + Z.of_nat (length l)) (f + n_free l) (u + Z.of_nat (length (ptrs l))), s).
Proof.
  revert fuel p a f u. induction l as [|b l IH]; intros fuel p a f u Hok Hrep Hfu ? ? ? ? ? ?;
    (destruct fuel as [|fuel]; simpl length in *; [lia|]); apply runs_exact; simpl Hp.stats_loop.
  - apply runs_ret. unfold n_free, ptrs. simpl. by rewrite !Z.add_0_r.
  - apply Forall_cons in Hok as [(? & ? & ?) Hok]. destruct Hrep as [(P1 & P2 & P3 & P4) Hrep].
    simpl hd_addr. rewrite (proj2 (Z.eqb_neq (b_addr b) 0)) by lia.
    apply runs_bind, runs_ld_free; [lia|]. rewrite P3, b2z_nonzero.
    apply runs_bind, runs_ld; [lia|]. rewrite P2. destruct (b_free b) eqn:Ef; simpl; wordify.
    + eapply runs_eq; [apply (IH fuel (b_addr b)); [done|done|lia..]|].
      unfold n_free. rewrite filter_cons_True, ptrs_free by done. simpl length. split; [f_equal; lia|done].
    + eapply runs_eq; [apply (IH fuel (b_addr b)); [done|done|lia..]|].
      unfold n_free. rewrite filter_cons_False, ptrs_used by (by rewrite ?Ef). simpl length. split; [f_equal; lia|done].
Qed.

(** ** A client of the heap

    [live] is what the client holds: the pointers it was given, with the sizes it asked for. *)
Inductive heap_op : Type :=
| OpMalloc (n r : Z)
| OpFree (p : Z)
| OpWrite (a v : Z).

Section Client.
Context {C : Type} `{ConsoleI C} (fuel : nat) (pml4 blocks total : Z).
Implicit Types (s : kst C) (live : list (Z * Z)).

(** The client's steps on a heap that does not grow: a request that a free
    block can serve, the release of a pointer it holds, a write to its memory. *)
Inductive client_step : heap_op -> list (Z * Z) * kst C -> list (Z * Z) * kst C -> Prop :=
| step_malloc live s n b r s' :
    Hp._find_free_block fuel blocks n s = Done (b, s) -> b <> 0 ->
    Hp.malloc fuel pml4 blocks n s = Done (r, s') ->
    client_step (OpMalloc n r) (live, s) ((r, n) :: live, s')
| step_free live1 live2 s p n s' :
    Hp.free p s = Done (tt, s') ->
    client_step (OpFree p) (live1 ++ (p, n) :: live2, s) (live1 ++ live2, s')
| step_write live s p n a v :
    (p, n) ∈ live -> p <= a < p + n ->
    client_step (OpWrite a v) (live, s) (live, mkK (write8 (k_mem s) a v) (k_pmem s) (k_con s)).

Inductive client_run : list heap_op -> list (Z * Z) * kst C -> list (Z * Z) * kst C -> Prop :=
| run_nil x : client_run [] x x
| run_snoc os o x y z : client_run os x y -> client_step o y z -> client_run (os ++ [o]) x z.

(** The invariant of the heap and its client. *)
Record heap_inv (l : list blk) (live : list (Z * Z)) (s : kst C) : Prop := {
  hi_ok : blocks_ok l;
  hi_rep : rep (k_mem s) 0 l 0;
  hi_head : hd_addr l 0 = blocks;
  hi_some : l <> [];
  hi_coalesced : coalesced l;
  hi_span : span l = total;
  hi_live : live.*1 ≡ₚ ptrs l;
  hi_sizes : forall p n b, (p, n) ∈ live -> b ∈ l -> b_addr b + HDR = p -> 0 < n <= b_bytes b
}.

Lemma inv_block l live s p n :
  heap_inv l live s -> (p, n) ∈ live ->
  exists b, b ∈ l /\ b_free b = false /\ p = b_addr b + HDR /\ 0 < n <= b_bytes b.
Proof.
  intros [] Hp. assert (Hpl : p ∈ live.*1) by (apply list_elem_of_fmap; by exists (p, n)).
  rewrite hi_live0 in Hpl. apply elem_of_ptrs in Hpl as (b & Hb & Hf & ->). exists b. eauto 6.
Qed.

(** A step between lists of blocks that keeps the blocks in use. *)
Lemma inv_step l l' live live' s s' :
  heap_inv l live s -> heap_step l l' s s' -> coalesced l' -> span l' = total -> hd_addr l' 0 = blocks ->
  live'.*1 ≡ₚ ptrs l' ->
  (forall p n, (p, n) ∈ live' -> exists b, b ∈ l' /\ b_addr b + HDR = p /\ 0 < n <= b_bytes b) ->
  heap_inv l' live' s'.
Proof.
  intros Hinv [R O F P E] Hc Hs Hh Hl Hsz. split; try done.
  - intros ->. pose proof (hi_some _ _ _ Hinv) as Hne. pose proof (hi_head _ _ _ Hinv) as Hhd.
    destruct l as [|b l]; [done|]. pose proof (hi_ok _ _ _ Hinv) as [[(? & _) _]%Forall_cons _]. simpl in *. lia.
  - intros p n b Hp Hb Hbp. destruct (Hsz p n Hp) as (c & Hc' & Hcp & ?).
    rewrite (blocks_ok_addr l' b c O Hb Hc'); [done|lia].
Qed.

Lemma data_kept l l' s s' b a :
  blocks_ok l -> heap_step l l' s s' -> b ∈ l -> b ∈ l' -> in_data b a -> mget (k_mem s') a = mget (k_mem s) a.
Proof.
  intros Hok [R O F P E] Hb Hb' Ha. apply F. intros c [Hc|Hc];
    [by apply (data_not_hdr l b c)|by apply (data_not_hdr l' b c)].
Qed.

(** The bytes of the regions in both lists. *)
Definition regions_kept (live live' : list (Z * Z)) (s s' : kst C) : Prop :=
  forall p n a, (p, n) ∈ live -> (p, n) ∈ live' -> p <= a < p + n -> mget (k_mem s') a = mget (k_mem s) a.

Hypothesis fuel_enough : total < 33 * (Z.of_nat fuel + 1).

Lemma inv_fuel l live s : heap_inv l live s -> (length l <= fuel)%nat.
Proof. intros []. pose proof (span_length l (proj1 hi_ok0)). lia. Qed.

Lemma step_malloc_inv l live s n b r s' :
  heap_inv l live s -> Hp._find_free_block fuel blocks n s = Done (b, s) -> b <> 0 ->
  Hp.malloc fuel pml4 blocks n s = Done (r, s') ->
  exists l', heap_inv l' ((r, n) :: live) s' /\ regions_kept live ((r, n) :: live) s s' /\
    heap_step l l' s s' /\ inside l l'.
Proof.
  intros Hinv Hfind Hb Hm. pose proof Hinv as [Hok Hrep Hhd Hne Hco Hsp Hlv Hsz].
  pose proof (inv_fuel _ _ _ Hinv) as Hf.
  assert (Hn : 0 < n).
  { unfold Hp.malloc in Hm. destruct (Z.ltb_spec 0 n); [done|]. by erewrite bind_fail in Hm by done. }
  rewrite <- Hhd, find_free_block_spec in Hfind by done.
  destruct (a_malloc l n) as [[r0 l']|] eqn:Ea.
  2: { unfold a_malloc in Ea. destruct (a_find l n) as [[]|]; [done|]. simplify_eq. }
  destruct (malloc_spec s fuel pml4 l n r0 l' Hok Hrep Hf Hn Ea) as (r1 & s1 & E & -> & Hs).
  rewrite Hhd, Hm in E. injection E as <- <-. destruct (a_malloc_inv _ _ _ _ Hco Ea) as (Hc' & Hs' & Hp' & Hh').
  apply a_malloc_split in Ea as (l1 & b0 & l2 & El & El' & Er & [Hfr Hfit] & _).
  assert (Hkeep : forall c, c ∈ l -> b_free c = false -> c ∈ l').
  { intros c Hc Hcf. rewrite El in Hc. rewrite El', !elem_of_app. rewrite elem_of_app, elem_of_cons in Hc.
    destruct Hc as [?|[->|?]]; [tauto|congruence|tauto]. }
  exists l'. split; [|split; [|split; [done|rewrite El, El'; apply take_inside; lia]]].
  - eapply inv_step; [done..|lia|congruence| |].
    + simpl. rewrite Hlv. by symmetry.
    + intros p k [Hpk|Hpk]%elem_of_cons.
      * simplify_eq. unfold a_take. case_decide;
          [exists (mkBlk (b_addr b0) (b_bytes b0) false)|exists (mkBlk (b_addr b0) n false)]; simpl;
          (split_and!; [rewrite ?elem_of_app, ?elem_of_cons; auto|done|done|lia]).
      * destruct (inv_block _ _ _ _ _ Hinv Hpk) as (c & Hc & Hcf & -> & ?). exists c. auto.
  - intros p k a Hp _ Ha. destruct (inv_block _ _ _ _ _ Hinv Hp) as (c & Hc & Hcf & -> & ?).
    eapply (data_kept l l' s s' c); auto. unfold in_data, b_end. lia.
Qed.

Lemma step_free_inv l live1 live2 s p n s' :
  heap_inv l (live1 ++ (p, n) :: live2) s -> Hp.free p s = Done (tt, s') ->
  exists l', heap_inv l' (live1 ++ live2) s' /\ regions_kept (live1 ++ (p, n) :: live2) (live1 ++ live2) s s' /\
    heap_step l l' s s' /\ inside l l'.
Proof.
  intros Hinv Hfree. pose proof Hinv as [Hok Hrep Hhd Hne Hco Hsp Hlv Hsz].
  destruct (inv_block _ _ _ p n Hinv) as (b & Hb & Hbf & -> & _).
  { rewrite elem_of_app, elem_of_cons. auto. }
  apply list_elem_of_split in Hb as (l1 & l2 & ->).
  pose proof (free_spec s l1 b l2 Hok Hrep) as Hf. destruct (a_free l1 b l2) as [l'|] eqn:Ea; [|congruence].
  destruct Hf as (u & s1 & E & Hs). rewrite Hfree in E. injection E as <- <-.
  destruct (a_free_inv _ _ _ _ Hco Ea) as (Hc' & Hs' & Hp' & Hh').
  assert (Hlv' : (live1 ++ live2).*1 ≡ₚ ptrs l').
  { rewrite Hp'. rewrite ptrs_app, ptrs_used in Hlv by done. rewrite !fmap_app, fmap_cons in *. simpl in Hlv.
    rewrite <- !Permutation_middle in Hlv. by apply Permutation_cons_inv in Hlv. }
  assert (Hold : forall q k, (q, k) ∈ live1 ++ live2 -> exists c, (c ∈ l1 \/ c ∈ l2) /\ c ∈ l' /\
    b_addr c + HDR = q /\ 0 < k <= b_bytes c).
  { intros q k Hq. assert (Hql : q ∈ (live1 ++ live2).*1) by (apply list_elem_of_fmap; by exists (q, k)).
    rewrite Hlv', Hp', <- ptrs_app in Hql. apply elem_of_ptrs in Hql as (c & Hc & Hcf & ->).
    apply elem_of_app in Hc. exists c. split_and!; [done|by eapply a_free_keeps|done|..].
    all: eapply (Hsz (b_addr c + HDR) k c); [|rewrite elem_of_app, elem_of_cons; tauto|done].
    all: rewrite elem_of_app, elem_of_cons in *; tauto. }
  exists l'. split; [|split; [|split; [done|by eapply a_free_inside]]].
  - eapply inv_step; [done..|lia|congruence|done|].
    intros q k (c & _ & Hc & Hcq & ?)%Hold. exists c. auto.
  - intros q k a _ (c & Hc & Hcl & <- & ?)%Hold Ha.
    eapply (data_kept (l1 ++ b :: l2) l' s s' c); auto; [|unfold in_data, b_end; lia].
    rewrite elem_of_app, elem_of_cons. tauto.
Qed.

Lemma step_write_inv l live s p n a v :
  heap_inv l live s -> (p, n) ∈ live -> p <= a < p + n ->
  heap_inv l live (mkK (write8 (k_mem s) a v) (k_pmem s) (k_con s)).
Proof.
  intros Hinv Hp Ha. destruct (inv_block _ _ _ _ _ Hinv Hp) as (b & Hb & _ & -> & ?).
  destruct Hinv. split; try done. simpl. apply rep_write8; [|done]. intros c Hc.
  assert (~ in_hdr c a); [|offsets; lia].
  apply (data_not_hdr l b c); [done..|]. unfold in_data, b_end. lia.
Qed.

(** Every run keeps the invariant. *)
Lemma run_inv os live0 s0 live s :
  (exists l, heap_inv l live0 s0) -> client_run os (live0, s0) (live, s) -> exists l, heap_inv l live s.
Proof.
  intros H0 Hrun. remember (live0, s0) as x eqn:Ex. remember (live, s) as z eqn:Ez.
  revert live s Ez. induction Hrun as [|os o x y z Hrun IH Hstep]; intros live s ->; simplify_eq; [done|].
  destruct y as [live1 s1]. destruct (IH eq_refl _ _ eq_refl) as [l Hl]. inversion Hstep; subst.
  - edestruct step_malloc_inv as (l' & ? & _); eauto.
  - edestruct step_free_inv as (l' & ? & _); eauto.
  - eexists. eapply step_write_inv; eauto.
Qed.
End Client.
