(* ===== verification/HeapGrow.v ===== *)
(** * HeapGrow: the heap on top of the frame allocator and the page tables

    The constructor of the heap, and the growth of [malloc] when no free block
    is large enough: the blocks live in private frames, that is in locked
    frames outside the bitmap and outside every page table. *)
From S2P Require Import Prelude Memory Libc Printf Bitmap MMap PMem Paging PagingInit Heap HeapSpec HeapInv.

(** ** The constructor *)
Section Construct.
Context {C : Type} `{ConsoleI C} (root : Z).
Implicit Types s : kst C.

(** The heap's bytes are private. *)
Definition heap_private (l : list blk) s : Prop := forall b a, b ∈ l -> in_blk b a -> private root s a.

(** The frame [k] just taken by [request_frame]. *)
Lemma took_keep s k p s' :
  paging_ok root s -> 0 <= k < horizon s -> frame_locked s k = false -> took_frame k s p s' ->
  table_keep root s s' /\ paging_ok root s' /\ forall a, a / 4096 = k -> private root s' a.
Proof.
  intros Hpg Hk Hf (-> & Hok & Hpp & Hlo & _).
  assert (Hkeep : table_keep root s s').
  { apply pm_keep; auto; intros j _ Hl; rewrite (Hlo j).
    - by rewrite Hl, orb_true_r.
    - by rewrite (proj2 (Z.eqb_neq k j)) by lia. }
  split_and!; [done|by eapply keep_ok|]. intros a <-.
  eapply fresh_private; [done..|]. by rewrite (Hlo _), Z.eqb_refl.
Qed.

Lemma heap_construct_spec s :
  paging_ok root s -> 4 <= avail s ->
  runs (Hp.construct root) s (fun b s' =>
    paging_ok root s' /\ heap_inv b 4096 [mkBlk b 4064 true] [] s' /\
    heap_private [mkBlk b 4064 true] s' /\ avail s - 4 <= avail s' /\
    b / 4096 <= last_free_idx (k_pmem s') /\ b mod 4096 = 0 /\
    (forall va, b <= va < b + 4096 -> translate (k_mem s') root va = Some va) /\
    (forall va, 0 <= va < 2 ^ 48 -> translate (k_mem s) root va = Some va -> translate (k_mem s') root va = Some va) /\
    (forall a, private root s a -> mget (k_mem s') a = mget (k_mem s) a)).
Proof.
  intros Hpg Hav. pose proof Hpg as [Hok Hz Hlow _ _]. pose proof (ok_last _ Hok). pose proof (horizon_le s).
  destruct (request_frame_avail s Hok ltac:(lia)) as (k & Hk & Hfree & _ & Hr).
  unfold Hp.construct. apply runs_bind. eapply runs_mono; [exact Hr|]. intros p s1 [Ht1 Hav1].
  destruct (took_keep s k p s1 Hpg ltac:(lia) Hfree Ht1) as (Hk1 & Hpg1 & Hpr1).
  destruct Ht1 as (-> & _ & Hpp1 & _ & Hl1 & _). unfold FRAME_SZ. assert (k <> 0) by (intros ->; congruence).
  apply runs_bind, runs_assert; [apply negb_true_iff, Z.eqb_neq; lia|]. apply runs_bind.
  eapply runs_mono; [apply (allocate_page_spec root s1 (k * 4096) (k * 4096) Hpg1); lia|].
  intros [] s2 (Hpg2 & Hpp2 & Hav2 & Hmap). do 3 hstep. hstep. apply runs_ret.
  set (b := k * 4096) in *. set (s3 := mkK _ _ _).
  assert (Hout : forall a, ~ (b <= a < b + 32) -> mget (k_mem s3) a = mget (k_mem s2) a).
  { intros a Ha. simpl. offsets. by mem_simp. }
  assert (Hpr2 : forall a, b <= a < b + 4096 -> private root s2 a).
  { intros a Ha. apply (pp_private _ _ _ Hpp2), Hpr1. unfold b in *. zdm. }
  destruct (private_write root s2 s3 Hpg2 eq_refl) as [Hk3 Hav3].
  { intros a Ha. apply Hout. intros Hin. apply Ha, Hpr2. lia. }
  pose proof (pp_last _ _ _ Hpp2) as Hl2.
  split_and!; [by eapply keep_ok| | |lia|change (k_pmem s3) with (k_pmem s2); unfold b; zdm|unfold b; zdm| | |].
  - split; try done.
    + split; simpl; [|by split; [constructor|]]. apply Forall_singleton. unfold blk_ok, b_end, HDR. simpl.
      unfold b. pose proof (ok_frames _ Hok). lia.
    + simpl. split; [|done]. unfold hdr, PAGE_SZ, FRAME_SZ. simpl. offsets. by mem_simp.
    + intros ? ? ? []%not_elem_of_nil.
  - intros c a ->%list_elem_of_singleton Ha. eapply keep_private; [done|]. apply Hpr2.
    unfold in_blk, b_end, HDR in Ha. simpl in Ha. lia.
  - intros va Hva. rewrite (keep_translate root s2 s3) by done. rewrite (Hmap va).
    rewrite decide_True; [|unfold vpage, b in *; f_equal; zdm]. f_equal. unfold b in *.
    rewrite Z.div_mul, u32_small by lia. zdm.
  - intros va Hva Ht. rewrite (keep_translate root s2 s3), (Hmap va) by done. case_decide as E.
    + rewrite !vpage_small in E by (unfold b; lia). f_equal. unfold b in *. rewrite Z.div_mul in * by lia.
      rewrite u32_small by lia. zdm.
    + by rewrite (keep_translate root s s1).
  - intros a Hpa. rewrite Hout, (pp_mem _ _ _ Hpp2) by (by apply (keep_private root s s1) ||
      (destruct Hpa as (_ & Hl & _); intros Ha; replace (a / 4096) with k in Hl by (unfold b in *; zdm); congruence)).
    apply (pres_mem _ _ Hpp1). by destruct Hpa as (_ & _ & ? & _).
Qed.
End Construct.

(** ** Growth *)

(** The list split after the block that [_find_block_close_before_addr] returns. *)
Fixpoint a_close (l : list blk) (addr : Z) : list blk * list blk :=
  match l with
  | [] => ([], [])
  | b :: l' =>
      match l' with
      | [] => ([b], [])
      | c :: _ =>
          if (b_addr b <? addr) && (b_addr c <? addr) then ([b], l')
          else let '(x, y) := a_close l' addr in (b :: x, y)
      end
  end.

Lemma a_close_app l addr : l <> [] ->
  exists x p y, a_close l addr = (x ++ [p], y) /\ l = x ++ p :: y.
Proof.
  induction l as [|b l IH]; intros Hne; [done|]. simpl. destruct l as [|c l]; [by exists [], b, []|].
  destruct (_ && _); [by exists [], b, (c :: l)|].
  destruct (IH ltac:(done)) as (x & p & y & E & El). rewrite E, El. by exists (b :: x), p, y.
Qed.

Lemma count_lock_range f g lo hi n :
  lo <= hi -> (forall k, g k = f k && negb (bool_decide (lo <= k < hi))) ->
  count f n - (hi - lo) <= count g n.
Proof.
  intros Hlh Hg. assert (count f n - Z.max 0 (Z.min hi (Z.of_nat n) - lo) <= count g n); [|lia].
  induction n as [|n IH]; [simpl; lia|]. cbn [count]. rewrite (Hg (Z.of_nat n)), Nat2Z.inj_succ.
  unfold b2z. destruct (f (Z.of_nat n)); simpl andb; try case_bool_decide; simpl negb; cbv iota; lia.
Qed.

(** The memory after [nb] is linked between [p] and [y]. *)
Definition insert_mem (m : mem) (p nb : blk) (y : list blk) : mem :=
  relink (write64 (write64 (write64 m (b_addr nb + OFF_NEXT) (hd_addr y 0))
    (b_addr nb + OFF_PREV) (b_addr p)) (b_addr p + OFF_NEXT) (b_addr nb)) y (b_addr nb).

Lemma insert_mem_out m p nb y a :
  (forall c, c = p \/ c = nb \/ c ∈ y -> ~ in_hdr c a) -> mget (insert_mem m p nb y) a = mget m a.
Proof.
  intros Hc. unfold insert_mem. rewrite relink_out by (intros c Hin; apply Hc; auto).
  pose proof (Hc p ltac:(auto)). pose proof (Hc nb ltac:(auto)). offsets. by mem_simp.
Qed.

(** Different blocks of a well-formed list have no header byte in common. *)
Lemma apart_hdr b c a : blk_ok b -> blk_ok c -> apart b c -> in_hdr b a -> ~ in_hdr c a.
Proof. unfold blk_ok, apart. intros ? ? ? ? ?. offsets. lia. Qed.

Lemma insert_rep m x p nb y :
  blocks_ok (x ++ p :: nb :: y) -> rep m 0 (x ++ p :: y) 0 ->
  read8 m (b_addr nb + OFF_FREE) = b2z (b_free nb) -> read64 m (b_addr nb + OFF_BYTES) = b_bytes nb ->
  rep (insert_mem m p nb y) 0 (x ++ p :: nb :: y) 0.
Proof.
  intros Hok Hrep N3 N4. apply rep_app in Hrep as [R1 [(P1 & P2 & P3 & P4) R2]].
  pose proof (blocks_ok_middle _ _ _ Hok) as (Hb & Ho & _ & HokN & H1).
  pose proof (blocks_ok_middle [] _ _ HokN) as (Hn & HoN & _ & HokL & _).
  pose proof (hd_addr_range y (proj1 HokL)) as Hy. pose proof Hb as (? & ? & ?). pose proof Hn as (? & ? & ?).
  destruct (Ho nb ltac:(right; by left)) as [_ Hap].
  assert (Hpy : forall c, c ∈ y -> blk_ok c /\ apart p c) by (intros c Hc; apply Ho; right; by right).
  assert (Hny : forall c, c ∈ y -> blk_ok c /\ apart nb c) by (intros c Hc; apply HoN; by right).
  apply rep_app. simpl. split; [|split; [|split]].
  - eapply rep_agree; [|exact R1]. intros c Hc a Ha. rewrite insert_mem_out; [done|].
    destruct (Ho c (or_introl Hc)) as [Hc' Hcp]. intros d [->|[->|Hd]].
    + apply (apart_hdr c); [done..| |done]. by apply apart_sym.
    + apply (apart_hdr c); [done..| |done]. apply H1; [done|by left].
    + apply (apart_hdr c); [done|by apply Hpy| |done]. apply H1; [done|by right].
  - unfold hdr, insert_mem. rewrite !read64_relink, read8_relink by (done || (offsets; lia)).
    unfold apart in Hap. offsets. mem_simp. done.
  - unfold hdr, insert_mem. rewrite !read64_relink, read8_relink by (done || (offsets; lia)).
    unfold apart in Hap. offsets. mem_simp. done.
  - eapply rep_relink; [offsets; lia|done|].
    do 3 (apply rep_write64; [intros c Hc; destruct (Hpy c Hc) as [(? & ? & ?) Ap];
      destruct (Hny c Hc) as [_ An]; unfold apart in *; offsets; lia|]). exact R2.
Qed.

Section Grow.
Context {C : Type} `{ConsoleI C} (root : Z).
Implicit Types s : kst C.

Lemma close_loop_spec s fuel p l addr :
  l <> [] -> Forall blk_ok l -> rep (k_mem s) p l 0 -> (length l <= fuel)%nat ->
  Hp.close_loop fuel (hd_addr l 0) addr s = Done (last_addr 0 (fst (a_close l addr)), s).
Proof.
  revert fuel p. induction l as [|b l IH]; intros fuel p Hne Hok Hrep Hf; [done|].
  destruct fuel as [|fuel]; simpl in Hf; [lia|]. apply Forall_cons in Hok as [(? & ? & ?) Hok].
  destruct Hrep as [(P1 & P2 & P3 & P4) Hrep]. apply runs_exact. simpl Hp.close_loop. simpl hd_addr.
  rewrite (proj2 (Z.eqb_neq (b_addr b) 0)) by lia. hstep. rewrite P2. simpl a_close.
  destruct l as [|c l]; [by apply runs_ret|]. simpl hd_addr.
  pose proof Hok as [(? & _) _]%Forall_cons. rewrite (proj2 (Z.eqb_neq (b_addr c) 0)) by lia.
  destruct (_ && _); [by apply runs_ret|].
  eapply runs_eq; [apply (IH fuel (b_addr b)); [done..|lia]|]. split; [|done].
  destruct (a_close_app (c :: l) addr ltac:(done)) as (x & q & y & E & _). rewrite E. simpl fst.
  by rewrite last_addr_snoc, app_comm_cons, last_addr_snoc.
Qed.

(** The pages of a grown block, mapped one by one. *)
Lemma map_pages s b pages :
  paging_ok root s -> 0 <= b -> 0 <= pages -> b + 4096 * pages <= 2 ^ 44 -> 3 * pages <= avail s ->
  runs (for_loop (Z.to_nat pages) 0 (fun i => let page := b + u64 (i * PAGE_SZ) in
    Pg.allocate_page root page page)) s (fun _ s' =>
    paging_ok root s' /\ pg_pres root s s' /\ identity_range root b pages s s').
Proof.
  intros Hpg Hb Hn Hr Hav. apply runs_for_loop with (I := fun i t => paging_ok root t /\ pg_pres root s t /\
    avail s - 3 * i <= avail t /\ identity_range root b i s t).
  - split_and!; try done; [lia|]. intros va Hva. by rewrite decide_False by lia.
  - intros i t Hi (Hpt & Hpp & Hat & Hid). rewrite Z2Nat.id in Hi by lia. unfold PAGE_SZ, FRAME_SZ. simpl.
    rewrite u64_small by lia.
    eapply runs_mono; [apply (allocate_page_spec root t _ (b + i * 4096) Hpt); lia|].
    intros [] t' (Hpt' & Hpp' & Hat' & Hmap). split_and!; [done|by etransitivity|lia|].
    intros va Hva. rewrite (Hmap va), !vpage_small by lia. rewrite Hid by done.
    assert (Hd : (b + i * 4096) / 4096 = b / 4096 + i) by (by rewrite Z.div_add by lia). rewrite Hd.
    repeat case_decide; try lia; try done. f_equal. rewrite u32_small by zdm.
    pose proof (Z.div_mod va 4096 ltac:(lia)). lia.
  - intros t (? & ? & _ & ?). rewrite Z2Nat.id in * by lia. rewrite Z.add_0_l in *. done.
Qed.

Lemma insert_ok x p y nb :
  blocks_ok (x ++ p :: y) -> blk_ok nb -> (forall c, c ∈ x ++ p :: y -> apart nb c) ->
  blocks_ok (x ++ p :: nb :: y).
Proof.
  intros [HF HA] Hn Hap. split.
  - rewrite Forall_app, !Forall_cons in *. tauto.
  - apply all_apart_app in HA as (A1 & [A2 A3] & A4). apply all_apart_app. simpl.
    rewrite Forall_cons, !Forall_forall in *. split_and!; try done.
    + apply apart_sym, Hap. rewrite elem_of_app, elem_of_cons. auto.
    + intros c Hc. apply Hap. rewrite elem_of_app, elem_of_cons. auto.
    + intros c d Hc [->|[->|Hd]%elem_of_cons]%elem_of_cons.
      * apply A4; [done|by left].
      * apply apart_sym, Hap. rewrite elem_of_app. auto.
      * apply A4; [done|by right].
Qed.

Lemma link_block_spec s fuel l b pages x p y :
  let nb := mkBlk b (pages * 4096 - 32) true in
  blocks_ok l -> rep (k_mem s) 0 l 0 -> l <> [] -> (length l <= fuel)%nat ->
  blk_ok nb -> (forall c, c ∈ l -> apart nb c) -> a_close l b = (x ++ [p], y) ->
  runs (Hp.link_block fuel (hd_addr l 0) b pages) s (fun _ s' => heap_step l (x ++ p :: nb :: y) s s').
Proof.
  intros nb Hok Hrep Hne Hf Hnb Hap Hcl. pose proof Hnb as (N1 & N2 & N3). simpl in N1, N2.
  destruct (a_close_app l b Hne) as (x' & p' & y' & E & El). rewrite Hcl in E.
  injection E as E <-. apply app_inj_tail in E as [<- <-]. subst l.
  assert (Hok' := insert_ok x p y nb Hok Hnb Hap).
  pose proof (blocks_ok_middle _ _ _ Hok) as ((? & ? & ?) & _ & _ & [HF _] & _).
  unfold Hp.link_block, PAGE_SZ, FRAME_SZ. unfold b_end, HDR in N3. simpl in N3.
  rewrite u64_small by (unfold HDR; lia). do 2 hstep. set (m1 := write8 _ _ _).
  assert (Hm1 : forall a, ~ in_hdr nb a -> mget m1 a = mget (k_mem s) a).
  { intros a Ha. unfold m1, nb in *. offsets. simpl in Ha. by mem_simp. }
  assert (Hrep1 : rep m1 0 (x ++ p :: y) 0).
  { eapply rep_agree; [|exact Hrep]. intros c Hc a Ha. rewrite Hm1; [done|].
    apply (apart_hdr c); [by apply (blocks_ok_elem (x ++ p :: y))|done| |done]. apply apart_sym. by apply Hap. }
  apply runs_bind. eapply runs_eq; [apply (close_loop_spec _ fuel 0 (x ++ p :: y)); [done|apply Hok|done|done]|].
  rewrite Hcl. simpl fst. rewrite last_addr_snoc. pose proof Hrep1 as [_ [(_ & P2 & _) _]]%rep_app.
  hstep. rewrite P2. do 3 hstep. hstep.
  assert (Hpn : apart nb p) by (apply Hap; rewrite elem_of_app, elem_of_cons; auto).
  pose proof (hd_addr_range y HF).
  rewrite read64_write64_out, read64_write64_out, read64_write64
    by (first [done | unfold apart, nb in Hpn; offsets; simpl in Hpn; lia]).
  apply runs_relink; [done|]. simpl. split; try done.
  - apply (insert_rep m1 x p nb y Hok' Hrep1); unfold m1, nb; simpl; offsets; by mem_simp.
  - intros a Ha. simpl. rewrite (insert_mem_out m1 p nb y), Hm1; [done| |].
    + apply Ha. right. rewrite elem_of_app, !elem_of_cons. auto.
    + intros c Hc. apply Ha. right. rewrite elem_of_app, !elem_of_cons. tauto.
Qed.

(** What a growth by the frames [st .. st + pages - 1] does outside the new block. *)
Record grown s (st pages : Z) s' : Prop := {
  gr_paging : paging_ok root s';
  gr_private : forall a, private root s a -> private root s' a;
  gr_mem : forall a, reserved root s a -> mget (k_mem s') a = mget (k_mem s) a;
  gr_fresh : forall a, st * 4096 <= a < (st + pages) * 4096 -> private root s' a;
  gr_identity : identity_range root (st * 4096) pages s s';
  gr_frames : frames (k_pmem s') = frames (k_pmem s);
  gr_con : k_con s' = console_print (run_line st pages) (k_con s)
}.

Lemma grow_frames s pages b0 :
  paging_ok root s -> 2 <= pages -> spare_run s b0 pages -> 4 * pages <= avail s ->
  exists st, free_run s st pages /\ (forall c, free_run s c pages -> st <= c) /\
    runs (PM.request_frames pages) s (fun p s1 => p = st * 4096 /\
      runs (for_loop (Z.to_nat pages) 0 (fun i => let page := p + u64 (i * PAGE_SZ) in
        Pg.allocate_page root page page)) s1 (fun _ => grown s st pages)).
Proof.
  intros Hpg Hp [Hrun Hhor] Hav. pose proof Hpg as [Hok Hz Hlow _ _]. pose proof (ok_last _ Hok).
  pose proof Hrun as (_ & Hb0 & Hb & _).
  destruct (found_run s pages b0 Hok ltac:(lia) Hrun) as (st & Ef & Hfr & Hmin).
  exists st. split_and!; [done|done|]. assert (Hst : st + pages <= horizon s) by (pose proof (Hmin b0 Hrun); lia).
  destruct Hfr as (F1 & F2 & F3 & F4).
  eapply runs_mono; [apply (request_frames_runs s pages st (st + pages - 1)); [done|lia|done|lia|lia]|].
  intros p s1 (-> & Hok1 & Hpp1 & Hlr & Hl1 & Hc1). unfold FRAME_SZ. split; [done|].
  replace (st + pages - 1 + 1) with (st + pages) in Hlr by lia.
  assert (Hk1 : table_keep root s s1).
  { apply pm_keep; auto; intros k _ Hl; rewrite (Hlr k).
    - rewrite Hl. apply orb_true_r.
    - by rewrite bool_decide_false by lia. }
  assert (Hpg1 : paging_ok root s1) by (by eapply keep_ok).
  assert (Hav1 : avail s - pages <= avail s1).
  { unfold avail. rewrite (pres_frames _ _ Hpp1), Hl1, (keep_horizon root s s1) by done.
    replace pages with (st + pages - st) at 1 by lia. apply count_lock_range; [lia|].
    intros k. rewrite (Hlr k), negb_orb. destruct (_ <=? _), (_ <? _), (negb (frame_locked s k)), (bool_decide _); done. }
  eapply runs_mono; [apply (map_pages s1 (st * 4096) pages Hpg1); lia|].
  intros [] s2 (Hpg2 & Hpp2 & Hid). split; [done|..].
  - intros a Ha. by apply (pp_private _ _ _ Hpp2), (keep_private root s s1).
  - intros a Ha. destruct (pres_reserved root s1 s2 a Hpp2) as [_ ->]; [by apply (keep_reserved root s s1)|].
    apply (pres_mem _ _ Hpp1). by apply (reserved_out root s).
  - intros a Ha. assert (Ha' : st <= a / 4096 < st + pages) by zdm.
    apply (pp_private _ _ _ Hpp2), (fresh_private root s s1); [done|done|lia|apply F4; lia|].
    rewrite (Hlr _), bool_decide_true by lia. done.
  - intros va Hva. rewrite Hid by done. by rewrite (keep_translate root s s1).
  - by rewrite (pp_frames _ _ _ Hpp2), (pres_frames _ _ Hpp1).
  - by rewrite (pp_con _ _ _ Hpp2).
Qed.

(** Blocks of private bytes do not meet frames that are free. *)
Lemma private_apart s st pages b :
  paging_ok root s -> free_run s st pages -> 0 < pages -> blk_ok b -> (forall a, in_blk b a -> private root s a) ->
  apart (mkBlk (st * 4096) (pages * 4096 - 32) true) b.
Proof.
  intros Hpg (_ & _ & _ & Hfree) Hp (? & ? & ?) Hpr.
  assert (Hno : ~ (exists a, in_blk b a /\ st * 4096 <= a < st * 4096 + pages * 4096)).
  { intros (a & Ha & Hin). destruct (Hpr a Ha) as (_ & Hl & _). rewrite Hfree in Hl; [done|]. zdm. }
  unfold apart, b_end, HDR. simpl. destruct (decide (st * 4096 + 32 + (pages * 4096 - 32) <= b_addr b)); [by left|].
  right. destruct (decide (b_addr b + 32 + b_bytes b <= st * 4096)); [done|]. exfalso. apply Hno.
  exists (Z.max (st * 4096) (b_addr b)). unfold in_blk, b_end, HDR. lia.
Qed.

Lemma inside_private s l l' : heap_private root l s -> inside l l' -> heap_private root l' s.
Proof. intros Hpr Hin c a Hc Ha. destruct (Hin c a Hc Ha) as (b & Hb & Hba). by apply (Hpr b). Qed.

Lemma hdr_in_blk c a : blk_ok c -> in_hdr c a -> in_blk c a.
Proof. intros (? & ? & ?) Hin. offsets. lia. Qed.

(** Header-only steps keep the paging invariant when the headers are private. *)
Lemma heap_step_paging s s' l l' :
  paging_ok root s -> heap_private root l s -> heap_private root l' s -> blocks_ok l ->
  heap_step l l' s s' -> table_keep root s s' /\ heap_private root l' s'.
Proof.
  intros Hpg H1 H2 Hokl [R O F P E].
  destruct (private_write root s s' Hpg P) as [Hk _].
  { intros a Ha. apply F. intros c [Hc|Hc] Hin; apply Ha.
    - apply (H1 c); [done|]. apply hdr_in_blk; [by apply (blocks_ok_elem l)|done].
    - apply (H2 c); [done|]. apply hdr_in_blk; [by apply (blocks_ok_elem l')|done]. }
  split; [done|]. intros c a Hc Ha. by apply (keep_private root s s'), (H2 c).
Qed.

Lemma a_find_none_app l1 l2 b n :
  a_find (l1 ++ l2) n = None -> fits n b -> a_find (l1 ++ b :: l2) n = Some (length l1, b).
Proof.
  intros [Hn _]%list_find_app_None Hb. unfold a_find. rewrite list_find_app_r by done. simpl.
  by rewrite decide_True.
Qed.

(** Reserved bytes outside the blocks of [l] keep their values. *)
Definition untouched (l : list blk) s s' : Prop :=
  forall a, reserved root s a -> (forall b, b ∈ l -> ~ in_blk b a) -> mget (k_mem s') a = mget (k_mem s) a.

(** A step that writes the headers of blocks inside [l] and of a block of free frames. *)
Lemma heap_step_untouched l k k' s s' t t' st pages :
  heap_step k k' s s' -> blocks_ok k -> free_run t st pages ->
  (forall c a, c ∈ k \/ c ∈ k' -> in_blk c a -> (exists b, b ∈ l /\ in_blk b a) \/ st * 4096 <= a < (st + pages) * 4096) ->
  untouched l t t' -> k_mem t' = k_mem s -> untouched l t s'.
Proof.
  intros [R O F P E] Hok (_ & ? & ? & Hfree) Hin Ht Em a Ha Hb. rewrite F; [rewrite <- Em; by apply Ht|].
  intros c Hc Hh. assert (Hblk : in_blk c a).
  { apply hdr_in_blk; [|done]. destruct Hc; [by apply (blocks_ok_elem k)|by apply (blocks_ok_elem k')]. }
  destruct (Hin c a Hc Hblk) as [(b & Hbl & Hba)|Hnew]; [by apply (Hb b)|].
  destruct Ha as [(_ & Hl & _)|Hh']; [|zdm]. rewrite Hfree in Hl; [done|zdm].
Qed.

(** The grown heap: [l] with the block [nb] of the new frames. *)
Record grown_heap s (l l' : list blk) (nb : blk) (st pages : Z) s' : Prop := {
  gh_ok : blocks_ok l';
  gh_rep : rep (k_mem s') 0 l' 0;
  gh_paging : paging_ok root s';
  gh_private : heap_private root l' s';
  gh_data : forall b a, b ∈ l -> in_data b a -> mget (k_mem s') a = mget (k_mem s) a;
  gh_identity : forall va, st * 4096 <= va < (st + pages) * 4096 -> translate (k_mem s') root va = Some va;
  gh_range : identity_range root (st * 4096) pages s s';
  gh_frames : frames (k_pmem s') = frames (k_pmem s);
  gh_kept : forall a, private root s a -> private root s' a;
  gh_other : untouched l s s';
  gh_con : k_con s' = console_print (run_line st pages) (k_con s)
}.

(** Growth up to the second search: the new block is linked. *)
Lemma grow_link s fuel l n b0 :
  let pages := n / 4096 + 1 in
  paging_ok root s -> blocks_ok l -> rep (k_mem s) 0 l 0 -> l <> [] -> (length l < fuel)%nat ->
  heap_private root l s -> 4096 <= n -> spare_run s b0 pages -> 4 * pages <= avail s ->
  exists st x y s', let nb := mkBlk (st * 4096) (pages * 4096 - 32) true in
    free_run s st pages /\ (forall c, free_run s c pages -> st <= c) /\ l = x ++ y /\ x <> [] /\
    a_close l (st * 4096) = (x, y) /\ grown_heap s l (x ++ nb :: y) nb st pages s' /\
    Hp.grow fuel root (hd_addr l 0) n s =
      (block ← Hp._find_free_block fuel (hd_addr l 0) n; ASSERT (negb (block =? 0));; mret block) s'.
Proof.
  intros pages Hpg Hok Hrep Hne Hf Hpr Hn Hrun Hav.
  assert (Hp2 : 2 <= pages) by (unfold pages; zdm).
  destruct (grow_frames s pages b0 Hpg Hp2 Hrun Hav) as (st & Hfr & Hmin & Hreq).
  set (nb := mkBlk (st * 4096) (pages * 4096 - 32) true).
  assert (Hnb : blk_ok nb).
  { destruct Hfr as (? & ? & ? & _). pose proof (pg_low _ _ Hpg). unfold blk_ok, b_end, HDR. simpl. lia. }
  assert (Hap : forall c, c ∈ l -> apart nb c).
  { intros c Hc. apply (private_apart s); [done|done|lia|by apply (blocks_ok_elem l)|].
    intros a. by apply (Hpr c). }
  destruct (a_close_app l (st * 4096) Hne) as (x & p & y & Hcl & El).
  assert (pages < 2 ^ 20) by (destruct Hfr as (? & ? & ? & _); pose proof (pg_low _ _ Hpg); lia).
  destruct Hreq as (p' & s1 & E1 & -> & [] & s2 & E2 & [G1 G2 G3 G4 G5 G6 G7]).
  assert (Hrep2 : rep (k_mem s2) 0 l 0).
  { eapply rep_agree; [|exact Hrep]. intros c Hc a Ha. symmetry. apply G3. left. apply (Hpr c a Hc).
    destruct (blocks_ok_elem _ _ Hok Hc) as (? & ? & _). offsets. lia. }
  destruct (link_block_spec s2 fuel l (st * 4096) pages x p y) as ([] & s3 & E3 & Hs3); [done..|lia|done|done|done|].
  fold nb in Hs3. pose proof Hs3 as [R3 O3 F3 P3 C3].
  assert (Hel : forall c, c ∈ x ++ p :: nb :: y <-> c = nb \/ c ∈ l).
  { intros c. rewrite El, !elem_of_app, !elem_of_cons. tauto. }
  assert (Hpr2 : heap_private root l s2) by (intros c a Hc Ha; by apply G2, (Hpr c)).
  assert (Hpr2' : heap_private root (x ++ p :: nb :: y) s2).
  { intros c a [->|Hc]%Hel Ha; [|by apply (Hpr2 c)]. apply G4. unfold nb, in_blk, b_end, HDR in Ha. simpl in Ha. lia. }
  destruct (heap_step_paging s2 s3 l _ G1 Hpr2 Hpr2' Hok Hs3) as [Hk3 Hpr3].
  exists st, (x ++ [p]), y, s3.
  split_and!; [done|done|by rewrite <- app_assoc|by destruct x|done|rewrite <- app_assoc; simpl app; split; try done|].
  - by eapply keep_ok.
  - intros b a Hb Ha. rewrite (data_kept l (x ++ p :: nb :: y) s2 s3 b a); try done.
    + apply G3. left. apply (Hpr b); [done|]. offsets. lia.
    + apply Hel. by right.
  - intros va Hva. rewrite (keep_translate root s2 s3) by done.
    assert (0 <= st * 4096 /\ (st + pages) * 4096 < 2 ^ 48)
      by (destruct Hfr as (? & ? & ? & _); pose proof (pg_low _ _ Hpg); lia).
    rewrite G5 by lia. rewrite decide_True by zdm. done.
  - intros va Hva. rewrite (keep_translate root s2 s3) by done. by apply G5.
  - by rewrite P3, G6.
  - intros a Ha. by apply (keep_private root s2 s3), G2.
  - eapply (heap_step_untouched l _ _ s2 s3 s s2 st pages); [done|done|done| |by intros a Ha _; apply G3|done].
    intros c a Hc Ha. assert (Hc' : c = nb \/ c ∈ l) by (rewrite Hel in Hc; tauto).
    destruct Hc' as [->|Hc']; [right|left; by exists c]. unfold nb, in_blk, b_end, HDR in Ha. simpl in Ha. lia.
  - by rewrite C3, G7.
  - unfold Hp.grow. change (n / PAGE_SZ + 1) with pages. rewrite u64_small by lia.
    erewrite bind_done by exact E1. erewrite bind_done by exact E2. by erewrite bind_done by exact E3.
Qed.

(** The search after the growth finds the new block, when it is large enough. *)
Lemma grown_find s s' l x y nb st pages fuel n :
  l = x ++ y -> x <> [] -> (length l < fuel)%nat -> a_find l n = None -> b_free nb = true -> 
  grown_heap s l (x ++ nb :: y) nb st pages s' ->
  Hp._find_free_block fuel (hd_addr l 0) n s' = Done (if n <=? b_bytes nb then b_addr nb else 0, s').
Proof.
  intros -> Hx Hf Hnone Hfree [O R _ _ _ _ _ _ _ _ _].
  replace (hd_addr (x ++ y) 0) with (hd_addr (x ++ nb :: y) 0) by (by destruct x).
  rewrite length_app in Hf.
  rewrite find_free_block_spec; [|by destruct x|done|done|rewrite length_app; simpl; lia].
  destruct (Z.leb_spec n (b_bytes nb)) as [Hn|Hn].
  - by rewrite a_find_none_app by done.
  - unfold a_find in *. apply list_find_app_None in Hnone as [H1 H2].
    rewrite list_find_app_r by done. simpl. rewrite decide_False by (intros [_ ?]; lia). by rewrite H2.
Qed.

(** What [malloc] does when it grows the heap by the frames [st .. st + pages - 1]
    and takes the new block: [l'] is the list of blocks afterwards. *)
Record grown_malloc s (l l' : list blk) (st pages r : Z) s' : Prop := {
  gm_ret : r = st * 4096 + HDR;
  gm_rep : rep (k_mem s') 0 l' 0;
  gm_ok : blocks_ok l';
  gm_paging : paging_ok root s';
  gm_private : heap_private root l' s';
  gm_data : forall b a, b ∈ l -> in_data b a -> mget (k_mem s') a = mget (k_mem s) a;
  gm_identity : forall va, st * 4096 <= va < (st + pages) * 4096 -> translate (k_mem s') root va = Some va;
  gm_range : identity_range root (st * 4096) pages s s';
  gm_frames : frames (k_pmem s') = frames (k_pmem s);
  gm_kept : forall a, private root s a -> private root s' a;
  gm_other : untouched l s s';
  gm_con : k_con s' = console_print (run_line st pages) (k_con s)
}.

(** [malloc] that grows the heap and takes the new block. *)
Lemma malloc_grown_run s fuel l n b0 :
  let pages := n / 4096 + 1 in
  paging_ok root s -> blocks_ok l -> rep (k_mem s) 0 l 0 -> l <> [] -> (length l < fuel)%nat ->
  heap_private root l s -> a_find l n = None ->
  4096 <= n <= pages * 4096 - 32 -> spare_run s b0 pages -> 4 * pages <= avail s ->
  exists st x y, let nb := mkBlk (st * 4096) (pages * 4096 - 32) true in
    free_run s st pages /\ (forall c, free_run s c pages -> st <= c) /\ l = x ++ y /\ x <> [] /\ a_close l (st * 4096) = (x, y) /\
    runs (Hp.malloc fuel root (hd_addr l 0) n) s (grown_malloc s l (x ++ a_take nb n ++ y) st pages).
Proof.
  intros pages Hpg Hok Hrep Hne Hf Hpr Hnone Hn Hrun Hav.
  destruct (grow_link s fuel l n b0 Hpg Hok Hrep Hne Hf Hpr ltac:(lia) Hrun Hav)
    as (st & x & y & s1 & Hst & Hmin & El & Hx & Hcl & Hg & Eg).
  fold pages in Hst, Hmin, Hg. set (nb := mkBlk (st * 4096) (pages * 4096 - 32) true) in *.
  exists st, x, y. split_and!; [done..|].
  pose proof (grown_find s s1 l x y nb st pages fuel n El Hx Hf Hnone eq_refl Hg) as Efind.
  replace (n <=? b_bytes nb) with true in Efind by (symmetry; apply Z.leb_le; simpl; lia).
  destruct Hg as [O1 R1 P1 Pr1 D1 I1 T1 F1 K1 U1 C1].
  pose proof (blocks_ok_middle _ _ _ O1) as ((Hb0 & _) & _).
  assert (Hhd : 0 < hd_addr l 0).
  { destruct l as [|b l0]; [done|]. destruct Hok as [[(? & _) _]%Forall_cons _]. simpl. lia. }
  unfold Hp.malloc. apply runs_bind, runs_assert; [apply Z.ltb_lt; lia|].
  apply runs_bind. eapply runs_eq; [apply find_free_block_spec; [done..|lia]|]. rewrite Hnone. simpl Z.eqb. cbv iota.
  apply runs_bind. eapply runs_eq.
  { rewrite Eg. erewrite bind_done by exact Efind. unfold ASSERT.
    rewrite (proj2 (Z.eqb_neq (b_addr nb) 0)) by lia. done. }
  eapply runs_mono; [apply (take_block_spec s1 x nb y n O1 R1); simpl; lia|].
  intros r s2 [-> Hs2]. pose proof Hs2 as [R2 O2 F2 Q2 C2].
  pose proof (inside_private s1 _ _ Pr1 (take_inside x nb y n ltac:(simpl; lia))) as Hprt.
  destruct (heap_step_paging s1 s2 _ _ P1 Pr1 Hprt O1 Hs2) as [Hk Hpr2].
  split; try done; [by eapply keep_ok|..].
  - intros b a Hb Ha. rewrite <- (D1 b a) by done. subst l.
    eapply (data_kept (x ++ nb :: y) (x ++ a_take nb n ++ y) s1 s2 b a O1 Hs2); [..|done].
    + rewrite elem_of_app, elem_of_cons in *. tauto.
    + rewrite !elem_of_app in *. tauto.
  - intros va Hva. rewrite (keep_translate root s1 s2) by done. by apply I1.
  - intros va Hva. rewrite (keep_translate root s1 s2) by done. by apply T1.
  - by rewrite Q2, F1.
  - intros a Ha. by apply (keep_private root s1 s2), K1.
  - eapply (heap_step_untouched l _ _ s1 s2 s s1 st pages); [done|done|done| |done|done].
    assert (Hin : forall c a, c ∈ x ++ nb :: y -> in_blk c a -> (exists b, b ∈ l /\ in_blk b a) \/ st * 4096 <= a < (st + pages) * 4096).
    { intros c a Hc Ha. rewrite El. setoid_rewrite elem_of_app. rewrite elem_of_app, elem_of_cons in Hc.
      destruct Hc as [?|[->|?]]; [left; eauto|right|left; eauto]. unfold nb, in_blk, b_end, HDR in Ha. simpl in Ha. lia. }
    intros c a [Hc|Hc] Ha; [by apply (Hin c)|].
    destruct (take_inside x nb y n ltac:(simpl; lia) c a Hc Ha) as (b & Hb & Hba). by apply (Hin b).
  - by rewrite C2, C1.
Qed.

Lemma malloc_grown_spec s fuel l n b0 :
  let pages := n / 4096 + 1 in
  paging_ok root s -> blocks_ok l -> rep (k_mem s) 0 l 0 -> l <> [] -> (length l < fuel)%nat ->
  heap_private root l s -> a_find l n = None ->
  4096 <= n <= pages * 4096 - 32 -> spare_run s b0 pages -> 4 * pages <= avail s ->
  exists st x y, let nb := mkBlk (st * 4096) (pages * 4096 - 32) true in
    free_run s st pages /\ (forall c, free_run s c pages -> st <= c) /\ l = x ++ y /\ a_close l (st * 4096) = (x, y) /\
    runs (Hp.malloc fuel root (hd_addr l 0) n) s (fun r s' =>
      r = st * 4096 + HDR /\ rep (k_mem s') 0 (x ++ a_take nb n ++ y) 0 /\
      blocks_ok (x ++ a_take nb n ++ y) /\ paging_ok root s' /\
      (forall b a, b ∈ l -> in_data b a -> mget (k_mem s') a = mget (k_mem s) a) /\
      (forall va, st * 4096 <= va < (st + pages) * 4096 -> translate (k_mem s') root va = Some va)).
Proof.
  intros pages Hpg Hok Hrep Hne Hf Hpr Hnone Hn Hrun Hav.
  destruct (malloc_grown_run s fuel l n b0 Hpg Hok Hrep Hne Hf Hpr Hnone Hn Hrun Hav)
    as (st & x & y & H1 & H2 & H3 & _ & H4 & Hr).
  exists st, x, y. split_and!; [done..|]. eapply runs_mono; [exact Hr|]. by intros r s' [].
Qed.

(** A request of less than a page fails when no free block is large enough. *)
Lemma malloc_small_fails s fuel l n :
  pmem_ok s -> blocks_ok l -> rep (k_mem s) 0 l 0 -> l <> [] -> (length l <= fuel)%nat ->
  a_find l n = None -> 0 < n < 4096 -> Hp.malloc fuel root (hd_addr l 0) n s = Fail AssertFailed.
Proof.
  intros Hpm Hok Hrep Hne Hf Hnone Hn. unfold Hp.malloc.
  erewrite bind_done by (unfold ASSERT; rewrite (proj2 (Z.ltb_lt 0 n)) by lia; done).
  erewrite bind_done by (by apply find_free_block_spec). rewrite Hnone. simpl Z.eqb. cbv iota.
  apply bind_fail. unfold Hp.grow. change PAGE_SZ with 4096. rewrite Z.div_small by lia.
  apply bind_fail. change (u64 (0 + 1)) with 1. by apply request_one_fails.
Qed.
End Grow.
