(* ===== verification/PMemProps.v ===== *)
(** * PMemProps: the guarantees of the frame allocator

    The behaviour of each request on every branch, the machine of a client that
    requests and frees frames, and the cases the code does not serve. *)
From Stdlib Require Import String.
From S2P Require Import Prelude Memory Libc Printf Bitmap MMap PMem.

(** ** A sample allocator: 16 frames, the first three locked *)
Definition sample : kst (list console_event) :=
  mkK (<[4096 := 7]> ∅) (mkPMem 0 13 3 16 (mkBitmap 0 4096 2)) [].

Lemma sample_ok : pmem_ok sample.
Proof. split; vm_compute; intuition congruence. Qed.

(** The same after frame 2 was given back while the hint is at 16. *)
Definition sample_past : kst (list console_event) :=
  mkK (<[4096 := 0xfb]> (<[4097 := 0xff]> ∅)) (mkPMem 16 1 15 16 (mkBitmap 0 4096 2)) [].

Lemma sample_past_ok : pmem_ok sample_past.
Proof. split; vm_compute; intuition congruence. Qed.

(** ** A client of the allocator

    [held] are the frames the client was given and has not freed.  Of a run of
    [number] frames it is given those that the memory has: a call may answer
    with a run that the end of memory cuts off (see [request_frames_short]). *)
Inductive frame_op : Type :=
| FRequest
| FRequestRun (number : Z)
| FFree (i : Z).

(** The [n] frames from [i] on. *)
Fixpoint frame_run (n : nat) (i : Z) : list Z :=
  match n with O => [] | S n' => i :: frame_run n' (i + 1) end.

Lemma elem_of_frame_run n i k : k ∈ frame_run n i <-> i <= k < i + Z.of_nat n.
Proof.
  revert i. induction n as [|n IH]; intros i; simpl.
  - rewrite elem_of_nil. lia.
  - rewrite elem_of_cons, IH. lia.
Qed.

Lemma NoDup_frame_run n i : NoDup (frame_run n i).
Proof. revert i. induction n as [|n IH]; intros i; simpl; constructor; [rewrite elem_of_frame_run; lia|done]. Qed.

(** Those of the [number] frames from [i] on that a memory of [total] has. *)
Definition given_run (total number i : Z) : list Z := frame_run (Z.to_nat (Z.min number (total - i))) i.

Section Machine.
Context {C : Type} `{ConsoleI C}.
Implicit Types (s : kst C) (held : list Z).

Inductive frame_step : frame_op -> list Z * kst C -> list Z * kst C -> Prop :=
| step_request held s p s' :
    PM.request_frame s = Done (p, s') -> p <> 0 ->
    frame_step FRequest (held, s) (PM.ptr_to_frame_idx p :: held, s')
| step_request_run held s number p s' :
    PM.request_frames number s = Done (p, s') ->
    frame_step (FRequestRun number) (held, s)
      (given_run (frames (k_pmem s)) number (PM.ptr_to_frame_idx p) ++ held, s')
| step_free_frame held1 held2 s i s' :
    PM.free_frame i s = Done (tt, s') ->
    frame_step (FFree i) (held1 ++ i :: held2, s) (held1 ++ held2, s').

Inductive frame_steps : list Z * kst C -> list Z * kst C -> Prop :=
| steps_refl x : frame_steps x x
| steps_step o x y z : frame_steps x y -> frame_step o y z -> frame_steps x z.

(** The frames held are in range, locked and different. *)
Record held_ok (held : list Z) (s : kst C) : Prop := {
  held_pmem : pmem_ok s;
  held_nodup : NoDup held;
  held_locked : forall i, i ∈ held -> 0 <= i < frames (k_pmem s) /\ frame_locked s i = true
}.

Lemma request_frame_inv s p s' :
  pmem_ok s -> PM.request_frame s = Done (p, s') -> p <> 0 ->
  exists k, 0 <= k < frames (k_pmem s) /\ frame_locked s k = false /\ took_frame k s p s'.
Proof.
  intros Hok E Hp. pose proof (ok_last _ Hok).
  assert (Hf : 0 < free_frames (k_pmem s)).
  { rewrite (ok_free _ Hok). pose proof (count_range (fun i => negb (frame_locked s i)) (Z.to_nat (frames (k_pmem s)))).
    destruct (decide (free_frames (k_pmem s) = 0)) as [E0|E0]; [by rewrite (request_frame_exhausted s E0) in E|].
    rewrite (ok_free _ Hok) in E0. lia. }
  destruct (request_frame_cases s Hok Hf) as [(k & Hk & Hfk & _ & a & t & E' & Ht)|[_ E']];
    rewrite E in E'; injection E' as -> <-; [|done]. exists k. split_and!; [lia|lia|done|done].
Qed.

Lemma frame_idx_mul k : PM.ptr_to_frame_idx (k * FRAME_SZ) = k.
Proof. unfold PM.ptr_to_frame_idx. by apply Z.div_mul. Qed.

(** Frames that become held: locked now, free before. *)
Lemma held_take held s s' new :
  held_ok held s -> pmem_ok s' -> frames (k_pmem s') = frames (k_pmem s) -> NoDup new ->
  (forall k, k ∈ new -> 0 <= k < frames (k_pmem s) /\ frame_locked s k = false) ->
  (forall k, frame_locked s' k = bool_decide (k ∈ new) || frame_locked s k) -> held_ok (new ++ held) s'.
Proof.
  intros [Hok Hnd Hl] Hok' Hf Hnew Hfree Hbits. split; [done|..].
  - apply NoDup_app. split_and!; [done| |done]. intros k Hk Hh.
    destruct (Hl k Hh), (Hfree k Hk). congruence.
  - intros i [Hi|Hi]%elem_of_app; rewrite Hf, Hbits.
    + rewrite bool_decide_true by done. destruct (Hfree i Hi). done.
    + destruct (Hl i Hi) as [? ->]. by rewrite orb_true_r.
Qed.

Lemma frame_step_ok o held s held' s' :
  held_ok held s -> frame_step o (held, s) (held', s') -> held_ok held' s'.
Proof.
  intros Hh Hstep. pose proof Hh as [Hok Hnd Hl]. inversion Hstep as [? ? p ? E Hp|? ? number p ? E|held1 held2 ? i ? E]; subst.
  - destruct (request_frame_inv s p s') as (k & Hk & Hfk & -> & Hok' & Hpp & Hlo & _); [done..|].
    rewrite frame_idx_mul. apply (held_take held s s' [k]); try done; [apply Hpp|apply NoDup_singleton|..].
    + intros j ->%list_elem_of_singleton. done.
    + intros j. rewrite (Hlo j). f_equal. destruct (Z.eqb_spec k j), (bool_decide_reflect (j ∈ [k])) as [Hj|Hj]; try done.
      * destruct Hj. by apply list_elem_of_singleton.
      * by apply list_elem_of_singleton in Hj.
  - destruct (request_frames_inv s number p s' Hok E) as (st & en & Hst & Hen & Hfree & -> & Hok' & Hpp & Hlr & _).
    rewrite frame_idx_mul. unfold given_run.
    apply (held_take held s s'); try done; [apply Hpp|apply NoDup_frame_run|..].
    + intros k [Hk1 Hk2]%elem_of_frame_run. split; [lia|]. apply Hfree. lia.
    + intros k. rewrite (Hlr k). f_equal. apply bool_decide_ext. rewrite elem_of_frame_run. lia.
  - assert (Hi : i ∈ held1 ++ i :: held2) by (rewrite elem_of_app, elem_of_cons; auto).
    destruct (Hl i Hi) as [Hi1 Hi2].
    destruct (free_frame_spec s i Hok Hi1) as ([] & t & E' & Hok' & Hpp & Hfo & _).
    rewrite E in E'. injection E' as <-.
    rewrite <- Permutation_middle, NoDup_cons in Hnd. destruct Hnd as [Hni Hnd]. split; [done|done|].
    intros j Hj. rewrite (pres_frames _ _ Hpp), (Hfo j).
    destruct (Hl j) as [? ->]; [rewrite elem_of_app, elem_of_cons in *; tauto|].
    split; [done|]. destruct (Z.eqb_spec i j) as [->|]; done.
Qed.

Lemma frame_steps_ok held s held' s' :
  held_ok held s -> frame_steps (held, s) (held', s') -> held_ok held' s'.
Proof.
  intros Hh Hrun. remember (held, s) as x eqn:Ex. remember (held', s') as z eqn:Ez.
  revert held' s' Ez. induction Hrun as [|o x y z Hrun IH Hstep]; intros held' s' ->; simplify_eq; [done|].
  destruct y as [h t]. eapply frame_step_ok; [by apply IH|exact Hstep].
Qed.
End Machine.

(** ** Properties *)

(** C8: [PMem::request_frame] on a consistent allocator: it panics when no frame
    is free; it returns null and changes nothing when every frame from the hint
    [__last_free_idx] on is locked; otherwise it returns the lowest free frame
    [k] at or above the hint, locks exactly [k], moves the hint to [k] and keeps
    the counters equal to the number of free and locked bits. *)
Theorem request_frame_correct {C} `{ConsoleI C} (s : kst C) :
  pmem_ok s ->
  (free_frames (k_pmem s) = 0 -> PM.request_frame s = Fail AssertFailed) /\
  (0 < free_frames (k_pmem s) ->
   (forall k, last_free_idx (k_pmem s) <= k < frames (k_pmem s) -> frame_locked s k = true) ->
   PM.request_frame s = Done (0, s)) /\
  (forall k, last_free_idx (k_pmem s) <= k < frames (k_pmem s) -> frame_locked s k = false ->
   (forall l, last_free_idx (k_pmem s) <= l < k -> frame_locked s l = true) ->
   runs PM.request_frame s (fun p s' => p = k * FRAME_SZ /\ pmem_ok s' /\ pm_pres s s' /\
     locks_only k s s' /\ last_free_idx (k_pmem s') = k /\ k_con s' = k_con s)).
Proof.
  intros Hok. pose proof (ok_last _ Hok). split_and!; [apply request_frame_exhausted| |].
  - intros Hf Hall. destruct (request_frame_cases s Hok Hf) as [(k & Hk & Hfk & _)|[_ E]]; [|done].
    rewrite Hall in Hfk by done. done.
  - intros k Hk Hfk Hmin. destruct (request_frame_cases s Hok) as [(k' & Hk' & Hfk' & Hmin' & Hr)|[Hall _]].
    + rewrite (ok_free _ Hok). apply count_pos with (i := k); [lia|]. by rewrite Hfk.
    + assert (k = k') as ->; [|done]. destruct (Z.lt_trichotomy k k') as [?|[?|?]]; [|done|].
      * rewrite Hmin' in Hfk by lia. done.
      * rewrite Hmin in Hfk' by lia. done.
    + rewrite Hall in Hfk by done. done.
Qed.

Lemma request_frame_correct_witness :
  runs PM.request_frame sample (fun p s' => p = 3 * FRAME_SZ /\ pmem_ok s' /\ pm_pres sample s' /\
    locks_only 3 sample s' /\ last_free_idx (k_pmem s') = 3 /\ k_con s' = []).
Proof.
  apply (request_frame_correct sample sample_ok); [by vm_compute|by vm_compute|].
  intros l [H1 H2]. change (0 <= l) in H1. assert (l = 0 \/ l = 1 \/ l = 2) as [->|[->| ->]] by lia; by vm_compute.
Defined.

(** C9: no frame is held twice.  From a state where the held frames are locked,
    in range and pairwise different, every sequence of calls that return of
    [request_frame] (other than with null), [request_frames] (for any number;
    also where the answer is a run that the end of memory cuts off: then the
    frames it has become held) and [free_frame] of held frames leads to such a
    state, with exact counters, and the next [request_frame] returns a frame
    that nobody holds.  The client does not write to the frames: what happens
    when it clears the frame that carries the bitmap is
    [bitmap_frame_allocated_twice]. *)
Theorem no_double_allocation {C} `{ConsoleI C} (held held' : list Z) (s s' : kst C) :
  held_ok held s -> frame_steps (held, s) (held', s') ->
  pmem_ok s' /\ NoDup held' /\
  (forall i, i ∈ held' -> 0 <= i < frames (k_pmem s') /\ frame_locked s' i = true) /\
  (forall p s'', PM.request_frame s' = Done (p, s'') -> p <> 0 -> PM.ptr_to_frame_idx p ∉ held').
Proof.
  intros Hh Hrun. pose proof (frame_steps_ok _ _ _ _ Hh Hrun) as [Hok Hnd Hl]. split_and!; try done.
  intros p s'' E Hp Hin. destruct (request_frame_inv s' p s'' Hok E Hp) as (k & _ & Hfk & -> & _).
  rewrite frame_idx_mul in Hin. destruct (Hl k Hin). congruence.
Qed.

(** 20 frames are requested, of which memory has 13. *)
Lemma no_double_allocation_witness :
  exists s', frame_steps ([], sample) (given_run 16 20 3 ++ [], s') /\ NoDup (given_run 16 20 3 ++ []) /\
    given_run 16 20 3 ++ [] = frame_run 13 3.
Proof.
  assert (Hr : exists s', frame_steps ([], sample) (given_run 16 20 3 ++ [], s')).
  { eexists. eapply steps_step; [apply steps_refl|].
    apply (step_request_run [] sample 20 12288). by vm_compute. }
  destruct Hr as [s' Hr]. exists s'. split; [done|]. split; [|done].
  eapply (no_double_allocation [] (given_run 16 20 3 ++ []) sample s'); [|done].
  split; [apply sample_ok|apply NoDup_nil_2|].
  intros i Hi. by apply not_elem_of_nil in Hi.
Defined.

(** A request that some run can serve gets the lowest one. *)
Lemma request_frames_run {C} `{ConsoleI C} (s : kst C) (number b : Z) :
  pmem_ok s -> 2 <= number < 2 ^ 63 -> free_run s b number ->
  exists st, free_run s st number /\ (forall c, free_run s c number -> st <= c) /\
    runs (PM.request_frames number) s (fun p s' => p = st * FRAME_SZ /\ pmem_ok s' /\ pm_pres s s' /\
      locks_range st (st + number) s s' /\ last_free_idx (k_pmem s') = last_free_idx (k_pmem s)).
Proof.
  intros Hok Hn Hrun. destruct (found_run s number b Hok ltac:(lia) Hrun) as (st & Ef & Hst & Hmin).
  exists st. split_and!; [done|done|]. destruct Hst as (_ & H0 & _).
  eapply runs_mono; [apply (request_frames_runs s number st (st + number - 1)); [done|lia|done|lia|lia]|].
  intros p s' (-> & Hok' & Hpp & Hlr & Hl & _). split_and!; try done.
  by replace (st + number) with (st + number - 1 + 1) by lia.
Qed.

(** The frames from [st] to the end of memory are free, the frame before is not. *)
Definition free_tail {C} `{ConsoleI C} (s : kst C) (st : Z) : Prop :=
  last_free_idx (k_pmem s) <= st /\ 0 < st /\ st + 1 < frames (k_pmem s) /\
  (forall k, st <= k < frames (k_pmem s) -> frame_locked s k = false) /\
  (st = last_free_idx (k_pmem s) \/ st = 1 \/ frame_locked s (st - 1) = true).

(** A request that only the end of memory could serve, and not fully, is
    answered with a short run: when no run of [number] frames exists and the
    frames [st .. frames - 1] are free, [request_frames(number)] returns [st] as
    if it had [number] frames, with only the frames up to the end locked; the
    check compares the wrapped difference [start - end]. *)
Lemma request_frames_short {C} `{ConsoleI C} (s : kst C) (number st : Z) :
  pmem_ok s -> 2 <= number < 2 ^ 63 -> free_tail s st -> (forall c, ~ free_run s c number) ->
  st + number > frames (k_pmem s) /\
  runs (PM.request_frames number) s (fun p s' => p = st * FRAME_SZ /\ pmem_ok s' /\
    locks_range st (frames (k_pmem s)) s s').
Proof.
  intros Hok Hn (T1 & T2 & T3 & T4 & T5) Hno. pose proof (ok_last _ Hok).
  split.
  { destruct (decide (st + number > frames (k_pmem s))); [done|]. destruct (Hno st).
    split_and!; [lia..|]. intros k Hk. apply T4. lia. }
  pose proof (found_spec s number Hok ltac:(lia)) as Hp. destruct (found s number) as [st' en] eqn:E. simpl in Hp.
  destruct Hp as [[-> Hb]|(P1 & P2 & P3 & P4 & P5 & P6)].
  { destruct (Hb st) as (k & Hk & Hk' & Hg); [lia|lia|]. rewrite T4 in Hg by lia. done. }
  destruct P6 as [->|[-> P6]].
  { destruct (Hno st'). split_and!; [lia..|]. intros k Hk. apply P4. lia. }
  assert (st' = st) as ->.
  { destruct (Z.lt_trichotomy st' st) as [?|[?|?]]; [|done|].
    - destruct T5 as [?|[?|T5]]; [lia|lia|]. rewrite P4 in T5 by lia. done.
    - destruct (P5 st) as (k & Hk & Hk' & Hg); [lia|lia|]. rewrite T4 in Hg by lia. done. }
  eapply runs_mono; [apply (request_frames_runs s number st (frames (k_pmem s) - 1)); [done|lia|done|lia|lia]|].
  intros p s' (-> & Hok' & Hpp & Hlr & _). split_and!; try done.
  by replace (frames (k_pmem s)) with (frames (k_pmem s) - 1 + 1) at 1 by lia.
Qed.

(** The frames 3 to 15 of the sample are free; no run of 14 frames is. *)
Lemma sample_tail : free_tail sample 3.
Proof.
  split_and!; [by vm_compute..| |right; right; by vm_compute]. intros k Hk. change (frames (k_pmem sample)) with 16 in Hk.
  assert (Hb : forallb (fun k => negb (frame_locked sample k)) (frame_run 13 3) = true) by (by vm_compute).
  rewrite forallb_forall in Hb. apply negb_true_iff, Hb, list_elem_of_In, elem_of_frame_run. lia.
Qed.

Lemma sample_no_run_14 b : ~ free_run sample b 14.
Proof.
  intros (_ & H1 & H2 & H3). change (frames (k_pmem sample)) with 16 in H2.
  assert (frame_locked sample 2 = false) as Hf by (apply H3; lia). by vm_compute in Hf.
Qed.

(** No run and no free tail: the search finds nothing, or the last frame alone. *)
Lemma request_frames_none {C} `{ConsoleI C} (s : kst C) (number : Z) :
  pmem_ok s -> 2 <= number -> (forall b, ~ free_run s b number) -> (forall st, ~ free_tail s st) ->
  PM.request_frames number s = Fail AssertFailed.
Proof.
  intros Hok Hn Hno Hnt. pose proof (ok_last _ Hok).
  pose proof (found_spec s number Hok ltac:(lia)) as Hp. destruct (found s number) as [st en] eqn:E. simpl in Hp.
  apply (request_frames_panics s number st en); [done|lia|done|].
  destruct Hp as [[-> _]|(P1 & P2 & P3 & P4 & P5 & [->|[-> P6]])]; [by left|..].
  { destruct (Hno st). split_and!; [lia..|]. intros k Hk. apply P4. lia. }
  destruct (decide (st + 1 < frames (k_pmem s))) as [Hlt|Hge].
  - destruct (Hnt st). split_and!; [lia..| |].
    + intros k Hk. apply P4. lia.
    + destruct (decide (st = last_free_idx (k_pmem s))); [by left|]. destruct (decide (st = 1)); [by right; left|].
      do 2 right. destruct (P5 (st - 1)) as (k & Hk & Hk' & Hg); [lia|lia|]. by replace (st - 1) with k by lia.
  - right. split; [lia|]. replace (st - (frames (k_pmem s) - 1)) with 0 by lia. change (u64 0) with 0. lia.
Qed.

(** C19: [PMem::request_frames] on a consistent allocator, for every [number]
    below 2^63.  It panics for 0 and for 1 (the check
    [free_start_idx - free_end_idx >= number] compares 0 with 1).  From 2 on it
    is first fit where it can be: when some run of [number] free frames starts
    at or above the hint (frame 0 excluded), the lowest such run is returned and
    exactly its frames are locked.  When there is none and the last frames of
    memory (two or more, from [st] on) are free, the call still returns: it
    answers [st] with only the frames up to the end of memory locked, fewer than
    [number].  When there is neither, it panics. *)
Theorem request_frames_first_fit {C} `{ConsoleI C} (s : kst C) (number : Z) :
  pmem_ok s -> 0 <= number < 2 ^ 63 ->
  (number < 2 -> PM.request_frames number s = Fail AssertFailed) /\
  (2 <= number -> forall b, free_run s b number ->
    exists st, free_run s st number /\ (forall c, free_run s c number -> st <= c) /\
      runs (PM.request_frames number) s (fun p s' => p = st * FRAME_SZ /\ pmem_ok s' /\ pm_pres s s' /\
        locks_range st (st + number) s s' /\ last_free_idx (k_pmem s') = last_free_idx (k_pmem s))) /\
  (2 <= number -> (forall b, ~ free_run s b number) -> forall st, free_tail s st ->
    st + number > frames (k_pmem s) /\
    runs (PM.request_frames number) s (fun p s' => p = st * FRAME_SZ /\ pmem_ok s' /\
      locks_range st (frames (k_pmem s)) s s')) /\
  (2 <= number -> (forall b, ~ free_run s b number) -> (forall st, ~ free_tail s st) ->
    PM.request_frames number s = Fail AssertFailed).
Proof.
  intros Hok Hn. split_and!.
  - intros Hlt. assert (number = 0 \/ number = 1) as [->| ->] by lia; [done|by apply request_one_fails].
  - intros Hge b Hrun. apply (request_frames_run s number b); [done|lia|done].
  - intros Hge Hno st Ht. apply request_frames_short; [done|lia|done|done].
  - intros Hge Hno Hnt. by apply request_frames_none.
Qed.

(** On the sample: 4 frames are served from frame 3 on, 14 are answered with
    the 13 that are left, 1 panics. *)
Lemma request_frames_first_fit_witness :
  (exists st, free_run sample st 4 /\ (forall c, free_run sample c 4 -> st <= c) /\
    runs (PM.request_frames 4) sample (fun p s' => p = st * FRAME_SZ /\ pmem_ok s' /\ pm_pres sample s' /\
      locks_range st (st + 4) sample s' /\ last_free_idx (k_pmem s') = 0)) /\
  runs (PM.request_frames 14) sample (fun p s' => p = 12288 /\ pmem_ok s' /\ locks_range 3 16 sample s') /\
  PM.request_frames 1 sample = Fail AssertFailed.
Proof.
  split_and!.
  - apply (request_frames_first_fit sample 4 sample_ok ltac:(lia)) with (b := 5); [lia|].
    split_and!; [by vm_compute..|]. intros k Hk.
    assert (k = 5 \/ k = 6 \/ k = 7 \/ k = 8) as [->|[->|[->| ->]]] by lia; by vm_compute.
  - destruct (request_frames_first_fit sample 14 sample_ok ltac:(lia)) as (_ & _ & Hshort & _).
    apply (Hshort ltac:(lia) sample_no_run_14 3 sample_tail).
  - apply (proj1 (request_frames_first_fit sample 1 sample_ok ltac:(lia))). lia.
Defined.

(** A frame freed below the hint is lost to [request_frame].  When every
    frame from [__last_free_idx] on is locked and frame [i] below it is freed,
    the counter says that a frame is free and [request_frame] returns null. *)
Theorem freed_below_hint_lost {C} `{ConsoleI C} (s : kst C) (i : Z) :
  pmem_ok s -> 0 <= i < last_free_idx (k_pmem s) ->
  (forall k, last_free_idx (k_pmem s) <= k < frames (k_pmem s) -> frame_locked s k = true) ->
  runs (PM.free_frame i) s (fun _ s' => 0 < free_frames (k_pmem s') /\ frame_locked s' i = false /\
    PM.request_frame s' = Done (0, s')).
Proof.
  intros Hok Hi Hall. pose proof (ok_last _ Hok).
  eapply runs_mono; [apply (free_frame_spec s i Hok); lia|].
  intros [] s' (Hok' & Hpp & Hfo & Hl & _). pose proof (pres_frames _ _ Hpp) as Hf.
  assert (Hfree : frame_locked s' i = false) by (by rewrite (Hfo i), Z.eqb_refl).
  assert (Hpos : 0 < free_frames (k_pmem s')).
  { rewrite (ok_free _ Hok'). apply count_pos with (i := i); [lia|]. by rewrite Hfree. }
  split_and!; [done|done|]. destruct (request_frame_cases s' Hok' Hpos) as [(k & Hk & Hfk & _)|[_ E]]; [|done].
  rewrite (Hfo k), Hall in Hfk by lia. destruct (Z.eqb_spec i k); [lia|done].
Qed.

Lemma freed_below_hint_lost_witness :
  runs (PM.free_frame 5) sample_past (fun _ s' => 0 < free_frames (k_pmem s') /\ frame_locked s' 5 = false /\
    PM.request_frame s' = Done (0, s')).
Proof.
  apply (freed_below_hint_lost sample_past 5 sample_past_ok); [by vm_compute|].
  intros k Hk. change (16 <= k < 16) in Hk. lia.
Defined.

(** C11: [PMem::PMem] on a sound boot environment with some frame left: the
    constructor returns; the allocator is consistent, with the number of frames
    of the memory map; a frame is free exactly when some descriptor of usable
    memory covers it and it is not locked again (frame 0, the stack's frame and
    the frames counted from the public member [buf]); memory outside the
    bitmap's buffer is unchanged. *)
Theorem pmem_constructor_correct {C} `{ConsoleI C} (e : kenv) (s : kst C) (k0 : Z) :
  boot_ok e (k_mem s) -> 0 <= k0 < init_frames e (k_mem s) ->
  covered_below e (k_mem s) (mm_entries (e_mmap e)) k0 -> ~ relocked e (k_mem s) k0 ->
  runs (PM.construct e) s (fun _ s' =>
    pmem_ok s' /\ frames (k_pmem s') = init_frames e (k_mem s) /\
    bitmap (k_pmem s') = mkBitmap (e_bitmap_self e) (snd (init_seg e (k_mem s))) (init_size e (k_mem s)) /\
    (forall k, 0 <= k < init_frames e (k_mem s) ->
       frame_locked s' k = false <->
       covered_below e (k_mem s) (mm_entries (e_mmap e)) k /\ ~ relocked e (k_mem s) k) /\
    (forall a, ~ in_buf (bitmap (k_pmem s')) a -> mget (k_mem s') a = mget (k_mem s) a)).
Proof.
  intros Hb Hk0 Hc Hr. eapply runs_mono; [apply (construct_spec e (k_mem s) Hb s eq_refl); eauto|].
  intros [] s' [B1 B2 B3 B4 B5 B6]. split_and!; try done. intros a Ha. apply B5. by rewrite B3 in Ha.
Qed.

(** A machine with 16 frames: a map of two descriptors at 1 MiB, the first one
    conventional memory for the frames 1 to 14, the stack in frame 14. *)
Definition boot_mem : mem :=
  write64 (write64 (write32 (write64 (write64 (write32 ∅ 0x100000 7) 0x100008 4096) 0x100018 14)
    0x100028 0) 0x100030 61440) 0x100040 0.
Definition boot_state : kst (list console_event) := mkK boot_mem (mkPMem 0 0 0 0 (mkBitmap 0 0 0)) [].
Definition boot_env : kenv := mkEnv (mkMemoryMap 80 40 2 0x100000) 2 57344 200.

Lemma boot_frames_16 : init_frames boot_env boot_mem = 16.
Proof. by vm_compute. Qed.

Lemma boot_covers i k : 0 <= i < 2 -> covers boot_env boot_mem i k -> i = 0 /\ 1 <= k < 15.
Proof.
  intros Hi [Hu Hr]. assert (i = 0 \/ i = 1) as [->| ->] by lia; [|by vm_compute in Hu].
  split; [done|]. vm_compute in Hr. destruct Hr as [H1 H2].
  change (1 <= k) in H1. change (k < 15) in H2. lia.
Qed.

Lemma boot_env_ok : boot_ok boot_env boot_mem.
Proof.
  split.
  - rewrite boot_frames_16. lia.
  - by vm_compute.
  - by vm_compute.
  - intros i a Hi Ha. change (0 <= i < 2) in Hi.
    assert (E : snd (init_seg boot_env boot_mem) = 4096 /\ init_size boot_env boot_mem = 2) by (by vm_compute).
    destruct E as [-> ->]. assert (Hd : MM.get_desc (e_mmap boot_env) i = 0x100000 + i * 40).
    { unfold MM.get_desc. simpl. rewrite u64_small by lia. lia. }
    rewrite Hd in Ha. lia.
  - intros i k Hi Hc. rewrite boot_frames_16. apply boot_covers in Hc as [-> ?]; [lia|done].
  - rewrite boot_frames_16. by vm_compute.
  - rewrite boot_frames_16. by vm_compute.
Qed.

Lemma boot_covered k : 1 <= k < 15 -> covered_below boot_env boot_mem 2 k.
Proof.
  intros Hk. exists 0. split; [lia|]. split; [by vm_compute|].
  assert (E : d_paddr (init_desc boot_env boot_mem 0) / FRAME_SZ = 1 /\ d_pages (init_desc boot_env boot_mem 0) = 14)
    by (by vm_compute).
  destruct E as [-> ->]. lia.
Qed.

Lemma boot_relocked k : relocked boot_env boot_mem k <-> k = 0 \/ k = 14.
Proof. unfold relocked. change (init_size boot_env boot_mem / FRAME_SZ) with 0.
  change (e_stack boot_env / FRAME_SZ) with 14. change (e_bitmap_self boot_env / FRAME_SZ) with 0. lia.
Qed.

Lemma pmem_constructor_correct_witness :
  exists s', PM.construct boot_env boot_state = Done (tt, s') /\ pmem_ok s' /\
    frame_locked s' 5 = false /\ frame_locked s' 14 = true.
Proof.
  destruct (pmem_constructor_correct boot_env boot_state 1) as ([] & s' & E & Hok & _ & _ & Hbits & _).
  - apply boot_env_ok.
  - change (0 <= 1 < init_frames boot_env boot_mem). rewrite boot_frames_16. lia.
  - change (covered_below boot_env boot_mem 2 1). apply boot_covered. lia.
  - change (~ relocked boot_env boot_mem 1). rewrite boot_relocked. lia.
  - change (k_mem boot_state) with boot_mem in Hbits. change (mm_entries (e_mmap boot_env)) with 2 in Hbits.
    rewrite boot_frames_16 in Hbits. exists s'. split_and!; [done|done| |].
    + apply Hbits; [lia|]. split; [apply boot_covered; lia|]. rewrite boot_relocked. lia.
    + destruct (frame_locked s' 14) eqn:E14; [done|]. apply Hbits in E14; [|lia].
      destruct E14 as [_ E14]. rewrite boot_relocked in E14. lia.
Defined.

(** The constructor leaves the frame of its own bitmap free.  When the
    bitmap is smaller than a frame, no frame is locked for it (the size is
    divided by the frame size, and counted from the object, not from the
    buffer), so the frame that holds the bits is handed out by later requests. *)
Theorem bitmap_frame_left_free {C} `{ConsoleI C} (e : kenv) (s : kst C) :
  boot_ok e (k_mem s) -> init_size e (k_mem s) < FRAME_SZ ->
  0 < snd (init_seg e (k_mem s)) / FRAME_SZ < init_frames e (k_mem s) ->
  snd (init_seg e (k_mem s)) / FRAME_SZ <> e_stack e / FRAME_SZ ->
  covered_below e (k_mem s) (mm_entries (e_mmap e)) (snd (init_seg e (k_mem s)) / FRAME_SZ) ->
  runs (PM.construct e) s (fun _ s' =>
    in_buf (bitmap (k_pmem s')) (snd (init_seg e (k_mem s))) /\
    frame_locked s' (bm_buf (bitmap (k_pmem s')) / FRAME_SZ) = false).
Proof.
  intros Hb Hsz Hk Hst Hc.
  assert (Hz : init_size e (k_mem s) / FRAME_SZ = 0).
  { apply Z.div_small. split; [|done]. unfold init_size. pose proof (boot_frames _ _ Hb). zdm. }
  assert (Hr : ~ relocked e (k_mem s) (snd (init_seg e (k_mem s)) / FRAME_SZ)) by (unfold relocked; rewrite Hz; lia).
  eapply runs_mono; [apply (construct_spec e (k_mem s) Hb s eq_refl)|].
  { exists (snd (init_seg e (k_mem s)) / FRAME_SZ). split_and!; [lia|lia|done|done]. }
  intros [] s' [B1 B2 B3 B4 B5 B6]. rewrite B3. simpl. split.
  - unfold in_buf. simpl. pose proof (boot_frames _ _ Hb). unfold init_size. zdm.
  - apply B6; [lia|done].
Qed.

Lemma bitmap_frame_left_free_witness :
  exists s', PM.construct boot_env boot_state = Done (tt, s') /\ frame_locked s' 1 = false.
Proof.
  destruct (bitmap_frame_left_free boot_env boot_state) as ([] & s' & E & Hin & Hf).
  - apply boot_env_ok.
  - by vm_compute.
  - by vm_compute.
  - by vm_compute.
  - change (covered_below boot_env boot_mem 2 1). apply boot_covered. lia.
  - exists s'. split; [done|].
    assert (Eb : bm_buf (bitmap (k_pmem s')) / FRAME_SZ = 1); [|by rewrite Eb in Hf].
    vm_compute in E. injection E as <-. by vm_compute.
Defined.

(** C39: the frame of the bitmap is allocated twice.  When the lowest free frame at the hint is
    the one that holds the bitmap, [request_frame] returns it; its holder clears it, as the
    page tables do with each new table, and so marks every frame it describes as free; the next
    [request_frame] returns the same frame again.  Some other frame [j] is free, so that the
    allocator does not report that it is out of frames. *)
Theorem bitmap_frame_allocated_twice {C} `{ConsoleI C} (s : kst C) (f j : Z) :
  pmem_ok s -> bm_buf (bitmap (k_pmem s)) = f * FRAME_SZ -> last_free_idx (k_pmem s) <= f < frames (k_pmem s) ->
  f < 8 * FRAME_SZ -> frame_locked s f = false ->
  (forall k, last_free_idx (k_pmem s) <= k < f -> frame_locked s k = true) ->
  0 <= j < frames (k_pmem s) -> j <> f -> frame_locked s j = false ->
  runs (p ← PM.request_frame;
        modify (fun s => mkK (memset (k_mem s) p 0 FRAME_SZ) (k_pmem s) (k_con s));;
        q ← PM.request_frame; mret (p, q)) s
    (fun r s' => r = (f * FRAME_SZ, f * FRAME_SZ)).
Proof.
  intros Hok Hbuf Hf Hsz Hfree Hbelow Hj Hjf Hjfree. pose proof (ok_last _ Hok). pose proof (ok_frames _ Hok).
  assert (Hpos : 0 < free_frames (k_pmem s)).
  { rewrite (ok_free _ Hok). apply count_pos with (i := j); [lia|]. by rewrite Hjfree. }
  destruct (request_frame_cases s Hok Hpos) as [(k & Hk & Hfk & Hmin & Hr)|[Hall _]].
  2: { rewrite Hall in Hfree by lia. done. }
  assert (k = f) as ->.
  { destruct (decide (k < f)); [by rewrite Hbelow in Hfk by lia|].
    destruct (decide (f < k)); [by rewrite Hmin in Hfree by lia|lia]. }
  apply runs_bind. eapply runs_mono; [exact Hr|]. intros p s1 (-> & Hok1 & Hpp & Hlo & Hl & _).
  assert (Hpos1 : 0 < free_frames (k_pmem s1)).
  { rewrite (ok_free _ Hok1), (pres_frames _ _ Hpp). apply count_pos with (i := j); [lia|].
    by rewrite (Hlo j), (proj2 (Z.eqb_neq f j)), Hjfree by lia. }
  apply runs_bind, runs_modify. set (s2 := mkK _ _ _).
  assert (Hbit : PM.bit s2 f = false).
  { unfold PM.bit, Bm.get. change (k_pmem s2) with (k_pmem s1). rewrite (pres_bitmap _ _ Hpp), Hbuf.
    simpl k_mem. unfold FRAME_SZ in *. rewrite mget_memset, decide_True by zdm. by rewrite Z.land_0_l. }
  apply runs_bind. unfold PM.request_frame. apply runs_bind, runs_gets. change (k_pmem s2) with (k_pmem s1).
  apply runs_bind, runs_assert; [by apply Z.ltb_lt|].
  rewrite Hl, (pres_frames _ _ Hpp). destruct (Z.to_nat (frames (k_pmem s) - f)) as [|n] eqn:En; [lia|].
  cbn [PM.request_loop]. apply runs_bind, runs_gets. rewrite Hbit. cbn [negb]. unfold PM.lock_frame.
  apply runs_bind. eapply runs_eq; [by rewrite Hbit|]. apply runs_bind, runs_modify, runs_ret.
  apply runs_ret. unfold PM.idx_to_frame_ptr, FRAME_SZ in *. by rewrite u64_small by lia.
Qed.

(** The allocator that the constructor makes on the sample machine: its bitmap is in frame 1. *)
Definition constructed : kst (list console_event) :=
  match PM.construct boot_env boot_state with Done (_, s) => s | Fail _ => boot_state end.

Lemma constructed_ok : pmem_ok constructed.
Proof.
  destruct (construct_spec boot_env boot_mem boot_env_ok boot_state eq_refl) as ([] & s' & E & [B1 _ _ _ _ _]).
  - exists 1. rewrite boot_frames_16. split_and!; [lia..|apply boot_covered; lia|]. rewrite boot_relocked. lia.
  - unfold constructed. by rewrite E.
Qed.

Lemma bitmap_frame_allocated_twice_witness :
  runs (p ← PM.request_frame;
        modify (fun s => mkK (memset (k_mem s) p 0 FRAME_SZ) (k_pmem s) (k_con s));;
        q ← PM.request_frame; mret (p, q)) constructed (fun r _ => r = (4096, 4096)).
Proof.
  apply (bitmap_frame_allocated_twice constructed 1 2 constructed_ok); try by vm_compute.
  intros k Hk. change (0 <= k < 1) in Hk. assert (k = 0) as -> by lia. by vm_compute.
Defined.
