(* ===== verification/PagingProps.v ===== *)
(** * PagingProps: the guarantees of the page tables *)
From Stdlib Require Import String.
From S2P Require Import Prelude Memory Libc Printf Bitmap MMap PMem Paging PagingInit.

(** ** A sample: 64 frames, the bitmap in frame 1, the PML4 in frame 2 *)
Definition psample : kst (list console_event) :=
  mkK (<[4096 := 7]> ∅) (mkPMem 0 61 3 64 (mkBitmap 0 4096 8)) [].
Definition psample_root : Z := 8192.

Lemma psample_fresh : fresh_root psample_root psample.
Proof.
  split.
  - split; vm_compute; intuition congruence.
  - by vm_compute.
  - by vm_compute.
  - intros a [H1 H2]. change (4096 <= a) in H1. change (a < 4104) in H2.
    assert (a / 4096 = 1) as -> by zdm. split; [by vm_compute|left; by vm_compute].
  - by vm_compute.
  - by vm_compute.
  - intros a [H1 H2] [H3 H4]. change (8192 <= a) in H1. change (a < 4104) in H4. lia.
Qed.

(** The sample with its PML4 cleared. *)
Definition psample0 : kst (list console_event) := cleared psample_root psample.

Lemma psample0_ok : paging_ok psample_root psample0 /\ avail psample0 = 61.
Proof.
  destruct (cleared_spec psample_root psample psample_fresh) as (H1 & H2 & _). split; [done|].
  unfold psample0. rewrite H2. by vm_compute.
Qed.

(** ** Properties *)

(** C4: [Paging::allocate_page(va, pa)] on well-formed tables, with a frame at
    hand for each of the tables of [va] that do not exist yet, returns and takes no
    other frames; afterwards the MMU translates every address of the page of
    [va] into the frame of [pa] and every other address as before; the tables are
    well formed again, locked frames stay locked, and no byte of a locked frame
    outside the tables and the bitmap changes. *)
Theorem allocate_page_correct {C} `{ConsoleI C} (root : Z) (s : kst C) (va pa : Z) :
  paging_ok root s -> misses root s va <= avail s -> 0 <= va -> 0 <= pa < 2 ^ 44 ->
  runs (Pg.allocate_page root va pa) s (fun _ s' =>
    paging_ok root s' /\ pg_pres root s s' /\ avail s - misses root s va <= avail s' /\
    forall va', translate (k_mem s') root va' =
      if decide (vpage va' = vpage va) then Some (pa / 4096 * 4096 + va' mod 4096)
      else translate (k_mem s) root va').
Proof.
  intros Hpg Hav Hva Hpa. eapply runs_mono; [by apply (allocate_page_tight root s va pa)|].
  intros [] s' (H1 & H2 & H3 & H4 & _). split_and!; try done. intros va'. rewrite (H4 va').
  by rewrite u32_small by zdm.
Qed.

Lemma allocate_page_correct_witness :
  exists s', Pg.allocate_page psample_root 0x7f001000 20480 psample0 = Done (tt, s') /\
    translate (k_mem s') psample_root 0x7f001abc = Some 0x5abc.
Proof.
  destruct (allocate_page_correct psample_root psample0 0x7f001000 20480) as ([] & s' & E & _ & _ & _ & Ht).
  - apply psample0_ok.
  - rewrite (proj2 psample0_ok). by vm_compute.
  - lia.
  - lia.
  - exists s'. split; [done|]. rewrite (Ht 0x7f001abc). by vm_compute.
Defined.

(** C20: [Paging::is_page_allocated(va)] is true exactly when the MMU translates
    [va], whatever pages were mapped before. *)
Theorem page_allocated_iff_translated {C} `{ConsoleI C} (root : Z) (s : kst C) (va : Z) :
  paging_ok root s -> 0 <= va ->
  Pg.is_page_allocated root va (k_mem s) = true <-> exists pa, translate (k_mem s) root va = Some pa.
Proof.
  intros Hpg Hva. rewrite (is_page_allocated_spec root s va) by done.
  destruct (translate (k_mem s) root va) as [pa|]; split; try done; [by exists pa|by intros [? ?]].
Qed.

Lemma page_allocated_iff_translated_witness :
  Pg.is_page_allocated psample_root 4096 (k_mem psample0) = true <->
  exists pa, translate (k_mem psample0) psample_root 4096 = Some pa.
Proof. apply (page_allocated_iff_translated psample_root psample0); [apply psample0_ok|lia]. Defined.

(** [PageIndexer] splits an address into its four table indices: the indices
    are below 512 and, with the page offset, give back the low 48 bits. *)
Theorem page_indexer_correct (va : Z) :
  0 <= va ->
  let i := Pg.indexer va in
  0 <= ix_pml4 i < 512 /\ 0 <= ix_pdpt i < 512 /\ 0 <= ix_pd i < 512 /\ 0 <= ix_pt i < 512 /\
  ix_pml4 i * 2 ^ 39 + ix_pdpt i * 2 ^ 30 + ix_pd i * 2 ^ 21 + ix_pt i * 2 ^ 12 + va mod 4096 = va mod 2 ^ 48.
Proof.
  intros Hva i. unfold i. rewrite indexer_spec by done. simpl ix_pml4. simpl ix_pdpt. simpl ix_pd. simpl ix_pt.
  split_and!; try apply va_index_range. unfold va_index. simpl Z.mul. simpl Z.add.
  pose proof (Z.div_mod va 4096). zdm.
Qed.

Lemma page_indexer_correct_witness :
  0x99999999999 mod 2 ^ 48 = 19 * 2 ^ 39 + 102 * 2 ^ 30 + 204 * 2 ^ 21 + 409 * 2 ^ 12 + 0x999.
Proof.
  destruct (page_indexer_correct 0x99999999999 ltac:(lia)) as (_ & _ & _ & _ & E). rewrite <- E. by vm_compute.
Defined.

(** [Paging::__identity_paging(addr, n)] for up to 4097 whole pages: every
    address of the [k] pages from a page-aligned [addr] on translates to itself
    afterwards, and no other translation changes. *)
Theorem identity_paging_whole_pages {C} `{ConsoleI C} (root : Z) (s : kst C) (addr k : Z) :
  paging_ok root s -> 0 < k <= 4097 -> tables k <= avail s ->
  0 <= addr -> addr mod 4096 = 0 -> addr + 4096 * k <= 2 ^ 44 ->
  runs (Pg.__identity_paging root addr (4096 * k)) s (fun _ s' =>
    paging_ok root s' /\
    (forall va, addr <= va < addr + 4096 * k -> translate (k_mem s') root va = Some va) /\
    (forall va, 0 <= va < 2 ^ 48 -> ~ (addr <= va < addr + 4096 * k) ->
       translate (k_mem s') root va = translate (k_mem s) root va)).
Proof.
  intros Hpg Hk Hav Ha Hal Hb. assert (E : 4096 * k / 4097 + 1 = k) by zdm.
  eapply runs_mono; [apply identity_paging_spec; rewrite ?E; try done; lia|]. rewrite E.
  intros [] s' (Hpg' & _ & _ & Hid). split_and!; [done| |].
  - intros va Hva. rewrite Hid by lia. rewrite decide_True by zdm. done.
  - intros va Hva Hn. rewrite Hid by lia. rewrite decide_False by zdm. done.
Qed.

Lemma identity_paging_whole_pages_witness :
  exists s', Pg.__identity_paging psample_root 0x10000 8192 psample0 = Done (tt, s') /\
    translate (k_mem s') psample_root 0x11fff = Some 0x11fff.
Proof.
  destruct (identity_paging_whole_pages psample_root psample0 0x10000 2) as ([] & s' & E & _ & Hid & _).
  - apply psample0_ok.
  - lia.
  - rewrite (proj2 psample0_ok). by vm_compute.
  - lia.
  - done.
  - lia.
  - exists s'. split; [exact E|]. apply Hid. lia.
Defined.

(** [Paging::__identity_paging] may map too few pages.  The loop runs
    [n / 4097 + 1] times; when that does not reach the page of the last byte, as
    for 8193 bytes and for every region of 4098 or more whole pages, the last byte
    of the region keeps the translation it had before the call, although the
    comment says that [n] is rounded up to full pages. *)
Theorem identity_paging_misses_last_page {C} `{ConsoleI C} (root : Z) (s : kst C) (addr n : Z) :
  paging_ok root s -> n / 4097 < (n - 1) / 4096 -> 0 < n < 2 ^ 43 -> tables (n / 4097 + 1) <= avail s ->
  0 <= addr < 2 ^ 43 -> addr mod 4096 = 0 ->
  runs (Pg.__identity_paging root addr n) s (fun _ s' =>
    translate (k_mem s') root (addr + n - 1) = translate (k_mem s) root (addr + n - 1)).
Proof.
  intros Hpg Hk Hn Hav Ha Hal.
  eapply runs_mono; [apply identity_paging_spec; [done|lia|done|lia|zdm]|].
  intros [] s' (_ & _ & _ & Hid). rewrite Hid by lia. rewrite decide_False by zdm. done.
Qed.

(** Two pages are mapped for 8193 bytes: the last byte stays unmapped. *)
Lemma identity_paging_misses_last_page_witness :
  exists s', Pg.__identity_paging psample_root 0x10000 8193 psample0 = Done (tt, s') /\
    translate (k_mem s') psample_root 0x12000 = None.
Proof.
  destruct (identity_paging_misses_last_page psample_root psample0 0x10000 8193)
    as ([] & s' & E & Hid); [apply psample0_ok|done|lia| |lia|done|].
  - rewrite (proj2 psample0_ok). by vm_compute.
  - exists s'. split; [exact E|]. change (0x10000 + 8193 - 1) with 0x12000 in Hid. rewrite Hid. by vm_compute.
Defined.

(** The code cannot follow tables above 4 GiB.  For a table in the frame
    [f] with [2^20 <= f < 2^32], the entry the code writes leads the MMU to the
    table, while the pointer the code computes from it is the address truncated
    to 32 bits, a different one (the 32-bit bit-field is shifted as an
    [unsigned int]; the comment expects 44 bits). *)
Theorem high_table_pointer_truncated (f : Z) :
  2 ^ 20 <= f < 2 ^ 32 ->
  hw_next (new_entry 0 f) = Some (f * 4096) /\
  table_ptr (new_entry 0 f) = (f * 4096) mod 2 ^ 32 /\ table_ptr (new_entry 0 f) <> f * 4096.
Proof.
  intros Hf. pose proof (new_entry_clean 0 f clean_0) as Hc.
  assert (Ea : e_addr (new_entry 0 f) = f).
  { rewrite <- clean_addr, new_entry_addr by (done || apply clean_0). apply u32_small. lia. }
  assert (Et : table_ptr (new_entry 0 f) = (f * 4096) mod 2 ^ 32).
  { unfold table_ptr, u32, PAGE_OFFSET_BITS. rewrite Ea, Z.shiftl_mul_pow2 by lia. done. }
  split_and!; [|done|rewrite Et; zdm].
  rewrite hw_next_clean, new_entry_present, Ea by done. by rewrite Z.shiftl_mul_pow2 by lia.
Qed.

Lemma high_table_pointer_truncated_witness :
  hw_next (new_entry 0 0x100003) = Some 0x100003000 /\ table_ptr (new_entry 0 0x100003) = 0x3000.
Proof. destruct (high_table_pointer_truncated 0x100003 ltac:(lia)) as (H1 & H2 & _). by rewrite H1, H2. Defined.

(** C12: [Paging::Paging]: when the PML4's frame is locked, the memory map lies in
    locked memory and enough frames are at hand, the constructor returns with
    well-formed tables; of every region of the memory map and every device region, [n]
    bytes long, the first [n / 4097 + 1] pages are identity mapped: all of a region of at
    most 4097 whole pages, but not the last pages of a larger one, where the
    comments at paging.cpp lines 187 and 211 (the entire memory, rounded up to full
    pages) say more than the loop does ([identity_paging_misses_last_page]); CR3 holds the PML4, and
    CR0.PG, CR4.PAE and EFER.LME are set; the self test passes, so nothing is
    printed; and apart from the byte the test writes, no byte of a locked frame
    outside the bitmap and the PML4 changes. *)
Theorem paging_constructor_correct {C} `{ConsoleI C} (root : Z) (s : kst C) (mm : MemoryMap)
    (r : Pg.regions) (regs : Pg.cpu_regs) :
  fresh_root root s -> 0 <= mm_entries mm -> quiet root s 0x999 ->
  (forall i a, 0 <= i < mm_entries mm -> MM.get_desc mm i <= a < MM.get_desc mm i + 40 -> quiet root s a) ->
  (forall i, 0 <= i < mm_entries mm -> region_ok (map_addr (k_mem s) mm i) (map_bytes (k_mem s) mm i)) ->
  Forall (fun '(a, n) => region_ok a n) (device_regions r) ->
  map_need (k_mem s) mm (Z.to_nat (mm_entries mm)) + need (device_regions r) + 3 <= avail s ->
  runs (Pg.construct root mm r regs) s (fun regs' s' =>
    paging_ok root s' /\ k_con s' = k_con s /\
    Pg.cr3 regs' = root /\ Z.testbit (Pg.cr0 regs') 31 = true /\ Z.testbit (Pg.cr4 regs') 5 = true /\
    Z.testbit (Pg.efer regs') 8 = true /\
    (forall i, 0 <= i < mm_entries mm ->
       identity_mapped root s' (map_addr (k_mem s) mm i) (id_pages (map_bytes (k_mem s) mm i))) /\
    (forall a n, (a, n) ∈ device_regions r -> identity_mapped root s' a (id_pages n)) /\
    (forall a, quiet root s a -> a <> 0x999 -> mget (k_mem s') a = mget (k_mem s) a)).
Proof.
  intros. eapply runs_mono; [by apply construct_paging_spec|]. intros regs' s' (? & ? & ? & ? & ? & ? & ? & ? & _ & Hq).
  split_and!; try done. intros a Ha. by apply (Hq a).
Qed.

(** The sample with a memory map of one descriptor, four pages from 0 on, at 0x100. *)
Definition psample_map : kst (list console_event) :=
  mkK (write64 (write32 (<[4096 := 7]> ∅) 0x100 7) 0x118 4) (mkPMem 0 61 3 64 (mkBitmap 0 4096 8)) [].
Definition psample_mm : MemoryMap := mkMemoryMap 40 40 1 0x100.
Definition psample_regions : Pg.regions := Pg.mkRegions 0x80000000 4096 0xfee00000 0xfec00000 0xfed00000 1024.

Lemma psample_map_fresh : fresh_root psample_root psample_map.
Proof.
  split.
  - split; vm_compute; intuition congruence.
  - by vm_compute.
  - by vm_compute.
  - intros a [H1 H2]. change (4096 <= a) in H1. change (a < 4104) in H2.
    assert (a / 4096 = 1) as -> by zdm. split; [by vm_compute|left; by vm_compute].
  - by vm_compute.
  - by vm_compute.
  - intros a [H1 H2] [H3 H4]. change (8192 <= a) in H1. change (a < 4104) in H4. lia.
Qed.

Lemma psample_quiet a : 0 <= a < 4096 -> quiet psample_root psample_map a.
Proof.
  intros Ha. assert (E : a / 4096 = 0) by zdm. split; [|split; [|split]].
  - rewrite E. by vm_compute.
  - rewrite E. by vm_compute.
  - intros [H1 _]. change (4096 <= a) in H1. lia.
  - intros [H1 _]. change (8192 <= a) in H1. lia.
Qed.

Lemma paging_constructor_correct_witness :
  exists regs' s', Pg.construct psample_root psample_mm psample_regions (Pg.mkRegs 0 0 0 0) psample_map = Done (regs', s') /\
    paging_ok psample_root s' /\ Pg.cr3 regs' = 8192.
Proof.
  destruct (paging_constructor_correct psample_root psample_map psample_mm psample_regions (Pg.mkRegs 0 0 0 0))
    as (regs' & s' & E & Hpg & _ & Hcr & _).
  - apply psample_map_fresh.
  - by vm_compute.
  - apply psample_quiet. lia.
  - intros i a Hi Ha. change (0 <= i < 1) in Hi. assert (i = 0) as -> by lia.
    change (0x100 <= a < 0x100 + 40) in Ha. apply psample_quiet. lia.
  - intros i Hi. change (0 <= i < 1) in Hi. assert (i = 0) as -> by lia.
    split; [by vm_compute|]. by vm_compute.
  - unfold device_regions. repeat (apply Forall_cons; split; [by vm_compute|]). apply Forall_nil_2.
  - by vm_compute.
  - exists regs', s'. split; [exact E|]. split; [exact Hpg|exact Hcr].
Defined.
