(* ===== verification/HeapProps.v ===== *)
(** * HeapProps: the guarantees of the kernel heap *)
From S2P Require Import Prelude Memory Libc Printf Bitmap MMap PMem Paging PagingInit PagingProps Heap HeapSpec HeapInv HeapGrow.

(** ** A sample: one free block of 4064 bytes at 4096 *)
Definition hsample : kst (list console_event) :=
  mkK (write64 (write64 (write64 (write8 ∅ 4112 1) 4104 0) 4096 0) 4120 4064)
      (mkPMem 0 0 0 0 (mkBitmap 0 0 0)) [].
Definition hblocks : list blk := [mkBlk 4096 4064 true].

Lemma hblocks_ok : blocks_ok hblocks.
Proof. split; [repeat constructor|by repeat split; constructor]. Qed.

Lemma hsample_rep : rep (k_mem hsample) 0 hblocks 0.
Proof. split; [|done]. split_and!; by vm_compute. Qed.

Lemma hsample_inv : heap_inv 4096 4096 hblocks [] hsample.
Proof.
  split; [apply hblocks_ok|apply hsample_rep|done|done|by split|done|done|].
  intros p n b []%not_elem_of_nil.
Qed.

(** A free block, and a block in use that ends the list. *)
Definition hblocks2 : list blk := [mkBlk 4096 100 true; mkBlk 4228 200 false].
Definition hsample2 : kst (list console_event) :=
  mkK (write64 (write64 (write64 (write8
        (write64 (write64 (write64 (write8 ∅ 4112 1) 4104 4228) 4096 0) 4120 100)
        4244 0) 4236 0) 4228 4096) 4252 200) (mkPMem 0 0 0 0 (mkBitmap 0 0 0)) [].

Lemma hblocks2_ok : blocks_ok hblocks2.
Proof.
  split; [repeat constructor|]. split; [|by split; [constructor|]].
  apply Forall_singleton. unfold apart, b_end, HDR. simpl. lia.
Qed.

Lemma hsample2_rep : rep (k_mem hsample2) 0 hblocks2 0.
Proof. split; [|split; [|done]]; split_and!; by vm_compute. Qed.

(** ** Properties *)
Lemma NoDup_ptrs l : blocks_ok l -> NoDup (ptrs l).
Proof.
  intros [HF HA]. induction l as [|b l IH]; [apply NoDup_nil_2|]. apply Forall_cons in HF as [Hb HF].
  destruct HA as [Hap HA]. destruct (b_free b) eqn:E; [rewrite ptrs_free by done; auto|].
  rewrite ptrs_used by done. apply NoDup_cons. split; [|auto].
  intros (c & Hc & _ & Ec)%elem_of_ptrs. rewrite Forall_forall in HF, Hap.
  specialize (HF c Hc). specialize (Hap c Hc). unfold blk_ok, apart in *. offsets. lia.
Qed.

(** The regions that clients hold are disjoint. *)
Lemma live_disjoint {C} `{ConsoleI C} blocks total l live (s : kst C) i j p n q k :
  heap_inv blocks total l live s -> live !! i = Some (p, n) -> live !! j = Some (q, k) -> i <> j ->
  p + n <= q \/ q + k <= p.
Proof.
  intros Hl Hi Hj Hij. pose proof Hl as [Hok _ _ _ _ _ Hlv _].
  destruct (inv_block _ _ _ _ _ _ _ Hl (list_elem_of_lookup_2 _ _ _ Hi)) as (b & Hb & _ & -> & Hn).
  destruct (inv_block _ _ _ _ _ _ _ Hl (list_elem_of_lookup_2 _ _ _ Hj)) as (c & Hc & _ & -> & Hk).
  assert (Hne : b_addr b + HDR <> b_addr c + HDR).
  { intros E. apply Hij. assert (Hnd : NoDup live.*1) by (rewrite Hlv; by apply NoDup_ptrs).
    apply (NoDup_lookup _ _ _ (b_addr b + HDR) Hnd); rewrite list_lookup_fmap, ?Hi, ?Hj; simpl; congruence. }
  apply list_elem_of_split in Hb as (l1 & l2 & ->). pose proof (blocks_ok_middle _ _ _ Hok) as (_ & Ho & _).
  rewrite elem_of_app, elem_of_cons in Hc. assert (apart b c) as Hap.
  { destruct Hc as [Hc|[->|Hc]]; [apply Ho; auto|done|apply Ho; auto]. }
  unfold apart in Hap. offsets. lia.
Qed.

(** What the heap promises to its clients.  From a heap in its invariant,
    after any sequence of [malloc] calls served by free blocks, [free] calls of
    held pointers and writes inside held regions, the regions held are pairwise
    disjoint, each lies inside the data of a block in use, and the block list in
    memory is well formed, coalesced and covers the same bytes as at the start.
    [fuel] bounds the traversals: a list of blocks that spans [total] bytes has
    fewer than [total / 33 + 1] of them. *)
Theorem heap_client_safe {C} `{ConsoleI C} (fuel : nat) (pml4 blocks total : Z) os live0 (s0 : kst C) live (s : kst C) :
  total < 33 * (Z.of_nat fuel + 1) -> (exists l, heap_inv blocks total l live0 s0) ->
  client_run fuel pml4 blocks os (live0, s0) (live, s) ->
  (exists l, heap_inv blocks total l live s /\
     forall p n, (p, n) ∈ live -> exists b, b ∈ l /\ b_free b = false /\ p = b_addr b + HDR /\ 0 < n <= b_bytes b) /\
  (forall i j p n q k, live !! i = Some (p, n) -> live !! j = Some (q, k) -> i <> j -> p + n <= q \/ q + k <= p).
Proof.
  intros Hfuel H0 Hrun. destruct (run_inv fuel pml4 blocks total Hfuel os live0 s0 live s H0 Hrun) as [l Hl]. split.
  - exists l. split; [done|]. intros p n. apply (inv_block blocks total l live s p n Hl).
  - intros i j p n q k. by eapply live_disjoint.
Qed.

Definition hstate1 : kst (list console_event) :=
  match Hp.malloc 130 0 4096 100 hsample with Done (_, s) => s | Fail _ => hsample end.
Definition hstate2 : kst (list console_event) :=
  match Hp.malloc 130 0 4096 50 hstate1 with Done (_, s) => s | Fail _ => hsample end.

(** Two allocations, then the release of the first. *)
Lemma heap_client_safe_witness :
  exists s, client_run 130 0 4096 [OpMalloc 100 4128; OpMalloc 50 4260; OpFree 4128] ([], hsample) ([(4260, 50)], s) /\
    exists l, heap_inv 4096 4096 l [(4260, 50)] s.
Proof.
  assert (Hrun : exists s, client_run 130 0 4096 [OpMalloc 100 4128; OpMalloc 50 4260; OpFree 4128]
    ([], hsample) ([(4260, 50)], s)).
  { eexists. eapply (run_snoc _ _ _ [OpMalloc 100 4128; OpMalloc 50 4260] _ _ ([(4260, 50); (4128, 100)], hstate2)).
    - eapply (run_snoc _ _ _ [OpMalloc 100 4128] _ _ ([(4128, 100)], hstate1)).
      + eapply (run_snoc _ _ _ [] _ _ ([], hsample)); [apply run_nil|].
        eapply (step_malloc _ _ _ _ _ _ 4096); by vm_compute.
      + eapply (step_malloc _ _ _ _ _ _ 4228); by vm_compute.
    - eapply (step_free _ _ _ [(4260, 50)] [] _ 4128 100). vm_compute. reflexivity. }
  destruct Hrun as [s Hrun]. exists s. split; [exact Hrun|].
  destruct (heap_client_safe 130 0 4096 4096 _ [] hsample [(4260, 50)] s ltac:(lia)
    (ex_intro _ hblocks hsample_inv) Hrun) as [(l & Hl & _) _].
  exists l. exact Hl.
Defined.

(** A [malloc] or [free] never changes a byte of a region that stays held. *)
Theorem heap_keeps_client_data {C} `{ConsoleI C} (fuel : nat) (pml4 blocks total : Z) l o live (s : kst C) live' s' :
  total < 33 * (Z.of_nat fuel + 1) -> heap_inv blocks total l live s ->
  client_step fuel pml4 blocks o (live, s) (live', s') ->
  match o with
  | OpWrite a v => forall x, x <> a -> mget (k_mem s') x = mget (k_mem s) x
  | _ => forall p n a, (p, n) ∈ live -> (p, n) ∈ live' -> p <= a < p + n -> mget (k_mem s') a = mget (k_mem s) a
  end.
Proof.
  intros Hfuel Hinv Hstep.
  inversion Hstep as [? ? n b r ? Hf Hb Hm|live1 live2 ? p n ? Hf|? ? p n a v Hp Ha]; subst.
  - by destruct (step_malloc_inv fuel pml4 blocks total Hfuel l live s n b r s' Hinv Hf Hb Hm) as (l' & _ & Hk & _).
  - by destruct (step_free_inv fuel blocks total l live1 live2 s p n s' Hinv Hf) as (l' & _ & Hk & _).
  - intros x Hx. simpl. by apply mget_write8_out.
Qed.

(** The sample with a region of 100 bytes held and a byte of it written. *)
Definition hstate1w : kst (list console_event) :=
  mkK (write8 (k_mem hstate1) 4150 77) (k_pmem hstate1) (k_con hstate1).

Lemma heap_keeps_client_data_witness :
  exists s', Hp.malloc 130 0 4096 50 hstate1w = Done (4260, s') /\ mget (k_mem s') 4150 = 77.
Proof.
  assert (Hrun : client_run 130 0 4096 [OpMalloc 100 4128; OpWrite 4150 77] ([], hsample) ([(4128, 100)], hstate1w)).
  { eapply (run_snoc _ _ _ [OpMalloc 100 4128] _ _ ([(4128, 100)], hstate1)).
    - eapply (run_snoc _ _ _ [] _ _ ([], hsample)); [apply run_nil|].
      eapply (step_malloc _ _ _ _ _ _ 4096); by vm_compute.
    - apply (step_write _ _ _ _ _ 4128 100); [by left|lia]. }
  destruct (run_inv 130 0 4096 4096 ltac:(lia) _ [] hsample _ _ (ex_intro _ hblocks hsample_inv) Hrun) as [l Hl].
  set (s' := match Hp.malloc 130 0 4096 50 hstate1w with Done (_, s) => s | Fail _ => hsample end).
  assert (E : Hp.malloc 130 0 4096 50 hstate1w = Done (4260, s')) by (vm_compute; reflexivity).
  assert (Hs : client_step 130 0 4096 (OpMalloc 50 4260) ([(4128, 100)], hstate1w) ([(4260, 50); (4128, 100)], s')).
  { apply (step_malloc _ _ _ _ _ _ 4228); [by vm_compute|done|exact E]. }
  exists s'. split; [exact E|].
  rewrite (heap_keeps_client_data 130 0 4096 4096 l _ _ _ _ _ ltac:(lia) Hl Hs 4128 100 4150);
    [by vm_compute|by left|by right; left|lia].
Defined.

(** C2: [Heap::malloc(n)] refines first fit on the list of blocks, when some free
    block is large enough.  It returns the data of the first block with [n] bytes
    or more; the block is used whole when at most a header would be left, and
    split otherwise; the list in memory is the abstract one afterwards; only
    headers are written. *)
Theorem malloc_refines_first_fit {C} `{ConsoleI C} (s : kst C) (fuel : nat) (pml4 : Z) (l : list blk) (n r : Z) l' :
  blocks_ok l -> rep (k_mem s) 0 l 0 -> (length l <= fuel)%nat -> 0 < n -> a_malloc l n = Some (r, l') ->
  runs (Hp.malloc fuel pml4 (hd_addr l 0) n) s (fun p s' =>
    p = r /\ rep (k_mem s') 0 l' 0 /\ blocks_ok l' /\ heap_frame l l' (k_mem s) (k_mem s') /\ k_pmem s' = k_pmem s).
Proof.
  intros. eapply runs_mono; [by eapply malloc_spec|]. intros p s' [-> []]. done.
Qed.

Lemma malloc_refines_first_fit_witness :
  exists s', Hp.malloc 1 0 4096 100 hsample = Done (4128, s') /\
    rep (k_mem s') 0 [mkBlk 4096 100 false; mkBlk 4228 3932 true] 0.
Proof.
  destruct (malloc_refines_first_fit hsample 1 0 hblocks 100 4128 [mkBlk 4096 100 false; mkBlk 4228 3932 true])
    as (p & s' & E & -> & Hr & _); [apply hblocks_ok|apply hsample_rep|done|lia|by vm_compute|].
  exists s'. split; [exact E|exact Hr].
Defined.

(** C3: [Heap::free] refines the coalescing release on the list of blocks: the
    block becomes free, absorbs a free block right behind it, and is absorbed by a
    free block right before it; the call dereferences the null pointer exactly
    when the abstract release says so (the block to be absorbed is the last one). *)
Theorem free_refines_coalescing {C} `{ConsoleI C} (s : kst C) (l1 : list blk) (b : blk) (l2 : list blk) :
  blocks_ok (l1 ++ b :: l2) -> rep (k_mem s) 0 (l1 ++ b :: l2) 0 ->
  match a_free l1 b l2 with
  | Some l' => runs (Hp.free (b_addr b + HDR)) s (fun _ s' =>
      rep (k_mem s') 0 l' 0 /\ blocks_ok l' /\ heap_frame (l1 ++ b :: l2) l' (k_mem s) (k_mem s') /\
      k_pmem s' = k_pmem s)
  | None => Hp.free (b_addr b + HDR) s = Fail NullDeref
  end.
Proof.
  intros Hok Hrep. pose proof (free_spec s l1 b l2 Hok Hrep) as Hf. destruct (a_free l1 b l2); [|done].
  eapply runs_mono; [exact Hf|]. by intros [] s' [].
Qed.

Lemma free_refines_coalescing_witness :
  Hp.free 4260 hsample2 = Fail NullDeref.
Proof.
  apply (free_refines_coalescing hsample2 [mkBlk 4096 100 true] (mkBlk 4228 200 false) []);
    [apply hblocks2_ok|apply hsample2_rep].
Defined.

(** C37: freeing the last block of the list when the block before it is free and
    contiguous always dereferences the null pointer: the second merge of
    [Heap::free] writes [block->next->prev] without a check. *)
Theorem free_last_block_null_dereference {C} `{ConsoleI C} (s : kst C) (l1 : list blk) (p b : blk) :
  blocks_ok (l1 ++ [p; b]) -> rep (k_mem s) 0 (l1 ++ [p; b]) 0 -> b_free p = true -> contiguous p b ->
  Hp.free (b_addr b + HDR) s = Fail NullDeref.
Proof.
  intros Hok Hrep Hf Hc. change [p; b] with ([p] ++ [b]) in *. rewrite app_assoc in *.
  pose proof (free_spec s (l1 ++ [p]) b [] Hok Hrep) as Hs. unfold a_free in Hs. simpl in Hs.
  rewrite decide_True in Hs; [done|]. split; [done|]. by rewrite last_snoc.
Qed.

Lemma free_last_block_null_dereference_witness : Hp.free (4228 + 32) hsample2 = Fail NullDeref.
Proof.
  apply (free_last_block_null_dereference hsample2 [] (mkBlk 4096 100 true) (mkBlk 4228 200 false));
    [apply hblocks2_ok|apply hsample2_rep|done|done].
Defined.

(** C18: [free] undoes [malloc].  On a coalesced heap, the pointer just returned
    by a [malloc] that a free block served can be freed, and the list of blocks is
    the one before the [malloc]. *)
Theorem malloc_free_roundtrip {C} `{ConsoleI C} (s : kst C) (fuel : nat) (pml4 : Z) (l : list blk) (n r : Z) l' :
  blocks_ok l -> coalesced l -> rep (k_mem s) 0 l 0 -> (length l <= fuel)%nat -> 0 < n ->
  a_malloc l n = Some (r, l') ->
  runs (p ← Hp.malloc fuel pml4 (hd_addr l 0) n; Hp.free p) s (fun _ s' => rep (k_mem s') 0 l 0).
Proof.
  intros Hok Hco Hrep Hf Hn Ha. apply runs_bind.
  eapply runs_mono; [by eapply malloc_spec|]. intros p s1 [-> Hs].
  apply a_malloc_split in Ha as (l1 & b & l2 & -> & -> & -> & Hfit & _).
  destruct (a_free_take l1 b l2 n Hco Hfit) as (b' & rest & Et & Eb & Efr).
  rewrite Et in Hs. pose proof (free_spec s1 l1 b' (rest ++ l2) (hs_ok _ _ _ _ Hs) (hs_rep _ _ _ _ Hs)) as Hfs.
  rewrite Efr, Eb in Hfs. eapply runs_mono; [exact Hfs|]. by intros [] s2 [].
Qed.

Lemma malloc_free_roundtrip_witness :
  runs (p ← Hp.malloc 1 0 4096 100; Hp.free p) hsample (fun _ s' => rep (k_mem s') 0 hblocks 0).
Proof.
  eapply (malloc_free_roundtrip hsample 1 0 hblocks 100);
    [apply hblocks_ok|by split|apply hsample_rep|done|lia|by vm_compute].
Defined.

(** [Heap::get_heap_stats] counts the blocks of the list, and the allocated
    blocks are the regions the client holds. *)
Theorem heap_stats_correct {C} `{ConsoleI C} (blocks total : Z) l live (s : kst C) (fuel : nat) :
  heap_inv blocks total l live s -> (length l < fuel)%nat -> total < 2 ^ 64 ->
  Hp.get_heap_stats fuel blocks s =
    Done (mkStats (Z.of_nat (length l)) (n_free l) (Z.of_nat (length live)), s).
Proof.
  intros [Hok Hrep Hhd _ _ Hsp Hlv _] Hf Ht. unfold Hp.get_heap_stats. rewrite <- Hhd.
  pose proof (span_length l (proj1 Hok)).
  rewrite (stats_loop_spec s fuel 0 l 0 0 0 (proj1 Hok) Hrep Hf) by lia. rewrite !Z.add_0_l.
  by rewrite <- (length_fmap fst live), Hlv.
Qed.

Lemma heap_stats_correct_witness :
  Hp.get_heap_stats 2 4096 hsample = Done (mkStats 1 1 0, hsample).
Proof. apply (heap_stats_correct 4096 4096 hblocks [] hsample 2 hsample_inv); simpl; lia. Defined.

(** C16: the loops over the list of blocks end.  On a heap in its invariant
    that spans [total] bytes, the searches of [malloc] and of its growth and the loop of
    [get_heap_stats] come to an end within [total / 33 + 1] iterations, whatever they
    search for, and change nothing: the list has no cycle and a block has 33 bytes or more. *)
Theorem heap_loops_terminate {C} `{ConsoleI C} (blocks total : Z) l live (s : kst C) (fuel : nat) (bytes addr : Z) :
  heap_inv blocks total l live s -> total < 2 ^ 64 -> total / 33 < Z.of_nat fuel ->
  (exists b, Hp._find_free_block fuel blocks bytes s = Done (b, s)) /\
  (exists b, Hp._find_block_close_before_addr fuel blocks addr s = Done (b, s)) /\
  (exists st, Hp.get_heap_stats fuel blocks s = Done (st, s)).
Proof.
  intros [Hok Hrep Hhd Hne _ Hsp _ _] Ht Hf. rewrite <- Hhd.
  assert (Hlen : 33 * Z.of_nat (length l) <= total).
  { rewrite <- Hsp. apply span_length, Hok. }
  assert (Hfu : (length l < fuel)%nat) by zdm.
  split_and!.
  - eexists. apply (find_free_block_spec s fuel l bytes); (done || lia).
  - eexists. apply (close_loop_spec s fuel 0 l addr Hne (proj1 Hok) Hrep). lia.
  - eexists. unfold Hp.get_heap_stats. apply (stats_loop_spec s fuel 0 l 0 0 0 (proj1 Hok) Hrep Hfu); lia.
Qed.

Lemma heap_loops_terminate_witness :
  (exists b, Hp._find_free_block 126 4096 100 hsample = Done (b, hsample)) /\
  (exists b, Hp._find_block_close_before_addr 126 4096 8192 hsample = Done (b, hsample)) /\
  (exists st, Hp.get_heap_stats 126 4096 hsample = Done (st, hsample)).
Proof. apply (heap_loops_terminate 4096 4096 hblocks [] hsample 126 100 8192 hsample_inv); [lia|by vm_compute]. Defined.

(** [Heap::Heap] on well-formed page tables with four frames at hand: it
    returns a heap of one free block of 4064 bytes in a fresh frame, in its
    invariant with nothing held, and the frame is identity mapped and private to
    the heap; no private byte changes. *)
Theorem heap_constructor_correct {C} `{ConsoleI C} (root : Z) (s : kst C) :
  paging_ok root s -> 4 <= avail s ->
  runs (Hp.construct root) s (fun b s' =>
    paging_ok root s' /\ heap_inv b 4096 [mkBlk b 4064 true] [] s' /\
    heap_private root [mkBlk b 4064 true] s' /\
    (forall va, b <= va < b + 4096 -> translate (k_mem s') root va = Some va) /\
    (forall a, private root s a -> mget (k_mem s') a = mget (k_mem s) a)).
Proof.
  intros Hpg Hav. eapply runs_mono; [by apply heap_construct_spec|].
  intros b s' (H1 & H2 & H3 & _ & _ & _ & H4 & _ & H5). by split_and!.
Qed.

Lemma heap_constructor_correct_witness :
  exists b s', Hp.construct psample_root psample0 = Done (b, s') /\ heap_inv b 4096 [mkBlk b 4064 true] [] s'.
Proof.
  destruct (heap_constructor_correct psample_root psample0) as (b & s' & E & _ & Hi & _);
    [apply psample0_ok|rewrite (proj2 psample0_ok); lia|].
  exists b, s'. split; [exact E|exact Hi].
Defined.

(** [Heap::malloc(n)] panics after growing when [n] leaves less than a header
    in its last page: the pages are counted for [n] bytes without the header, so
    the block of the new pages is too small and the second search fails. *)
Theorem malloc_last_bytes_panics {C} `{ConsoleI C} (root : Z) (s : kst C) (fuel : nat) (l : list blk) (n b0 : Z) :
  let pages := n / 4096 + 1 in
  paging_ok root s -> blocks_ok l -> rep (k_mem s) 0 l 0 -> l <> [] -> (length l < fuel)%nat ->
  heap_private root l s -> a_find l n = None -> 4096 <= n -> pages * 4096 - 32 < n ->
  spare_run s b0 pages -> 4 * pages <= avail s ->
  Hp.malloc fuel root (hd_addr l 0) n s = Fail AssertFailed.
Proof.
  intros pages Hpg Hok Hrep Hne Hf Hpr Hnone Hn Hlast Hrun Hav.
  destruct (grow_link root s fuel l n b0 Hpg Hok Hrep Hne Hf Hpr Hn Hrun Hav)
    as (st & x & y & s1 & _ & _ & El & Hx & _ & Hg & Eg).
  pose proof (grown_find root s s1 l x y (mkBlk (st * 4096) (pages * 4096 - 32) true) st pages fuel n
    El Hx Hf Hnone eq_refl Hg) as Efind.
  rewrite (proj2 (Z.leb_gt n _)) in Efind by (simpl; unfold pages in *; lia).
  unfold Hp.malloc. erewrite bind_done by (unfold ASSERT; rewrite (proj2 (Z.ltb_lt 0 n)) by lia; done).
  erewrite bind_done by (apply find_free_block_spec; [done..|lia]). rewrite Hnone. simpl Z.eqb. cbv iota.
  apply bind_fail. rewrite Eg. by erewrite bind_done by exact Efind.
Qed.

(** C10: [Heap::malloc(n)] when no free block is large enough, for every size
    [n > 0].  Below a page it panics.  From a page on, in a state whose allocator
    has a run of [pages = n / 4096 + 1] free frames that ends below the frames of
    the bitmap, and four free frames per page below them (the run itself and at
    most three page tables for each page): the call takes the lowest run,
    identity maps it and links it as a block; when the last 32 bytes of the pages
    are not part of the [n], it splits the block behind [n] bytes and returns its
    data, the data of every other block is unchanged, and the list in memory and
    the tables are well formed; when [n] needs them, it panics, since the header
    was not counted. *)
Theorem malloc_grows_heap {C} `{ConsoleI C} (root : Z) (s : kst C) (fuel : nat) (l : list blk) (n : Z) :
  let pages := n / 4096 + 1 in
  paging_ok root s -> blocks_ok l -> rep (k_mem s) 0 l 0 -> l <> [] -> (length l < fuel)%nat ->
  heap_private root l s -> a_find l n = None -> 0 < n ->
  (n < 4096 -> Hp.malloc fuel root (hd_addr l 0) n s = Fail AssertFailed) /\
  (forall b0, 4096 <= n -> spare_run s b0 pages -> 4 * pages <= avail s ->
   (pages * 4096 - 32 < n -> Hp.malloc fuel root (hd_addr l 0) n s = Fail AssertFailed) /\
   (n <= pages * 4096 - 32 ->
    exists st x y, let nb := mkBlk (st * 4096) (pages * 4096 - 32) true in
    free_run s st pages /\ (forall c, free_run s c pages -> st <= c) /\ l = x ++ y /\
    runs (Hp.malloc fuel root (hd_addr l 0) n) s (fun r s' =>
      r = st * 4096 + HDR /\ rep (k_mem s') 0 (x ++ a_take nb n ++ y) 0 /\
      blocks_ok (x ++ a_take nb n ++ y) /\ paging_ok root s' /\
      (forall b a, b ∈ l -> in_data b a -> mget (k_mem s') a = mget (k_mem s) a) /\
      (forall va, st * 4096 <= va < (st + pages) * 4096 -> translate (k_mem s') root va = Some va)))).
Proof.
  intros pages Hpg Hok Hrep Hne Hf Hpr Hnone Hn0. split.
  { intros Hlt. apply malloc_small_fails; try done; [apply Hpg|lia]. }
  intros b0 Hn Hrun Hav. split; intros Hfit.
  { by apply (malloc_last_bytes_panics root s fuel l n b0). }
  destruct (malloc_grown_spec root s fuel l n b0 Hpg Hok Hrep Hne Hf Hpr Hnone (conj Hn Hfit) Hrun Hav)
    as (st & x & y & Hst & Hmin & El & _ & Hr).
  by exists st, x, y.
Qed.

(** The heap constructed on the sample page tables, in frame 3. *)
Definition hgrow : kst (list console_event) :=
  match Hp.construct psample_root psample0 with Done (_, s) => s | Fail _ => psample0 end.

Lemma hgrow_run : Hp.construct psample_root psample0 = Done (12288, hgrow).
Proof. vm_compute. reflexivity. Qed.

Lemma hgrow_ok :
  paging_ok psample_root hgrow /\ heap_inv 12288 4096 [mkBlk 12288 4064 true] [] hgrow /\
  heap_private psample_root [mkBlk 12288 4064 true] hgrow /\ 57 <= avail hgrow.
Proof.
  destruct (heap_construct_spec psample_root psample0) as (b & s' & E & H1 & H2 & H3 & H4 & _);
    [apply psample0_ok|rewrite (proj2 psample0_ok); lia|].
  rewrite hgrow_run in E. apply done_inj in E as [<- <-]. rewrite (proj2 psample0_ok) in H4.
  split; [exact H1|]. split; [exact H2|]. split; [exact H3|]. lia.
Qed.

Lemma hgrow_spare_run : spare_run hgrow 20 2.
Proof.
  split; [|by vm_compute]. split_and!; [by vm_compute..|]. intros k Hk.
  assert (k = 20 \/ k = 21) as [->| ->] by lia; by vm_compute.
Qed.

Lemma malloc_grows_heap_witness :
  (exists st r s', Hp.malloc 3 psample_root 12288 5000 hgrow = Done (r, s') /\ r = st * 4096 + HDR /\
    paging_ok psample_root s') /\
  Hp.malloc 3 psample_root 12288 8180 hgrow = Fail AssertFailed.
Proof.
  destruct hgrow_ok as (H1 & H2 & H3 & H4). destruct H2 as [Hok Hrep _ _ _ _ _ _].
  destruct (malloc_grows_heap psample_root hgrow 3 [mkBlk 12288 4064 true] 5000) as [_ Hg];
    [exact H1|exact Hok|exact Hrep|done|simpl; lia|exact H3|by vm_compute|lia|].
  destruct (malloc_grows_heap psample_root hgrow 3 [mkBlk 12288 4064 true] 8180) as [_ Hp];
    [exact H1|exact Hok|exact Hrep|done|simpl; lia|exact H3|by vm_compute|lia|].
  split.
  - destruct (Hg 20) as [_ (st & x & y & _ & _ & _ & r & s' & E & Hr & _ & _ & Hpg & _)];
      [lia|exact hgrow_spare_run|change (4 * 2 <= avail hgrow); lia|by vm_compute|].
    exists st, r, s'. split; [exact E|]. split; [exact Hr|exact Hpg].
  - apply (Hp 20); [lia|exact hgrow_spare_run|change (4 * 2 <= avail hgrow); lia|by vm_compute].
Defined.



Lemma malloc_last_bytes_panics_witness : Hp.malloc 3 psample_root 12288 8180 hgrow = Fail AssertFailed.
Proof.
  destruct hgrow_ok as (H1 & H2 & H3 & H4). destruct H2 as [Hok Hrep _ _ _ _ _ _].
  apply (malloc_last_bytes_panics psample_root hgrow 3 [mkBlk 12288 4064 true] 8180 20);
    [exact H1|exact Hok|exact Hrep|done|simpl; lia|exact H3|by vm_compute|lia|by vm_compute
    |exact hgrow_spare_run|change (4 * 2 <= avail hgrow); lia].
Defined.
