(* ===== verification/HeapClient.v ===== *)
(** * HeapClient: clients of the kernel heap, growth included

    The heap of the kernel lies in frames that it takes from the frame allocator and
    maps through the page tables.  This file puts the three together: sequences of
    [malloc], [free] and writes of clients, in which a [malloc] may be served by a
    free block or by new frames. *)
From S2P Require Import Prelude Memory Libc Printf Bitmap MMap PMem Paging PagingInit PagingProps Heap HeapSpec HeapInv HeapGrow HeapProps.

(** ** The list of blocks after a growth *)

(** The block before which a new one is linked lies below it. *)
Lemma a_close_next l addr : forall x c y, a_close l addr = (x, c :: y) -> b_addr c < addr.
Proof.
  induction l as [|b l IH]; intros x c y E; simpl in E; [done|]. destruct l as [|d l]; [done|].
  destruct (_ && _) eqn:Hlt.
  - simplify_eq. lia.
  - destruct (a_close (d :: l) addr) as [x' y'] eqn:Ec. simplify_eq. by eapply IH.
Qed.

(** So the blocks stay coalesced, although the new one is not merged with its neighbours. *)
Lemma grown_coalesced l addr x y bytes n :
  coalesced l -> a_close l addr = (x, y) -> l = x ++ y -> 0 <= n <= bytes ->
  coalesced (x ++ a_take (mkBlk addr bytes true) n ++ y).
Proof.
  unfold coalesced. intros Hc Ec -> Hn. apply coalesced_app in Hc as [H1 H2].
  assert (Hy : forall b, addr <= b_end b -> coalesced_after (Some b) y).
  { intros b Hb. destruct y as [|c y]; [done|]. apply a_close_next in Ec. destruct H2 as [_ H2].
    split; [|done]. unfold contiguous. intros (_ & _ & E). unfold contiguous in E. lia. }
  apply coalesced_app. split; [done|]. unfold a_take.
  destruct (decide _); simpl; (split; [destruct (last_blk None x); [by intros (_ & ? & _)|done]|]).
  - apply Hy. unfold b_end, HDR. simpl in *. lia.
  - split; [by intros (? & _)|]. apply Hy. unfold b_end, HDR. simpl in *. lia.
Qed.

(** ** The heap and the kernel under it *)
Section Client.
Context {C : Type} `{ConsoleI C} (fuel : nat) (root blocks : Z).
Implicit Types (s : kst C) (live : list (Z * Z)) (l : list blk).

(** The invariant: the list of blocks with the regions that clients hold, in bytes that are
    mapped to themselves and belong to neither the allocator nor the page tables. *)
Record kheap l live s : Prop := {
  kh_inv : heap_inv blocks (span l) l live s;
  kh_paging : paging_ok root s;
  kh_private : heap_private root l s;
  kh_mapped : forall b a, b ∈ l -> in_blk b a -> translate (k_mem s) root a = Some a
}.

(** A call that returns, on the heap as it is, or one for which it grows.  A growing request
    is a step only where no free block is large enough, a run of the frames it asks for ends below
    the horizon (the frames of the unlocked bitmap), and four free frames per page, for the
    block and its page tables, are left below it.  The code does not check this: a growing call
    in another state may also return, with a run that the end of memory cuts off
    ([request_frames_short]) or with the frame of the bitmap ([bitmap_frame_allocated_twice]), and
    such a call is no step. *)
Inductive kclient_step : heap_op -> list (Z * Z) * kst C -> list (Z * Z) * kst C -> Prop :=
| kstep_served o x y : client_step fuel root blocks o x y -> kclient_step o x y
| kstep_grown live s n b0 r s' :
    Hp._find_free_block fuel blocks n s = Done (0, s) ->
    spare_run s b0 (n / 4096 + 1) -> 4 * (n / 4096 + 1) <= avail s ->
    Hp.malloc fuel root blocks n s = Done (r, s') ->
    kclient_step (OpMalloc n r) (live, s) ((r, n) :: live, s').

Inductive kclient_run : list heap_op -> list (Z * Z) * kst C -> list (Z * Z) * kst C -> Prop :=
| krun_nil x : kclient_run [] x x
| krun_snoc os o x y z : kclient_run os x y -> kclient_step o y z -> kclient_run (os ++ [o]) x z.

Lemma kheap_bound l live s : kheap l live s -> span l <= 4096 * frames (k_pmem s).
Proof.
  intros [Hi Hpg Hpr _]. pose proof (hi_ok _ _ _ _ _ Hi) as Hok. pose proof (ok_frames _ (pg_pmem _ _ Hpg)).
  apply span_bound; [done|lia|]. intros b Hb. destruct (blocks_ok_elem _ _ Hok Hb) as (? & ? & _).
  destruct (Hpr b (b_end b - 1) Hb) as [Hr _]; [unfold in_blk, b_end, HDR in *; lia|]. zdm.
Qed.

Lemma kheap_fuel l live s : kheap l live s -> 4096 * frames (k_pmem s) < 33 * Z.of_nat fuel -> (length l < fuel)%nat.
Proof.
  intros Hk Hf. pose proof (kheap_bound _ _ _ Hk). destruct Hk as [Hi _ _ _].
  pose proof (span_length l (proj1 (hi_ok _ _ _ _ _ Hi))). lia.
Qed.

(** What a step leaves to others: bytes that are reserved and outside the heap keep their
    values, and are reserved and outside the heap afterwards. *)
Definition outside_kept l l' s s' : Prop :=
  forall a, reserved root s a -> (forall b, b ∈ l -> ~ in_blk b a) ->
    mget (k_mem s') a = mget (k_mem s) a /\ reserved root s' a /\ (forall b, b ∈ l' -> ~ in_blk b a).

(** What it prints: nothing, or the line of [request_frames] when the heap grows. *)
Definition says (o : heap_op) s s' : Prop :=
  k_con s' = k_con s \/
  exists n st, o = OpMalloc n (st * 4096 + HDR) /\ k_con s' = console_print (run_line st (n / 4096 + 1)) (k_con s).

(** A step that writes headers only. *)
Lemma kheap_step l l' live live' s s' :
  kheap l live s -> heap_inv blocks (span l) l' live' s' -> heap_step l l' s s' -> inside l l' ->
  (kheap l' live' s' /\ outside_kept l l' s s') /\ frames (k_pmem s') = frames (k_pmem s) /\ k_con s' = k_con s.
Proof.
  intros [Hi Hpg Hpr Hm] Hi' Hs Hin.
  destruct (heap_step_paging root s s' l l' Hpg Hpr (inside_private root s l l' Hpr Hin) (hi_ok _ _ _ _ _ Hi) Hs)
    as [Hk Hpr']. split; [|split; [apply Hk|apply Hs]]. split; [split; [|by eapply keep_ok|done|]|].
  - by rewrite (hi_span _ _ _ _ _ Hi').
  - intros c a Hc Ha. rewrite (keep_translate root s s') by done. destruct (Hin c a Hc Ha) as (b & Hb & Hba).
    by apply (Hm b).
  - intros a Ha Hout. assert (Hout' : forall b, b ∈ l' -> ~ in_blk b a).
    { intros c Hc Hca. destruct (Hin c a Hc Hca) as (b & Hb & Hba). by apply (Hout b). }
    split_and!; [|by eapply keep_reserved|done]. apply (hs_frame _ _ _ _ Hs). intros c [Hc|Hc] Hh.
    + apply (Hout c Hc), hdr_in_blk; [|done]. apply (blocks_ok_elem l); [apply Hi|done].
    + apply (Hout' c Hc), hdr_in_blk; [|done]. apply (blocks_ok_elem l'); [apply Hi'|done].
Qed.

Lemma kheap_write l live s p n a v :
  kheap l live s -> (p, n) ∈ live -> p <= a < p + n ->
  let s' := mkK (write8 (k_mem s) a v) (k_pmem s) (k_con s) in
  kheap l live s' /\ outside_kept l l s s'.
Proof.
  intros [Hi Hpg Hpr Hm] Hp Ha s'.
  destruct (inv_block _ _ _ _ _ _ _ Hi Hp) as (b & Hb & _ & -> & Hn).
  destruct (private_write root s s' Hpg eq_refl) as [Hk _].
  { intros x Hx. simpl. apply mget_write8_out. intros ->. apply Hx, (Hpr b); [done|]. unfold in_blk, b_end, HDR in *. lia. }
  split; [split; [by eapply step_write_inv|by eapply keep_ok| |]|].
  - intros c x Hc Hx. by eapply keep_private, Hpr.
  - intros c x Hc Hx. rewrite (keep_translate root s s') by done. by apply (Hm c).
  - intros x Hx Hout. split_and!; [|by eapply keep_reserved|done]. simpl. apply mget_write8_out. intros ->.
    apply (Hout b Hb). unfold in_blk, b_end, HDR in *. lia.
Qed.

(** Only the bytes of the blocks and those that are not reserved matter. *)
Lemma kheap_agree l live s s' :
  kheap l live s -> k_pmem s' = k_pmem s -> (forall a, ~ reserved root s a -> mget (k_mem s') a = mget (k_mem s) a) ->
  (forall b a, b ∈ l -> in_blk b a -> mget (k_mem s') a = mget (k_mem s) a) ->
  kheap l live s' /\ (forall a, reserved root s a -> reserved root s' a).
Proof.
  intros [Hi Hpg Hpr Hm] Hp Hres Hblk. destruct (reserved_write root s s' Hpg Hp Hres) as [Hk _].
  split; [|intros a; by apply keep_reserved]. split; [|by eapply keep_ok| |].
  - destruct Hi as [H1 H2 H3 H4 H5 H6 H7 H8]. split; try done. eapply rep_agree; [|exact H2].
    intros c Hc a Ha. symmetry. apply (Hblk c a Hc), hdr_in_blk; [by apply (blocks_ok_elem l)|done].
  - intros b a Hb Ha. by eapply keep_private, Hpr.
  - intros b a Hb Ha. rewrite (keep_translate root s s') by done. by apply (Hm b).
Qed.

(** A request for which the heap grows. *)
Lemma kheap_grown l live s n b0 :
  kheap l live s -> (length l < fuel)%nat -> a_find l n = None -> 4096 <= n <= (n / 4096 + 1) * 4096 - 32 ->
  spare_run s b0 (n / 4096 + 1) -> 4 * (n / 4096 + 1) <= avail s ->
  runs (Hp.malloc fuel root blocks n) s (fun r s' =>
    (exists l', kheap l' ((r, n) :: live) s' /\ outside_kept l l' s s') /\ regions_kept live ((r, n) :: live) s s' /\
    frames (k_pmem s') = frames (k_pmem s) /\ says (OpMalloc n r) s s').
Proof.
  intros [Hi Hpg Hpr Hm] Hf Hnone Hn Hrun Hav. pose proof Hi as [Hok Hrep Hhd Hne Hco Hsp Hlv Hsz].
  destruct (malloc_grown_run root s fuel l n b0 Hpg Hok Hrep Hne Hf Hpr Hnone Hn Hrun Hav)
    as (st & x & y & Hst & _ & El & Hx & Hcl & Hr). set (pages := n / 4096 + 1) in *.
  rewrite Hhd in Hr. eapply runs_mono; [exact Hr|]. intros r s' [-> R O P Pr D I T F Kp U Cn].
  set (nb := mkBlk (st * 4096) (pages * 4096 - 32) true) in *. set (l' := x ++ a_take nb n ++ y) in *.
  assert (Hold : forall p k, (p, k) ∈ live -> exists b, b ∈ l /\ b ∈ l' /\ b_addr b + HDR = p /\ 0 < k <= b_bytes b).
  { intros p k Hp. destruct (inv_block _ _ _ _ _ _ _ Hi Hp) as (b & Hb & _ & -> & ?). exists b.
    split_and!; [done| |done|lia|lia]. unfold l'. rewrite El, elem_of_app in Hb. rewrite !elem_of_app. tauto. }
  assert (Hnew : forall b a, b ∈ l' -> in_blk b a -> b ∈ l \/ st * 4096 <= a < (st + pages) * 4096).
  { intros b a Hb Ha. unfold l' in Hb. rewrite !elem_of_app in Hb. rewrite El, elem_of_app.
    destruct Hb as [?|[Hb|?]]; [tauto| |tauto]. right.
    pose proof (a_take_inside nb n b a ltac:(simpl; lia) Hb Ha) as Hin. unfold in_blk, b_end, HDR in Hin. simpl in Hin. lia. }
  split_and!; [|intros p k a Hp _ Ha|done|].
  - exists l'. split; [split; [|done|done|]|].
    + split; try done.
      * rewrite <- Hhd, El. unfold l'. by destruct x.
      * unfold l'. by destruct x.
      * eapply grown_coalesced; [exact Hco|exact Hcl|exact El|lia].
      * unfold l'. rewrite fmap_cons, Hlv, El, !ptrs_app, a_take_ptrs. simpl. by rewrite Permutation_middle.
      * intros p k b Hp Hb Hbp. apply elem_of_cons in Hp as [Hp|Hp].
        -- simplify_eq. assert (Hc : exists c, c ∈ l' /\ b_addr c = st * 4096 /\ n <= b_bytes c).
           { unfold l', a_take. case_decide; eexists; (split; [rewrite !elem_of_app, !elem_of_cons; right; left; by left|]);
               simpl in *; lia. }
           destruct Hc as (c & Hc & Hca & Hcn). rewrite (blocks_ok_addr l' b c O Hb Hc) by lia. lia.
        -- destruct (Hold p k Hp) as (c & _ & Hc & <- & Hk). by rewrite (blocks_ok_addr l' b c O Hb Hc) by lia.
    + intros b a Hb Ha. assert (Ha' : 0 <= a < 2 ^ 48).
      { destruct (Pr b a Hb Ha) as [Hra _]. pose proof (pg_low _ _ P). zdm. }
      destruct (decide (st * 4096 <= a < (st + pages) * 4096)) as [Hin|Hout]; [by apply I|].
      rewrite (T a Ha'), decide_False by zdm. destruct (Hnew b a Hb Ha) as [Hb'|]; [by apply (Hm b)|done].
    + intros a Ha Hout. split_and!; [by apply U| |].
      * destruct Ha as [Ha|Ha]; [left; by apply Kp|right; by rewrite F].
      * intros b Hb Hba. destruct (Hnew b a Hb Hba) as [Hb'|Hin]; [by apply (Hout b)|].
        destruct Hst as (_ & ? & ? & Hfree). destruct Ha as [(_ & Hl & _)|Hh]; [|zdm]. rewrite Hfree in Hl; [done|zdm].
  - destruct (Hold p k Hp) as (b & Hb & _ & <- & Hk). apply (D b); [done|]. unfold in_data, b_end. lia.
  - right. by exists n, st.
Qed.

Lemma kclient_step_inv l o live s live' s' :
  4096 * frames (k_pmem s) < 33 * Z.of_nat fuel -> kheap l live s -> kclient_step o (live, s) (live', s') ->
  (exists l', kheap l' live' s' /\ outside_kept l l' s s') /\ frames (k_pmem s') = frames (k_pmem s) /\ says o s s' /\
  match o with OpWrite a _ => forall x, x <> a -> mget (k_mem s') x = mget (k_mem s) x
  | _ => regions_kept live live' s s' end.
Proof.
  intros Hfuel Hk Hstep. pose proof (kheap_fuel _ _ _ Hk Hfuel) as Hlen. pose proof (kheap_bound _ _ _ Hk) as Hbd.
  pose proof (kh_inv _ _ _ Hk) as Hi.
  inversion Hstep as [? ? ? Hc|? ? n b0 r ? Hfind Hrun Hav Hm]; subst.
  - inversion Hc as [? ? n b r ? Hf Hb Hm|live1 live2 ? p n ? Hf|? ? p n a v Hp Ha]; subst.
    + destruct (step_malloc_inv fuel root blocks (span l) ltac:(lia) l live s n b r s' Hi Hf Hb Hm)
        as (l' & Hi' & Hkeep & Hs & Hin).
      destruct (kheap_step l l' live _ s s' Hk Hi' Hs Hin) as ([? ?] & ? & ?). split_and!; [eauto|done|by left|done].
    + destruct (step_free_inv fuel blocks (span l) l live1 live2 s p n s' Hi Hf) as (l' & Hi' & Hkeep & Hs & Hin).
      destruct (kheap_step l l' _ _ s s' Hk Hi' Hs Hin) as ([? ?] & ? & ?). split_and!; [eauto|done|by left|done].
    + destruct (kheap_write l live' s p n a v Hk Hp Ha) as [Hk' Hout].
      split_and!; [by exists l|done|by left|]. intros x Hx. simpl. by apply mget_write8_out.
  - destruct Hi as [Hok Hrep Hhd Hne Hco Hsp Hlv Hsz]. destruct Hk as [Hi Hpg Hpr Hmp].
    rewrite <- Hhd, find_free_block_spec in Hfind by (done || lia).
    assert (Hnone : a_find l n = None).
    { destruct (a_find l n) as [[i b]|] eqn:Ea; [|done]. exfalso. apply a_find_split in Ea as (l1 & l2 & -> & _).
      destruct (blocks_ok_middle _ _ _ Hok) as ((? & _) & _). simplify_eq. lia. }
    rewrite <- Hhd in Hm.
    assert (Hn : 4096 <= n <= (n / 4096 + 1) * 4096 - 32).
    { destruct (decide (0 < n)).
      2: { unfold Hp.malloc in Hm. rewrite (proj2 (Z.ltb_ge 0 n)) in Hm by lia. by erewrite bind_fail in Hm by done. }
      destruct (decide (n < 4096)).
      { rewrite (malloc_small_fails root s fuel l n) in Hm by (done || lia || apply Hpg). done. }
      split; [lia|]. destruct (decide (n <= (n / 4096 + 1) * 4096 - 32)) as [|Hlast]; [done|].
      rewrite (malloc_last_bytes_panics root s fuel l n b0) in Hm by (done || lia). done. }
    destruct (kheap_grown l live s n b0) as (r1 & s1 & E & Hl & Hkeep & Hfr & Hsay); try done.
    rewrite <- Hhd, Hm in E. apply done_inj in E as [<- <-]. done.
Qed.

(** Every run keeps the invariant. *)
Lemma kclient_run_inv os live0 s0 live s :
  4096 * frames (k_pmem s0) < 33 * Z.of_nat fuel -> (exists l, kheap l live0 s0) ->
  kclient_run os (live0, s0) (live, s) ->
  (exists l, kheap l live s) /\ frames (k_pmem s) = frames (k_pmem s0).
Proof.
  intros Hfuel H0 Hrun. remember (live0, s0) as x eqn:Ex. remember (live, s) as z eqn:Ez.
  revert live s Ez. induction Hrun as [|os o x y z Hrun IH Hstep]; intros live s ->; simplify_eq; [done|].
  destruct y as [live1 s1]. destruct (IH eq_refl _ _ eq_refl) as [[l Hl] E].
  destruct (kclient_step_inv l o live1 s1 live s) as ((l' & Hl' & _) & E' & _); [lia|done|done|].
  split; [eauto|congruence].
Qed.

End Client.

(** The heap that [Heap::Heap] makes. *)
Lemma construct_kheap {C} `{ConsoleI C} root (s : kst C) b s' :
  paging_ok root s -> 4 <= avail s -> Hp.construct root s = Done (b, s') -> kheap root b [mkBlk b 4064 true] [] s'.
Proof.
  intros Hpg Hav E. destruct (heap_construct_spec root s Hpg Hav) as (b1 & s1 & E1 & H1 & H2 & H3 & _ & _ & _ & H4 & _).
  rewrite E in E1. apply done_inj in E1 as [<- <-]. split; [exact H2|done|done|].
  intros c a ->%list_elem_of_singleton Ha. apply H4. unfold in_blk, b_end, HDR in Ha. simpl in Ha. lia.
Qed.

(** C1: what the heap of the kernel promises to its clients, growth included, as long as frames
    are left below the bitmap.  From a heap in its invariant, take any sequence of steps, each a
    call that returns: a [malloc] that a free block serves; a [malloc] that grows the heap, in a
    state where a run of the [n / 4096 + 1] free frames it needs ends below the frames of the bitmap
    and four free frames per page are left below them; a [free] of a held pointer; a write inside a
    held region.  (Growth in other states is not covered, and can break what follows: the
    run may be cut off by the end of memory, pmem.cpp line 162, or contain the bitmap.)  Afterwards the regions held
    are pairwise disjoint and each lies inside the data of a block in use of a well-formed and
    coalesced list; every byte of them is mapped to itself and lies in a locked frame outside
    the frame bitmap and outside every page table, so that neither the heap nor the allocator nor
    paging can change it.  [fuel] bounds the walks over the list: as the blocks do not
    overlap, the memory has room for fewer than [4096 * frames / 33] of them. *)
Theorem kernel_heap_client_safe {C} `{ConsoleI C} (fuel : nat) (root blocks : Z) os live0 (s0 : kst C) live (s : kst C) :
  4096 * frames (k_pmem s0) < 33 * Z.of_nat fuel -> (exists l, kheap root blocks l live0 s0) ->
  kclient_run fuel root blocks os (live0, s0) (live, s) ->
  (exists l, kheap root blocks l live s /\
     forall p n, (p, n) ∈ live -> exists b, b ∈ l /\ b_free b = false /\ p = b_addr b + HDR /\ 0 < n <= b_bytes b) /\
  (forall i j p n q k, live !! i = Some (p, n) -> live !! j = Some (q, k) -> i <> j -> p + n <= q \/ q + k <= p) /\
  (forall p n a, (p, n) ∈ live -> p <= a < p + n -> translate (k_mem s) root a = Some a /\ private root s a).
Proof.
  intros Hfuel H0 Hrun. destruct (kclient_run_inv fuel root blocks os live0 s0 live s Hfuel H0 Hrun) as [[l Hl] _].
  pose proof Hl as [Hi Hpg Hpr Hm]. split_and!.
  - exists l. split; [done|]. intros p n. by eapply inv_block.
  - intros i j p n q k. by eapply live_disjoint.
  - intros p n a Hp Ha. destruct (inv_block _ _ _ _ _ _ _ Hi Hp) as (b & Hb & _ & -> & Hn).
    assert (in_blk b a) by (unfold in_blk, b_end, HDR in *; lia). split; [by apply (Hm b)|by apply (Hpr b)].
Qed.

(** C17: no step of a client changes the data of another: a [malloc] that returns and that a free
    block serves, a [malloc] that grows the heap in a state where a run of the free frames it needs
    ends below the frames of the bitmap and four free frames per page are left below them, and a
    [free] of a held pointer change no byte of a region that stays held; a write changes
    no byte but the one it is for.  Growth without those frames is not covered. *)
Theorem kernel_heap_keeps_data {C} `{ConsoleI C} (fuel : nat) (root blocks : Z) l o live (s : kst C) live' s' :
  4096 * frames (k_pmem s) < 33 * Z.of_nat fuel -> kheap root blocks l live s ->
  kclient_step fuel root blocks o (live, s) (live', s') ->
  match o with
  | OpWrite a v => forall x, x <> a -> mget (k_mem s') x = mget (k_mem s) x
  | _ => forall p n a, (p, n) ∈ live -> (p, n) ∈ live' -> p <= a < p + n -> mget (k_mem s') a = mget (k_mem s) a
  end.
Proof. intros Hf Hk Hstep. by destruct (kclient_step_inv fuel root blocks l o live s live' s' Hf Hk Hstep) as (_ & _ & _ & ?). Qed.

(** A request that grows the sample heap, one that a free block serves, a write, and the
    release of the first. *)
Definition kfuel : nat := Z.to_nat 8000.
Definition state_after {A} (o : outcome (A * kst (list console_event))) : kst (list console_event) :=
  match o with Done (_, s) => s | Fail _ => hgrow end.
Definition kptr1 : Z := match Hp.malloc kfuel psample_root 12288 5000 hgrow with Done (r, _) => r | Fail _ => 0 end.
Definition kstate1 : kst (list console_event) := state_after (Hp.malloc kfuel psample_root 12288 5000 hgrow).
Definition kstate2 : kst (list console_event) := state_after (Hp.malloc kfuel psample_root 12288 100 kstate1).
Definition kstate3 : kst (list console_event) :=
  mkK (write8 (k_mem kstate2) (kptr1 + 4999) 7) (k_pmem kstate2) (k_con kstate2).
Definition kstate4 : kst (list console_event) := state_after (Hp.free 12320 kstate3).

Lemma hgrow_kheap : kheap psample_root 12288 [mkBlk 12288 4064 true] [] hgrow.
Proof.
  apply (construct_kheap psample_root psample0 12288 hgrow);
    [apply psample0_ok|rewrite (proj2 psample0_ok); lia|apply hgrow_run].
Qed.

Lemma kgrow_step : kclient_step kfuel psample_root 12288 (OpMalloc 5000 kptr1) ([], hgrow) ([(kptr1, 5000)], kstate1).
Proof.
  destruct hgrow_ok as (_ & _ & _ & Hav).
  apply (kstep_grown _ _ _ _ _ _ 20); [by vm_compute|exact hgrow_spare_run|change (4 * 2 <= avail hgrow); lia|].
  by vm_compute.
Qed.

Definition kops : list heap_op := [OpMalloc 5000 kptr1; OpMalloc 100 12320; OpWrite (kptr1 + 4999) 7].

Lemma kops_run : kclient_run kfuel psample_root 12288 kops ([], hgrow) ([(12320, 100); (kptr1, 5000)], kstate3).
Proof.
  eapply (krun_snoc _ _ _ [OpMalloc 5000 kptr1; OpMalloc 100 12320] _ _ ([(12320, 100); (kptr1, 5000)], kstate2)).
  - eapply (krun_snoc _ _ _ [OpMalloc 5000 kptr1] _ _ ([(kptr1, 5000)], kstate1)).
    + eapply (krun_snoc _ _ _ [] _ _ ([], hgrow)); [apply krun_nil|apply kgrow_step].
    + apply kstep_served. eapply (step_malloc _ _ _ _ _ _ 12288); by vm_compute.
  - apply kstep_served. apply (step_write _ _ _ _ _ kptr1 5000); [right; by left|lia].
Qed.

Lemma kfree_step :
  kclient_step kfuel psample_root 12288 (OpFree 12320) ([(12320, 100); (kptr1, 5000)], kstate3) ([(kptr1, 5000)], kstate4).
Proof. apply kstep_served. eapply (step_free _ _ _ [] [(kptr1, 5000)] _ 12320 100). by vm_compute. Qed.

Lemma kernel_heap_client_safe_witness :
  kclient_run kfuel psample_root 12288 (kops ++ [OpFree 12320]) ([], hgrow) ([(kptr1, 5000)], kstate4) /\
  translate (k_mem kstate4) psample_root (kptr1 + 4999) = Some (kptr1 + 4999).
Proof.
  pose proof (krun_snoc _ _ _ _ _ _ _ _ kops_run kfree_step) as Hrun. split; [exact Hrun|].
  destruct (kernel_heap_client_safe kfuel psample_root 12288 (kops ++ [OpFree 12320]) [] hgrow [(kptr1, 5000)] kstate4)
    as (_ & _ & Hb); [by vm_compute|by exists [mkBlk 12288 4064 true]; apply hgrow_kheap|exact Hrun|].
  apply (Hb kptr1 5000); [by left|lia].
Defined.

Lemma kernel_heap_keeps_data_witness : mget (k_mem kstate4) (kptr1 + 4999) = 7.
Proof.
  destruct (kclient_run_inv kfuel psample_root 12288 kops [] hgrow _ kstate3 ltac:(by vm_compute)
    (ex_intro _ _ hgrow_kheap) kops_run) as [[l Hl] Hfr].
  transitivity (mget (k_mem kstate3) (kptr1 + 4999)); [|by vm_compute].
  apply (kernel_heap_keeps_data kfuel psample_root 12288 l (OpFree 12320) [(12320, 100); (kptr1, 5000)] kstate3
    [(kptr1, 5000)] kstate4 ltac:(rewrite Hfr; by vm_compute) Hl kfree_step kptr1 5000);
    [right; by left|by left|lia].
Defined.
