(* ===== verification/Framebuffer.v ===== *)
(** * Framebuffer: pixels in memory, framebuffer/framebuffer.cpp

    The object keeps the addresses and the geometry; the pixels are bytes of the
    video memory.  A pixel is written as 64 bits, whatever its size. *)
From S2P Require Import Prelude Memory.

(** framebuffer/colors.hpp. *)
Definition rgb_to_int (red green blue : Z) : Z :=
  u64 (u64 (blue + Z.shiftl green 8) + Z.shiftl red 16).
Definition BLACK : Z := rgb_to_int 0 0 0.
Definition WHITE : Z := rgb_to_int 255 255 255.
Definition RED : Z := rgb_to_int 255 0 0.
Definition GREEN : Z := rgb_to_int 0 255 0.
Definition BLUE : Z := rgb_to_int 0 0 255.

Record FramebufferData : Type := mkFbData {
  fd_base_addr : Z;
  fd_double_buffer : Z;
  fd_b_size : Z;
  fd_width : Z;
  fd_height : Z;
  fd_px_per_scan : Z;
  fd_b_per_px : Z
}.

Record Glyph : Type := mkGlyph {
  g_bitmap : Z;   (** address of the bitmap *)
  g_x_off : Z;
  g_y_off : Z;
  g_height : Z;
  g_width : Z;
  g_fg_color : Z;
  g_bg_color : Z
}.

Record Framebuffer : Type := mkFb {
  fb_b_size : Z;
  fb_width : Z;
  fb_height : Z;
  fb_px_per_scan : Z;
  fb_b_per_px : Z;
  fb_addr : Z;          (** [__fb_addr] *)
  fb_double_addr : Z    (** [__double_fb_addr] *)
}.

Module Fb.

(** [Framebuffer::Framebuffer]. *)
Definition make (data : FramebufferData) : outcome Framebuffer :=
  if fd_base_addr data =? 0 then Fail AssertFailed
  else Done (mkFb (fd_b_size data) (fd_width data) (fd_height data) (fd_px_per_scan data)
                  (fd_b_per_px data) (fd_base_addr data) (fd_double_buffer data)).

(** The offsets are computed in 32 bits, the address in 64. *)
Definition get_pixel_addr (fb : Framebuffer) (x y : Z) : Z :=
  u64 (fb_double_addr fb + u32 (u32 (y * fb_px_per_scan fb) * fb_b_per_px fb) + u32 (x * fb_b_per_px fb)).

Definition set_pixel (fb : Framebuffer) (x y color : Z) (m : mem) : mem :=
  write64 m (get_pixel_addr fb x y) color.

Definition set_all_pixels (fb : Framebuffer) (color : Z) (m : mem) : mem :=
  iterate (Z.to_nat (fb_width fb)) 0 (fun x =>
    iterate (Z.to_nat (fb_height fb)) 0 (fun y => set_pixel fb x y color)) m.

(** One pixel of [print_glyph]; [bitmap] is the value of the pointer in row [y]. *)
Definition glyph_color (g : Glyph) (x byte : Z) : Z :=
  if 0 <? Z.land byte (Z.shiftr (Z.shiftl 1 7) x) then g_fg_color g else g_bg_color g.
Definition print_glyph (fb : Framebuffer) (g : Glyph) (m : mem) : mem :=
  iterate (Z.to_nat (g_height g)) 0 (fun y =>
    iterate (Z.to_nat (g_width g)) 0 (fun x m =>
      set_pixel fb (u32 (g_x_off g + x)) (u32 (g_y_off g + y))
        (glyph_color g x (mget m (g_bitmap g + y))) m)) m.

Definition get_fb_addr (fb : Framebuffer) : Z := fb_addr fb.
Definition get_double_fb_addr (fb : Framebuffer) : Z := fb_double_addr fb.

Definition draw (fb : Framebuffer) (m : mem) : mem :=
  memcpy m (fb_addr fb) (fb_double_addr fb) (fb_b_size fb).

End Fb.

(** ** The geometry the kernel runs on *)

(** 32-bit pixels, the whole screen inside the buffer, no 32-bit overflow. *)
Record fb_ok (fb : Framebuffer) : Prop := {
  fbo_bpp : fb_b_per_px fb = 4;
  fbo_width : 0 < fb_width fb <= fb_px_per_scan fb;
  fbo_height : 0 < fb_height fb;
  fbo_scan : fb_px_per_scan fb < 65536 /\ fb_height fb < 65536;
  fbo_size : fb_b_size fb = 4 * fb_px_per_scan fb * fb_height fb;
  fbo_small : fb_b_size fb < 2 ^ 32;
  fbo_addr : 0 <= fb_double_addr fb /\ fb_double_addr fb + fb_b_size fb + 4 < 2 ^ 64
}.

Section Pixels.
Context (fb : Framebuffer) (Hfb : fb_ok fb).
Implicit Types m : mem.

(** The index and the address of a pixel. *)
Definition px_index (x y : Z) : Z := y * fb_px_per_scan fb + x.
Definition px_addr (x y : Z) : Z := fb_double_addr fb + 4 * px_index x y.
Definition on_screen (x y : Z) : Prop := 0 <= x < fb_width fb /\ 0 <= y < fb_height fb.
Definition pixel m (x y : Z) : Z := read32 m (px_addr x y).

Lemma px_index_bound x y : on_screen x y -> 0 <= px_index x y /\ 4 * px_index x y + 4 <= fb_b_size fb.
Proof. intros [Hx Hy]. pose proof Hfb as [_ Hw _ _ Hs _ _]. unfold px_index. split; nia. Qed.

Lemma get_pixel_addr_spec x y : on_screen x y -> Fb.get_pixel_addr fb x y = px_addr x y.
Proof.
  intros Hxy. pose proof (px_index_bound x y Hxy) as [H0 H1]. destruct Hxy as [Hx Hy].
  pose proof Hfb as [Hb Hw Hh Hsc Hs Hsm Ha]. unfold Fb.get_pixel_addr, px_addr, px_index in *. rewrite Hb.
  assert (0 <= y * fb_px_per_scan fb) by nia.
  set (p := y * fb_px_per_scan fb) in *. rewrite (u32_small p), (u32_small (p * 4)), (u32_small (x * 4)) by lia.
  rewrite u64_small by lia. lia.
Qed.

Lemma px_index_inj x y x' y' : on_screen x y -> on_screen x' y' -> px_index x y = px_index x' y' -> x = x' /\ y = y'.
Proof.
  intros [Hx Hy] [Hx' Hy']. pose proof (fbo_width _ Hfb). unfold px_index. intros E.
  destruct (Z.lt_trichotomy y y') as [Hlt|[->|Hlt]]; [exfalso|lia|exfalso].
  - assert ((y + 1) * fb_px_per_scan fb <= y' * fb_px_per_scan fb) by (apply Z.mul_le_mono_nonneg_r; lia). lia.
  - assert ((y' + 1) * fb_px_per_scan fb <= y * fb_px_per_scan fb) by (apply Z.mul_le_mono_nonneg_r; lia). lia.
Qed.

(** The 32-bit halves of a 64-bit store. *)
Lemma read32_write64_lo m p v : read32 (write64 m p v) p = v mod 2 ^ 32.
Proof.
  unfold read32, write64. change 8%nat with (4 + 4)%nat.
  assert (E : forall n, load 4 (store (4 + n) m p v) p = v mod 256 ^ 4).
  { intros n. assert (G : forall k m p v, load k (store (k + n) m p v) p = v mod 256 ^ Z.of_nat k).
    { clear. induction k as [|k IH]; intros m p v; simpl load; simpl store.
      - by rewrite Z.pow_0_r, Z.mod_1_r.
      - rewrite mget_store_out by lia. rewrite mget_mput, decide_True by done. rewrite IH.
        rewrite Nat2Z.inj_succ, Z.pow_succ_r by lia. rewrite Z.rem_mul_r by lia. done. }
    apply (G 4%nat). }
  rewrite E. done.
Qed.

Lemma read32_write64_hi m p v : read32 (write64 m p v) (p + 4) = (v / 2 ^ 32) mod 2 ^ 32.
Proof.
  unfold read32, write64.
  assert (E : store 8 m p v = store 4 (store 4 m p v) (p + 4) (v / 2 ^ 32)).
  { cbn [store]. rewrite !Z.div_div by lia.
    replace (p + 1 + 1 + 1 + 1) with (p + 4) by lia. repeat f_equal. }
  rewrite E, load_store_same. done.
Qed.

Lemma read32_write64_out m p q v : q + 4 <= p \/ p + 8 <= q -> read32 (write64 m p v) q = read32 m q.
Proof. intros. unfold read32, write64. apply load_store_out. lia. Qed.

(** [set_pixel] sets a pixel, and the upper half of the colour goes to the next
    pixel in memory. *)
Lemma set_pixel_pixel m x y x' y' color :
  on_screen x y -> on_screen x' y' ->
  pixel (Fb.set_pixel fb x y color m) x' y' =
    if decide (px_index x' y' = px_index x y) then color mod 2 ^ 32
    else if decide (px_index x' y' = px_index x y + 1) then (color / 2 ^ 32) mod 2 ^ 32
    else pixel m x' y'.
Proof.
  intros H1 H2. unfold Fb.set_pixel, pixel. rewrite get_pixel_addr_spec by done. unfold px_addr.
  case_decide as E1; [rewrite E1; apply read32_write64_lo|]. case_decide as E2.
  - rewrite E2. replace (fb_double_addr fb + 4 * (px_index x y + 1)) with (fb_double_addr fb + 4 * px_index x y + 4) by lia.
    apply read32_write64_hi.
  - apply read32_write64_out. lia.
Qed.

(** It writes inside the buffer and the four bytes after it. *)
Lemma set_pixel_out m x y color a :
  on_screen x y -> ~ (fb_double_addr fb <= a < fb_double_addr fb + fb_b_size fb + 4) ->
  mget (Fb.set_pixel fb x y color m) a = mget m a.
Proof.
  intros H1 Ha. pose proof (px_index_bound x y H1). unfold Fb.set_pixel.
  rewrite get_pixel_addr_spec by done. apply mget_write64_out. unfold px_addr. lia.
Qed.

(** ** Loops over pixels *)

(** Rows before [y], and the row of [y] up to [x], come first in memory. *)
Lemma px_index_lt x y x' y' :
  0 <= x' < fb_width fb -> 0 <= x -> (y' < y \/ y' = y /\ x' < x) -> px_index x' y' < px_index x y.
Proof.
  intros Hx' Hx Hlt. pose proof (fbo_width _ Hfb). unfold px_index. destruct Hlt as [Hlt|[-> ?]]; [|lia].
  assert ((y' + 1) * fb_px_per_scan fb <= y * fb_px_per_scan fb) by (apply Z.mul_le_mono_nonneg_r; lia). lia.
Qed.

(** The pixel after the last of a row is the first of the next row, when the
    scan lines have no padding; otherwise it is not on the screen. *)
Lemma px_index_next x y x' y' :
  on_screen x y -> on_screen x' y' -> px_index x' y' = px_index x y + 1 ->
  (x' = x + 1 /\ y' = y) \/
  (fb_px_per_scan fb = fb_width fb /\ x = fb_width fb - 1 /\ x' = 0 /\ y' = y + 1).
Proof.
  intros [Hx Hy] [Hx' Hy'] E. pose proof (fbo_width _ Hfb) as Hw. unfold px_index in E.
  destruct (Z.lt_trichotomy y y') as [Hlt|[->|Hlt]]; [right|left; lia|exfalso].
  - assert (y' = y + 1) as ->.
    { assert (y' < y + 2); [|lia]. apply Z.nle_gt. intros Hge.
      assert ((y + 2) * fb_px_per_scan fb <= y' * fb_px_per_scan fb) by (apply Z.mul_le_mono_nonneg_r; lia). lia. }
    lia.
  - assert ((y' + 1) * fb_px_per_scan fb <= y * fb_px_per_scan fb) by (apply Z.mul_le_mono_nonneg_r; lia). lia.
Qed.

Definition lo32 (color : Z) : Z := color mod 2 ^ 32.
Definition hi32 (color : Z) : Z := (color / 2 ^ 32) mod 2 ^ 32.

(** The colour of a pixel of the columns up to [x], when [y] rows of the column
    [x] are done: the last column spills into the first one. *)
Definition spilled (x y x' y' : Z) : Prop :=
  fb_px_per_scan fb = fb_width fb /\ x = fb_width fb - 1 /\ x' = 0 /\ 0 < x /\ 1 <= y' <= y.
Global Instance spilled_dec x y x' y' : Decision (spilled x y x' y').
Proof. unfold spilled. apply _. Defined.
Definition filled (color x y x' y' : Z) : Z := if decide (spilled x y x' y') then hi32 color else lo32 color.

Lemma fill_step m color x y :
  on_screen x y ->
  (forall x' y', on_screen x' y' -> (x' < x \/ x' = x /\ y' < y) -> pixel m x' y' = filled color x y x' y') ->
  forall x' y', on_screen x' y' -> (x' < x \/ x' = x /\ y' < y + 1) ->
    pixel (Fb.set_pixel fb x y color m) x' y' = filled color x (y + 1) x' y'.
Proof.
  intros Hxy Hm x' y' Hxy' Hd. rewrite set_pixel_pixel by done. unfold filled, spilled in *.
  case_decide as E1.
  - apply px_index_inj in E1 as [-> ->]; [|done|done]. rewrite decide_False by lia. done.
  - case_decide as E2.
    + apply px_index_next in E2 as [[-> ->]|(Hp & -> & -> & ->)]; [lia| |done|done].
      destruct Hxy as [? ?]. rewrite decide_True; [done|]. split_and!; lia.
    + destruct Hxy' as [Hx' Hy'], Hxy as [Hx Hy]. assert (Hne : ~ (x' = x /\ y' = y)) by (by intros [-> ->]).
      assert (Hn0 : ~ (fb_px_per_scan fb = fb_width fb /\ x = fb_width fb - 1 /\ x' = 0 /\ y' = y + 1)).
      { intros (Hp & -> & -> & ->). apply E2. unfold px_index. lia. }
      rewrite Hm by (first [by split | lia]). repeat case_decide; try done; exfalso; lia.
Qed.

(** [set_all_pixels] fills the screen, except that with unpadded scan lines the
    first pixel of every row but the first gets the upper half of the colour. *)
Lemma set_all_pixels_spec m color x' y' :
  on_screen x' y' ->
  pixel (Fb.set_all_pixels fb color m) x' y' = filled color (fb_width fb - 1) (fb_height fb) x' y'.
Proof.
  intros Hxy'. pose proof (fbo_width _ Hfb) as Hw. pose proof (fbo_height _ Hfb) as Hh.
  set (I := fun x m => forall x' y', on_screen x' y' -> x' < x ->
    pixel m x' y' = filled color (x - 1) (fb_height fb) x' y').
  assert (Hfin : I (0 + Z.of_nat (Z.to_nat (fb_width fb))) (Fb.set_all_pixels fb color m)).
  { unfold Fb.set_all_pixels. apply (iterate_inv _ 0 _ m I).
    - intros a b [? ?] ?. lia.
    - intros x t Hx HI a b Hab Ha. replace (x + 1 - 1) with x by lia.
      assert (Hin : forall x' y', on_screen x' y' -> (x' < x \/ x' = x /\ y' < 0 + Z.of_nat (Z.to_nat (fb_height fb))) ->
        pixel (iterate (Z.to_nat (fb_height fb)) 0 (fun y => Fb.set_pixel fb x y color) t) x' y' =
        filled color x (0 + Z.of_nat (Z.to_nat (fb_height fb))) x' y').
      { apply (iterate_inv _ 0 (fun y => Fb.set_pixel fb x y color) t (fun y t =>
          forall x' y', on_screen x' y' -> (x' < x \/ x' = x /\ y' < y) -> pixel t x' y' = filled color x y x' y')).
        - intros c d Hcd Hd. destruct Hcd as [Hc Hd']. rewrite HI by (first [by split | lia]).
          unfold filled, spilled. rewrite !decide_False by lia. done.
        - intros y u Hy Hu. apply fill_step; [split; lia|done]. }
      rewrite Hin; [f_equal; lia|done|]. destruct Hab as [? ?]. lia. }
  rewrite Hfin by (first [done | destruct Hxy'; lia]). f_equal. lia.
Qed.

(** Whole loops write inside the buffer and four bytes more. *)
Definition outside (a : Z) : Prop := ~ (fb_double_addr fb <= a < fb_double_addr fb + fb_b_size fb + 4).

Lemma set_all_pixels_out m color a : outside a -> mget (Fb.set_all_pixels fb color m) a = mget m a.
Proof.
  intros Ha. pose proof (fbo_width _ Hfb) as Hw. pose proof (fbo_height _ Hfb) as Hh.
  apply (iterate_inv _ 0 _ m (fun _ t => mget t a = mget m a)); [done|]. intros x t Hx Ht.
  apply (iterate_inv _ 0 _ t (fun _ u => mget u a = mget m a)); [done|]. intros y u Hy Hu.
  rewrite set_pixel_out; [done|split; lia|done].
Qed.

(** ** Glyphs *)

(** A glyph on the screen, its bitmap outside the buffer. *)
Record glyph_ok (g : Glyph) : Prop := {
  go_x : 0 <= g_x_off g /\ g_x_off g + g_width g <= fb_width fb;
  go_y : 0 <= g_y_off g /\ g_y_off g + g_height g <= fb_height fb;
  go_dim : 0 <= g_width g < 65536 /\ 0 <= g_height g < 65536;
  go_bitmap : forall y, 0 <= y < g_height g -> outside (g_bitmap g + y)
}.

(** The pixels of the rows before [y], and [x] pixels of row [y], are drawn; the
    rest of the memory outside the buffer is [m]. *)
Definition drawn (g : Glyph) m (y x : Z) (t : mem) : Prop :=
  (forall x' y', 0 <= x' < g_width g -> 0 <= y' < g_height g -> (y' < y \/ y' = y /\ x' < x) ->
     pixel t (g_x_off g + x') (g_y_off g + y') = lo32 (Fb.glyph_color g x' (mget m (g_bitmap g + y')))) /\
  (forall a, outside a -> mget t a = mget m a) /\
  (forall x' y', on_screen x' y' ->
     y' < g_y_off g \/ g_y_off g + g_height g < y' \/ 0 < x' < g_x_off g \/ g_x_off g + g_width g < x' ->
     pixel t x' y' = pixel m x' y').

Lemma draw_step g m t y x :
  glyph_ok g -> 0 <= y < g_height g -> 0 <= x < g_width g -> drawn g m y x t ->
  drawn g m y (x + 1) (Fb.set_pixel fb (u32 (g_x_off g + x)) (u32 (g_y_off g + y))
    (Fb.glyph_color g x (mget t (g_bitmap g + y))) t).
Proof.
  intros [[X0 X1] [Y0 Y1] [D1 D2] Hb] Hy Hx (Hd & Ho & Hk).
  pose proof (fbo_width _ Hfb) as Hw. pose proof (fbo_scan _ Hfb) as [Hs1 Hs2].
  rewrite !u32_small by lia. assert (Hon : on_screen (g_x_off g + x) (g_y_off g + y)) by (split; lia).
  split_and!.
  - intros x' y' Hx' Hy' Hlt. assert (Hon' : on_screen (g_x_off g + x') (g_y_off g + y')) by (split; lia).
    rewrite set_pixel_pixel by done. destruct (decide (x' = x /\ y' = y)) as [[-> ->]|Hne].
    + rewrite decide_True by done. rewrite Ho by auto. done.
    + pose proof (px_index_lt (g_x_off g + x) (g_y_off g + y) (g_x_off g + x') (g_y_off g + y')).
      rewrite !decide_False by lia. apply Hd; [done|done|lia].
  - intros a Ha. rewrite set_pixel_out by done. auto.
  - intros x' y' Hon' Hfar. rewrite set_pixel_pixel by done. rewrite !decide_False; [auto|..].
    + intros E. apply px_index_next in E as [[-> ->]|(_ & _ & -> & ->)]; [lia|lia|done|done].
    + intros E. apply px_index_inj in E as [-> ->]; [lia|done|done].
Qed.

Lemma print_glyph_spec g m : glyph_ok g -> drawn g m (g_height g) 0 (Fb.print_glyph fb g m).
Proof.
  intros Hg. pose proof Hg as [_ _ [D1 D2] _].
  assert (Hrow : forall y t, 0 <= y < g_height g -> drawn g m y 0 t ->
    drawn g m (y + 1) 0 (iterate (Z.to_nat (g_width g)) 0 (fun x t =>
      Fb.set_pixel fb (u32 (g_x_off g + x)) (u32 (g_y_off g + y))
        (Fb.glyph_color g x (mget t (g_bitmap g + y))) t) t)).
  { intros y t Hy Ht. pose proof (iterate_inv (Z.to_nat (g_width g)) 0 (fun x t =>
      Fb.set_pixel fb (u32 (g_x_off g + x)) (u32 (g_y_off g + y))
        (Fb.glyph_color g x (mget t (g_bitmap g + y))) t) t (drawn g m y) Ht) as Hi.
    destruct Hi as (H1 & H2 & H3); [intros x u Hx Hu; apply draw_step; [done|done|lia|done]|].
    split_and!; [|done|done]. intros x' y' Hx' Hy' Hlt. apply H1; [done|done|lia]. }
  pose proof (iterate_inv (Z.to_nat (g_height g)) 0 (fun y => iterate (Z.to_nat (g_width g)) 0 (fun x t =>
      Fb.set_pixel fb (u32 (g_x_off g + x)) (u32 (g_y_off g + y))
        (Fb.glyph_color g x (mget t (g_bitmap g + y))) t)) m (fun y t => drawn g m y 0 t)) as Hi.
  rewrite Z2Nat.id, Z.add_0_l in Hi by lia. apply Hi.
  - split_and!; [intros; lia|done|done].
  - intros y t Hy Ht. apply Hrow; [lia|done].
Qed.

(** What [print_glyph] does outside the rectangle of the glyph: the upper half of the last
    pixel of a row, zero for 32-bit colours, lands on the pixel behind it. *)
Definition in_glyph (g : Glyph) (x y : Z) : Prop :=
  g_x_off g <= x < g_x_off g + g_width g /\ g_y_off g <= y < g_y_off g + g_height g.
Definition behind_glyph (g : Glyph) (x y : Z) : Prop :=
  exists k, 0 <= k < g_height g /\ px_index x y = px_index (g_x_off g + g_width g - 1) (g_y_off g + k) + 1.
Definition spill_only (g : Glyph) m (t : mem) : Prop :=
  forall x y, on_screen x y -> ~ in_glyph g x y ->
    pixel t x y = pixel m x y \/ pixel t x y = 0 /\ behind_glyph g x y.

Lemma spill_step g m t x y color :
  glyph_ok g -> 0 <= color < 2 ^ 32 -> 0 <= x < g_width g -> 0 <= y < g_height g -> spill_only g m t ->
  spill_only g m (Fb.set_pixel fb (u32 (g_x_off g + x)) (u32 (g_y_off g + y)) color t).
Proof.
  intros [[X0 X1] [Y0 Y1] [D1 D2] _] Hcol Hx Hy Ht x' y' Hon' Hout.
  pose proof (fbo_width _ Hfb) as Hw. pose proof (fbo_scan _ Hfb) as [Hs1 Hs2].
  rewrite !u32_small by lia. assert (Hon : on_screen (g_x_off g + x) (g_y_off g + y)) by (split; lia).
  rewrite set_pixel_pixel by done. case_decide as E1.
  { exfalso. apply px_index_inj in E1 as [-> ->]; [|done|done]. apply Hout. split; lia. }
  case_decide as E2; [|by apply Ht]. right. rewrite (Z.div_small color) by lia. split; [done|].
  exists y. split; [done|]. rewrite E2. assert (x = g_width g - 1) as ->; [|unfold px_index; lia].
  apply px_index_next in E2 as [[-> ->]|(_ & Hl & _ & _)]; [|lia|done|done].
  destruct (decide (x = g_width g - 1)); [done|]. exfalso. apply Hout. split; lia.
Qed.

Lemma print_glyph_spill g m :
  glyph_ok g -> 0 <= g_fg_color g < 2 ^ 32 -> 0 <= g_bg_color g < 2 ^ 32 -> spill_only g m (Fb.print_glyph fb g m).
Proof.
  intros Hg Hf Hb. pose proof Hg as [_ _ [D1 D2] _]. unfold Fb.print_glyph.
  apply (iterate_inv _ 0 _ m (fun _ t => spill_only g m t)); [by left|]. intros y t Hy Ht.
  apply (iterate_inv _ 0 _ t (fun _ u => spill_only g m u)); [done|]. intros x u Hx Hu.
  apply spill_step; [done| |lia|lia|done]. unfold Fb.glyph_color. by destruct (_ <? _).
Qed.

(** ** [draw] *)
Lemma draw_spec m :
  fb_addr fb + fb_b_size fb <= fb_double_addr fb \/ fb_double_addr fb + fb_b_size fb <= fb_addr fb ->
  (forall i, 0 <= i < fb_b_size fb ->
     mget (Fb.draw fb m) (fb_addr fb + i) = mget (Fb.draw fb m) (fb_double_addr fb + i)) /\
  (forall a, ~ (fb_addr fb <= a < fb_addr fb + fb_b_size fb) -> mget (Fb.draw fb m) a = mget m a).
Proof.
  intros Hd. pose proof Hfb as [_ ? ? _ ? _ _]. assert (0 <= fb_b_size fb) by nia. unfold Fb.draw. split.
  - intros i Hi. rewrite mget_memcpy by lia. by rewrite mget_memcpy_out by lia.
  - intros a Ha. by rewrite mget_memcpy_out.
Qed.
End Pixels.

(** The mask of [print_glyph] tests the bits of a row from the left. *)
Lemma glyph_bit b x : 0 <= b < 256 -> 0 <= x ->
  (0 <? Z.land b (Z.shiftr (Z.shiftl 1 7) x)) = Z.testbit b (7 - x).
Proof.
  intros Hr Hx. destruct (decide (x <= 7)) as [Hx7|Hx7].
  - rewrite Z.shiftl_1_l, Z.shiftr_div_pow2, <- Z.pow_sub_r by lia.
    assert (0 <= Z.land b (2 ^ (7 - x))) by (apply Z.land_nonneg; lia).
    destruct (Z.testbit b (7 - x)) eqn:Eb; [apply Z.ltb_lt|apply Z.ltb_ge].
    + assert (Z.land b (2 ^ (7 - x)) <> 0); [|lia]. intros E.
      assert (Z.testbit (Z.land b (2 ^ (7 - x))) (7 - x) = false) as Ht by (rewrite E; apply Z.bits_0).
      rewrite Z.land_spec, Eb, Z.pow2_bits_true in Ht by lia. done.
    + assert (Z.land b (2 ^ (7 - x)) = 0) as ->; [|lia]. apply Z.bits_inj'. intros n Hn.
      rewrite Z.land_spec, Z.pow2_bits_eqb, Z.bits_0 by lia.
      destruct (Z.eqb_spec (7 - x) n) as [<-|]; [by rewrite Eb|apply andb_false_r].
  - rewrite Z.testbit_neg_r by lia. rewrite (Z.shiftr_eq_0 (Z.shiftl 1 7) x), Z.land_0_r; [done|done|].
    change (Z.log2 (Z.shiftl 1 7)) with 7. lia.
Qed.

(** ** Properties *)

(** A screen of 4 by 3 pixels, without padding; the double buffer at 0x1000. *)
Definition fb_sample : Framebuffer := mkFb 48 4 3 4 4 0x2000 0x1000.

Lemma fb_sample_ok : fb_ok fb_sample.
Proof. split; simpl; lia. Qed.

(** [Framebuffer::print_glyph] draws the glyph: every pixel of the glyph's
    rectangle gets the foreground colour where the bit of the bitmap is set and
    the background colour elsewhere, although each pixel is written as 64 bits;
    other pixels change at most right of the rectangle and in the first column,
    and no byte outside the buffer and the four bytes after it changes. *)
Theorem print_glyph_correct (fb : Framebuffer) (g : Glyph) (m : mem) :
  fb_ok fb -> glyph_ok fb g ->
  (forall x y, 0 <= x < g_width g -> 0 <= y < g_height g ->
     pixel fb (Fb.print_glyph fb g m) (g_x_off g + x) (g_y_off g + y) =
     (if Z.testbit (mget m (g_bitmap g + y)) (7 - x) then g_fg_color g else g_bg_color g) mod 2 ^ 32) /\
  (forall x y, on_screen fb x y ->
     y < g_y_off g \/ g_y_off g + g_height g < y \/ 0 < x < g_x_off g \/ g_x_off g + g_width g < x ->
     pixel fb (Fb.print_glyph fb g m) x y = pixel fb m x y) /\
  (forall a, outside fb a -> mget (Fb.print_glyph fb g m) a = mget m a).
Proof.
  intros Hfb Hg. destruct (print_glyph_spec fb Hfb g m Hg) as (H1 & H2 & H3). split_and!; [|done|done].
  intros x y Hx Hy. rewrite H1 by (done || lia). unfold lo32, Fb.glyph_color. f_equal.
  by rewrite (glyph_bit (mget m (g_bitmap g + y)) x) by (apply mget_range || lia).
Qed.

(** The glyph of one row of four pixels, [1010], at (0, 1). *)
Definition glyph_sample : Glyph := mkGlyph 0x3000 0 1 1 4 WHITE BLACK.

Lemma print_glyph_correct_witness :
  pixel fb_sample (Fb.print_glyph fb_sample glyph_sample (<[0x3000 := 0xa0]> ∅)) 2 1 = 0xffffff.
Proof.
  destruct (print_glyph_correct fb_sample glyph_sample (<[0x3000 := 0xa0]> ∅) fb_sample_ok) as [H _].
  - split; simpl; [lia..|]. intros y Hy. unfold outside. simpl. lia.
  - change 2 with (g_x_off glyph_sample + 2). change 1 with (g_y_off glyph_sample + 0).
    rewrite (H 2 0) by (simpl; lia). by vm_compute.
Defined.

(** [Framebuffer::set_all_pixels] fills the screen when the scan lines are
    padded.  Without padding, the upper half of the 64-bit store at the last
    column lands on the first pixel of the next row, so the first column, but for
    its top pixel, ends up with the upper 32 bits of the colour instead: black,
    for the colours of the kernel. *)
Theorem set_all_pixels_correct (fb : Framebuffer) (color : Z) (m : mem) (x y : Z) :
  fb_ok fb -> 0 <= color < 2 ^ 32 -> on_screen fb x y ->
  pixel fb (Fb.set_all_pixels fb color m) x y =
    if decide (fb_px_per_scan fb = fb_width fb /\ 1 < fb_width fb /\ x = 0 /\ 1 <= y) then 0 else color.
Proof.
  intros Hfb Hc Hxy. rewrite set_all_pixels_spec by done. destruct Hxy as [Hx Hy].
  unfold filled, spilled, lo32, hi32. rewrite (Z.div_small color), (Z.mod_small color) by lia.
  repeat case_decide; try done; exfalso; lia.
Qed.

(** On the blue screen of a panic, the pixel (0, 1) is black. *)
Lemma set_all_pixels_correct_witness :
  pixel fb_sample (Fb.set_all_pixels fb_sample BLUE ∅) 0 1 = 0 /\
  pixel fb_sample (Fb.set_all_pixels fb_sample BLUE ∅) 3 2 = BLUE.
Proof.
  split; rewrite set_all_pixels_correct; try (by vm_compute); try apply fb_sample_ok; split; simpl; lia.
Defined.

(** A pixel in the last place of the screen is written past the buffer: when
    the scan lines are not padded, [set_pixel] of the bottom right pixel stores
    the upper half of the colour in the four bytes after the buffer. *)
Theorem set_pixel_overflows_buffer (fb : Framebuffer) (color : Z) (m : mem) :
  fb_ok fb -> fb_px_per_scan fb = fb_width fb ->
  read32 (Fb.set_pixel fb (fb_width fb - 1) (fb_height fb - 1) color m) (fb_double_addr fb + fb_b_size fb) =
    (color / 2 ^ 32) mod 2 ^ 32.
Proof.
  intros Hfb Hp. pose proof Hfb as [_ Hw Hh _ Hs _ _]. unfold Fb.set_pixel.
  rewrite get_pixel_addr_spec by (done || split; lia).
  replace (fb_double_addr fb + fb_b_size fb) with (px_addr fb (fb_width fb - 1) (fb_height fb - 1) + 4).
  - apply read32_write64_hi.
  - unfold px_addr, px_index. rewrite Hs, Hp. lia.
Qed.

Lemma set_pixel_overflows_buffer_witness :
  read32 (Fb.set_pixel fb_sample 3 2 WHITE (write32 ∅ 0x1030 77)) 0x1030 = 0.
Proof. by rewrite (set_pixel_overflows_buffer fb_sample WHITE _ fb_sample_ok eq_refl). Defined.
