(* ===== verification/Console.v ===== *)
(** * Console: the text console on the framebuffer, console/console.cpp

    The console's state is its cursor and the video memory: the double buffer,
    the framebuffer and the font.  It implements the interface that
    kutils/console.cpp prints to. *)
From S2P Require Import Prelude Memory Libc Printf Framebuffer.

Definition ASCII_PRINTABLE_MIN : Z := 32.
Definition ASCII_PRINTABLE_MAX : Z := 127.

Record ConsoleFont : Type := mkFont {
  cf_psf_header : Z;     (** address of the [PsfHeader] *)
  cf_glyph_height : Z;
  cf_glyph_width : Z;
  cf_glyph_buffer : Z
}.

(** [ConsoleDefault]. *)
Definition DEFAULT_MAX_COL : Z := 100.
Definition DEFAULT_MAX_ROW : Z := 37.
Definition DEFAULT_TAB_SPACES : Z := 4.
Definition DEFAULT_FG : Z := WHITE.
Definition DEFAULT_BG : Z := BLACK.

Record ConsoleCursor : Type := mkCursor {
  c_row : Z;
  c_col : Z;
  c_fg : Z;
  c_bg : Z;
  c_max_col : Z;
  c_max_row : Z
}.

Module Cur.
Definition set_pos (c : ConsoleCursor) (row col : Z) : ConsoleCursor :=
  mkCursor row col (c_fg c) (c_bg c) (c_max_col c) (c_max_row c).

Definition reset (c : ConsoleCursor) : ConsoleCursor :=
  mkCursor 0 0 DEFAULT_FG DEFAULT_BG DEFAULT_MAX_COL DEFAULT_MAX_ROW.
(** [ConsoleCursor::ConsoleCursor], over the member initialisers. *)
Definition make : ConsoleCursor :=
  reset (mkCursor 0 0 DEFAULT_FG DEFAULT_BG DEFAULT_MAX_COL DEFAULT_MAX_ROW).
Definition next (c : ConsoleCursor) : ConsoleCursor :=
  if c_col c + 1 <? c_max_col c then set_pos c (c_row c) (u16 (c_col c + 1))
  else set_pos c (u16 (c_row c + 1)) 0.
Definition back (c : ConsoleCursor) : ConsoleCursor :=
  if 0 <? c_col c then set_pos c (c_row c) (u16 (c_col c - 1))
  else set_pos c (u16 (c_row c - 1)) (u16 (c_max_col c - 1)).
Definition cr (c : ConsoleCursor) : ConsoleCursor := set_pos c (c_row c) 0.
Definition lf (c : ConsoleCursor) : ConsoleCursor := set_pos c (u16 (c_row c + 1)) (c_col c).
Definition gotoxy (c : ConsoleCursor) (x y : Z) : ConsoleCursor := set_pos c y x.
Definition set_bg (c : ConsoleCursor) (color : Z) : ConsoleCursor :=
  mkCursor (c_row c) (c_col c) (c_fg c) color (c_max_col c) (c_max_row c).
Definition set_fg (c : ConsoleCursor) (color : Z) : ConsoleCursor :=
  mkCursor (c_row c) (c_col c) color (c_bg c) (c_max_col c) (c_max_row c).
End Cur.

Record Console : Type := mkConsole {
  con_font : ConsoleFont;
  con_fb : Framebuffer;
  con_cursor : ConsoleCursor;
  con_mem : mem               (** the video memory *)
}.

Module Con.

Definition set_mem (c : Console) (m : mem) : Console := mkConsole (con_font c) (con_fb c) (con_cursor c) m.
Definition set_cursor (c : Console) (k : ConsoleCursor) : Console :=
  mkConsole (con_font c) (con_fb c) k (con_mem c).
Definition draw (c : Console) : Console := set_mem c (Fb.draw (con_fb c) (con_mem c)).

(** [Console::Console]. *)
Definition make (font : ConsoleFont) (fb : Framebuffer) (m : mem) : Console := mkConsole font fb Cur.make m.

Definition clear (c : Console) : Console :=
  let c1 := set_mem c (Fb.set_all_pixels (con_fb c) BLACK (con_mem c)) in
  draw (set_cursor c1 (Cur.reset (con_cursor c1))).

Definition clear_line (line : Z) (c : Console) : Console :=
  draw (set_mem c (iterate (Z.to_nat (fb_width (con_fb c))) 0 (fun x =>
    iterate (Z.to_nat (cf_glyph_height (con_font c))) 0 (fun y =>
      Fb.set_pixel (con_fb c) (u32 x) (u32 (line * cf_glyph_height (con_font c) + y)) BLACK)) (con_mem c))).

Definition _scroll_down (c : Console) : Console :=
  let fb := Fb.get_double_fb_addr (con_fb c) in
  let start := Fb.get_pixel_addr (con_fb c) 0 (cf_glyph_height (con_font c)) in
  let size := u64 (start - fb) in
  let c1 := set_mem c (memcpy (con_mem c) fb start (u64 (fb_b_size (con_fb c) - size))) in
  let k := con_cursor c1 in
  let c2 := set_cursor c1 (Cur.gotoxy k (c_col k) (u16 (c_row k - 1))) in
  clear_line (u16 (c_max_row k - 1)) c2.

(** [psf_header->charsize]. *)
Definition charsize (c : Console) : Z := read8 (con_mem c) (cf_psf_header (con_font c) + 3).

(** The glyph of [chr] at the cursor. *)
Definition char_glyph (chr : Z) (c : Console) : Glyph :=
  let k := con_cursor c in
  let f := con_font c in
  mkGlyph (cf_glyph_buffer f + chr * charsize c)
          (u16 (c_col k * cf_glyph_width f)) (u16 (c_row k * cf_glyph_height f))
          (cf_glyph_height f) (cf_glyph_width f) (u32 (c_fg k)) (u32 (c_bg k)).

(** The first [if] of [_print_char], and its branch for printable characters. *)
Definition scroll_if_full (c : Console) : Console :=
  if c_max_row (con_cursor c) =? c_row (con_cursor c) then _scroll_down c else c.
Definition put_glyph (chr : Z) (c : Console) : Console :=
  let c1 := set_mem c (Fb.print_glyph (con_fb c) (char_glyph chr c) (con_mem c)) in
  set_cursor c1 (Cur.next (con_cursor c1)).
(** A [char] is signed: bytes from 128 on are negative. *)
Definition printable (chr : Z) : bool :=
  let v := if chr <? 128 then chr else chr - 256 in
  (ASCII_PRINTABLE_MIN <=? v) && (v <=? ASCII_PRINTABLE_MAX).

Definition move (f : ConsoleCursor -> ConsoleCursor) (c : Console) : Console := set_cursor c (f (con_cursor c)).

Definition _print_char (chr : Z) (c0 : Console) : Console :=
  let c := scroll_if_full c0 in
  if printable chr then put_glyph chr c
  else if chr =? 10 (* '\n' *) then move Cur.cr (move Cur.lf c)
  else if chr =? 9 (* '\t' *) then move Cur.next (move Cur.next (move Cur.next c))
  else if chr =? 13 (* '\r' *) then move Cur.cr c
  else if chr =? 8 (* '\b' *) then
    move Cur.back (put_glyph 32 (scroll_if_full (move Cur.back c)))
  else c.

Definition print_chr (chr : Z) (c : Console) : Console := draw (_print_char chr c).
Definition print (str : list Z) (c : Console) : Console := draw (foldl (fun c chr => _print_char chr c) c str).

End Con.

(** The console that kutils/console.cpp prints to. *)
Global Instance console_impl : ConsoleI Console := {|
  console_print := Con.print;
  console_panic c :=
    let c1 := Con.set_mem c (Fb.set_all_pixels (con_fb c) BLUE (con_mem c)) in
    let c2 := Con.move (fun k => Cur.gotoxy k 0 0) c1 in
    let c3 := Con.move (fun k => Cur.set_bg k BLUE) c2 in
    Con.move (fun k => Cur.set_fg k WHITE) c3
|}.

(** ** The invariant *)

(** The text area fits the screen, and the buffers and the font lie apart. *)
Record geometry_ok (font : ConsoleFont) (fb : Framebuffer) (cs maxc maxr : Z) : Prop := {
  ge_fb : fb_ok fb;
  ge_dims : 0 < cf_glyph_width font < 256 /\ 0 < cf_glyph_height font < 256;
  ge_cols : 3 <= maxc < 65536 /\ maxc * cf_glyph_width font <= fb_width fb;
  ge_rows : 1 < maxr < 65535 /\ maxr * cf_glyph_height font <= fb_height fb;
  ge_apart : fb_addr fb + fb_b_size fb <= fb_double_addr fb \/
             fb_double_addr fb + fb_b_size fb + 4 <= fb_addr fb;
  ge_font : forall a, cf_glyph_buffer font <= a < cf_glyph_buffer font + 127 * cs + cf_glyph_height font ->
    outside fb a /\ ~ (fb_addr fb <= a < fb_addr fb + fb_b_size fb);
  ge_header : outside fb (cf_psf_header font + 3) /\
    ~ (fb_addr fb <= cf_psf_header font + 3 < fb_addr fb + fb_b_size fb)
}.

Definition cursor_ok (k : ConsoleCursor) : Prop := 0 <= c_col k < c_max_col k /\ 0 <= c_row k <= c_max_row k.

Record con_ok (c : Console) : Prop := {
  co_geo : geometry_ok (con_font c) (con_fb c) (Con.charsize c) (c_max_col (con_cursor c)) (c_max_row (con_cursor c));
  co_cursor : cursor_ok (con_cursor c)
}.

(** What printing may write: the buffer with its four bytes, and the framebuffer. *)
Definition video (fb : Framebuffer) (a : Z) : Prop :=
  ~ outside fb a \/ fb_addr fb <= a < fb_addr fb + fb_b_size fb.

Record con_pres (c c' : Console) : Prop := {
  cp_font : con_font c' = con_font c;
  cp_fb : con_fb c' = con_fb c;
  cp_max : c_max_col (con_cursor c') = c_max_col (con_cursor c) /\ c_max_row (con_cursor c') = c_max_row (con_cursor c);
  cp_mem : forall a, ~ video (con_fb c) a -> mget (con_mem c') a = mget (con_mem c) a
}.

Global Instance con_pres_preorder : PreOrder con_pres.
Proof.
  split; [by intros c|]. intros c1 c2 c3 [F1 B1 [X1 Y1] M1] [F2 B2 [X2 Y2] M2].
  split; [congruence|congruence|split; congruence|]. intros a Ha. rewrite M2 by (by rewrite B1). auto.
Qed.

Lemma not_video fb a : outside fb a -> ~ (fb_addr fb <= a < fb_addr fb + fb_b_size fb) -> ~ video fb a.
Proof. unfold video. tauto. Qed.

Lemma charsize_pres c c' : con_ok c -> con_pres c c' -> Con.charsize c' = Con.charsize c.
Proof.
  intros [[_ _ _ _ _ _ [H1 H2]] _] [F B _ Hm]. unfold Con.charsize. rewrite F, !read8_mget. apply Hm, not_video; done.
Qed.

Lemma con_ok_pres c c' : con_ok c -> con_pres c c' -> cursor_ok (con_cursor c') -> con_ok c'.
Proof.
  intros Hc Hp Hk. pose proof (charsize_pres c c' Hc Hp) as E. destruct Hc as [Hg _], Hp as [F B [X Y] _].
  split; [|done]. by rewrite F, B, X, Y, E.
Qed.

Lemma move_pres c f :
  c_max_col (f (con_cursor c)) = c_max_col (con_cursor c) -> c_max_row (f (con_cursor c)) = c_max_row (con_cursor c) ->
  con_pres c (Con.move f c).
Proof. intros. by split. Qed.

Lemma set_mem_pres c m :
  (forall a, ~ video (con_fb c) a -> mget m a = mget (con_mem c) a) -> con_pres c (Con.set_mem c m).
Proof. intros. by split. Qed.

Lemma draw_pres c : con_ok c -> con_pres c (Con.draw c).
Proof.
  intros [[Hfb _ _ _ Hap _ _] _]. apply set_mem_pres. intros a Ha.
  apply (draw_spec (con_fb c) Hfb); [lia|]. intros Hin. apply Ha. by right.
Qed.

(** ** Cursor movements *)
Lemma next_max k : c_max_col (Cur.next k) = c_max_col k /\ c_max_row (Cur.next k) = c_max_row k.
Proof. unfold Cur.next. by destruct (_ <? _). Qed.
Lemma back_max k : c_max_col (Cur.back k) = c_max_col k /\ c_max_row (Cur.back k) = c_max_row k.
Proof. unfold Cur.back. by destruct (_ <? _). Qed.

Lemma next_pos k :
  0 <= c_col k < c_max_col k -> c_max_col k < 65536 -> 0 <= c_row k < 65535 ->
  (c_col k + 1 < c_max_col k /\ c_row (Cur.next k) = c_row k /\ c_col (Cur.next k) = c_col k + 1) \/
  (c_col k + 1 = c_max_col k /\ c_row (Cur.next k) = c_row k + 1 /\ c_col (Cur.next k) = 0).
Proof.
  intros. unfold Cur.next. destruct (Z.ltb_spec (c_col k + 1) (c_max_col k)); simpl; wordify; [left|right]; lia.
Qed.

Lemma back_pos k :
  0 <= c_col k < c_max_col k -> c_max_col k < 65536 -> 0 <= c_row k < 65536 -> ~ (c_col k = 0 /\ c_row k = 0) ->
  (0 < c_col k /\ c_row (Cur.back k) = c_row k /\ c_col (Cur.back k) = c_col k - 1) \/
  (c_col k = 0 /\ c_row (Cur.back k) = c_row k - 1 /\ c_col (Cur.back k) = c_max_col k - 1).
Proof.
  intros. unfold Cur.back. destruct (Z.ltb_spec 0 (c_col k)); simpl; wordify; [left|right]; lia.
Qed.

(** ** Glyphs of the console *)
Section Cell.
Context (c : Console) (Hc : con_ok c) (chr : Z).
Hypothesis Hchr : 0 <= chr <= 127.
Hypothesis Hrow : c_row (con_cursor c) < c_max_row (con_cursor c).

Lemma cell_offsets :
  g_x_off (Con.char_glyph chr c) = c_col (con_cursor c) * cf_glyph_width (con_font c) /\
  g_y_off (Con.char_glyph chr c) = c_row (con_cursor c) * cf_glyph_height (con_font c).
Proof.
  destruct Hc as [[Hfb [Dw Dh] [Cw Cw'] [Cr Cr'] _ _ _] [Kc Kr]]. pose proof (fbo_scan _ Hfb). pose proof (fbo_width _ Hfb).
  unfold Con.char_glyph. simpl. split; apply u16_small; nia.
Qed.

Lemma cell_glyph_ok : glyph_ok (con_fb c) (Con.char_glyph chr c).
Proof.
  pose proof cell_offsets as [Ex Ey].
  destruct Hc as [[Hfb [Dw Dh] [Cw Cw'] [Cr Cr'] _ Hfont _] [Kc Kr]].
  assert (Hcs : 0 <= Con.charsize c) by (unfold Con.charsize; rewrite read8_mget; apply mget_range).
  split; rewrite ?Ex, ?Ey; simpl.
  - split; nia.
  - split; nia.
  - lia.
  - intros y Hy. apply Hfont. nia.
Qed.

Lemma put_glyph_pres : con_pres c (Con.put_glyph chr c).
Proof.
  unfold Con.put_glyph. etransitivity; [apply (set_mem_pres c)|apply (move_pres _ Cur.next); apply next_max].
  intros a Ha. apply (print_glyph_spec _ (ge_fb _ _ _ _ _ (co_geo _ Hc))); [apply cell_glyph_ok|].
  intros Hin. apply Ha. left. intros Hout. by apply Hout.
Qed.
End Cell.

(** ** Scrolling *)
Section Scroll.
Context (c : Console) (Hc : con_ok c).
Let fb := con_fb c.
Let gh := cf_glyph_height (con_font c).
Let maxr := c_max_row (con_cursor c).

Lemma scroll_geo : fb_ok fb /\ 0 < gh < 256 /\ 1 < maxr < 65535 /\ maxr * gh <= fb_height fb /\ gh < fb_height fb.
Proof. destruct Hc as [[Hfb [_ Dh] _ [Cr Cr'] _ _ _] _]. split_and!; try done; try lia. unfold gh, fb, maxr. nia. Qed.

(** The line of the text area that [clear_line] blackens. *)
Definition line_loop (line : Z) (m : mem) : mem :=
  iterate (Z.to_nat (fb_width fb)) 0 (fun x =>
    iterate (Z.to_nat gh) 0 (fun y => Fb.set_pixel fb (u32 x) (u32 (line * gh + y)) BLACK)) m.

(** Pixels that [clear_line] has passed are black, the rows above are as before. *)
Definition line_inv (line x y : Z) (m t : mem) : Prop :=
  (forall x' y', on_screen fb x' y' -> line * gh <= y' < line * gh + gh ->
     (x' < x \/ x' = x /\ y' < line * gh + y) -> pixel fb t x' y' = 0) /\
  (forall x' y', on_screen fb x' y' -> y' < line * gh -> pixel fb t x' y' = pixel fb m x' y') /\
  (forall a, outside fb a -> mget t a = mget m a).

Lemma line_step line x y m t :
  0 <= line < maxr -> 0 <= x < fb_width fb -> 0 <= y < gh -> line_inv line x y m t ->
  line_inv line x (y + 1) m (Fb.set_pixel fb (u32 x) (u32 (line * gh + y)) BLACK t).
Proof.
  destruct scroll_geo as (Hfb & Hgh & Hmr & Hfit & _). intros Hl Hx Hy (H1 & H2 & H3).
  pose proof (fbo_scan _ Hfb) as [S1 S2]. pose proof (fbo_width _ Hfb).
  assert (Hb : 0 <= line * gh + y < fb_height fb) by nia.
  rewrite !u32_small by lia. assert (Hon : on_screen fb x (line * gh + y)) by (split; lia).
  split_and!.
  - intros x' y' Hon' Hin Hd. rewrite set_pixel_pixel by done.
    case_decide as E1; [done|]. case_decide as E2; [done|]. apply H1; [done|done|].
    destruct (decide (x' = x /\ y' = line * gh + y)) as [[-> ->]|]; [done|]. lia.
  - intros x' y' Hon' Hlt. rewrite set_pixel_pixel by done. destruct Hon' as [Ha Hb'].
    pose proof (px_index_lt fb Hfb x (line * gh + y) x' y'). rewrite !decide_False by lia. apply H2; [by split|done].
  - intros a Ha. rewrite set_pixel_out by done. auto.
Qed.

Lemma line_loop_spec line m : 0 <= line < maxr -> line_inv line (fb_width fb) 0 m (line_loop line m).
Proof.
  destruct scroll_geo as (Hfb & Hgh & Hmr & _). intros Hl. pose proof (fbo_width _ Hfb) as Hw.
  assert (Hrow : forall x t, 0 <= x < fb_width fb -> line_inv line x 0 m t -> line_inv line (x + 1) 0 m
    (iterate (Z.to_nat gh) 0 (fun y => Fb.set_pixel fb (u32 x) (u32 (line * gh + y)) BLACK) t)).
  { intros x t Hx Ht.
    pose proof (iterate_inv (Z.to_nat gh) 0 (fun y => Fb.set_pixel fb (u32 x) (u32 (line * gh + y)) BLACK) t
      (fun y u => line_inv line x y m u) Ht) as Hi.
    destruct Hi as (H1 & H2 & H3); [intros y u Hy Hu; apply line_step; [done|done|lia|done]|].
    split_and!; [|done|done]. intros x' y' Hon Hin Hd. apply H1; [done|done|]. rewrite Z2Nat.id by lia. lia. }
  pose proof (iterate_inv (Z.to_nat (fb_width fb)) 0 (fun x =>
    iterate (Z.to_nat gh) 0 (fun y => Fb.set_pixel fb (u32 x) (u32 (line * gh + y)) BLACK)) m
    (fun x t => line_inv line x 0 m t)) as Hi.
  rewrite Z2Nat.id, Z.add_0_l in Hi by lia. apply Hi.
  - split_and!; [|done|done]. intros x' y' [? ?] ? ?. lia.
  - intros x t Hx Ht. apply Hrow; [lia|done].
Qed.

Lemma clear_line_eq line : Con.clear_line line c = Con.draw (Con.set_mem c (line_loop line (con_mem c))).
Proof. done. Qed.
End Scroll.

(** The copy of [_scroll_down] moves every row up by a line of text. *)
Definition scrolled (c : Console) : mem :=
  memcpy (con_mem c) (fb_double_addr (con_fb c))
    (fb_double_addr (con_fb c) + 4 * (cf_glyph_height (con_font c) * fb_px_per_scan (con_fb c)))
    (fb_b_size (con_fb c) - 4 * (cf_glyph_height (con_font c) * fb_px_per_scan (con_fb c))).

Lemma scroll_down_eq c : con_ok c ->
  Con._scroll_down c =
    Con.clear_line (u16 (c_max_row (con_cursor c) - 1))
      (Con.set_cursor (Con.set_mem c (scrolled c))
         (Cur.gotoxy (con_cursor c) (c_col (con_cursor c)) (u16 (c_row (con_cursor c) - 1)))).
Proof.
  intros Hc. destruct (scroll_geo c Hc) as (Hfb & Hgh & Hmr & _ & Hlt). pose proof Hfb as [_ Hw _ _ Hs Hsm Ha].
  unfold Con._scroll_down, Fb.get_double_fb_addr. rewrite get_pixel_addr_spec by (first [done | split; lia]).
  unfold px_addr, px_index. rewrite Z.add_0_r. unfold scrolled. set (n := cf_glyph_height (con_font c) * _) in *.
  assert (0 <= n) by (unfold n; nia). assert (4 * n <= fb_b_size (con_fb c)) by (rewrite Hs; unfold n; nia).
  replace (fb_double_addr (con_fb c) + 4 * n - fb_double_addr (con_fb c)) with (4 * n) by lia.
  rewrite (u64_small (4 * n)), (u64_small (fb_b_size (con_fb c) - 4 * n)) by lia. done.
Qed.

Lemma scrolled_spec c : con_ok c ->
  (forall a, outside (con_fb c) a -> mget (scrolled c) a = mget (con_mem c) a) /\
  (forall x y, on_screen (con_fb c) x y -> y + cf_glyph_height (con_font c) < fb_height (con_fb c) ->
     pixel (con_fb c) (scrolled c) x y = pixel (con_fb c) (con_mem c) x (y + cf_glyph_height (con_font c))).
Proof.
  intros Hc. destruct (scroll_geo c Hc) as (Hfb & Hgh & Hmr & _ & Hlt). pose proof Hfb as [_ Hw _ _ Hs Hsm Ha].
  unfold scrolled. set (gh := cf_glyph_height (con_font c)) in *. set (fb := con_fb c) in *.
  set (n := gh * fb_px_per_scan fb). assert (0 <= n) by (unfold n; nia).
  assert (4 * n <= fb_b_size fb) by (rewrite Hs; unfold n; nia). split.
  - intros a Hout. apply mget_memcpy_out; [lia|]. intros Hin. apply Hout. lia.
  - intros x y Hon Hy. pose proof (px_index_bound fb Hfb x y Hon) as [B1 _].
    assert (Hon' : on_screen fb x (y + gh)) by (destruct Hon; split; [done|lia]).
    pose proof (px_index_bound fb Hfb x (y + gh) Hon') as [_ B2].
    assert (E : px_index fb x (y + gh) = px_index fb x y + n) by (unfold px_index, n; lia).
    unfold pixel, px_addr, read32. rewrite E.
    assert (G : forall k b, 4 * px_index fb x y <= b -> b + Z.of_nat k <= 4 * px_index fb x y + 4 ->
      load k (memcpy (con_mem c) (fb_double_addr fb) (fb_double_addr fb + 4 * n) (fb_b_size fb - 4 * n)) (fb_double_addr fb + b) =
      load k (con_mem c) (fb_double_addr fb + 4 * n + b)).
    { induction k as [|k IH]; intros b Hb Hk; [done|]. simpl. rewrite mget_memcpy by lia.
      replace (fb_double_addr fb + b + 1) with (fb_double_addr fb + (b + 1)) by lia. rewrite IH by lia.
      by replace (fb_double_addr fb + 4 * n + (b + 1)) with (fb_double_addr fb + 4 * n + b + 1) by lia. }
    rewrite (G 4%nat) by lia. f_equal. lia.
Qed.

(** Pixels of the double buffer survive [draw]. *)
Lemma draw_pixel c x y : con_ok c -> on_screen (con_fb c) x y ->
  pixel (con_fb c) (con_mem (Con.draw c)) x y = pixel (con_fb c) (con_mem c) x y.
Proof.
  intros [[Hfb _ _ _ Hap _ _] _] Hon. pose proof (px_index_bound _ Hfb x y Hon) as [B1 B2].
  unfold pixel, read32. apply load_agree. intros b Hb. simpl.
  apply (draw_spec (con_fb c) Hfb); [lia|]. unfold px_addr in Hb. lia.
Qed.

Record scroll_post (c c' : Console) : Prop := {
  sp_pres : con_pres c c';
  sp_cursor : con_cursor c' = Cur.gotoxy (con_cursor c) (c_col (con_cursor c)) (c_max_row (con_cursor c) - 1);
  sp_up : forall x y, on_screen (con_fb c) x y ->
    y < (c_max_row (con_cursor c) - 1) * cf_glyph_height (con_font c) ->
    pixel (con_fb c) (con_mem c') x y = pixel (con_fb c) (con_mem c) x (y + cf_glyph_height (con_font c));
  sp_clear : forall x y, on_screen (con_fb c) x y ->
    (c_max_row (con_cursor c) - 1) * cf_glyph_height (con_font c) <= y <
      c_max_row (con_cursor c) * cf_glyph_height (con_font c) ->
    pixel (con_fb c) (con_mem c') x y = 0
}.

Lemma scroll_down_spec c :
  con_ok c -> c_row (con_cursor c) = c_max_row (con_cursor c) -> scroll_post c (Con._scroll_down c).
Proof.
  intros Hc Hrow. destruct (scroll_geo c Hc) as (Hfb & Hgh & Hmr & Hfit & Hlt).
  rewrite scroll_down_eq by done. rewrite Hrow, !(u16_small (c_max_row (con_cursor c) - 1)) by lia.
  destruct (scrolled_spec c Hc) as [Hout Hpx]. set (maxr := c_max_row (con_cursor c)) in *.
  set (k := Cur.gotoxy (con_cursor c) (c_col (con_cursor c)) (maxr - 1)).
  set (c1 := Con.set_cursor (Con.set_mem c (scrolled c)) k).
  assert (Hp1 : con_pres c c1).
  { split; try done. intros a Ha. simpl. apply Hout. intros Hin. apply Ha. left. intros Ho. by apply Ho. }
  assert (Hk1 : cursor_ok k) by (destruct Hc as [_ [? ?]]; split; simpl; fold maxr; lia).
  assert (Hc1 : con_ok c1) by (by eapply con_ok_pres).
  destruct (line_loop_spec c1 Hc1 (maxr - 1) (con_mem c1)) as (L1 & L2 & L3); [change (c_max_row (con_cursor c1)) with maxr; lia|].
  rewrite clear_line_eq. set (c2 := Con.set_mem c1 _).
  assert (Hp2 : con_pres c1 c2).
  { apply set_mem_pres. intros a Ha. apply L3. intros Hin. apply Ha. left. intros Ho. by apply Ho. }
  assert (Hc2 : con_ok c2) by (by eapply con_ok_pres).
  split.
  - etransitivity; [exact Hp1|]. etransitivity; [exact Hp2|]. by apply draw_pres.
  - done.
  - intros x y Hon Hy. rewrite (draw_pixel c2) by done. simpl con_mem. change (con_fb c) with (con_fb c1).
    rewrite L2 by done. apply Hpx; [done|]. fold maxr in Hfit. lia.
  - intros x y Hon Hy. rewrite (draw_pixel c2) by done. simpl con_mem. change (con_fb c) with (con_fb c1).
    destruct Hon as [Hx Hy']. apply L1; [by split|change (cf_glyph_height (con_font c1)) with (cf_glyph_height (con_font c)); lia|left; apply Hx].
Qed.

(** ** Printing *)
Lemma con_pos c : con_ok c -> 0 <= c_col (con_cursor c) < c_max_col (con_cursor c) /\
  0 <= c_row (con_cursor c) <= c_max_row (con_cursor c) /\ 3 <= c_max_col (con_cursor c) < 65536 /\
  1 < c_max_row (con_cursor c) < 65535.
Proof. intros [[_ _ [? _] [? _] _ _ _] [? ?]]. done. Qed.

Lemma scroll_if_full_spec c : con_ok c ->
  con_ok (Con.scroll_if_full c) /\ con_pres c (Con.scroll_if_full c) /\
  c_row (con_cursor (Con.scroll_if_full c)) < c_max_row (con_cursor c) /\
  c_col (con_cursor (Con.scroll_if_full c)) = c_col (con_cursor c) /\
  (c_row (con_cursor c) < c_max_row (con_cursor c) -> Con.scroll_if_full c = c).
Proof.
  intros Hc. pose proof (con_pos c Hc). unfold Con.scroll_if_full.
  destruct (Z.eqb_spec (c_max_row (con_cursor c)) (c_row (con_cursor c))) as [E|E].
  - destruct (scroll_down_spec c Hc (eq_sym E)) as [Hp Hk _ _].
    assert (Hcur : cursor_ok (con_cursor (Con._scroll_down c))) by (rewrite Hk; split; simpl; lia).
    split_and!; [by eapply con_ok_pres|done|rewrite Hk; simpl; lia|by rewrite Hk|lia].
  - split_and!; try done. lia.
Qed.

Lemma move_ok c f :
  con_ok c -> c_max_col (f (con_cursor c)) = c_max_col (con_cursor c) /\ c_max_row (f (con_cursor c)) = c_max_row (con_cursor c) ->
  0 <= c_col (f (con_cursor c)) < c_max_col (con_cursor c) ->
  0 <= c_row (f (con_cursor c)) <= c_max_row (con_cursor c) ->
  con_ok (Con.move f c) /\ con_pres c (Con.move f c).
Proof.
  intros Hc [E1 E2] H1 H2. assert (Hp : con_pres c (Con.move f c)) by (by apply move_pres).
  split; [|done]. eapply con_ok_pres; [done|done|]. split; simpl; rewrite ?E1, ?E2; done.
Qed.

Lemma put_glyph_ok c chr : con_ok c -> 0 <= chr <= 127 -> c_row (con_cursor c) < c_max_row (con_cursor c) ->
  con_ok (Con.put_glyph chr c) /\ con_pres c (Con.put_glyph chr c).
Proof.
  intros Hc Hchr Hrow. pose proof (put_glyph_pres c Hc chr Hchr Hrow) as Hp. split; [|done].
  eapply con_ok_pres; [done|done|]. pose proof (con_pos c Hc). pose proof (next_max (con_cursor c)) as [E1 E2].
  unfold cursor_ok. simpl. rewrite E1, E2. destruct (next_pos (con_cursor c)) as [?|?]; lia.
Qed.

Lemma printable_range chr : 0 <= chr < 256 -> Con.printable chr = true -> 32 <= chr <= 127.
Proof.
  unfold Con.printable, ASCII_PRINTABLE_MIN, ASCII_PRINTABLE_MAX. intros Hc. destruct (Z.ltb_spec chr 128); lia.
Qed.

Lemma tab_ok c : con_ok c -> c_row (con_cursor c) < c_max_row (con_cursor c) ->
  con_ok (Con.move Cur.next (Con.move Cur.next (Con.move Cur.next c))) /\
  con_pres c (Con.move Cur.next (Con.move Cur.next (Con.move Cur.next c))).
Proof.
  intros Hc Hrow. pose proof (con_pos c Hc). set (k := con_cursor c) in *.
  change (Con.move Cur.next (Con.move Cur.next (Con.move Cur.next c))) with (Con.move (fun k => Cur.next (Cur.next (Cur.next k))) c).
  pose proof (next_max k) as [A1 A2]. pose proof (next_max (Cur.next k)) as [B1 B2].
  pose proof (next_max (Cur.next (Cur.next k))) as [D1 D2].
  pose proof (next_pos k) as P1. pose proof (next_pos (Cur.next k)) as P2. pose proof (next_pos (Cur.next (Cur.next k))) as P3.
  rewrite ?A1, ?A2, ?B1, ?B2 in *. apply move_ok; [done|fold k; split; congruence|fold k; lia|fold k; lia].
Qed.

(** A character other than a backspace at the origin keeps the invariant. *)
Lemma print_char_ok c chr :
  con_ok c -> 0 <= chr < 256 -> (chr = 8 -> ~ (c_col (con_cursor c) = 0 /\ c_row (con_cursor c) = 0)) ->
  con_ok (Con._print_char chr c) /\ con_pres c (Con._print_char chr c).
Proof.
  intros Hc Hchr Hb. destruct (scroll_if_full_spec c Hc) as (Hc1 & Hp1 & Hrow & Hcol & Hsame).
  unfold Con._print_char. set (c1 := Con.scroll_if_full c) in *.
  destruct (cp_max _ _ Hp1) as [Em Er]. rewrite <- Er in Hrow. pose proof (con_pos c1 Hc1) as (P1 & P2 & P3 & P4).
  assert (Hgo : forall c', con_ok c' /\ con_pres c1 c' -> con_ok c' /\ con_pres c c').
  { intros c' [? ?]. split; [done|by etransitivity]. }
  apply Hgo. clear Hgo. destruct (Con.printable chr) eqn:Ep.
  { apply printable_range in Ep; [|done]. apply put_glyph_ok; [done|lia|done]. }
  destruct (chr =? 10).
  { change (Con.move Cur.cr (Con.move Cur.lf c1)) with (Con.move (fun k => Cur.cr (Cur.lf k)) c1).
    apply move_ok; [done|done|simpl; lia|simpl; wordify; lia]. }
  destruct (chr =? 9); [by apply tab_ok|].
  destruct (chr =? 13); [apply move_ok; [done|done|simpl; lia|simpl; lia]|].
  destruct (Z.eqb_spec chr 8) as [->|]; [|done].
  assert (Hno : ~ (c_col (con_cursor c1) = 0 /\ c_row (con_cursor c1) = 0)).
  { intros [E1 E2]. pose proof (con_pos c Hc).
    destruct (decide (c_row (con_cursor c) < c_max_row (con_cursor c))) as [Hlt|Hge].
    - rewrite (Hsame Hlt) in E2. apply (Hb eq_refl). lia.
    - destruct (scroll_down_spec c Hc) as [_ Hk _ _]; [lia|]. unfold c1, Con.scroll_if_full in E2.
      rewrite (proj2 (Z.eqb_eq _ _)), Hk in E2 by lia. simpl in E2. lia. }
  pose proof (back_max (con_cursor c1)) as Bm.
  destruct (move_ok c1 Cur.back) as [Hc2 Hp2]; [done|done|destruct (back_pos (con_cursor c1)) as [?|?]; lia..|].
  set (c2 := Con.move Cur.back c1) in *.
  assert (Hr2 : c_row (con_cursor c2) < c_max_row (con_cursor c2)).
  { change (c_row (Cur.back (con_cursor c1)) < c_max_row (Cur.back (con_cursor c1))).
    rewrite (proj2 Bm). destruct (back_pos (con_cursor c1)) as [?|?]; lia. }
  destruct (scroll_if_full_spec c2 Hc2) as (_ & _ & _ & _ & Hs2). rewrite (Hs2 Hr2).
  destruct (put_glyph_ok c2 32) as [Hc3 Hp3]; [done|lia|done|]. set (c3 := Con.put_glyph 32 c2) in *.
  pose proof (con_pos c2 Hc2) as (Q1 & Q2 & Q3 & Q4). pose proof (con_pos c3 Hc3) as (R1 & R2 & R3 & R4).
  assert (Hn3 : ~ (c_col (con_cursor c3) = 0 /\ c_row (con_cursor c3) = 0)).
  { change (con_cursor c3) with (Cur.next (con_cursor c2)). destruct (next_pos (con_cursor c2)) as [?|?]; lia. }
  destruct (move_ok c3 Cur.back) as [Hc4 Hp4];
    [done|apply back_max|destruct (back_pos (con_cursor c3)) as [?|?]; lia..|].
  split; [done|]. etransitivity; [exact Hp2|]. by etransitivity.
Qed.

Lemma print_chars_ok c str :
  con_ok c -> Forall (fun chr => 0 <= chr < 256 /\ chr <> 8) str ->
  con_ok (foldl (fun c chr => Con._print_char chr c) c str) /\ con_pres c (foldl (fun c chr => Con._print_char chr c) c str).
Proof.
  intros Hc Hs. revert c Hc. induction Hs as [|chr str [Hb H8] _ IH]; intros c Hc; simpl; [done|].
  destruct (print_char_ok c chr) as [H1 H2]; [done|done|lia|]. destruct (IH _ H1). split; [done|by etransitivity].
Qed.
