(* ===== verification/ConsoleProps.v ===== *)
(** * ConsoleProps: the guarantees of the text console *)
From Stdlib Require Import String.
From S2P Require Import Prelude Memory Libc Printf Framebuffer Console.

(** ** A sample: 800 by 600 pixels, glyphs of 8 by 16, the default cursor *)
Definition con_sample_fb : Framebuffer := mkFb 1920000 800 600 800 4 0x80000000 0x1000000.
Definition con_sample : Console :=
  Con.make (mkFont 0x1000 16 8 0x2000) con_sample_fb (<[0x1003 := 16]> ∅).

Lemma con_sample_charsize : Con.charsize con_sample = 16.
Proof. by vm_compute. Qed.

Lemma con_sample_ok : con_ok con_sample.
Proof.
  split; [rewrite con_sample_charsize|split; simpl; unfold DEFAULT_MAX_COL, DEFAULT_MAX_ROW; lia].
  split; simpl; unfold DEFAULT_MAX_COL, DEFAULT_MAX_ROW, outside; simpl; try lia.
  split; simpl; lia.
Qed.

(** ** Properties *)

(** [Console::print] is safe.  On a console whose text area fits the screen,
    printing any string without backspaces keeps the cursor inside the text area
    (column below [max_col], row at most [max_row]), writes to the video memory
    only (the double buffer, the four bytes after it, the framebuffer), leaves the
    font alone, and ends with the framebuffer equal to the double buffer. *)
Theorem console_print_safe (c : Console) (str : list Z) :
  con_ok c -> Forall (fun chr => 0 <= chr < 256 /\ chr <> 8) str ->
  let c' := Con.print str c in
  cursor_ok (con_cursor c') /\ con_ok c' /\
  (forall a, ~ video (con_fb c) a -> mget (con_mem c') a = mget (con_mem c) a) /\
  (forall i, 0 <= i < fb_b_size (con_fb c) ->
     mget (con_mem c') (fb_addr (con_fb c) + i) = mget (con_mem c') (fb_double_addr (con_fb c) + i)).
Proof.
  intros Hc Hs. destruct (print_chars_ok c str Hc Hs) as [H1 H2]. unfold Con.print. set (c1 := foldl _ c str) in *.
  pose proof (draw_pres c1 H1) as H3. assert (H4 : con_ok (Con.draw c1)) by (eapply con_ok_pres; [done|done|apply H1]).
  assert (H5 : con_pres c (Con.draw c1)) by (by etransitivity).
  split_and!; [apply H4|done|apply H5|]. rewrite <- (cp_fb _ _ H2). intros i Hi.
  destruct H1 as [[Hfb _ _ _ Hap _ _] _]. apply (draw_spec _ Hfb); lia.
Qed.

Lemma console_print_safe_witness : cursor_ok (con_cursor (Con.print (cs "Hello" ++ NL) con_sample)).
Proof. apply (console_print_safe con_sample (cs "Hello" ++ NL) con_sample_ok). repeat constructor; by vm_compute. Defined.

(** [Console::_print_char] of a printable character draws its glyph in the
    cell of the cursor: pixel (x, y) of the cell gets the foreground colour when
    bit [7 - x] of byte [y] of the glyph is set and the background colour
    otherwise; the cursor moves to the next cell. *)
Theorem print_char_draws_glyph (c : Console) (chr x y : Z) :
  con_ok c -> 32 <= chr <= 127 -> c_row (con_cursor c) < c_max_row (con_cursor c) ->
  0 <= x < cf_glyph_width (con_font c) -> 0 <= y < cf_glyph_height (con_font c) ->
  let k := con_cursor c in
  let c' := Con._print_char chr c in
  pixel (con_fb c) (con_mem c')
    (c_col k * cf_glyph_width (con_font c) + x) (c_row k * cf_glyph_height (con_font c) + y) =
    u32 (if Z.testbit (mget (con_mem c) (cf_glyph_buffer (con_font c) + chr * Con.charsize c + y)) (7 - x)
         then c_fg k else c_bg k) /\
  con_cursor c' = Cur.next k.
Proof.
  intros Hc Hchr Hrow Hx Hy k c'. destruct (scroll_if_full_spec c Hc) as (_ & _ & _ & _ & Hs).
  assert (Ec : c' = Con.put_glyph chr c).
  { unfold c', Con._print_char. rewrite (Hs Hrow).
    replace (Con.printable chr) with true; [done|]. symmetry.
    unfold Con.printable, ASCII_PRINTABLE_MIN, ASCII_PRINTABLE_MAX. destruct (Z.ltb_spec chr 128); lia. }
  rewrite Ec. split; [|done]. destruct (cell_offsets c Hc chr Hrow) as [Ex Ey].
  destruct (print_glyph_spec (con_fb c) (ge_fb _ _ _ _ _ (co_geo _ Hc)) (Con.char_glyph chr c) (con_mem c)) as (H1 & _).
  { apply cell_glyph_ok; [done|lia|done]. }
  unfold k. rewrite <- Ex, <- Ey. unfold Con.put_glyph. simpl con_mem. rewrite (H1 x y) by (simpl; lia).
  unfold lo32, Fb.glyph_color. simpl g_bitmap. simpl g_fg_color. simpl g_bg_color.
  set (b := mget (con_mem c) _). rewrite (glyph_bit b x) by (apply mget_range || lia).
  destruct (Z.testbit b (7 - x)); unfold u32; by rewrite Z.mod_mod.
Qed.

Lemma print_char_draws_glyph_witness :
  con_cursor (Con._print_char 65 con_sample) = Cur.next (con_cursor con_sample).
Proof. apply (print_char_draws_glyph con_sample 65 0 0 con_sample_ok); simpl; unfold DEFAULT_MAX_ROW; lia. Defined.

(** [Console::_scroll_down] moves the text up by one line: every pixel above
    the last line takes the value of the pixel one glyph height below, the last
    line is black, and the cursor goes to the last line. *)
Theorem scroll_down_moves_text_up (c : Console) :
  con_ok c -> c_row (con_cursor c) = c_max_row (con_cursor c) ->
  let gh := cf_glyph_height (con_font c) in
  let maxr := c_max_row (con_cursor c) in
  let c' := Con._scroll_down c in
  (forall x y, on_screen (con_fb c) x y -> y < (maxr - 1) * gh ->
     pixel (con_fb c) (con_mem c') x y = pixel (con_fb c) (con_mem c) x (y + gh)) /\
  (forall x y, on_screen (con_fb c) x y -> (maxr - 1) * gh <= y < maxr * gh -> pixel (con_fb c) (con_mem c') x y = 0) /\
  c_row (con_cursor c') = maxr - 1 /\ c_col (con_cursor c') = c_col (con_cursor c).
Proof. intros Hc Hr gh maxr c'. destruct (scroll_down_spec c Hc Hr) as [_ Hk H1 H2]. split_and!; [done|done|by unfold c'; rewrite Hk..]. Qed.

(** The sample with the cursor below the last line. *)
Definition con_full : Console := Con.move (fun k => Cur.gotoxy k 0 37) con_sample.

Lemma con_full_ok : con_ok con_full.
Proof.
  eapply (con_ok_pres con_sample); [apply con_sample_ok|by apply move_pres|].
  split; simpl; unfold DEFAULT_MAX_COL, DEFAULT_MAX_ROW; lia.
Qed.

Lemma scroll_down_moves_text_up_witness : c_row (con_cursor (Con._scroll_down con_full)) = 36.
Proof. apply (scroll_down_moves_text_up con_full con_full_ok eq_refl). Defined.

(** A backspace at the origin takes the cursor out of the text area: the row
    wraps around to 65535. *)
Theorem backspace_at_origin_wraps (c : Console) :
  con_ok c -> c_row (con_cursor c) = 0 -> c_col (con_cursor c) = 0 ->
  c_row (con_cursor (Con._print_char 8 c)) = 65535 /\
  c_col (con_cursor (Con._print_char 8 c)) = c_max_col (con_cursor c) - 1.
Proof.
  intros Hc Hr Hk. pose proof (con_pos c Hc) as (P1 & P2 & P3 & P4).
  destruct (scroll_if_full_spec c Hc) as (_ & _ & _ & _ & Hs).
  unfold Con._print_char. rewrite Hs by lia. change (Con.printable 8) with false. cbv iota. simpl Z.eqb. cbv iota.
  set (k1 := Cur.back (con_cursor c)).
  assert (K1 : c_row k1 = 65535 /\ c_col k1 = c_max_col (con_cursor c) - 1 /\ c_max_row k1 = c_max_row (con_cursor c) /\
    c_max_col k1 = c_max_col (con_cursor c)).
  { unfold k1, Cur.back. rewrite Hr, Hk. simpl. wordify. done. }
  destruct K1 as (A1 & A2 & A3 & A4). unfold Con.scroll_if_full.
  change (con_cursor (Con.move Cur.back c)) with k1. rewrite (proj2 (Z.eqb_neq _ _)) by lia.
  set (k2 := Cur.next k1).
  assert (K2 : c_row k2 = 0 /\ c_col k2 = 0 /\ c_max_col k2 = c_max_col (con_cursor c)).
  { unfold k2, Cur.next. rewrite A1, A2, A4. destruct (Z.ltb_spec (c_max_col (con_cursor c) - 1 + 1) (c_max_col (con_cursor c))); [lia|done]. }
  destruct K2 as (B1 & B2 & B3).
  change (con_cursor (Con.move Cur.back (Con.put_glyph 32 (Con.move Cur.back c)))) with (Cur.back k2).
  unfold Cur.back. rewrite B1, B2, B3. simpl. wordify. done.
Qed.

Lemma backspace_at_origin_wraps_witness : c_row (con_cursor (Con._print_char 8 con_sample)) = 65535.
Proof. apply (backspace_at_origin_wraps con_sample con_sample_ok); done. Defined.

(** [kprintf] on the console of the kernel is safe: when the expansion of the
    format fits the buffer and has no backspace, the call returns a console in its
    invariant, with nothing written outside the video memory. *)
Theorem kprintf_console_safe (c : Console) (str : list Z) (a : list va_arg) (out : list Z) :
  con_ok c -> Printf.expand str a = Some out -> Forall is_char str -> Forall Printf.arg_ok a ->
  Z.of_nat (length str) <= 65535 -> Z.of_nat (length out) < Printf.BUF_SZ ->
  Forall (fun chr => 0 <= chr < 256 /\ chr <> 8) out ->
  exists c', Printf.kprintf str a c = Done c' /\ con_ok c' /\
    forall x, ~ video (con_fb c) x -> mget (con_mem c') x = mget (con_mem c) x.
Proof.
  intros Hc He Hs Ha Hl Ho Hb. exists (Con.print out c). unfold Printf.kprintf.
  rewrite (Printf.format_spec str a out) by done. split; [done|].
  destruct (print_chars_ok c out Hc Hb) as [H1 H2]. pose proof (draw_pres _ H1) as H3.
  split; [eapply con_ok_pres; [done|done|apply H1]|]. intros x Hx.
  unfold Con.print. rewrite (cp_mem _ _ H3) by (by rewrite (cp_fb _ _ H2)). by apply (cp_mem _ _ H2).
Qed.

Lemma kprintf_console_safe_witness :
  exists c', Printf.kprintf (cs "free: %d") [VaU64 7] con_sample = Done c' /\ con_ok c'.
Proof.
  destruct (kprintf_console_safe con_sample (cs "free: %d") [VaU64 7] (cs "free: 7")) as (c' & E & Hc' & _);
    [apply con_sample_ok|by vm_compute|by repeat constructor|repeat constructor; by vm_compute|by vm_compute|by vm_compute
    |repeat constructor; by vm_compute|].
  exists c'. split; [exact E|exact Hc'].
Defined.
