(* ===== verification/Terminal.v ===== *)
(** * Terminal: the console as a grid of characters

    The abstract terminal is what a user of the console sees: a grid of cells and
    a place to write at.  [shows] relates it to the pixels of a [Console], and
    [console_refines_terminal] shows that printing, with its scrolling, its control
    characters and its 64-bit pixel stores, keeps the two together. *)
From Stdlib Require Import String.
From S2P Require Import Prelude Memory Libc Printf Framebuffer Console ConsoleProps.

(** ** The abstract terminal *)

(** What is drawn in a cell: nothing since it was cleared, or a character. *)
Inductive ink : Type :=
| Blank
| Ink (chr fg bg : Z).

(** [cl_cut]: the cell may have lost its first column of pixels to the cell on its
    left, which was written after it. *)
Record cell : Type := mkCell { cl_ink : ink; cl_cut : bool }.
Definition blank : cell := mkCell Blank false.

Record Term : Type := mkTerm { t_row : Z; t_col : Z; t_grid : Z -> Z -> cell }.

(** The size of the grid, the colours, and whether the last column of the grid is also the
    last of the scan line, so that the cell behind it is the first one. *)
Record TermCfg : Type := mkTermCfg { tc_rows : Z; tc_cols : Z; tc_fg : Z; tc_bg : Z; tc_wrap : bool }.

Module Tm.
Section Ops.
Context (g : TermCfg).

Definition goto (t : Term) (row col : Z) : Term := mkTerm row col (t_grid t).

Definition next (t : Term) : Term :=
  if t_col t + 1 <? tc_cols g then goto t (t_row t) (t_col t + 1) else goto t (t_row t + 1) 0.

Definition back (t : Term) : Term :=
  if 0 <? t_col t then goto t (t_row t) (t_col t - 1) else goto t (t_row t - 1) (tc_cols g - 1).

(** The cells whose first column is lost when the cell (row, col) is written. *)
Definition cuts (row col i j : Z) : bool :=
  (i =? row) && (j =? col + 1) ||
  tc_wrap g && (col + 1 =? tc_cols g) && (j =? 0) && ((i =? row) || (i =? row + 1)).

Definition write (chr : Z) (t : Term) : Term :=
  mkTerm (t_row t) (t_col t) (fun i j =>
    if (i =? t_row t) && (j =? t_col t) then mkCell (Ink chr (tc_fg g) (tc_bg g)) false
    else if cuts (t_row t) (t_col t) i j then mkCell (cl_ink (t_grid t i j)) true
    else t_grid t i j).

Definition put (chr : Z) (t : Term) : Term := next (write chr t).

(** Below the last line, the lines move up and the last one is cleared. *)
Definition scroll (t : Term) : Term :=
  if t_row t =? tc_rows g then
    mkTerm (tc_rows g - 1) (t_col t) (fun i j => if i =? tc_rows g - 1 then blank else t_grid t (i + 1) j)
  else t.

Definition char (t : Term) (chr : Z) : Term :=
  let t := scroll t in
  if Con.printable chr then put chr t
  else if chr =? 10 then goto t (t_row t + 1) 0
  else if chr =? 9 then next (next (next t))
  else if chr =? 13 then goto t (t_row t) 0
  else if chr =? 8 then back (put 32 (back t))
  else t.

Definition text (t : Term) (str : list Z) : Term := foldl char t str.

(** No backspace comes at the origin, where the row would wrap around. *)
Definition at_origin (t : Term) : bool := (t_row t =? 0) && (t_col t =? 0).
Fixpoint backs_ok (t : Term) (str : list Z) : bool :=
  match str with
  | [] => true
  | chr :: str => negb ((chr =? 8) && at_origin t) && backs_ok (char t chr) str
  end.
End Ops.

(** The terminal after [Console::clear]. *)
Definition clear : Term := mkTerm 0 0 (fun _ _ => blank).
End Tm.

(** ** The pixels of a cell *)

Definition cfg_of (c : Console) : TermCfg :=
  let k := con_cursor c in
  mkTermCfg (c_max_row k) (c_max_col k) (c_fg k) (c_bg k)
    (c_max_col k * cf_glyph_width (con_font c) =? fb_px_per_scan (con_fb c)).

(** The colour of pixel (x, y) of a cell. *)
Definition ink_pixel (c : Console) (k : ink) (x y : Z) : Z :=
  match k with
  | Blank => 0
  | Ink chr fg bg =>
      u32 (if Z.testbit (mget (con_mem c) (cf_glyph_buffer (con_font c) + chr * Con.charsize c + y)) (7 - x)
           then fg else bg)
  end.
Definition ink_ok (k : ink) : Prop := match k with Blank => True | Ink chr _ _ => 32 <= chr <= 127 end.

Definition cell_pixel (c : Console) (k : cell) (x y p : Z) : Prop :=
  p = ink_pixel c (cl_ink k) x y \/ (x = 0 /\ cl_cut k = true /\ p = 0).

(** A place in the grid and a pixel of its cell. *)
Definition in_grid (c : Console) (i j x y : Z) : Prop :=
  (0 <= i < c_max_row (con_cursor c) /\ 0 <= j < c_max_col (con_cursor c)) /\
  0 <= x < cf_glyph_width (con_font c) /\ 0 <= y < cf_glyph_height (con_font c).
Definition cell_at (c : Console) (rd : Z -> Z -> Z) (i j x y : Z) : Z :=
  rd (j * cf_glyph_width (con_font c) + x) (i * cf_glyph_height (con_font c) + y).

Record shows (g : TermCfg) (c : Console) (t : Term) : Prop := {
  sh_cfg : cfg_of c = g;
  sh_row : c_row (con_cursor c) = t_row t;
  sh_col : c_col (con_cursor c) = t_col t;
  sh_ink : forall i j, ink_ok (cl_ink (t_grid t i j));
  sh_cells : forall i j x y, in_grid c i j x y ->
    cell_pixel c (t_grid t i j) x y (cell_at c (pixel (con_fb c) (con_mem c)) i j x y)
}.

(** ** The grid on the screen *)

Lemma grid_on_screen c i j x y : con_ok c -> in_grid c i j x y ->
  on_screen (con_fb c) (j * cf_glyph_width (con_font c) + x) (i * cf_glyph_height (con_font c) + y).
Proof. intros [[_ _ [_ Cw] [_ Cr] _ _ _] _] [[Hi Hj] [Hx Hy]]. split; nia. Qed.

(** Offsets inside cells of one size determine the cell. *)
Lemma cell_unique w j x j' x' : 0 <= x < w -> 0 <= x' < w -> j * w + x = j' * w + x' -> j = j' /\ x = x'.
Proof. intros. assert (j = j') by nia. subst. lia. Qed.

Lemma ink_pixel_pres c c' k x y : con_ok c -> con_pres c c' -> ink_ok k -> 0 <= y < cf_glyph_height (con_font c) ->
  ink_pixel c' k x y = ink_pixel c k x y.
Proof.
  intros Hc Hp Hk Hy. destruct k as [|chr fg bg]; [done|]. simpl in *. rewrite (charsize_pres _ _ Hc Hp), (cp_font _ _ Hp).
  assert (Hcs : 0 <= Con.charsize c) by (unfold Con.charsize; rewrite read8_mget; apply mget_range).
  rewrite (cp_mem _ _ Hp); [done|]. destruct Hc as [[_ _ _ _ _ Hf _] _].
  destruct (Hf (cf_glyph_buffer (con_font c) + chr * Con.charsize c + y)) as [? ?]; [nia|]. by apply not_video.
Qed.

Lemma cell_pixel_pres c c' k x y p : con_ok c -> con_pres c c' -> ink_ok (cl_ink k) -> 0 <= y < cf_glyph_height (con_font c) ->
  cell_pixel c k x y p -> cell_pixel c' k x y p.
Proof. intros. unfold cell_pixel. rewrite (ink_pixel_pres c c') by done. done. Qed.

(** ** Steps of the simulation *)

Definition colours (c : Console) : Z * Z := (c_fg (con_cursor c), c_bg (con_cursor c)).

(** A step that keeps the geometry shows the new grid when its pixels do. *)
Lemma shows_step g c t c' t' :
  con_ok c -> shows g c t -> con_pres c c' -> colours c' = colours c ->
  c_row (con_cursor c') = t_row t' -> c_col (con_cursor c') = t_col t' ->
  (forall i j, ink_ok (cl_ink (t_grid t' i j))) ->
  (forall i j x y, in_grid c i j x y ->
     cell_pixel c (t_grid t' i j) x y (cell_at c (pixel (con_fb c) (con_mem c')) i j x y)) ->
  shows g c' t'.
Proof.
  intros Hc Hs Hp Hcol Hr Hk Hi Hpx. pose proof Hp as [F B [X Y] M]. injection Hcol as Hfg Hbg. split; [|done..|].
  - rewrite <- (sh_cfg _ _ _ Hs). unfold cfg_of. by rewrite F, B, X, Y, Hfg, Hbg.
  - intros i j x y Hin. unfold in_grid in Hin. rewrite X, Y, F in Hin. unfold cell_at. rewrite F, B.
    apply (cell_pixel_pres c c'); [done|done|done|apply Hin|by apply Hpx].
Qed.

(** The cursor is where the terminal writes. *)
Definition cur_at (g : TermCfg) (k : ConsoleCursor) (t : Term) : Prop :=
  c_row k = t_row t /\ c_col k = t_col t /\ c_max_col k = tc_cols g.

Lemma shows_cur g c t : shows g c t -> cur_at g (con_cursor c) t.
Proof. intros [<- ? ? _ _]. done. Qed.

Lemma next_grid g t : t_grid (Tm.next g t) = t_grid t.
Proof. unfold Tm.next. by destruct (_ <? _). Qed.
Lemma back_grid g t : t_grid (Tm.back g t) = t_grid t.
Proof. unfold Tm.back. by destruct (_ <? _). Qed.

Lemma next_match g k t :
  0 <= c_col k < c_max_col k -> c_max_col k < 65536 -> 0 <= c_row k < 65535 -> cur_at g k t ->
  cur_at g (Cur.next k) (Tm.next g t).
Proof.
  intros H1 H2 H3 (Er & Ec & Em). unfold cur_at. rewrite (proj1 (next_max k)). unfold Tm.next. rewrite <- Er, <- Ec, <- Em.
  destruct (next_pos k) as [(H & -> & ->)|(H & -> & ->)]; [lia..| |].
  - by rewrite (proj2 (Z.ltb_lt _ _)).
  - by rewrite (proj2 (Z.ltb_ge _ _)) by lia.
Qed.

Lemma back_match g k t :
  0 <= c_col k < c_max_col k -> c_max_col k < 65536 -> 0 <= c_row k < 65536 -> Tm.at_origin t = false -> cur_at g k t ->
  cur_at g (Cur.back k) (Tm.back g t).
Proof.
  intros H1 H2 H3 Ho (Er & Ec & Em). unfold cur_at. rewrite (proj1 (back_max k)). unfold Tm.at_origin in Ho. unfold Tm.back.
  rewrite <- Er, <- Ec, <- Em in *. destruct (back_pos k) as [(H & -> & ->)|(H & -> & ->)]; [lia..| |].
  - by rewrite (proj2 (Z.ltb_lt _ _)).
  - by rewrite (proj2 (Z.ltb_ge _ _)) by lia.
Qed.

Lemma next_colours k : (c_fg (Cur.next k), c_bg (Cur.next k)) = (c_fg k, c_bg k).
Proof. unfold Cur.next. by destruct (_ <? _). Qed.
Lemma back_colours k : (c_fg (Cur.back k), c_bg (Cur.back k)) = (c_fg k, c_bg k).
Proof. unfold Cur.back. by destruct (_ <? _). Qed.

(** Moving the cursor. *)
Lemma shows_move g c t f t' :
  con_ok c -> shows g c t -> con_pres c (Con.move f c) -> colours (Con.move f c) = colours c ->
  cur_at g (f (con_cursor c)) t' -> t_grid t' = t_grid t -> shows g (Con.move f c) t'.
Proof.
  intros Hc Hs Hp Hcol (Hr & Hk & _) Hg. apply (shows_step g c t); try done; rewrite Hg; [apply Hs|].
  intros i j x y Hin. by apply (sh_cells _ _ _ Hs).
Qed.

(** ** Writing a cell *)
Section Put.
Context (g : TermCfg) (c : Console) (t : Term) (chr : Z).
Hypothesis Hc : con_ok c.
Hypothesis Hs : shows g c t.
Hypothesis Hchr : 32 <= chr <= 127.
Hypothesis Hrow : c_row (con_cursor c) < c_max_row (con_cursor c).
Let gl := Con.char_glyph chr c.
Let gw := cf_glyph_width (con_font c).
Let gh := cf_glyph_height (con_font c).

Lemma put_glyph_place : g_x_off gl = t_col t * gw /\ g_y_off gl = t_row t * gh /\ glyph_ok (con_fb c) gl.
Proof.
  assert (0 <= chr <= 127) as Hr by lia. destruct (cell_offsets c Hc chr Hrow) as [Ex Ey].
  rewrite <- (sh_row _ _ _ Hs), <- (sh_col _ _ _ Hs). split_and!; [done|done|by apply cell_glyph_ok].
Qed.

(** The cell of the cursor gets the glyph. *)
Lemma put_own_cell x y : 0 <= x < gw -> 0 <= y < gh ->
  pixel (con_fb c) (con_mem (Con.put_glyph chr c)) (t_col t * gw + x) (t_row t * gh + y) =
  ink_pixel c (Ink chr (tc_fg g) (tc_bg g)) x y.
Proof.
  intros Hx Hy. destruct put_glyph_place as (Ex & Ey & Hg).
  destruct (print_glyph_spec (con_fb c) (ge_fb _ _ _ _ _ (co_geo _ Hc)) gl (con_mem c) Hg) as (H1 & _).
  rewrite <- Ex, <- Ey. change (con_mem (Con.put_glyph chr c)) with (Fb.print_glyph (con_fb c) gl (con_mem c)).
  rewrite (H1 x y) by (simpl; unfold gw, gh in *; lia).
  unfold lo32, Fb.glyph_color, ink_pixel. simpl g_bitmap. simpl g_fg_color. simpl g_bg_color.
  set (b := mget (con_mem c) _). rewrite (glyph_bit b x) by (apply mget_range || lia). rewrite <- (sh_cfg _ _ _ Hs).
  simpl tc_fg. simpl tc_bg. destruct (Z.testbit b (7 - x)); unfold u32; by rewrite Z.mod_mod.
Qed.

(** A pixel behind the glyph that is in the grid is in the first column of a cut cell. *)
Lemma behind_cut i j x y : in_grid c i j x y -> behind_glyph (con_fb c) gl (j * gw + x) (i * gh + y) ->
  x = 0 /\ Tm.cuts g (t_row t) (t_col t) i j = true.
Proof.
  intros Hin (k & Hk & E). destruct put_glyph_place as (Ex & Ey & Hg). pose proof (grid_on_screen c i j x y Hc Hin) as Hon.
  pose proof (con_pos c Hc) as (P1 & P2 & _). rewrite (sh_row _ _ _ Hs), (sh_col _ _ _ Hs) in *.
  destruct Hc as [[Hfb [Dw Dh] [_ Cw] [_ Cr] _ _ _] _], Hin as [[Hi Hj] [Hx Hy]], Hg as [GX GY _ _].
  change (g_width gl) with gw in *. change (g_height gl) with gh in *. rewrite Ex, Ey in *.
  change (0 <= x < gw) in Hx. change (0 <= y < gh) in Hy. change (c_max_col (con_cursor c) * gw <= fb_width (con_fb c)) in Cw.
  change (c_max_row (con_cursor c) * gh <= fb_height (con_fb c)) in Cr. change (0 < gw < 256) in Dw. change (0 < gh < 256) in Dh.
  change (on_screen (con_fb c) (j * gw + x) (i * gh + y)) in Hon.
  unfold Tm.cuts. apply px_index_next in E as [[E1 E2]|(E0 & E1 & E2 & E3)]; [| |done|split; lia|done].
  - destruct (cell_unique gw j x (t_col t + 1) 0) as [-> ->]; [lia..|].
    destruct (cell_unique gh i y (t_row t) k) as [-> ->]; [lia..|]. by rewrite !Z.eqb_refl.
  - assert (j = 0 /\ x = 0) as [-> ->] by nia. split; [done|]. rewrite <- (sh_cfg _ _ _ Hs). simpl tc_wrap. simpl tc_cols.
    assert (Ec : t_col t + 1 = c_max_col (con_cursor c)) by nia. rewrite Ec, Z.eqb_refl.
    rewrite (proj2 (Z.eqb_eq (c_max_col (con_cursor c) * cf_glyph_width (con_font c)) _)) by (fold gw; nia).
    assert (i = t_row t \/ i = t_row t + 1) as Hi' by nia. simpl. lia.
Qed.

(** Every other cell keeps its pixels, but for the first column of a cut one. *)
Lemma put_other_cell i j x y : in_grid c i j x y -> ~ (i = t_row t /\ j = t_col t) ->
  cell_pixel c (if Tm.cuts g (t_row t) (t_col t) i j then mkCell (cl_ink (t_grid t i j)) true else t_grid t i j) x y
    (pixel (con_fb c) (con_mem (Con.put_glyph chr c)) (j * gw + x) (i * gh + y)).
Proof.
  intros Hin Hne. destruct put_glyph_place as (Ex & Ey & Hg). pose proof (grid_on_screen c i j x y Hc Hin) as Hon.
  pose proof (sh_cells _ _ _ Hs _ _ _ _ Hin) as Hold. unfold cell_at in Hold. fold gw gh in Hold, Hon.
  change (con_mem (Con.put_glyph chr c)) with (Fb.print_glyph (con_fb c) gl (con_mem c)).
  destruct (print_glyph_spill (con_fb c) (ge_fb _ _ _ _ _ (co_geo _ Hc)) gl (con_mem c) Hg) with
    (x := j * gw + x) (y := i * gh + y) as [E|[E Hb]]; [by apply u32_range|by apply u32_range|done|..].
  - intros [Gx Gy]. rewrite Ex, Ey in *. destruct Hin as [_ [Hx Hy]]. fold gw gh in Hx, Hy. simpl in Gx, Gy. fold gw gh in Gx, Gy.
    apply Hne. split; nia.
  - rewrite E. destruct (Tm.cuts _ _ _ _ _); [|done]. destruct Hold as [->|(-> & _ & ->)]; [by left|by right].
  - destruct (behind_cut i j x y Hin Hb) as [-> ->]. right. by rewrite E.
Qed.

Lemma shows_put : shows g (Con.put_glyph chr c) (Tm.put g chr t).
Proof.
  destruct (put_glyph_ok c chr) as [_ Hp]; [done|lia|done|]. pose proof (con_pos c Hc) as (P1 & P2 & P3 & P4).
  destruct (next_match g (con_cursor c) (Tm.write g chr t)) as (Er & Ek & _); [lia..|by apply (shows_cur g c t)|].
  apply (shows_step g c t); [done|done|done|apply next_colours|done|done|..]; unfold Tm.put; rewrite next_grid; simpl t_grid.
  - intros i j. destruct (_ && _); [done|]. destruct (Tm.cuts _ _ _ _ _); apply Hs.
  - intros i j x y Hin. unfold cell_at. fold gw gh.
    destruct (Z.eqb_spec i (t_row t)) as [->|Hi], (Z.eqb_spec j (t_col t)) as [->|Hj]; simpl andb; cbv iota;
      [left; apply put_own_cell; apply Hin|apply put_other_cell; tauto..].
Qed.
End Put.

(** ** Scrolling *)
Lemma shows_scroll g c t : con_ok c -> shows g c t -> shows g (Con.scroll_if_full c) (Tm.scroll g t).
Proof.
  intros Hc Hs. pose proof (con_pos c Hc) as (P1 & P2 & P3 & P4). unfold Con.scroll_if_full, Tm.scroll.
  rewrite <- (sh_row _ _ _ Hs), (Z.eqb_sym (c_row _)), <- (sh_cfg _ _ _ Hs). simpl tc_rows.
  destruct (Z.eqb_spec (c_max_row (con_cursor c)) (c_row (con_cursor c))) as [E|E]; [|by rewrite (sh_cfg _ _ _ Hs)].
  destruct (scroll_down_spec c Hc (eq_sym E)) as [Hp Hk Hup Hcl]. rewrite (sh_cfg _ _ _ Hs).
  apply (shows_step g c t); [done|done|done|unfold colours; by rewrite Hk|by rewrite Hk|rewrite Hk; apply Hs|..]; simpl t_grid.
  - intros i j. destruct (_ =? _); [done|]. apply Hs.
  - intros i j x y Hin. pose proof (grid_on_screen c i j x y Hc Hin) as Hon. destruct Hin as [[Hi Hj] [Hx Hy]]. unfold cell_at.
    destruct (Z.eqb_spec i (c_max_row (con_cursor c) - 1)) as [->|Hne].
    + left. apply Hcl; [done|]. nia.
    + rewrite Hup by (done || nia). pose proof (sh_cells _ _ _ Hs (i + 1) j x y) as Hold. unfold cell_at in Hold.
      replace (i * cf_glyph_height (con_font c) + y + cf_glyph_height (con_font c))
        with ((i + 1) * cf_glyph_height (con_font c) + y) by lia.
      apply Hold. split; lia.
Qed.

(** ** Characters *)
Section Char.
Context (g : TermCfg) (c : Console) (t : Term).
Hypothesis Hc : con_ok c.
Hypothesis Hs : shows g c t.
Hypothesis Hrow : c_row (con_cursor c) < c_max_row (con_cursor c).

Lemma shows_newline : shows g (Con.move Cur.cr (Con.move Cur.lf c)) (Tm.goto t (t_row t + 1) 0).
Proof.
  pose proof (con_pos c Hc) as (P1 & P2 & P3 & P4). destruct (shows_cur _ _ _ Hs) as (E1 & E2 & E3).
  change (Con.move Cur.cr (Con.move Cur.lf c)) with (Con.move (fun k => Cur.cr (Cur.lf k)) c).
  apply (shows_move g c t); [done|done|by apply move_pres|done| |done].
  split_and!; [simpl; rewrite <- E1; wordify; lia|done|done].
Qed.

Lemma shows_return : shows g (Con.move Cur.cr c) (Tm.goto t (t_row t) 0).
Proof.
  destruct (shows_cur _ _ _ Hs) as (E1 & E2 & E3). by apply (shows_move g c t); [done|done|apply move_pres|..].
Qed.

Lemma shows_tab :
  shows g (Con.move Cur.next (Con.move Cur.next (Con.move Cur.next c))) (Tm.next g (Tm.next g (Tm.next g t))).
Proof.
  destruct (tab_ok c Hc Hrow) as [_ Hp]. pose proof (con_pos c Hc) as (P1 & P2 & P3 & P4).
  change (Con.move Cur.next (Con.move Cur.next (Con.move Cur.next c)))
    with (Con.move (fun k => Cur.next (Cur.next (Cur.next k))) c) in *.
  apply (shows_move g c t); [done|done|done| | |by rewrite !next_grid].
  - unfold colours. simpl. by rewrite !next_colours.
  - pose proof (shows_cur _ _ _ Hs) as Hk. set (k := con_cursor c) in *. clearbody k. clear Hp.
    pose proof (proj1 (next_max k)) as M1. pose proof (proj1 (next_max (Cur.next k))) as M2.
    pose proof (next_pos k) as N1. pose proof (next_pos (Cur.next k)) as N2. rewrite M1 in N2.
    apply next_match; [rewrite M2, M1; lia|lia|lia|]. apply next_match; [rewrite M1; lia|lia|lia|].
    apply next_match; [lia|lia|lia|done].
Qed.

End Char.

Lemma shows_back g c t : con_ok c -> shows g c t -> Tm.at_origin t = false ->
  con_ok (Con.move Cur.back c) /\ shows g (Con.move Cur.back c) (Tm.back g t) /\
  (c_row (con_cursor c) < c_max_row (con_cursor c) ->
   c_row (con_cursor (Con.move Cur.back c)) < c_max_row (con_cursor (Con.move Cur.back c))).
Proof.
  intros Hc Hs Ho. pose proof (con_pos c Hc) as (P1 & P2 & P3 & P4). pose proof (back_max (con_cursor c)) as [B1 B2].
  pose proof (shows_cur _ _ _ Hs) as Hk. assert (Hn : ~ (c_col (con_cursor c) = 0 /\ c_row (con_cursor c) = 0)).
  { destruct Hk as (-> & -> & _). unfold Tm.at_origin in Ho. lia. }
  pose proof (back_pos (con_cursor c)) as Bp. destruct (move_ok c Cur.back) as [H1 H2]; [done|done|lia|lia|].
  split_and!; [done| |simpl; lia]. apply (shows_move g c t); [done|done|done|apply back_colours| |apply back_grid].
  apply back_match; [lia..|done|done].
Qed.

(** A backspace wipes the cell before the cursor. *)
Lemma shows_backspace g c t :
  con_ok c -> shows g c t -> c_row (con_cursor c) < c_max_row (con_cursor c) -> Tm.at_origin t = false ->
  shows g (Con.move Cur.back (Con.put_glyph 32 (Con.scroll_if_full (Con.move Cur.back c)))) (Tm.back g (Tm.put g 32 (Tm.back g t))).
Proof.
  intros Hc Hs Hrow Ho. destruct (shows_back g c t Hc Hs Ho) as (Hc1 & Hs1 & Hr1). specialize (Hr1 Hrow).
  set (c1 := Con.move Cur.back c) in *. destruct (scroll_if_full_spec c1 Hc1) as (_ & _ & _ & _ & Heq). rewrite (Heq Hr1).
  destruct (put_glyph_ok c1 32) as [Hc2 _]; [done|lia|done|].
  pose proof (shows_put g c1 _ 32 Hc1 Hs1 ltac:(lia) Hr1) as Hs2. apply shows_back; [done|done|].
  pose proof (con_pos c1 Hc1). unfold Tm.at_origin. rewrite <- (sh_row _ _ _ Hs2), <- (sh_col _ _ _ Hs2).
  change (con_cursor (Con.put_glyph 32 c1)) with (Cur.next (con_cursor c1)).
  destruct (next_pos (con_cursor c1)) as [(? & -> & ->)|(? & -> & ->)]; [lia..| |];
    apply andb_false_iff; [right|left]; apply Z.eqb_neq; lia.
Qed.

(** Scrolling never brings the terminal to the origin. *)
Lemma scroll_origin g t : 1 < tc_rows g -> Tm.at_origin t = false -> Tm.at_origin (Tm.scroll g t) = false.
Proof.
  unfold Tm.scroll. intros Hr Ho. destruct (_ =? _); [|done]. apply andb_false_iff. left. apply Z.eqb_neq. simpl. lia.
Qed.

Lemma shows_char g c t chr :
  con_ok c -> shows g c t -> 0 <= chr < 256 -> (chr =? 8) && Tm.at_origin t = false ->
  shows g (Con._print_char chr c) (Tm.char g t chr).
Proof.
  intros Hc Hs Hchr Hb. destruct (scroll_if_full_spec c Hc) as (Hc1 & Hp1 & Hrow & _ & _).
  pose proof (shows_scroll g c t Hc Hs) as Hs1. unfold Con._print_char, Tm.char. rewrite <- (proj2 (cp_max _ _ Hp1)) in Hrow.
  set (c1 := Con.scroll_if_full c) in *. cbv zeta.
  destruct (Con.printable chr) eqn:Ep; [apply shows_put; [done|done|by apply printable_range|done]|].
  destruct (chr =? 10); [by apply shows_newline|]. destruct (chr =? 9); [by apply shows_tab|].
  destruct (chr =? 13); [by apply shows_return|]. destruct (chr =? 8); [|done].
  apply shows_backspace; [done|done|done|]. apply scroll_origin; [|done].
  rewrite <- (sh_cfg _ _ _ Hs). pose proof (con_pos c Hc). simpl. lia.
Qed.

Lemma shows_text g str c t :
  con_ok c -> shows g c t -> Forall is_char str -> Tm.backs_ok g t str = true ->
  let c' := foldl (fun c chr => Con._print_char chr c) c str in
  con_ok c' /\ con_pres c c' /\ shows g c' (Tm.text g t str).
Proof.
  intros Hc Hs Hstr. revert c t Hc Hs. induction Hstr as [|chr str Hchr _ IH]; intros c t Hc Hs Hb; simpl; [done|].
  simpl in Hb. apply andb_prop in Hb as [Hb1 Hb2]. apply negb_true_iff in Hb1.
  assert (0 <= chr < 256) as Hr by (unfold is_char in Hchr; lia). destruct (print_char_ok c chr Hc) as [Hc1 Hp1]; [done| |].
  { intros ->. destruct (shows_cur _ _ _ Hs) as (-> & -> & _). unfold Tm.at_origin in Hb1. lia. }
  destruct (IH _ _ Hc1 (shows_char g c t chr Hc Hs Hr Hb1) Hb2) as (H1 & H2 & H3).
  split_and!; [done|by etransitivity|done].
Qed.

(** ** The screen *)

(** A pixel of the framebuffer that the screen displays. *)
Definition displayed (fb : Framebuffer) (m : mem) (x y : Z) : Z := read32 m (fb_addr fb + 4 * px_index fb x y).

Lemma draw_displayed c x y : con_ok c -> on_screen (con_fb c) x y ->
  displayed (con_fb c) (con_mem (Con.draw c)) x y = pixel (con_fb c) (con_mem (Con.draw c)) x y.
Proof.
  intros [[Hfb _ _ _ Hap _ _] _] Hon. pose proof (px_index_bound _ Hfb x y Hon) as [B1 B2].
  destruct (draw_spec (con_fb c) Hfb (con_mem c)) as [H _]; [lia|]. unfold displayed, pixel, px_addr, read32.
  assert (G : forall k b, 0 <= b -> b + Z.of_nat k <= fb_b_size (con_fb c) ->
    load k (con_mem (Con.draw c)) (fb_addr (con_fb c) + b) = load k (con_mem (Con.draw c)) (fb_double_addr (con_fb c) + b)).
  { induction k as [|k IH]; intros b Hb Hk; [done|]. simpl load. rewrite H, <- !Z.add_assoc, IH by lia. done. }
  apply (G 4%nat); lia.
Qed.

Lemma shows_draw g c t : con_ok c -> shows g c t -> con_ok (Con.draw c) /\ shows g (Con.draw c) t.
Proof.
  intros Hc Hs. pose proof (draw_pres c Hc) as Hp. split; [eapply con_ok_pres; [done|done|apply Hc]|].
  apply (shows_step g c t); [done|done|done|done|apply Hs|apply Hs|apply Hs|]. intros i j x y Hin. unfold cell_at.
  rewrite draw_pixel by (done || by apply grid_on_screen). by apply (sh_cells _ _ _ Hs).
Qed.

Lemma print_shows g str c t :
  con_ok c -> shows g c t -> Forall is_char str -> Tm.backs_ok g t str = true ->
  con_ok (Con.print str c) /\ con_pres c (Con.print str c) /\ shows g (Con.print str c) (Tm.text g t str) /\
  forall i j x y, in_grid c i j x y ->
    cell_pixel c (t_grid (Tm.text g t str) i j) x y (cell_at c (displayed (con_fb c) (con_mem (Con.print str c))) i j x y).
Proof.
  intros Hc Hs Hstr Hb. destruct (shows_text g str c t Hc Hs Hstr Hb) as (H1 & H2 & H3). unfold Con.print.
  set (c1 := foldl _ c str) in *. destruct (shows_draw g c1 _ H1 H3) as [H4 H5]. pose proof (draw_pres c1 H1) as H6.
  split_and!; [done|by etransitivity|done|]. intros i j x y Hin. pose proof H2 as [F B [X Y] _].
  assert (Hin1 : in_grid c1 i j x y) by (unfold in_grid; by rewrite X, Y, F).
  pose proof (sh_cells _ _ _ H5 _ _ _ _ Hin1) as Hp. pose proof (draw_displayed c1 _ _ H1 (grid_on_screen _ _ _ _ _ H1 Hin1)) as Hd.
  unfold cell_at in *. simpl con_fb in *. simpl con_font in *. rewrite F, B in *. rewrite Hd.
  assert (Hcp : con_pres c (Con.draw c1)) by (by etransitivity).
  unfold cell_pixel in *. rewrite (ink_pixel_pres c (Con.draw c1)) in Hp; [done|done|done|apply H3|apply Hin].
Qed.

(** [Console::clear] shows the empty terminal. *)
Lemma clear_shows c :
  geometry_ok (con_font c) (con_fb c) (Con.charsize c) DEFAULT_MAX_COL DEFAULT_MAX_ROW ->
  con_ok (Con.clear c) /\ shows (cfg_of (Con.clear c)) (Con.clear c) Tm.clear.
Proof.
  intros Hg. set (c1 := Con.set_cursor (Con.set_mem c (Fb.set_all_pixels (con_fb c) BLACK (con_mem c))) Cur.make).
  change (Con.clear c) with (Con.draw c1).
  assert (Hcs : Con.charsize c1 = Con.charsize c).
  { unfold Con.charsize. rewrite !read8_mget. apply set_all_pixels_out; [apply Hg|apply (ge_header _ _ _ _ _ Hg)]. }
  assert (Hc1 : con_ok c1).
  { split; [by rewrite Hcs|]. split; simpl; unfold DEFAULT_MAX_COL, DEFAULT_MAX_ROW; lia. }
  change (cfg_of (Con.draw c1)) with (cfg_of c1). apply shows_draw; [done|]. split; [done..|].
  intros i j x y Hin. left. unfold cell_at. simpl con_fb. simpl con_mem. simpl con_font.
  change (con_fb c) with (con_fb c1). change (con_font c) with (con_font c1).
  rewrite set_all_pixels_spec; [|apply Hg|by apply grid_on_screen]. unfold filled. by case_decide.
Qed.

(** ** A line of text *)
Section Line.
Context (g : TermCfg).

(** A printable character in the line. *)
Lemma char_in_line t chr :
  Con.printable chr = true -> t_row t < tc_rows g -> t_col t + 1 < tc_cols g ->
  Tm.char g t chr = Tm.goto (Tm.write g chr t) (t_row t) (t_col t + 1).
Proof.
  intros Hp Hr Hc. unfold Tm.char, Tm.scroll. rewrite (proj2 (Z.eqb_neq _ _)) by lia. rewrite Hp. unfold Tm.put, Tm.next.
  simpl. by rewrite (proj2 (Z.ltb_lt _ _)).
Qed.

(** The cells on the left stay. *)
Lemma line_keeps_left str t j :
  Forall (fun chr => Con.printable chr = true) str -> t_row t < tc_rows g ->
  t_col t + Z.of_nat (length str) < tc_cols g -> j < t_col t ->
  t_grid (Tm.text g t str) (t_row t) j = t_grid t (t_row t) j.
Proof.
  intros Hp. revert t. induction Hp as [|chr str Hchr _ IH]; intros t Hr Hl Hj; [done|]. simpl length in Hl.
  unfold Tm.text in *. simpl foldl. rewrite char_in_line by (done || lia). set (t1 := Tm.goto _ _ _).
  change (t_row t) with (t_row t1) at 1. rewrite IH by (simpl; lia). simpl.
  rewrite Z.eqb_refl, (proj2 (Z.eqb_neq j (t_col t))) by lia. simpl. unfold Tm.cuts.
  rewrite Z.eqb_refl, (proj2 (Z.eqb_neq j (t_col t + 1))), (proj2 (Z.eqb_neq (t_col t + 1) (tc_cols g))) by lia.
  by rewrite !andb_false_r.
Qed.

Lemma line_cells str t k chr :
  Forall (fun chr => Con.printable chr = true) str -> t_row t < tc_rows g ->
  t_col t + Z.of_nat (length str) < tc_cols g -> str !! k = Some chr ->
  t_grid (Tm.text g t str) (t_row t) (t_col t + Z.of_nat k) = mkCell (Ink chr (tc_fg g) (tc_bg g)) false.
Proof.
  intros Hp. revert t k. induction Hp as [|a str Ha Hp IH]; intros t k Hr Hl Hk; [done|]. simpl length in Hl.
  unfold Tm.text in *. simpl foldl. rewrite char_in_line by (done || lia). set (t1 := Tm.goto _ _ _).
  destruct k as [|k]; simpl in Hk.
  - injection Hk as ->. change (t_row t) with (t_row t1). rewrite Z.add_0_r.
    rewrite (line_keeps_left str t1) by (simpl; done || lia). simpl. by rewrite !Z.eqb_refl.
  - replace (t_col t + Z.of_nat (S k)) with (t_col t1 + Z.of_nat k) by (simpl; lia).
    change (t_row t) with (t_row t1). apply IH; simpl; done || lia.
Qed.

Lemma line_backs_ok str t : Forall (fun chr => Con.printable chr = true) str -> Tm.backs_ok g t str = true.
Proof.
  intros Hp. revert t. induction Hp as [|chr str Hchr _ IH]; intros t; [done|]. simpl. rewrite IH, andb_true_r.
  apply negb_true_iff, andb_false_iff. left. apply Z.eqb_neq. by intros ->.
Qed.
End Line.

Lemma ascii_printable chr : 32 <= chr <= 127 -> Con.printable chr = true.
Proof. unfold Con.printable, ASCII_PRINTABLE_MIN, ASCII_PRINTABLE_MAX. intros H. destruct (Z.ltb_spec chr 128); lia. Qed.

(** A string that ends before the last column is displayed as its glyphs. *)
Lemma print_line_displayed g c t str k chr x y :
  con_ok c -> shows g c t -> c_row (con_cursor c) < c_max_row (con_cursor c) -> Forall (fun chr => 32 <= chr <= 127) str ->
  c_col (con_cursor c) + Z.of_nat (length str) < c_max_col (con_cursor c) -> str !! k = Some chr ->
  0 <= x < cf_glyph_width (con_font c) -> 0 <= y < cf_glyph_height (con_font c) ->
  cell_at c (displayed (con_fb c) (con_mem (Con.print str c))) (c_row (con_cursor c)) (c_col (con_cursor c) + Z.of_nat k) x y =
    ink_pixel c (Ink chr (c_fg (con_cursor c)) (c_bg (con_cursor c))) x y.
Proof.
  intros Hc Hs Hrow Hstr Hlen Hk Hx Hy. pose proof (con_pos c Hc) as (P1 & P2 & _). pose proof (lookup_lt_Some _ _ _ Hk) as Hlt.
  assert (Hp : Forall (fun chr => Con.printable chr = true) str) by (eapply Forall_impl; [exact Hstr|apply ascii_printable]).
  assert (Hr : Forall is_char str) by (eapply Forall_impl; [exact Hstr|unfold is_char; simpl; lia]).
  destruct (print_shows g str c t Hc Hs Hr (line_backs_ok g str t Hp)) as (_ & _ & _ & Hd).
  assert (Hin : in_grid c (c_row (con_cursor c)) (c_col (con_cursor c) + Z.of_nat k) x y) by (split; lia).
  specialize (Hd _ _ _ _ Hin). rewrite (sh_row _ _ _ Hs), (sh_col _ _ _ Hs) in *.
  rewrite (line_cells g str t k chr) in Hd; [|done|rewrite <- (sh_cfg _ _ _ Hs); simpl; lia..|done].
  rewrite <- (sh_cfg _ _ _ Hs) in Hd. by destruct Hd as [->|(_ & ? & _)].
Qed.

(** ** Properties *)

(** C22: the console implements the terminal.  When the pixels show a terminal, then after
    [Console::print] of any string in which no backspace comes at the origin they show the
    terminal that the string leads to, with its wrapping and scrolling, and what is
    displayed is that terminal: every pixel of every cell is that of the character last written
    there, or black when the line was cleared.  Only the first column of pixels of a cell
    may be black instead, and only when the cell on its left was written later: a
    pixel is stored as 64 bits. *)
Theorem console_refines_terminal (g : TermCfg) (c : Console) (t : Term) (str : list Z) :
  con_ok c -> shows g c t -> Forall is_char str -> Tm.backs_ok g t str = true ->
  let c' := Con.print str c in
  let t' := Tm.text g t str in
  con_ok c' /\ shows g c' t' /\
  forall i j x y, in_grid c i j x y ->
    cell_pixel c (t_grid t' i j) x y (cell_at c (displayed (con_fb c) (con_mem c')) i j x y).
Proof. intros Hc Hs Hstr Hb c' t'. by destruct (print_shows g str c t Hc Hs Hstr Hb) as (? & _ & ? & ?). Qed.

(** C23: what [kprintf] prints is what is displayed.  When the expansion of the format is
    made of printable characters and ends before the last column, then its k-th character is
    displayed as its glyph of the font, in the colours of the cursor, in the k-th cell from
    the cursor. *)
Theorem kprintf_displays_line (g : TermCfg) (c : Console) (t : Term) (str : list Z) (a : list va_arg) (out : list Z) :
  con_ok c -> shows g c t -> c_row (con_cursor c) < c_max_row (con_cursor c) ->
  Printf.expand str a = Some out -> Forall is_char str -> Forall Printf.arg_ok a ->
  Z.of_nat (length str) <= 65535 -> Z.of_nat (length out) < Printf.BUF_SZ ->
  Forall (fun chr => 32 <= chr <= 127) out -> c_col (con_cursor c) + Z.of_nat (length out) < c_max_col (con_cursor c) ->
  exists c', Printf.kprintf str a c = Done c' /\
    forall k chr x y, out !! k = Some chr ->
      0 <= x < cf_glyph_width (con_font c) -> 0 <= y < cf_glyph_height (con_font c) ->
      cell_at c (displayed (con_fb c) (con_mem c')) (c_row (con_cursor c)) (c_col (con_cursor c) + Z.of_nat k) x y =
        ink_pixel c (Ink chr (c_fg (con_cursor c)) (c_bg (con_cursor c))) x y.
Proof.
  intros Hc Hs Hrow He Hstr Ha Hl Ho Hout Hcol. exists (Con.print out c). split.
  - unfold Printf.kprintf. by rewrite (Printf.format_spec str a out).
  - intros k chr x y Hk Hx Hy. by apply (print_line_displayed g c t).
Qed.

(** ** Samples: a cleared console *)
Definition con_clear : Console := Con.clear con_sample.

Lemma con_clear_shows : con_ok con_clear /\ shows (cfg_of con_clear) con_clear Tm.clear.
Proof. apply clear_shows. apply con_sample_ok. Qed.

(** Two lines, the last character of the second wiped by a backspace. *)
Lemma console_refines_terminal_witness :
  shows (cfg_of con_clear) (Con.print (cs "Hi" ++ NL ++ cs "yo" ++ [8]) con_clear)
    (Tm.text (cfg_of con_clear) Tm.clear (cs "Hi" ++ NL ++ cs "yo" ++ [8])).
Proof.
  destruct con_clear_shows as [H1 H2].
  apply (console_refines_terminal (cfg_of con_clear) con_clear Tm.clear _ H1 H2); [|done].
  repeat constructor; done.
Defined.

Lemma kprintf_displays_line_witness :
  exists c', Printf.kprintf (cs "free: %d") [VaU64 7] con_clear = Done c' /\
    displayed (con_fb con_clear) (con_mem c') (6 * 8) 0 = ink_pixel con_clear (Ink 55 WHITE BLACK) 0 0.
Proof.
  destruct con_clear_shows as [H1 H2].
  destruct (kprintf_displays_line (cfg_of con_clear) con_clear Tm.clear (cs "free: %d") [VaU64 7] (cs "free: 7") H1 H2)
    as (c' & E & Hd); [done|by vm_compute|by repeat constructor|by repeat constructor|done|done|by repeat constructor|done|].
  exists c'. split; [exact E|]. apply (Hd 6%nat 55 0 0); done.
Defined.
