(* ===== verification/OneMemory.v ===== *)
(** * OneMemory: the heap and the screen in one memory

    The components that manage memory work on [k_mem], the console on its own
    [con_mem].  On the machine there is one memory: the double buffer and the font
    lie in frames that the bootloader reserved, the framebuffer behind them.  This file
    follows runs in which clients use the heap, which may grow, and print, and shows that
    each side leaves the bytes of the other alone, so that one memory serves both. *)
From Stdlib Require Import String.
From S2P Require Import Prelude Memory Libc Printf Bitmap MMap PMem Paging PagingInit Heap HeapSpec HeapInv HeapGrow HeapProps HeapClient PagingProps Framebuffer Console ConsoleProps Terminal.

(** ** The bytes of the screen *)

Definition video_b (fb : Framebuffer) (a : Z) : bool :=
  (fb_double_addr fb <=? a) && (a <? fb_double_addr fb + fb_b_size fb + 4) ||
  (fb_addr fb <=? a) && (a <? fb_addr fb + fb_b_size fb).

Lemma video_spec fb a : video_b fb a = true <-> video fb a.
Proof. unfold video_b, video, outside. rewrite orb_true_iff, !andb_true_iff, !Z.leb_le, !Z.ltb_lt. lia. Qed.

(** What the console reads besides the pixels: the glyphs and the [charsize] of the font. *)
Definition font_byte (c : Console) (a : Z) : Prop :=
  cf_glyph_buffer (con_font c) <= a < cf_glyph_buffer (con_font c) + 127 * Con.charsize c + cf_glyph_height (con_font c) \/
  a = cf_psf_header (con_font c) + 3.
Definition screen_byte (c : Console) (a : Z) : Prop := video (con_fb c) a \/ font_byte c a.

Lemma font_not_video c a : con_ok c -> font_byte c a -> ~ video (con_fb c) a.
Proof.
  intros [[_ _ _ _ _ Hf Hh] _] [Ha| ->]; [|by apply not_video; apply Hh].
  destruct (Hf a Ha). by apply not_video.
Qed.

Lemma font_byte_pres c c' a : con_ok c -> con_pres c c' -> font_byte c' a <-> font_byte c a.
Proof. intros Hc Hp. unfold font_byte. by rewrite (charsize_pres c c' Hc Hp), (cp_font _ _ Hp). Qed.

Lemma screen_byte_pres c c' a : con_ok c -> con_pres c c' -> screen_byte c' a <-> screen_byte c a.
Proof. intros Hc Hp. unfold screen_byte. by rewrite (font_byte_pres c c' a Hc Hp), (cp_fb _ _ Hp). Qed.

(** The framebuffer is a copy of the double buffer. *)
Definition up_to_date (c : Console) : Prop :=
  forall x y, on_screen (con_fb c) x y -> displayed (con_fb c) (con_mem c) x y = pixel (con_fb c) (con_mem c) x y.

(** The console does not notice another memory with the same bytes of the screen. *)
Section Agree.
Context (g : TermCfg) (c : Console) (t : Term) (m : mem).
Hypothesis Hc : con_ok c.
Hypothesis Hagree : forall a, screen_byte c a -> mget m a = mget (con_mem c) a.
Let c' := Con.set_mem c m.

Lemma agree_charsize : Con.charsize c' = Con.charsize c.
Proof. unfold Con.charsize. rewrite !read8_mget. apply Hagree. right. by right. Qed.

Lemma agree_ok : con_ok c'.
Proof. split; [rewrite agree_charsize|]; apply Hc. Qed.

Lemma agree_read32 p : (forall b, p <= b < p + 4 -> video (con_fb c) b) -> read32 m p = read32 (con_mem c) p.
Proof. intros Hv. apply load_agree. intros b Hb. apply Hagree. left. apply Hv. lia. Qed.

Lemma agree_pixel x y : on_screen (con_fb c) x y -> pixel (con_fb c) m x y = pixel (con_fb c) (con_mem c) x y.
Proof.
  intros Hon. pose proof (px_index_bound _ (ge_fb _ _ _ _ _ (co_geo _ Hc)) x y Hon) as [B1 B2].
  apply agree_read32. intros b Hb. left. unfold outside, px_addr in *. lia.
Qed.

Lemma agree_displayed x y : on_screen (con_fb c) x y -> displayed (con_fb c) m x y = displayed (con_fb c) (con_mem c) x y.
Proof.
  intros Hon. pose proof (px_index_bound _ (ge_fb _ _ _ _ _ (co_geo _ Hc)) x y Hon) as [B1 B2].
  apply agree_read32. intros b Hb. right. lia.
Qed.

Lemma agree_ink k x y : ink_ok k -> 0 <= y < cf_glyph_height (con_font c) -> ink_pixel c' k x y = ink_pixel c k x y.
Proof.
  intros Hk Hy. destruct k as [|chr fg bg]; [done|]. simpl in *. rewrite agree_charsize.
  assert (Hcs : 0 <= Con.charsize c) by (unfold Con.charsize; rewrite read8_mget; apply mget_range).
  rewrite Hagree; [done|]. right. left. nia.
Qed.

Lemma agree_shows : shows g c t -> shows g c' t.
Proof.
  intros [H1 H2 H3 H4 H5]. split; [done..|]. intros i j x y Hin. specialize (H5 i j x y Hin). unfold cell_pixel, cell_at in *.
  change (con_fb c') with (con_fb c). change (con_mem c') with m. change (con_font c') with (con_font c).
  rewrite agree_ink by (apply H4 || apply Hin). rewrite agree_pixel by (by apply grid_on_screen). exact H5.
Qed.

Lemma agree_up_to_date : up_to_date c -> up_to_date c'.
Proof.
  intros Hu x y Hon. change (con_fb c') with (con_fb c) in *. change (con_mem c') with m.
  by rewrite agree_pixel, agree_displayed, Hu.
Qed.
End Agree.

(** ** Runs of clients that use the heap and print *)

Inductive sys_op : Type :=
| SysHeap (o : heap_op)
| SysPrint (str : list Z).

(** Printed text has no backspaces. *)
Definition plain (chr : Z) : Prop := is_char chr /\ chr <> 8.

Lemma numeral_plain n : Forall plain (numeral 10 n).
Proof.
  unfold numeral. apply Forall_fmap. eapply Forall_impl; [apply digits_range; lia|]. intros d Hd. cbv beta in Hd.
  unfold compose, plain, is_char, Libc.digit_char. destruct (Z.ltb_spec 9 d); lia.
Qed.

Lemma run_line_plain st n : Forall plain (run_line st n).
Proof.
  unfold run_line. rewrite !Forall_app. split_and!; [apply numeral_plain| |apply numeral_plain|];
    repeat constructor; by vm_compute.
Qed.

Lemma plain_chars str : Forall plain str -> Forall is_char str.
Proof. intros Hs. eapply Forall_impl; [exact Hs|]. by intros chr []. Qed.

Lemma plain_backs_ok g t str : Forall plain str -> Tm.backs_ok g t str = true.
Proof.
  intros Hs. revert t. induction Hs as [|chr str [_ H8] _ IH]; intros t; [done|]. simpl. rewrite IH, andb_true_r.
  apply negb_true_iff, andb_false_iff. left. by apply Z.eqb_neq.
Qed.

(** What a sequence of operations prints: the strings, and between them the lines of
    [request_frames] when the heap grows. *)
Inductive prints : sys_op -> list Z -> Prop :=
| prints_str str : prints (SysPrint str) str
| prints_nothing o : prints (SysHeap o) []
| prints_frames n st : prints (SysHeap (OpMalloc n (st * 4096 + HDR))) (run_line st (n / 4096 + 1)).

Inductive printed : list sys_op -> list Z -> Prop :=
| printed_nil : printed [] []
| printed_snoc os txt o out : printed os txt -> prints o out -> printed (os ++ [o]) (txt ++ out).

Section System.
Context (fuel : nat) (root blocks : Z) (g : TermCfg).
Implicit Types (s : kst Console) (live : list (Z * Z)) (l : list blk) (t : Term).

Inductive sys_step : sys_op -> list (Z * Z) * kst Console -> list (Z * Z) * kst Console -> Prop :=
| sys_heap o x y : kclient_step fuel root blocks o x y -> sys_step (SysHeap o) x y
| sys_print str live s : Forall plain str ->
    sys_step (SysPrint str) (live, s) (live, mkK (k_mem s) (k_pmem s) (Con.print str (k_con s))).

Inductive sys_run : list sys_op -> list (Z * Z) * kst Console -> list (Z * Z) * kst Console -> Prop :=
| sys_nil x : sys_run [] x x
| sys_snoc os o x y z : sys_run os x y -> sys_step o y z -> sys_run (os ++ [o]) x z.

(** The bytes of the screen are reserved and outside the heap, and the font is the same on
    both sides. *)
Record apart_inv l s : Prop := {
  ai_reserved : forall a, screen_byte (k_con s) a -> reserved root s a /\ (forall b, b ∈ l -> ~ in_blk b a);
  ai_font : forall a, font_byte (k_con s) a -> mget (con_mem (k_con s)) a = mget (k_mem s) a
}.

Record system t l live s : Prop := {
  sy_heap : kheap root blocks l live s;
  sy_con : con_ok (k_con s);
  sy_shows : shows g (k_con s) t;
  sy_current : up_to_date (k_con s);
  sy_apart : apart_inv l s
}.

(** Printing. *)
Lemma print_kept c t str : con_ok c -> shows g c t -> Forall plain str ->
  let c' := Con.print str c in
  con_ok c' /\ con_pres c c' /\ shows g c' (Tm.text g t str) /\ up_to_date c'.
Proof.
  intros Hc Hs Hstr c'. pose proof (plain_chars str Hstr) as Hch. pose proof (plain_backs_ok g t str Hstr) as Hb.
  destruct (print_shows g str c t Hc Hs Hch Hb) as (H1 & H2 & H3 & _).
  destruct (shows_text g str c t Hc Hs Hch Hb) as (H4 & _ & _).
  split_and!; [done..|]. intros x y Hon. exact (draw_displayed _ x y H4 Hon).
Qed.

(** Neither side writes the bytes of the other: the kernel's memory keeps the bytes of
    the screen, the console's all but the pixels. *)
Record sides_kept s s' : Prop := {
  sk_con : con_pres (k_con s) (k_con s');
  sk_mem : forall a, screen_byte (k_con s) a -> mget (k_mem s') a = mget (k_mem s) a
}.

Lemma sides_kept_refl s : sides_kept s s.
Proof. by split. Qed.
Lemma sides_kept_trans s1 s2 s3 : con_ok (k_con s1) -> sides_kept s1 s2 -> sides_kept s2 s3 -> sides_kept s1 s3.
Proof.
  intros Hc [C1 M1] [C2 M2]. split; [by etransitivity|]. intros a Ha.
  rewrite M2 by (by rewrite (screen_byte_pres (k_con s1))). by apply M1.
Qed.

(** A step on the memory [k_mem] together with what it printed. *)
Lemma system_step t l l' live live' s s' out :
  system t l live s -> kheap root blocks l' live' s' -> outside_kept root l l' s s' -> Forall plain out ->
  k_con s' = k_con s /\ out = [] \/ k_con s' = Con.print out (k_con s) ->
  system (Tm.text g t out) l' live' s' /\ sides_kept s s'.
Proof.
  intros [Hh Hc Hs Hu [Hr Hf]] Hh' Hout Hp Hcon.
  assert (Hnew : con_ok (k_con s') /\ con_pres (k_con s) (k_con s') /\ shows g (k_con s') (Tm.text g t out) /\ up_to_date (k_con s')).
  { destruct Hcon as [[-> ->]| ->]; [done|by apply print_kept]. }
  destruct Hnew as (N1 & N2 & N3 & N4).
  split; [|split; [done|]; intros a Ha; destruct (Hr a Ha); by apply Hout].
  split; [done..|]. split; intros a Ha.
  - rewrite (screen_byte_pres (k_con s)) in Ha by done. destruct (Hr a Ha) as [R1 R2]. by apply Hout.
  - rewrite (font_byte_pres (k_con s)) in Ha by done. rewrite (cp_mem _ _ N2) by (by apply font_not_video).
    rewrite (Hf a Ha). symmetry. destruct (Hr a (or_intror Ha)). by apply Hout.
Qed.

Lemma sys_step_inv t l o live s live' s' :
  4096 * frames (k_pmem s) < 33 * Z.of_nat fuel -> system t l live s -> sys_step o (live, s) (live', s') ->
  exists l' out, system (Tm.text g t out) l' live' s' /\ prints o out /\ frames (k_pmem s') = frames (k_pmem s) /\
    sides_kept s s'.
Proof.
  intros Hf Hsy Hstep. inversion Hstep as [h ? ? Hk|str ? ? Hp]; subst.
  - destruct (kclient_step_inv fuel root blocks l h live s live' s' Hf (sy_heap _ _ _ _ Hsy) Hk)
      as ((l' & Hl' & Hout) & Hfr & [Hq|(n & st & -> & Hq)] & _).
    + destruct (system_step t l l' live live' s s' []) as [? ?]; [done..|by left|].
      exists l', []. split_and!; [done|constructor|done|done].
    + destruct (system_step t l l' live live' s s' (run_line st (n / 4096 + 1))) as [? ?];
        [done..|apply run_line_plain|by right|]. eexists l', _. split_and!; [done|constructor|done|done].
  - destruct (kheap_agree root blocks l live' s (mkK (k_mem s) (k_pmem s) (Con.print str (k_con s))) (sy_heap _ _ _ _ Hsy))
      as [Hk Hr]; [done..|]. destruct (system_step t l l live' live' s _ str Hsy Hk) as [? ?];
      [intros a Ha Hb; by split_and!; [|apply Hr|]|done|by right|]. exists l, str. split_and!; [done|constructor|done|done].
Qed.

Lemma sys_run_inv os t l live0 s0 live s :
  4096 * frames (k_pmem s0) < 33 * Z.of_nat fuel -> system t l live0 s0 -> sys_run os (live0, s0) (live, s) ->
  exists l' txt, system (Tm.text g t txt) l' live s /\ printed os txt /\ frames (k_pmem s) = frames (k_pmem s0) /\
    sides_kept s0 s.
Proof.
  intros Hf H0 Hrun. remember (live0, s0) as x eqn:Ex. remember (live, s) as z eqn:Ez.
  revert live s Ez. induction Hrun as [|os o x y z Hrun IH Hstep]; intros live s ->; simplify_eq.
  { exists l, []. split_and!; [done|constructor|done|apply sides_kept_refl]. }
  destruct y as [live1 s1]. destruct (IH eq_refl _ _ eq_refl) as (l1 & txt & Hs1 & Hp1 & E1 & K1).
  destruct (sys_step_inv (Tm.text g t txt) l1 o live1 s1 live s) as (l2 & out & Hs2 & Hp2 & E2 & K2); [lia|done|done|].
  exists l2, (txt ++ out). split_and!; [|by constructor|congruence|eapply sides_kept_trans; [apply H0|done|done]].
  unfold Tm.text in *. by rewrite foldl_app.
Qed.

(** ** One memory *)

(** The pixels of the console's memory, everything else of the kernel's. *)
Definition one_mem s : mem :=
  let v := video_b (con_fb (k_con s)) in
  map_imap (fun a b => if v a then Some b else None) (con_mem (k_con s)) ∪
  map_imap (fun a b => if v a then None else Some b) (k_mem s).

Lemma mget_one_mem s a :
  mget (one_mem s) a = if video_b (con_fb (k_con s)) a then mget (con_mem (k_con s)) a else mget (k_mem s) a.
Proof.
  unfold mget, one_mem. rewrite lookup_union, !map_lookup_imap.
  by destruct (video_b (con_fb (k_con s)) a), (con_mem (k_con s) !! a), (k_mem s !! a).
Qed.

Definition joined s : kst Console := mkK (one_mem s) (k_pmem s) (Con.set_mem (k_con s) (one_mem s)).

Lemma joined_kernel t l live s a : system t l live s -> ~ video (con_fb (k_con s)) a -> mget (one_mem s) a = mget (k_mem s) a.
Proof. intros _ Hv. rewrite mget_one_mem. destruct (video_b _ _) eqn:E; [|done]. by apply video_spec in E. Qed.

Lemma joined_screen t l live s a :
  system t l live s -> screen_byte (k_con s) a -> mget (one_mem s) a = mget (con_mem (k_con s)) a.
Proof.
  intros Hsy [Hv|Hf].
  - rewrite mget_one_mem. by apply video_spec in Hv as ->.
  - rewrite (joined_kernel t l live) by (done || by apply font_not_video, Hf; apply Hsy).
    symmetry. by apply (ai_font _ _ (sy_apart _ _ _ _ Hsy)).
Qed.

Lemma joined_system t l live s : system t l live s -> system t l live (joined s).
Proof.
  intros Hsy. pose proof Hsy as [Hh Hc Hs Hu [Hr Hf]].
  assert (Hv : forall a, video (con_fb (k_con s)) a -> reserved root s a /\ (forall b, b ∈ l -> ~ in_blk b a)).
  { intros a Ha. apply Hr. by left. }
  destruct (kheap_agree root blocks l live s (joined s) Hh) as [Hh' Hr']; [done|..].
  { intros a Ha. apply (joined_kernel t l live); [done|]. intros [? _]%Hv. done. }
  { intros b a Hb Ha. apply (joined_kernel t l live); [done|]. intros [_ Ho]%Hv. by apply (Ho b). }
  assert (Hag : forall a, screen_byte (k_con s) a -> mget (one_mem s) a = mget (con_mem (k_con s)) a).
  { intros a. by apply (joined_screen t l live). }
  split; [done|by apply agree_ok|by apply agree_shows|by apply agree_up_to_date|]. split; [|done].
  intros a Ha. assert (Ha' : screen_byte (k_con s) a).
  { unfold screen_byte, font_byte in *. simpl k_con in Ha. by rewrite agree_charsize in Ha. }
  destruct (Hr a Ha'). split; [by apply Hr'|done].
Qed.
End System.

(** ** Properties *)

(** C5: one memory serves the heap and the screen.  From a state in which the bytes of the
    screen (double buffer, framebuffer, font) are reserved and outside the heap, take any
    sequence of [malloc] and [free] calls that return, writes into held regions, and prints of
    text without backspaces.  The heap may grow, and report the frames it took, in states where
    a run of the free frames it needs ends below the frames of the bitmap and four free frames per
    page are left below them (other growth is not covered).  Neither side writes the bytes of the other; so, when
    both memories are joined into one, the heap invariant holds in it and the framebuffer in it
    displays the terminal that all printed text, in its order, leads to; and no byte
    held by a client belongs to the screen. *)
Theorem heap_and_screen_share_memory (fuel : nat) (root blocks : Z) (g : TermCfg) os t0 l0 live0 (s0 : kst Console) live s :
  4096 * frames (k_pmem s0) < 33 * Z.of_nat fuel -> system root blocks g t0 l0 live0 s0 ->
  sys_run fuel root blocks os (live0, s0) (live, s) ->
  sides_kept s0 s /\
  exists l txt, printed os txt /\
    let c := k_con (joined s) in
    let m := k_mem (joined s) in
    con_mem c = m /\ kheap root blocks l live (joined s) /\ con_ok c /\ shows g c (Tm.text g t0 txt) /\
    (forall i j x y, in_grid c i j x y ->
       cell_pixel c (t_grid (Tm.text g t0 txt) i j) x y (cell_at c (displayed (con_fb c) m) i j x y)) /\
    (forall p n a, (p, n) ∈ live -> p <= a < p + n -> mget m a = mget (k_mem s) a /\ ~ screen_byte c a).
Proof.
  intros Hf H0 Hrun. destruct (sys_run_inv fuel root blocks g os t0 l0 live0 s0 live s Hf H0 Hrun) as (l & txt & Hs & Hp & _ & Hk).
  split; [done|]. exists l, txt. split; [done|]. pose proof (joined_system root blocks g _ l live s Hs) as Hj.
  pose proof Hj as [Jh Jc Js Ju [Jr _]]. split_and!; [done..| |].
  - intros i j x y Hin. unfold cell_at. rewrite Ju by (by apply grid_on_screen). by apply (sh_cells _ _ _ Js).
  - intros p n a Hpn Ha. destruct (inv_block _ _ _ _ _ _ _ (kh_inv _ _ _ _ _ Jh) Hpn) as (b & Hb & _ & -> & Hn).
    assert (Hblk : in_blk b a) by (unfold in_blk, b_end, HDR in *; lia).
    assert (Hns : ~ screen_byte (k_con (joined s)) a) by (intros [_ Ho]%Jr; by apply (Ho b)).
    split; [|done]. apply (joined_kernel root blocks g _ l live s a Hs). intros Hv. apply Hns. by left.
Qed.

(** ** A sample: the heap of [hgrow] and a console of three columns and two rows *)

(** Heap, frames and tables do not depend on the console beside them. *)
Lemma kheap_with_con {C D} `{ConsoleI C, ConsoleI D} root blocks l live (s : kst C) (d : D) :
  kheap root blocks l live s -> kheap root blocks l live (mkK (k_mem s) (k_pmem s) d).
Proof.
  intros [[] [[] ? ? ? []] ? ?]. split; [by split| |done|done]. split; [by split|done|done|done|by split].
Qed.

Definition small_con : Console :=
  mkConsole (mkFont 0x60000000 1 1 0x60001000) (mkFb 32 3 2 4 4 0x80000000 0x70000000) (mkCursor 0 0 WHITE BLACK 3 2) ∅.

Lemma small_con_ok : con_ok small_con.
Proof.
  split; [|split; simpl; lia]. change (Con.charsize small_con) with 0. split; simpl; try (unfold outside; simpl; lia).
  split; simpl; lia.
Qed.

Lemma load_empty k a : load k ∅ a = 0.
Proof. revert a. induction k as [|k IH]; intros a; simpl; [done|]. rewrite IH. unfold mget. by rewrite lookup_empty. Qed.

Lemma small_con_shows : shows (cfg_of small_con) small_con Tm.clear.
Proof. split; [done..|]. intros i j x y Hin. left. apply load_empty. Qed.

Definition osample : kst Console := mkK (k_mem hgrow) (k_pmem hgrow) small_con.
Definition oblocks : list blk := [mkBlk 12288 4064 true].

Lemma osample_system : system psample_root 12288 (cfg_of small_con) Tm.clear oblocks [] osample.
Proof.
  split; [apply kheap_with_con, hgrow_kheap|apply small_con_ok|apply small_con_shows| |].
  { intros x y Hon. transitivity 0; [|symmetry]; apply load_empty. }
  assert (Hfr : frames (k_pmem osample) = 64) by (by vm_compute).
  split; intros a Ha; change (k_con osample) with small_con in *.
  - assert (Hlow : 0x60000000 <= a).
    { destruct Ha as [[Ha|Ha]|[Ha|Ha]]; unfold outside in Ha; simpl in Ha; lia. }
    split; [right; rewrite Hfr; zdm|]. intros b ->%list_elem_of_singleton Hb.
    unfold in_blk, b_end, HDR in Hb. simpl in Hb. lia.
  - assert (a = 0x60001000 \/ a = 0x60000003) as [->| ->]; [|by vm_compute..].
    destruct Ha as [Ha|Ha]; simpl in Ha; change (Con.charsize small_con) with 0 in *; lia.
Qed.

(** A print, a request that grows the heap, and another print. *)
Definition ostate1 : kst Console := mkK (k_mem osample) (k_pmem osample) (Con.print (cs "ab") (k_con osample)).
Definition after_malloc (n : Z) (s : kst Console) : Z * kst Console :=
  match Hp.malloc kfuel psample_root 12288 n s with Done x => x | Fail _ => (0, s) end.
Definition optr : Z := fst (after_malloc 5000 ostate1).
Definition ostate2 : kst Console := snd (after_malloc 5000 ostate1).
Definition ostate3 : kst Console := mkK (k_mem ostate2) (k_pmem ostate2) (Con.print (cs "c") (k_con ostate2)).
Definition oops : list sys_op := [SysPrint (cs "ab"); SysHeap (OpMalloc 5000 optr); SysPrint (cs "c")].

Lemma ostate1_spare_run : spare_run ostate1 20 2.
Proof.
  split; [|by vm_compute]. split_and!; [by vm_compute..|]. intros k Hk.
  assert (k = 20 \/ k = 21) as [->| ->] by lia; by vm_compute.
Qed.

Lemma ogrow_step : kclient_step kfuel psample_root 12288 (OpMalloc 5000 optr) ([], ostate1) ([(optr, 5000)], ostate2).
Proof. apply (kstep_grown _ _ _ _ _ _ 20); [by vm_compute|exact ostate1_spare_run|by vm_compute..]. Qed.

Lemma oops_run : sys_run kfuel psample_root 12288 oops ([], osample) ([(optr, 5000)], ostate3).
Proof.
  eapply (sys_snoc _ _ _ [SysPrint (cs "ab"); SysHeap (OpMalloc 5000 optr)] _ _ ([(optr, 5000)], ostate2)).
  - eapply (sys_snoc _ _ _ [SysPrint (cs "ab")] _ _ ([], ostate1)).
    + eapply (sys_snoc _ _ _ [] _ _ ([], osample)); [apply sys_nil|]. apply sys_print. repeat constructor; by vm_compute.
    + apply sys_heap, ogrow_step.
  - apply sys_print. repeat constructor; by vm_compute.
Qed.

Lemma heap_and_screen_share_memory_witness :
  exists l, kheap psample_root 12288 l [(optr, 5000)] (joined ostate3) /\ con_ok (k_con (joined ostate3)).
Proof.
  destruct (heap_and_screen_share_memory kfuel psample_root 12288 (cfg_of small_con) oops Tm.clear oblocks [] osample
    [(optr, 5000)] ostate3) as (_ & l & txt & _ & _ & Hk & Hc & _);
    [by vm_compute|exact osample_system|exact oops_run|]. exists l. split; [exact Hk|exact Hc].
Defined.
