(* ===== verification/Machine.v ===== *)
(** * Machine: the hardware the drivers talk to

    Everything the drivers reach outside the memory of the kernel: the I/O
    ports (cpu/cpu.hpp), the device registers mapped into the address space
    (cpu/mmio.h), the model-specific registers and CPUID (cpu/cpu.asm).  The
    hardware is a parameter: a class with one operation per kind of access, on
    a state of the hardware that every access may change.  What a driver relies
    on is stated as the laws of its device, in the file of the driver. *)
From S2P Require Import Prelude Memory Bitmap.

Class Machine (D : Type) : Type := {
  port_out : Z -> Z -> D -> D;            (** [out port, byte] *)
  port_in : Z -> D -> Z * D;              (** [in port] *)
  bus_write : nat -> Z -> Z -> D -> D;    (** a store of that many bytes to a device *)
  bus_read : nat -> Z -> D -> Z * D;      (** a load of that many bytes from a device *)
  rdmsr : Z -> D -> Z * Z;                (** [rdmsr]: edx and eax *)
  wrmsr : Z -> Z -> Z -> D -> D;          (** [wrmsr] of edx and eax *)
  cpuid : Z -> D -> Z * Z * Z * Z         (** [cpuid]: eax, ebx, ecx and edx *)
}.

Module Cpu.
Section Cpu.
Context {D : Type} `{Machine D}.

(** [cpu::outb], [cpu::inb] and [cpu::io_wait]. *)
Definition outb (port val : Z) : M D unit := modify (port_out (u16 port) (u8 val)).
Definition inb (port : Z) : M D Z := fun d =>
  let '(v, d') := port_in (u16 port) d in Done (u8 v, d').
Definition io_wait : M D unit := outb 0x80 0.

(** [read_msr]: [edx] shifted to the upper half, or-ed with [eax]. *)
Definition read_msr (msr_no : Z) : M D Z := gets (fun d =>
  let '(edx, eax) := rdmsr (u32 msr_no) d in Z.lor (u64 (Z.shiftl (u32 edx) 32)) (u32 eax)).
Definition write_msr (msr_no value : Z) : M D unit :=
  modify (wrmsr (u32 msr_no) (u32 (Z.shiftr (u64 value) 32)) (u32 value)).

(** [get_cpuid]: what it stores through its pointers that are not null. *)
Definition get_cpuid (leaf : Z) : M D (Z * Z * Z * Z) := gets (fun d =>
  let '(eax, ebx, ecx, edx) := cpuid (u32 leaf) d in (u32 eax, u32 ebx, u32 ecx, u32 edx)).

End Cpu.
End Cpu.

(** [mmio::read32], [mmio::write32], [mmio::read64] and [mmio::write64] on the
    registers of a device. *)
Module Mmio.
Section Mmio.
Context {D : Type} `{Machine D}.

Definition read32 (p : Z) : M D Z := fun d => let '(v, d') := bus_read 4 (u64 p) d in Done (u32 v, d').
Definition write32 (p data : Z) : M D unit := modify (bus_write 4 (u64 p) (u32 data)).
Definition read64 (p : Z) : M D Z := fun d => let '(v, d') := bus_read 8 (u64 p) d in Done (u64 v, d').
Definition write64 (p data : Z) : M D unit := modify (bus_write 8 (u64 p) (u64 data)).

End Mmio.
End Mmio.

(** ** Lemmas *)
Section Lemmas.
Context {D : Type} `{Machine D}.

(** [write_msr] followed by a read of what it passed to [wrmsr]. *)
Lemma msr_halves v : 0 <= v < 2 ^ 64 ->
  Z.lor (u64 (Z.shiftl (u32 (u32 (Z.shiftr (u64 v) 32))) 32)) (u32 (u32 v)) = v.
Proof.
  intros Hv. rewrite (u64_small v) by lia. rewrite !(u32_small (u32 _)) by apply u32_range.
  rewrite (u32_small (Z.shiftr v 32)) by (rewrite Z.shiftr_div_pow2 by lia; zdm).
  rewrite (u64_small (Z.shiftl _ _)) by (rewrite Z.shiftl_mul_pow2, Z.shiftr_div_pow2 by lia; zdm).
  apply Z.bits_inj'. intros i Hi. rewrite Z.lor_spec, Z.shiftl_spec by lia. unfold u32.
  destruct (decide (i < 32)).
  - rewrite Z.testbit_neg_r, Z.mod_pow2_bits_low by lia. done.
  - rewrite Z.mod_pow2_bits_high, Z.shiftr_spec, orb_false_r by lia. f_equal. lia.
Qed.

Lemma runs_outb port val (d : D) (Q : unit -> D -> Prop) :
  Q tt (port_out (u16 port) (u8 val) d) -> runs (Cpu.outb port val) d Q.
Proof. apply runs_modify. Qed.

Lemma runs_inb port (d : D) (Q : Z -> D -> Prop) :
  Q (u8 (port_in (u16 port) d).1) (port_in (u16 port) d).2 -> runs (Cpu.inb port) d Q.
Proof. intros HQ. unfold runs, Cpu.inb. destruct (port_in _ d) as [v d']. eauto. Qed.

Lemma runs_read32 p (d : D) (Q : Z -> D -> Prop) :
  Q (u32 (bus_read 4 (u64 p) d).1) (bus_read 4 (u64 p) d).2 -> runs (Mmio.read32 p) d Q.
Proof. intros HQ. unfold runs, Mmio.read32. destruct (bus_read _ _ d) as [v d']. eauto. Qed.

Lemma runs_write32 p v (d : D) (Q : unit -> D -> Prop) :
  Q tt (bus_write 4 (u64 p) (u32 v) d) -> runs (Mmio.write32 p v) d Q.
Proof. apply runs_modify. Qed.

Lemma runs_read64 p (d : D) (Q : Z -> D -> Prop) :
  Q (u64 (bus_read 8 (u64 p) d).1) (bus_read 8 (u64 p) d).2 -> runs (Mmio.read64 p) d Q.
Proof. intros HQ. unfold runs, Mmio.read64. destruct (bus_read _ _ d) as [v d']. eauto. Qed.

Lemma runs_write64 p v (d : D) (Q : unit -> D -> Prop) :
  Q tt (bus_write 8 (u64 p) (u64 v) d) -> runs (Mmio.write64 p v) d Q.
Proof. apply runs_modify. Qed.

End Lemmas.

(** One step of a driver. *)
Ltac drive := first
  [ apply runs_bind | apply runs_outb | apply runs_inb | apply runs_read32 | apply runs_write32
  | apply runs_read64 | apply runs_write64 | apply runs_gets | apply runs_modify | apply runs_ret ].
