(* ===== verification/Sim.v ===== *)
(** * Sim: a simulated machine

    A small concrete machine on which the laws the drivers rely on hold: an
    I/O APIC at 0xfec00000, an HPET at 0xfed00000, a local APIC at 0xfee00000
    and a keyboard with a queue of scan codes.  It shows that the assumptions of
    the theorems about drivers can be met, and it runs the drivers on examples. *)
From S2P Require Import Prelude Memory Machine.

Definition IOAPIC_BASE : Z := 0xfec00000.
Definition HPET_BASE : Z := 0xfed00000.
Definition LAPIC_BASE : Z := 0xfee00000.

(** The HPET's capabilities: a period of 10 ns, a 64-bit counter and three
    comparators, each 64 bits wide, able to be periodic, with every route of the
    I/O APIC and no messages on the bus.  These bits of the configuration of a
    comparator are read-only; the others in use are those of the mask. *)
Definition HPET_CAP : Z := 0x009896808086a201.
Definition HPET_TIMER_CAP : Z := 0xffffffff00000030.
Definition HPET_TIMER_MASK : Z := 0x3f0e.
Definition hpet_timer_config (a : Z) : bool :=
  (HPET_BASE + 0x100 <=? a) && (a <? HPET_BASE + 0x160) && ((a - HPET_BASE) mod 32 =? 0).

Record sim : Type := mkSim {
  s_sel : Z;            (** the I/O APIC's selected register *)
  s_io : Zmap Z;        (** the I/O APIC's registers *)
  s_bus : Zmap Z;       (** the other device registers, by address *)
  s_msr : Zmap (Z * Z); (** the model-specific registers *)
  s_keys : list Z;      (** the scan codes that wait at port 0x60 *)
  s_isr : list Z;       (** the interrupts in service, the latest first *)
  s_out : list (Z * Z)  (** the bytes written to ports, the latest first *)
}.

Definition sim_write (a v : Z) (d : sim) : sim :=
  if a =? IOAPIC_BASE then mkSim v (s_io d) (s_bus d) (s_msr d) (s_keys d) (s_isr d) (s_out d)
  else if a =? IOAPIC_BASE + 0x10 then
    mkSim (s_sel d) (<[s_sel d := v]> (s_io d)) (s_bus d) (s_msr d) (s_keys d) (s_isr d) (s_out d)
  else if a =? LAPIC_BASE + 0xb0 then
    mkSim (s_sel d) (s_io d) (s_bus d) (s_msr d) (s_keys d) (tail (s_isr d)) (s_out d)
  else mkSim (s_sel d) (s_io d) (<[a := v]> (s_bus d)) (s_msr d) (s_keys d) (s_isr d) (s_out d).

Definition sim_read (a : Z) (d : sim) : Z :=
  if a =? IOAPIC_BASE then s_sel d
  else if a =? IOAPIC_BASE + 0x10 then default 0 (s_io d !! s_sel d)
  else if a =? HPET_BASE then HPET_CAP
  else if hpet_timer_config a then Z.lor (Z.land (default 0 (s_bus d !! a)) HPET_TIMER_MASK) HPET_TIMER_CAP
  else default 0 (s_bus d !! a).

Definition sim_in (port : Z) (d : sim) : Z * sim :=
  if port =? 0x60 then
    match s_keys d with
    | c :: q => (c, mkSim (s_sel d) (s_io d) (s_bus d) (s_msr d) q (s_isr d) (s_out d))
    | [] => (0, d)
    end
  else (0, d).

Global Instance sim_machine : Machine sim := {|
  port_out p v d := mkSim (s_sel d) (s_io d) (s_bus d) (s_msr d) (s_keys d) (s_isr d) ((p, v) :: s_out d);
  port_in := sim_in;
  bus_write _ a v d := sim_write a v d;
  bus_read _ a d := (sim_read a d, d);
  rdmsr r d := (u32 (default (0, 0) (s_msr d !! r)).1, u32 (default (0, 0) (s_msr d !! r)).2);
  wrmsr r hi lo d := mkSim (s_sel d) (s_io d) (s_bus d) (<[r := (hi, lo)]> (s_msr d)) (s_keys d) (s_isr d) (s_out d);
  cpuid _ _ := (0, 0, 0, 0)
|}.

(** The machine after reset, with an enabled local APIC. *)
Definition sim0 : sim := mkSim 0 ∅ ∅ {[ 0x1b := (0, 0xfee00800) ]} [] [] [].
