(* ===== verification/Keyboard.v ===== *)
(** * Keyboard: the PS/2 controller and the keyboard, drivers/ps2.cpp and drivers/keyboard.cpp

    The controller is reached through ports 0x60 and 0x64.  A key that is pressed
    or released arrives as a scan code at port 0x60; [Keyboard::read_key] keeps
    the state of the modifiers and maps the code to an ASCII character. *)
From Stdlib Require Import Ascii String.
From S2P Require Import Prelude Memory Libc Printf Bitmap Machine.

(** ** The PS/2 controller *)
Module Ps2.

(** [Port], [Command] and [CtrlTestResult]. *)
Definition DATA_RW : Z := 0x60.
Definition STATUS_R : Z := 0x64.
Definition COMMAND_W : Z := 0x64.

Inductive Command : Type :=
| TEST_CONTROLLER | GET_CONFIG | CPY_LOW_TO_STAT | CPY_HIGH_TO_STAT
| TEST_1_PORT | DISABLE_1_PORT | ENABLE_1_PORT | TEST_2_PORT | DISABLE_2_PORT | ENABLE_2_PORT.
Definition cmd_code (c : Command) : Z :=
  match c with
  | TEST_CONTROLLER => 0xAA | GET_CONFIG => 0x20 | CPY_LOW_TO_STAT => 0xC1 | CPY_HIGH_TO_STAT => 0xC2
  | TEST_1_PORT => 0xAB | DISABLE_1_PORT => 0xAD | ENABLE_1_PORT => 0xAE
  | TEST_2_PORT => 0xA9 | DISABLE_2_PORT => 0xA7 | ENABLE_2_PORT => 0xA8
  end.
Definition CTRL_PASSED : Z := 0x55.

Section Ps2.
Context {D : Type} `{Machine D}.

Definition read_data : M D Z := Cpu.inb DATA_RW.
Definition set_data (val : Z) : M D unit := Cpu.outb DATA_RW val.
(** The port is cast to [u8], which keeps 0x64. *)
Definition read_status : M D Z := Cpu.inb (u8 STATUS_R).

Definition send_cmd (cmd : Command) (data : Z) : M D Z :=
  set_data data;;
  Cpu.io_wait;;
  Cpu.outb COMMAND_W (u8 (cmd_code cmd));;
  Cpu.io_wait;;
  read_data.

Definition test : M D bool :=
  result ← send_cmd TEST_CONTROLLER 0; mret (result =? CTRL_PASSED).

Definition set_status (val : Z) : M D unit :=
  send_cmd CPY_LOW_TO_STAT val;; send_cmd CPY_HIGH_TO_STAT val;; mret tt.

(** [ps2::port_1] *)
Definition port_1_test : M D Z := send_cmd TEST_1_PORT 0.
Definition port_1_is_interrupt_enabled : M D bool :=
  cfg ← send_cmd GET_CONFIG 0; mret (test_bit cfg 0 =? 1).
Definition port_1_disable : M D unit := send_cmd DISABLE_1_PORT 0;; mret tt.
Definition port_1_enable : M D unit := send_cmd ENABLE_1_PORT 0;; mret tt.

End Ps2.
End Ps2.

(** ** The keyboard *)

(** [ScanCode] and [ASCII]. *)
Module ScanCode.
Definition ESCAPE_IN : Z := 0x01.
Definition BACKSPACE_IN : Z := 0x0e.
Definition TAB_IN : Z := 0x0f.
Definition ENTER_IN : Z := 0x1C.
Definition LEFT_SHIFT_IN : Z := 0x2a.
Definition RIGHT_SHIFT_IN : Z := 0x36.
Definition SPACE_IN : Z := 0x39.
Definition CAPSLOCK_IN : Z := 0x3a.
Definition LEFT_SHIFT_OUT : Z := 0xaa.
Definition RIGHT_SHIFT_OUT : Z := 0xb6.
End ScanCode.

Module ASCII.
Definition NULL_CHAR : Z := 0x00.
Definition BACKSPACE : Z := 0x08.
Definition HORIZONTAL_TAB : Z := 0x09.
Definition LINE_FEED : Z := 0x0a.
Definition SHIFT_OUT : Z := 0x0e.
Definition SHIFT_IN : Z := 0x0f.
Definition ESCAPE : Z := 0x1b.
Definition SPACE : Z := 0x20.
End ASCII.

Record Keyboard : Type := mkKeyboard {
  shift : bool;
  capslock : bool
}.

Module Kb.

(** [Keyboard()] *)
Definition make : Keyboard := mkKeyboard false false.

(** [Keyboard::_mod_letter] and [Keyboard::_mod_special]. *)
Definition _mod_letter (k : Keyboard) (chr mod_chr : ascii) : Z :=
  Z.of_N (N_of_ascii (if capslock k then (if shift k then chr else mod_chr)
                      else (if shift k then mod_chr else chr))).
Definition _mod_special (k : Keyboard) (chr mod_chr : ascii) : Z :=
  Z.of_N (N_of_ascii (if shift k then mod_chr else chr)).

#[global] Arguments _mod_letter k (chr mod_chr)%_char_scope.
#[global] Arguments _mod_special k (chr mod_chr)%_char_scope.

(** The [switch] of [Keyboard::read_key]: the character returned for a scan code,
    and the new state of the modifiers. *)
Definition decode (code : Z) (k : Keyboard) : Z * Keyboard :=
  match code with
  | 0x2 => (_mod_special k "1" "!", k)
  | 0x3 => (_mod_special k "2" "@", k)
  | 0x4 => (_mod_special k "3" "#", k)
  | 0x5 => (_mod_special k "4" "$", k)
  | 0x6 => (_mod_special k "5" "%", k)
  | 0x7 => (_mod_special k "6" "^", k)
  | 0x8 => (_mod_special k "7" "&", k)
  | 0x9 => (_mod_special k "8" "*", k)
  | 0xA => (_mod_special k "9" "(", k)
  | 0xB => (_mod_special k "0" ")", k)
  | 0xC => (_mod_special k "-" "_", k)
  | 0xD => (_mod_special k "=" "+", k)
  | 0x10 => (_mod_letter k "q" "Q", k)
  | 0x11 => (_mod_letter k "w" "W", k)
  | 0x12 => (_mod_letter k "e" "E", k)
  | 0x13 => (_mod_letter k "r" "R", k)
  | 0x14 => (_mod_letter k "t" "T", k)
  | 0x15 => (_mod_letter k "y" "Y", k)
  | 0x16 => (_mod_letter k "u" "U", k)
  | 0x17 => (_mod_letter k "i" "I", k)
  | 0x18 => (_mod_letter k "o" "O", k)
  | 0x19 => (_mod_letter k "p" "P", k)
  | 0x1A => (_mod_special k "[" "{", k)
  | 0x1B => (_mod_special k "]" "}", k)
  | 0x1E => (_mod_letter k "a" "A", k)
  | 0x1F => (_mod_letter k "s" "S", k)
  | 0x20 => (_mod_letter k "d" "D", k)
  | 0x21 => (_mod_letter k "f" "F", k)
  | 0x22 => (_mod_letter k "g" "G", k)
  | 0x23 => (_mod_letter k "h" "H", k)
  | 0x24 => (_mod_letter k "j" "J", k)
  | 0x25 => (_mod_letter k "k" "K", k)
  | 0x26 => (_mod_letter k "l" "L", k)
  | 0x27 => (_mod_special k ";" ":", k)
  | 0x28 => (_mod_special k "'" "034", k)
  | 0x29 => (_mod_special k "`" "~", k)
  | 0x2B => (_mod_special k "\" "|", k)
  | 0x2C => (_mod_letter k "z" "Z", k)
  | 0x2D => (_mod_letter k "x" "X", k)
  | 0x2E => (_mod_letter k "c" "C", k)
  | 0x2F => (_mod_letter k "v" "V", k)
  | 0x30 => (_mod_letter k "b" "B", k)
  | 0x31 => (_mod_letter k "n" "N", k)
  | 0x32 => (_mod_letter k "m" "M", k)
  | 0x33 => (_mod_special k "," "<", k)
  | 0x34 => (_mod_special k "." ">", k)
  | 0x35 => (_mod_special k "/" "?", k)
  | _ =>
    if code =? ScanCode.ENTER_IN then (ASCII.LINE_FEED, k)
    else if code =? ScanCode.TAB_IN then (ASCII.HORIZONTAL_TAB, k)
    else if code =? ScanCode.BACKSPACE_IN then (ASCII.BACKSPACE, k)
    else if code =? ScanCode.ESCAPE_IN then (ASCII.ESCAPE, k)
    else if code =? ScanCode.SPACE_IN then (ASCII.SPACE, k)
    else if (code =? ScanCode.LEFT_SHIFT_IN) || (code =? ScanCode.RIGHT_SHIFT_IN)
      then (ASCII.SHIFT_IN, mkKeyboard true (capslock k))
    else if (code =? ScanCode.LEFT_SHIFT_OUT) || (code =? ScanCode.RIGHT_SHIFT_OUT)
      then (ASCII.SHIFT_OUT, mkKeyboard false (capslock k))
    else if code =? ScanCode.CAPSLOCK_IN
      then (ASCII.NULL_CHAR, mkKeyboard (shift k) (negb (capslock k)))
    else (ASCII.NULL_CHAR, k)
  end.

(** [Keyboard::read_key], on the keyboard object and the hardware. *)
Definition read_key {D} `{Machine D} : M (Keyboard * D) Z := fun '(k, d) =>
  match Ps2.read_data d with
  | Done (code, d') => let '(chr, k') := decode code k in Done (chr, (k', d'))
  | Fail e => Fail e
  end.

End Kb.

(** ** Reference: the US layout of scan code set 1

    A row of keys is the code of its first key and the characters of its keys
    without and with shift. *)
Definition rows : list (Z * (list Z * list Z)) :=
  [ (0x02, (cs "1234567890-=", cs "!@#$%^&*()_+"));
    (0x10, (cs "qwertyuiop[]", cs "QWERTYUIOP{}"));
    (0x1e, (cs "asdfghjkl;'`", cs "ASDFGHJKL:" ++ [34; 126]));
    (0x2b, (cs "\zxcvbnm,./", cs "|ZXCVBNM<>?")) ].

Fixpoint key_in (rs : list (Z * (list Z * list Z))) (code : Z) : option (Z * Z) :=
  match rs with
  | [] => None
  | (first, (plain, shifted)) :: rs' =>
      if (first <=? code) && (code <? first + Z.of_nat (length plain)) then
        a ← plain !! Z.to_nat (code - first); b ← shifted !! Z.to_nat (code - first); Some (a, b)
      else key_in rs' code
  end.

(** The keys that give the same control character in every state. *)
Definition control_keys : list (Z * Z) :=
  [(0x01, 27); (0x0e, 8); (0x0f, 9); (0x1c, 10); (0x39, 32);
   (0x2a, 15); (0x36, 15); (0xaa, 14); (0xb6, 14)].

Definition is_letter (c : Z) : bool := (97 <=? c) && (c <=? 122).

(** The character of a key: capslock acts on letters only, and shift undoes it. *)
Definition key_char (sh caps : bool) (code : Z) : Z :=
  match key_in rows code with
  | Some (a, b) => if (if is_letter a then xorb sh caps else sh) then b else a
  | None => match list_find (fun p => p.1 = code) control_keys with
            | Some (_, (_, c)) => c
            | None => 0
            end
  end.

(** The modifiers after a sequence of codes: shift is what the last shift event
    says, whichever the key; capslock is the parity of its presses. *)
Definition shift_event (code : Z) : bool := bool_decide (code ∈ [0x2a; 0x36; 0xaa; 0xb6]).
Definition shift_after (k : Keyboard) (codes : list Z) : bool :=
  match filter (fun c => shift_event c = true) (reverse codes) with
  | c :: _ => c <? 0x80
  | [] => shift k
  end.
Definition caps_after (k : Keyboard) (codes : list Z) : bool :=
  xorb (capslock k) (Nat.odd (length (filter (fun c => c = 0x3a) codes))).

(** The characters a sequence of codes produces, after the codes [pre]. *)
Fixpoint typed (k : Keyboard) (pre codes : list Z) : list Z :=
  match codes with
  | [] => []
  | c :: codes' => key_char (shift_after k pre) (caps_after k pre) c :: typed k (pre ++ [c]) codes'
  end.

(** One code, against the layout. *)
Definition decode_ok (sh caps : bool) (code : Z) : bool :=
  let r := Kb.decode code (mkKeyboard sh caps) in
  (r.1 =? key_char sh caps code) &&
  Bool.eqb (shift r.2) (if shift_event code then code <? 0x80 else sh) &&
  Bool.eqb (capslock r.2) (xorb caps (code =? 0x3a)).

Lemma decode_all : forallb (fun p => decode_ok p.1.1 p.1.2 p.2)
  (list_prod (list_prod [true; false] [true; false]) (seqZ 0 256)) = true.
Proof. by vm_compute. Qed.

Lemma decode_spec code k : 0 <= code < 256 ->
  Kb.decode code k = (key_char (shift k) (capslock k) code,
    mkKeyboard (if shift_event code then code <? 0x80 else shift k) (xorb (capslock k) (code =? 0x3a))).
Proof.
  intros Hc. destruct k as [sh caps]. cbn [shift capslock].
  assert (H : decode_ok sh caps code = true).
  { pose proof decode_all as H. rewrite forallb_forall in H. apply (H (sh, caps, code)).
    apply in_prod; [apply in_prod; [destruct sh|destruct caps]; simpl; auto|].
    apply list_elem_of_In, elem_of_seqZ. lia. }
  unfold decode_ok in H. destruct (Kb.decode code _) as [c [s' k']]. cbn in H.
  apply andb_prop in H as [H H3]. apply andb_prop in H as [H1 H2].
  apply Z.eqb_eq in H1. apply Bool.eqb_prop in H2, H3. by subst.
Qed.

Lemma shift_after_snoc k pre c :
  shift_after k (pre ++ [c]) = if shift_event c then c <? 0x80 else shift_after k pre.
Proof.
  unfold shift_after. rewrite reverse_snoc, filter_cons.
  destruct (shift_event c) eqn:E; case_decide; try done.
Qed.

Lemma caps_after_snoc k pre c :
  caps_after k (pre ++ [c]) = xorb (caps_after k pre) (c =? 0x3a).
Proof.
  unfold caps_after. rewrite filter_app, length_app, Nat.odd_add, Bool.xorb_assoc. f_equal. f_equal.
  rewrite filter_cons. destruct (Z.eqb_spec c 0x3a); case_decide; try done.
Qed.

(** The keyboard delivers its codes one by one at the data port. *)
Class ScanSource (D : Type) `{Machine D} : Type := {
  pending : D -> list Z;
  pending_read : forall d c q, pending d = c :: q ->
    (port_in 0x60 d).1 = c /\ pending (port_in 0x60 d).2 = q
}.

(** The keyboard after the codes [pre]. *)
Definition kbd_after (k : Keyboard) (pre : list Z) : Keyboard := mkKeyboard (shift_after k pre) (caps_after k pre).

Lemma read_key_spec {D} `{ScanSource D} k pre (d : D) c q :
  pending d = c :: q -> 0 <= c < 256 ->
  Kb.read_key (kbd_after k pre, d) =
    Done (key_char (shift_after k pre) (caps_after k pre) c, (kbd_after k (pre ++ [c]), (port_in 0x60 d).2)).
Proof.
  intros Hp Hc. destruct (pending_read d c q Hp) as [H1 H2].
  unfold Kb.read_key, Ps2.read_data, Cpu.inb, Ps2.DATA_RW. change (u16 0x60) with 0x60.
  destruct (port_in 0x60 d) as [v d'] eqn:E. cbn in *. subst v. rewrite u8_small by lia.
  rewrite decode_spec by done. unfold kbd_after. by rewrite shift_after_snoc, caps_after_snoc.
Qed.
