(* ===== verification/Acpi.v ===== *)
(** * Acpi: the ACPI tables, acpi/acpi.cpp and acpi/apic/madt.cpp

    The firmware leaves its tables in memory.  The kernel follows the RSDP to
    the RSDT, searches that for tables by their signature, and searches the
    MADT for the structures of the interrupt controllers. *)
From Stdlib Require Import String.
From S2P Require Import Prelude Memory Libc Printf.

(** [acpi::Version] *)
Inductive Version : Type := VER_1 | VER_2 | UNKNOWN.
Definition version_code (v : Version) : Z := match v with VER_1 => 0 | VER_2 => 2 | UNKNOWN => 10 end.

(** The fields that are read of the packed structs [RSDP], [sdt::Header],
    [madt::SDT_Table], [ics::Header], [CPU_LAPIC_Struct], [IO_APIC_Struct] and
    [hpet::SDT_Table], at their offsets. *)
Definition rsdp_signature (rsdp : Z) : Z := rsdp.
Definition rsdp_revision (m : mem) (rsdp : Z) : Z := read8 m (rsdp + 15).
Definition rsdp_rsdt_addr (m : mem) (rsdp : Z) : Z := read32 m (rsdp + 16).
Definition SDT_HEADER_SZ : Z := 36.
Definition sdt_signature (sdt : Z) : Z := sdt.
Definition sdt_length (m : mem) (sdt : Z) : Z := read32 m (sdt + 4).
Definition rsdt_entry (m : mem) (rsdt i : Z) : Z := read32 m (rsdt + SDT_HEADER_SZ + 4 * i).
Definition madt_lapic_addr (m : mem) (madt : Z) : Z := read32 m (madt + 36).
Definition madt_ics_table (madt : Z) : Z := madt + 44.
Definition ics_type (m : mem) (h : Z) : Z := read8 m h.
Definition ics_length (m : mem) (h : Z) : Z := read8 m (h + 1).
Definition lapic_acpi_cpu_uid (m : mem) (h : Z) : Z := read8 m (h + 2).
Definition lapic_apic_id (m : mem) (h : Z) : Z := read8 m (h + 3).
Definition lapic_flags (m : mem) (h : Z) : Z := read32 m (h + 4).
Definition io_apic_addr (m : mem) (h : Z) : Z := read32 m (h + 4).
Definition hpet_base_address (m : mem) (h : Z) : Z := read64 m (h + 44).

(** [ics::Type] *)
Inductive IcsType : Type := CPU_LAPIC | IO_APIC | LAPIC_ADDR_OVERRIDE.
Definition ics_code (t : IcsType) : Z :=
  match t with CPU_LAPIC => 0 | IO_APIC => 1 | LAPIC_ADDR_OVERRIDE => 5 end.

Module Acpi.

Definition get_version (m : mem) (rsdp : Z) : Version :=
  if rsdp_revision m rsdp =? version_code VER_1 then VER_1
  else if rsdp_revision m rsdp =? version_code VER_2 then VER_2
  else UNKNOWN.

(** [RSDP_SIG] and [RSDT_SIG] are pointers to string literals. *)
Definition verify_rsdp (m : mem) (rsdp RSDP_SIG : Z) : bool :=
  Libc.strncmp 8 m (rsdp_signature rsdp) RSDP_SIG =? 0.
Definition verify_rsdt (m : mem) (rsdp RSDT_SIG : Z) : bool :=
  let rsdt := rsdp_rsdt_addr m rsdp in
  Libc.strncmp 4 m (sdt_signature rsdt) RSDT_SIG =? 0.

(** [sdt::get_header] *)
Fixpoint sdt_loop (n : nat) (m : mem) (rsdt i signature : Z) : Z :=
  match n with
  | O => 0
  | S n' =>
      let sdt := rsdt_entry m rsdt i in
      if Libc.strncmp 4 m (sdt_signature sdt) signature =? 0 then sdt
      else sdt_loop n' m rsdt (i + 1) signature
  end.
(** The subtraction is in 64 bits: [sizeof(RSDT)] is a [size_t]. *)
Definition sdt_entries (m : mem) (rsdt : Z) : Z := u64 (sdt_length m rsdt - SDT_HEADER_SZ) / 4.
Definition sdt_get_header (m : mem) (rsdp signature : Z) : Z :=
  let rsdt := rsdp_rsdt_addr m rsdp in
  sdt_loop (Z.to_nat (sdt_entries m rsdt)) m rsdt 0 signature.

(** [madt::ics::get_header] *)
Definition ICS_LIMIT : nat := 15.
Definition ics_next (m : mem) (h : Z) : Z := u64 (h + ics_length m h).
Fixpoint ics_loop (n : nat) (m : mem) (h type : Z) : Z :=
  match n with
  | O => 0
  | S n' => if ics_type m h =? type then h else ics_loop n' m (ics_next m h) type
  end.
Definition ics_get_header (m : mem) (madt : Z) (type : IcsType) : Z :=
  ics_loop ICS_LIMIT m (madt_ics_table madt) (ics_code type).

(** [madt::dbg_print_lapic_info] *)
Definition dbg_print_lapic_info {C} `{ConsoleI C} (m : mem) (madt : Z) (c : C) : outcome C :=
  let apic := ics_get_header m madt CPU_LAPIC in
  if apic =? 0 then Fail NullDeref else
  Printf.kprintf (cs "ACPI CPU UID: %d, APIC ID: %d, flags: %d" ++ NL)
    [VaU64 (lapic_acpi_cpu_uid m apic); VaU64 (lapic_apic_id m apic); VaU64 (lapic_flags m apic)] c.

End Acpi.

(** ** Signatures *)

(** [strncmp] of [n] bytes with a signature that has no NUL among them. *)
Lemma strncmp_bytes n m p q :
  Forall (fun c => c <> 0) (get_bytes n m q) ->
  Libc.strncmp n m p q = 0 <-> get_bytes n m p = get_bytes n m q.
Proof.
  revert p q. induction n as [|n IH]; intros p q Hq; [done|]. simpl in *. inv Hq.
  pose proof (mget_range m p). pose proof (mget_range m q).
  destruct (Z.eqb_spec (mget m p) 0) as [E|E]; simpl.
  - split; [unfold u8; intros; zdm|]. intros [= E' _]. lia.
  - destruct (Z.eqb_spec (mget m p) (mget m q)) as [E'|E']; simpl.
    + rewrite IH by done. split; [by intros ->; rewrite E'|by intros [= _ ->]].
    + split; [unfold u8; intros; zdm|by intros [= E'' _]].
Qed.

Section Sdt.
Context (m : mem) (rsdt signature : Z) (sig : list Z).
Hypothesis Hlen : length sig = 4%nat.
Hypothesis Hsig : cstr m signature sig.

(** The table at entry [i] has the signature. *)
Definition has_sig (i : Z) : Prop := get_bytes 4 m (rsdt_entry m rsdt i) = sig.

Lemma sdt_match i : Libc.strncmp 4 m (sdt_signature (rsdt_entry m rsdt i)) signature = 0 <-> has_sig i.
Proof.
  destruct Hsig as (Hc & Hb & _). rewrite Hlen in Hb. rewrite strncmp_bytes; rewrite Hb; [done|].
  eapply Forall_impl; [exact Hc|]. unfold is_char. lia.
Qed.

(** The first entry from [i] on that has the signature, or null. *)
Definition first_sdt (lo hi r : Z) : Prop :=
  (exists i, lo <= i < hi /\ r = rsdt_entry m rsdt i /\ has_sig i /\ forall j, lo <= j < i -> ~ has_sig j) \/
  (r = 0 /\ forall j, lo <= j < hi -> ~ has_sig j).

Lemma sdt_loop_spec n i : first_sdt i (i + Z.of_nat n) (Acpi.sdt_loop n m rsdt i signature).
Proof.
  revert i. induction n as [|n IH]; intros i; cbn [Acpi.sdt_loop].
  - right. split; [done|]. lia.
  - destruct (Z.eqb_spec (Libc.strncmp 4 m (sdt_signature (rsdt_entry m rsdt i)) signature) 0) as [E|E].
    + left. exists i. split; [lia|]. split; [done|]. split; [by apply sdt_match|]. intros. lia.
    + rewrite sdt_match in E. assert (Hs : forall j, i <= j -> (j < i + 1 -> ~ has_sig j)).
      { intros j ??. by replace j with i by lia. }
      destruct (IH (i + 1)) as [(j & Hj & -> & Hm & Hf)|[-> Hf]].
      * left. exists j. repeat split; try done; try lia. intros k Hk.
        destruct (decide (k < i + 1)); [apply Hs; lia|apply Hf; lia].
      * right. split; [done|]. intros k Hk.
        destruct (decide (k < i + 1)); [apply Hs; lia|apply Hf; lia].
Qed.
End Sdt.

(** C28: [acpi::sdt::get_header(signature)] searches the whole RSDT: for a
    four-character signature and an RSDT with [n] entries, it returns the first
    table of the RSDT that begins with the signature, and null when there is none. *)
Theorem sdt_get_header_correct (m : mem) (rsdp signature : Z) (sig : list Z) (n : Z) :
  length sig = 4%nat -> cstr m signature sig ->
  0 <= n -> sdt_length m (rsdp_rsdt_addr m rsdp) = SDT_HEADER_SZ + 4 * n ->
  first_sdt m (rsdp_rsdt_addr m rsdp) sig 0 n (Acpi.sdt_get_header m rsdp signature).
Proof.
  intros Hl Hs Hn E. unfold Acpi.sdt_get_header, Acpi.sdt_entries. rewrite E. unfold SDT_HEADER_SZ in *.
  assert (0 <= sdt_length m (rsdp_rsdt_addr m rsdp) < 2 ^ 32) by apply (load_range 4).
  replace (36 + 4 * n - 36) with (n * 4) by lia. rewrite u64_small by lia. rewrite Z.div_mul by lia.
  pose proof (sdt_loop_spec m (rsdp_rsdt_addr m rsdp) signature sig Hl Hs (Z.to_nat n) 0) as H0.
  by rewrite Z2Nat.id, Z.add_0_l in H0 by lia.
Qed.

(** ** The structures of the MADT *)

(** The structures laid out one after the other from [h]: the type and the
    length of each, up to the address [e]. *)
Inductive ics_chain (m : mem) : Z -> list Z -> Z -> Prop :=
| ics_end h : ics_chain m h [] h
| ics_cons h hs e :
    0 < ics_length m h -> h + ics_length m h < 2 ^ 64 ->
    ics_chain m (h + ics_length m h) hs e -> ics_chain m h (h :: hs) e.

Definition ics_matches (m : mem) (type h : Z) : Prop := ics_type m h = type.
Global Instance ics_matches_dec m type h : Decision (ics_matches m type h).
Proof. unfold ics_matches. apply _. Defined.

Lemma ics_next_chain m h hs e : 0 <= h -> ics_chain m h (h :: hs) e -> Acpi.ics_next m h = h + ics_length m h.
Proof.
  intros Hh Hc. inv Hc. unfold Acpi.ics_next. apply u64_small.
  pose proof (load_range 1 m (h + 1)). unfold ics_length, read8 in *. lia.
Qed.

(** The search along a chain: the first match among the first [n], or the
    search that is left at the end of the chain. *)
Lemma ics_loop_spec m type hs e : forall n h, 0 <= h -> ics_chain m h hs e ->
  Acpi.ics_loop n m h type =
    match list_find (ics_matches m type) (take n hs) with
    | Some (_, h') => h'
    | None => Acpi.ics_loop (n - length hs) m e type
    end.
Proof.
  induction hs as [|h0 hs IH]; intros n h Hh Hc.
  - inv Hc. by rewrite take_nil, Nat.sub_0_r.
  - pose proof Hc as Hc'. inv Hc. destruct n as [|n]; [done|]. cbn [Acpi.ics_loop take list_find length Nat.sub].
    destruct (Z.eqb_spec (ics_type m h0) type) as [E|E].
    + by rewrite decide_True.
    + rewrite decide_False by done. rewrite (ics_next_chain m h0 hs e) by done.
      rewrite (IH n) by (done || lia). by destruct (list_find _ (take n hs)) as [[]|].
Qed.

Lemma list_find_take_lt {A} (P : A -> Prop) `{!forall x, Decision (P x)} (l : list A) n i x :
  list_find P l = Some (i, x) -> list_find P (take n l) = if decide (i < n)%nat then Some (i, x) else None.
Proof.
  intros Hf. apply list_find_Some in Hf as (Hl & Hx & Hb). case_decide.
  - apply list_find_Some. rewrite lookup_take_lt by done. repeat split; try done.
    intros j y Hy Hj. rewrite lookup_take_lt in Hy by lia. eauto.
  - apply list_find_None, Forall_lookup. intros j y Hy. apply lookup_take_Some in Hy as [Hy Hj].
    apply (Hb j y); [done|lia].
Qed.

(** C29: [madt::ics::get_header(type)] looks at the first fifteen structures of
    the MADT: a first structure of the type among them is returned; one behind
    them is not found, and neither is a type that none of at least fifteen
    structures has. *)
Theorem madt_get_header_correct (m : mem) (madt : Z) (type : IcsType) (hs : list Z) (e : Z) :
  0 <= madt -> ics_chain m (madt_ics_table madt) hs e ->
  (forall i h, list_find (ics_matches m (ics_code type)) hs = Some (i, h) ->
     Acpi.ics_get_header m madt type = if decide (i < 15)%nat then h else 0) /\
  (list_find (ics_matches m (ics_code type)) hs = None -> (15 <= length hs)%nat ->
     Acpi.ics_get_header m madt type = 0).
Proof.
  intros Hm Hc. unfold Acpi.ics_get_header, Acpi.ICS_LIMIT.
  assert (0 <= madt_ics_table madt) by (unfold madt_ics_table; lia).
  rewrite (ics_loop_spec m (ics_code type) hs e) by done. split.
  - intros i h Hf. rewrite (list_find_take_lt _ _ _ i h) by done. case_decide; [done|].
    apply list_find_Some in Hf as (Hl & _). apply lookup_lt_Some in Hl.
    by replace (15 - length hs)%nat with O by lia.
  - intros Hn Hl. replace (list_find _ (take 15 hs)) with (@None (nat * Z)).
    + by replace (15 - length hs)%nat with O by lia.
    + symmetry. apply list_find_None. apply list_find_None in Hn.
      rewrite <- (take_drop 15 hs) in Hn. by apply Forall_app in Hn as [Hn _].
Qed.

(** The search does not stop at the end of the MADT.  When the table has
    fewer than fifteen structures, none of the wanted type, and the byte behind
    the table happens to be the code of the type, the address behind the table
    is returned instead of null. *)
Theorem madt_search_leaves_table (m : mem) (madt : Z) (type : IcsType) (hs : list Z) :
  0 <= madt -> ics_chain m (madt_ics_table madt) hs (madt + sdt_length m madt) ->
  (length hs < 15)%nat -> Forall (fun h => ics_type m h <> ics_code type) hs ->
  read8 m (madt + sdt_length m madt) = ics_code type ->
  Acpi.ics_get_header m madt type = madt + sdt_length m madt.
Proof.
  intros Hm Hc Hl Hn He. unfold Acpi.ics_get_header, Acpi.ICS_LIMIT.
  rewrite (ics_loop_spec m (ics_code type) hs (madt + sdt_length m madt)); [|unfold madt_ics_table; lia|done].
  replace (list_find _ (take 15 hs)) with (@None (nat * Z)).
  - destruct (15 - length hs)%nat eqn:E; [lia|]. cbn [Acpi.ics_loop]. unfold ics_type. by rewrite He, Z.eqb_refl.
  - symmetry. apply list_find_None. rewrite <- (take_drop 15 hs) in Hn. by apply Forall_app in Hn as [Hn _].
Qed.

(** ** Where the searches look

    The bytes a search reads, as a test, so that a search gives the same answer
    in any memory that agrees on a region around the tables. *)
Section Footprint.
Context (lo hi : Z) (m m' : mem).
Hypothesis Hagree : forall a, lo <= a < hi -> mget m' a = mget m a.

Definition within (p n : Z) : bool := (lo <=? p) && (p + n <=? hi).

Lemma load_within n p : within p (Z.of_nat n) = true -> load n m' p = load n m p.
Proof. intros [H1%Z.leb_le H2%Z.leb_le]%andb_true_iff. apply load_agree. intros b Hb. apply Hagree. lia. Qed.

Lemma strncmp_within n p q :
  within p (Z.of_nat n) = true -> within q (Z.of_nat n) = true -> Libc.strncmp n m' p q = Libc.strncmp n m p q.
Proof.
  intros [H1%Z.leb_le H2%Z.leb_le]%andb_true_iff [H3%Z.leb_le H4%Z.leb_le]%andb_true_iff.
  revert p q H1 H2 H3 H4. induction n as [|n IH]; intros; [done|]. cbn [Libc.strncmp].
  rewrite !Hagree by lia. rewrite IH by lia. done.
Qed.

Fixpoint sdt_loop_reads (n : nat) (rsdt i : Z) : bool :=
  match n with
  | O => true
  | S n' => within (rsdt + SDT_HEADER_SZ + 4 * i) 4 && within (rsdt_entry m rsdt i) 4 && sdt_loop_reads n' rsdt (i + 1)
  end.
Definition sdt_reads (rsdp signature : Z) : bool :=
  let rsdt := rsdp_rsdt_addr m rsdp in
  within (rsdp + 16) 4 && within (rsdt + 4) 4 && within signature 4 &&
  sdt_loop_reads (Z.to_nat (Acpi.sdt_entries m rsdt)) rsdt 0.

Lemma sdt_get_header_within rsdp signature :
  sdt_reads rsdp signature = true -> Acpi.sdt_get_header m' rsdp signature = Acpi.sdt_get_header m rsdp signature.
Proof.
  unfold sdt_reads. intros [[[H1 H2]%andb_true_iff H3]%andb_true_iff H4]%andb_true_iff.
  assert (E : rsdp_rsdt_addr m' rsdp = rsdp_rsdt_addr m rsdp) by by apply (load_within 4).
  unfold Acpi.sdt_get_header. rewrite E.
  assert (El : Acpi.sdt_entries m' (rsdp_rsdt_addr m rsdp) = Acpi.sdt_entries m (rsdp_rsdt_addr m rsdp)).
  { unfold Acpi.sdt_entries, sdt_length, read32. by rewrite (load_within 4). }
  rewrite El. revert H4. generalize 0. induction (Z.to_nat _) as [|n IH]; intros i Hi; [done|].
  cbn [sdt_loop_reads] in Hi. apply andb_true_iff in Hi as [[Ha Hb]%andb_true_iff Hc].
  cbn [Acpi.sdt_loop]. unfold sdt_signature.
  assert (Ee : rsdt_entry m' (rsdp_rsdt_addr m rsdp) i = rsdt_entry m (rsdp_rsdt_addr m rsdp) i) by by apply (load_within 4).
  rewrite Ee, (strncmp_within 4), IH by done. done.
Qed.

Fixpoint ics_reads (n : nat) (h type : Z) : bool :=
  match n with
  | O => true
  | S n' => within h 2 && ((ics_type m h =? type) || ics_reads n' (Acpi.ics_next m h) type)
  end.

Lemma ics_loop_within n h type : ics_reads n h type = true -> Acpi.ics_loop n m' h type = Acpi.ics_loop n m h type.
Proof.
  revert h. induction n as [|n IH]; intros h; [done|]. cbn [ics_reads Acpi.ics_loop].
  intros [[H1%Z.leb_le H2%Z.leb_le]%andb_true_iff Hr]%andb_true_iff.
  assert (E1 : ics_type m' h = ics_type m h) by (apply (load_within 1), andb_true_iff; rewrite !Z.leb_le; lia).
  assert (E2 : ics_length m' h = ics_length m h) by (apply (load_within 1), andb_true_iff; rewrite !Z.leb_le; lia).
  unfold Acpi.ics_next in *. rewrite E1, E2. destruct (ics_type m h =? type); [done|]. by apply IH.
Qed.
End Footprint.

(** ** Sample tables: an RSDP at 0x1000, an RSDT at 0x2000 with a MADT at 0x3000
    and an HPET table at 0x4000; literals at 0x500. *)
Definition acpi_sample : mem :=
  let m := put_bytes ∅ 0x1000 (cs "RSD PTR ") in
  let m := write32 m 0x1010 0x2000 in
  let m := put_bytes m 0x2000 (cs "RSDT") in
  let m := write32 m 0x2004 44 in
  let m := write32 m 0x2024 0x3000 in
  let m := write32 m 0x2028 0x4000 in
  let m := put_bytes m 0x3000 (cs "APIC") in
  let m := write32 m 0x3004 52 in
  let m := write32 m 0x3024 0xfee00000 in
  let m := put_bytes m 0x302c [0; 8; 0; 0; 1; 0; 0; 0; 1] in
  let m := put_bytes m 0x4000 (cs "HPET") in
  let m := write64 m 0x402c 0xfed00000 in
  put_bytes m 0x500 (cs "HPET").

Lemma acpi_sample_chain : ics_chain acpi_sample 0x302c [0x302c] 0x3034.
Proof.
  assert (E : ics_length acpi_sample 0x302c = 8) by by vm_compute.
  apply ics_cons; rewrite ?E; [lia|lia|]. apply ics_end.
Qed.

Lemma sdt_get_header_correct_witness :
  first_sdt acpi_sample 0x2000 (cs "HPET") 0 2 (Acpi.sdt_get_header acpi_sample 0x1000 0x500).
Proof.
  assert (E : rsdp_rsdt_addr acpi_sample 0x1000 = 0x2000) by by vm_compute. rewrite <- E.
  apply (sdt_get_header_correct acpi_sample 0x1000 0x500 (cs "HPET") 2).
  - done.
  - split; [|split; by vm_compute]. repeat constructor; by vm_compute.
  - lia.
  - by vm_compute.
Defined.

Lemma madt_get_header_correct_witness :
  Acpi.ics_get_header acpi_sample 0x3000 CPU_LAPIC = 0x302c.
Proof.
  apply (proj1 (madt_get_header_correct acpi_sample 0x3000 CPU_LAPIC [0x302c] 0x3034 ltac:(lia) acpi_sample_chain) O).
  by vm_compute.
Defined.

Lemma madt_search_leaves_table_witness :
  Acpi.ics_get_header acpi_sample 0x3000 IO_APIC = 0x3034.
Proof.
  assert (E : sdt_length acpi_sample 0x3000 = 52) by by vm_compute.
  change 0x3034 with (0x3000 + 52). rewrite <- E.
  apply (madt_search_leaves_table acpi_sample 0x3000 IO_APIC [0x302c]).
  - lia.
  - rewrite E. exact acpi_sample_chain.
  - simpl. lia.
  - constructor; [by vm_compute|constructor].
  - rewrite E. by vm_compute.
Defined.
