(* ===== verification/Apic.v ===== *)
(** * Apic: the local APIC and the I/O APIC, acpi/apic/lapic.cpp and acpi/apic/ioapic.cpp

    The local APIC has one register every 16 bytes from its base address.  The
    I/O APIC has two: the number of an internal register is written to IOREGSEL,
    and IOWIN then reads and writes that register.  What the drivers rely on is
    stated as the laws of the two devices. *)
From S2P Require Import Prelude Memory Bitmap Machine Sim.

(** [Interrupt] of idt/interrupts.hpp: the vectors. *)
Inductive Interrupt : Type := DIVISION_BY_ZERO | PAGE_FAULT | TIMER | KEYBOARD | SPURIOUS.
Definition int_vector (i : Interrupt) : Z :=
  match i with DIVISION_BY_ZERO => 0 | PAGE_FAULT => 14 | TIMER => 40 | KEYBOARD => 41 | SPURIOUS => 0xff end.

(** ** The local APIC *)
Module Lapic.

Definition BASE_MSR : Z := 0x1b.
Definition ID : Z := 0x020.
Definition VERSION : Z := 0x030.
Definition TPR : Z := 0x080.
Definition EOI : Z := 0x0b0.
Definition SPURIOUS_REG : Z := 0x0f0.

Section Lapic.
Context {D : Type} `{Machine D}.

(** [base] is [kernel.acpi_tables.madt->lapic_addr]. *)
Definition write_msr (value : Z) : M D unit := Cpu.write_msr BASE_MSR value.
Definition read_msr : M D Z := Cpu.read_msr BASE_MSR.
Definition read_reg (base reg : Z) : M D Z := Mmio.read32 (base + reg).
Definition write_reg (base reg val : Z) : M D unit := Mmio.write32 (base + reg) val.

Definition get_init_id : M D Z :=
  '(_, ebx, _, _) ← Cpu.get_cpuid 0x1; mret (u8 (Z.shiftr ebx 24)).

Definition enable (base : Z) : M D unit :=
  msr ← Cpu.read_msr BASE_MSR;
  write_msr (set_bit msr 11);;
  reg ← read_reg base SPURIOUS_REG;
  write_reg base SPURIOUS_REG (set_bit reg 8).

Definition set_spurious_interrupt (base : Z) : M D unit :=
  write_reg base SPURIOUS_REG (int_vector SPURIOUS).

Definition get_id (base : Z) : M D Z := v ← read_reg base ID; mret (u8 (Z.shiftr v 24)).
Definition get_version (base : Z) : M D Z := v ← read_reg base VERSION; mret (u8 v).
Definition write_eoi (base : Z) : M D unit := write_reg base EOI 0xff.

Definition init (base : Z) : M D unit :=
  write_reg base TPR 0x0;;
  set_spurious_interrupt base;;
  enable base.

End Lapic.
End Lapic.

(** ** The I/O APIC *)
Module Ioapic.

Definition IOWIN : Z := 0x10.
Definition IOAPICID : Z := 0x00.
Definition IOAPICVER : Z := 0x01.
Definition IOREDTBL : Z := 0x10.

(** [IRQ] *)
Definition IRQ_HPET : Z := 0.
Definition IRQ_KEYBOARD : Z := 1.

(** [RedirEntry]: a 64-bit word and its bit-fields. *)
Definition set_intvec (w v : Z) : Z := set_field w 0 8 v.
Definition set_delmod (w v : Z) : Z := set_field w 8 3 v.
Definition set_destmod (w v : Z) : Z := set_field w 11 1 v.
Definition set_intpol (w v : Z) : Z := set_field w 13 1 v.
Definition set_trigmod (w v : Z) : Z := set_field w 15 1 v.
Definition set_int_mask (w v : Z) : Z := set_field w 16 1 v.
Definition set_destination (w v : Z) : Z := set_field w 56 8 v.
Definition lower_half (w : Z) : Z := get_field w 0 32.
Definition upper_half (w : Z) : Z := get_field w 32 32.
Definition make_entry (lo hi : Z) : Z := set_field (set_field 0 0 32 lo) 32 32 hi.

(** [Polarity::HIGH], [TriggerMode::EDGE], [DestMode::PHYSICAL], [DeliveryMode::FIXED] *)
Definition HIGH : Z := 0.
Definition EDGE : Z := 0.
Definition PHYSICAL : Z := 0.
Definition FIXED : Z := 0.

Section Ioapic.
Context {D : Type} `{Machine D}.

(** [base] is [kernel.acpi_tables.ioapic->io_apic_addr]. *)
Definition set_ioregsel (base reg_id : Z) : M D unit := Mmio.write32 base (u8 reg_id).
Definition set_iowin (base val : Z) : M D unit := Mmio.write32 (base + IOWIN) val.
Definition get_iowin (base : Z) : M D Z := Mmio.read32 (base + IOWIN).

Definition get_id (base : Z) : M D Z :=
  set_ioregsel base IOAPICID;;
  iowin ← get_iowin base;
  mret (u8 (Z.shiftr (u32 (Z.shiftl iowin 4)) 28)).
Definition __get_version_reg (base : Z) : M D Z := set_ioregsel base IOAPICVER;; get_iowin base.
Definition get_version (base : Z) : M D Z := iowin ← __get_version_reg base; mret (u8 iowin).
Definition get_entries_num (base : Z) : M D Z :=
  iowin ← __get_version_reg base; mret (u8 (u8 (Z.shiftr iowin 16) + 1)).

Definition set_redir_entry (base entry_id entry : Z) : M D unit :=
  let addr_off := u8 (IOREDTBL + entry_id * 2) in
  set_ioregsel base addr_off;;
  set_iowin base (lower_half entry);;
  set_ioregsel base (addr_off + 1);;
  set_iowin base (upper_half entry).

Definition get_redir_entry (base entry_id : Z) : M D Z :=
  let addr_off := u8 (IOREDTBL + entry_id * 2) in
  set_ioregsel base addr_off;;
  lo ← get_iowin base;
  set_ioregsel base (addr_off + 1);;
  hi ← get_iowin base;
  mret (make_entry lo hi).

(** [init]: the local [entry] is not initialised, it holds [junk]. *)
Definition init_entry (junk : Z) : Z :=
  let entry := set_delmod junk FIXED in
  let entry := set_destmod entry PHYSICAL in
  let entry := set_intpol entry HIGH in
  let entry := set_int_mask entry 0 in
  let entry := set_destination entry 0 in
  set_trigmod entry EDGE.
Definition init (base junk : Z) : M D unit :=
  let entry := set_intvec (init_entry junk) (int_vector TIMER) in
  set_redir_entry base IRQ_HPET entry;;
  let entry := set_intvec entry (int_vector KEYBOARD) in
  set_redir_entry base IRQ_KEYBOARD entry.

End Ioapic.
End Ioapic.

(** ** What the local APIC does

    IM3, chapter 10: as long as the global enable bit of the base MSR is set, the
    task priority and the spurious vector register hold what was written to their
    defined bits, and the MSR holds what was written to it. *)
Definition la_defined (r : Z) : Z := if r =? Lapic.TPR then 0xff else 0x3ff.
Definition la_rw (r : Z) : Prop := r = Lapic.TPR \/ r = Lapic.SPURIOUS_REG.

Class LapicDev (D : Type) `{Machine D} (base : Z) : Type := {
  la_reg : Z -> D -> Z;
  la_msr : D -> Z;
  la_msr_range d : 0 <= la_msr d < 2 ^ 64;
  la_rdmsr d : rdmsr Lapic.BASE_MSR d = (la_msr d / 2 ^ 32, la_msr d mod 2 ^ 32);
  la_wrmsr d hi lo : 0 <= hi < 2 ^ 32 -> 0 <= lo < 2 ^ 32 ->
    la_msr (wrmsr Lapic.BASE_MSR hi lo d) = hi * 2 ^ 32 + lo;
  la_wrmsr_reg d hi lo r : la_rw r -> Z.testbit (la_msr d) 11 = true -> Z.testbit lo 11 = true ->
    la_reg r (wrmsr Lapic.BASE_MSR hi lo d) = la_reg r d;
  la_read d r : la_rw r -> Z.testbit (la_msr d) 11 = true ->
    (bus_read 4 (base + r) d).1 = la_reg r d /\ la_msr (bus_read 4 (base + r) d).2 = la_msr d /\
    forall r', la_rw r' -> la_reg r' (bus_read 4 (base + r) d).2 = la_reg r' d;
  la_write d r v : la_rw r -> Z.testbit (la_msr d) 11 = true -> 0 <= v -> Z.land v (la_defined r) = v ->
    la_reg r (bus_write 4 (base + r) v d) = v /\ la_msr (bus_write 4 (base + r) v d) = la_msr d /\
    forall r', la_rw r' -> r' <> r -> la_reg r' (bus_write 4 (base + r) v d) = la_reg r' d
}.
Arguments la_reg {_ _} base {_} _ _.
Arguments la_msr {_ _} base {_} _.

Lemma u64_split v : 0 <= v < 2 ^ 64 -> Z.lor (u64 (Z.shiftl (u32 (v / 2 ^ 32)) 32)) (u32 (v mod 2 ^ 32)) = v.
Proof.
  intros Hv. rewrite <- (msr_halves v) at 3 by done. rewrite (u64_small v) by lia.
  rewrite !(u32_small (u32 _)) by apply u32_range. rewrite Z.shiftr_div_pow2 by lia.
  f_equal. unfold u32. by rewrite Z.mod_mod by lia.
Qed.

Section LapicInit.
Context {D : Type} `{LapicDev D base}.
Implicit Types d : D.

Lemma read_msr_spec d : Cpu.read_msr Lapic.BASE_MSR d = Done (la_msr base d, d).
Proof.
  unfold Cpu.read_msr, gets. change (u32 Lapic.BASE_MSR) with Lapic.BASE_MSR. rewrite la_rdmsr.
  by rewrite u64_split by apply la_msr_range.
Qed.

(** Setting a bit that is set. *)
Lemma set_bit_same v p : 0 <= p -> Z.testbit v p = true -> set_bit v p = v.
Proof.
  intros Hp E. apply Z.bits_inj'. intros i Hi. rewrite set_bit_spec by done.
  destruct (Z.eqb_spec p i) as [->|]; [by rewrite E|done].
Qed.

(** Rewriting the MSR with its value keeps the device as it is. *)
Lemma write_msr_same d :
  Z.testbit (la_msr base d) 11 = true ->
  runs (Lapic.write_msr (la_msr base d)) d (fun _ d' =>
    la_msr base d' = la_msr base d /\ forall r, la_rw r -> la_reg base r d' = la_reg base r d).
Proof.
  intros E. pose proof (la_msr_range d) as Hr. unfold Lapic.write_msr, Cpu.write_msr. apply runs_modify.
  change (u32 Lapic.BASE_MSR) with Lapic.BASE_MSR. rewrite (u64_small (la_msr base d)) by done.
  rewrite Z.shiftr_div_pow2, (u32_small (_ / _)) by (lia || zdm). split.
  - rewrite la_wrmsr; [unfold u32; zdm|zdm|apply u32_range].
  - intros r Hw. apply la_wrmsr_reg; [done..|]. unfold u32. by rewrite Z.mod_pow2_bits_low by lia.
Qed.

Lemma write_reg_spec d r v :
  0 <= base < 2 ^ 32 -> la_rw r -> Z.testbit (la_msr base d) 11 = true -> 0 <= v < 2 ^ 32 ->
  Z.land v (la_defined r) = v ->
  runs (Lapic.write_reg base r v) d (fun _ d' =>
    la_msr base d' = la_msr base d /\ la_reg base r d' = v /\
    forall r', la_rw r' -> r' <> r -> la_reg base r' d' = la_reg base r' d).
Proof.
  intros Hb Hr E Hv Hd. apply runs_write32. rewrite (u32_small v) by done.
  assert (0 <= r < 2 ^ 12) by (unfold la_rw, Lapic.TPR, Lapic.SPURIOUS_REG in Hr; lia).
  rewrite u64_small by lia. destruct (la_write d r v Hr E) as (W1 & W2 & W3); [lia|done|]. done.
Qed.

Lemma read_reg_spec d r :
  0 <= base < 2 ^ 32 -> la_rw r -> Z.testbit (la_msr base d) 11 = true ->
  runs (Lapic.read_reg base r) d (fun v d' =>
    v = u32 (la_reg base r d) /\ la_msr base d' = la_msr base d /\
    forall r', la_rw r' -> la_reg base r' d' = la_reg base r' d).
Proof.
  intros Hb Hr E. apply runs_read32.
  assert (0 <= r < 2 ^ 12) by (unfold la_rw, Lapic.TPR, Lapic.SPURIOUS_REG in Hr; lia).
  rewrite u64_small by lia. destruct (la_read d r Hr E) as (-> & W2 & W3). done.
Qed.

Lemma lapic_init_spec d :
  0 <= base < 2 ^ 32 -> Z.testbit (la_msr base d) 11 = true ->
  runs (Lapic.init base) d (fun _ d' =>
    la_msr base d' = la_msr base d /\ la_reg base Lapic.TPR d' = 0 /\ la_reg base Lapic.SPURIOUS_REG d' = 0x1ff).
Proof.
  intros Hb E. assert (HT : la_rw Lapic.TPR) by by left. assert (HS : la_rw Lapic.SPURIOUS_REG) by by right.
  unfold Lapic.init. apply runs_bind. eapply runs_mono; [apply write_reg_spec; try done; lia|].
  intros _ d1 (E1 & T1 & _). cbn beta. apply runs_bind. unfold Lapic.set_spurious_interrupt.
  eapply runs_mono; [apply write_reg_spec; try done; by rewrite E1|].
  intros _ d2 (E2 & S2 & F2). cbn beta. unfold Lapic.enable. apply runs_bind.
  assert (B2 : Z.testbit (la_msr base d2) 11 = true) by by rewrite E2, E1.
  apply (runs_eq _ _ _ _ _ (read_msr_spec d2)). apply runs_bind. rewrite set_bit_same by done.
  eapply runs_mono; [by apply write_msr_same|]. intros _ d3 (E3 & F3). cbn beta. apply runs_bind.
  eapply runs_mono; [apply read_reg_spec; try done; by rewrite E3|].
  intros v d4 (-> & E4 & F4). cbn beta. rewrite F3, S2 by done.
  change (set_bit (u32 (int_vector SPURIOUS)) 8) with 0x1ff.
  eapply runs_mono; [apply write_reg_spec; try done; by rewrite E4, E3|].
  intros _ d5 (E5 & S5 & F5). split; [congruence|]. split; [|done].
  rewrite F5, F4, F3, F2 by done. done.
Qed.
End LapicInit.

(** [lapic::init] leaves the local APIC accepting interrupts: starting
    from a globally enabled APIC, the task priority is 0 (no vector is held
    back), the spurious vector is 0xff with the software enable bit, and the base
    MSR is as before. *)
Theorem lapic_init_correct {D} `{LapicDev D base} (d : D) :
  0 <= base < 2 ^ 32 -> Z.testbit (la_msr base d) 11 = true ->
  exists d', Lapic.init base d = Done (tt, d') /\
    la_msr base d' = la_msr base d /\ la_reg base Lapic.TPR d' = 0 /\
    get_field (la_reg base Lapic.SPURIOUS_REG d') 0 8 = int_vector SPURIOUS /\
    get_field (la_reg base Lapic.SPURIOUS_REG d') 8 1 = 1.
Proof.
  intros Hb E. destruct (lapic_init_spec d Hb E) as ([] & d' & R & E1 & E2 & E3).
  exists d'. by rewrite E3.
Qed.

Definition sim_la_msr (d : sim) : Z := (rdmsr Lapic.BASE_MSR d).1 * 2 ^ 32 + (rdmsr Lapic.BASE_MSR d).2.

Global Instance sim_lapic : LapicDev sim LAPIC_BASE.
Proof.
  refine {| la_reg r d := default 0 (s_bus d !! (LAPIC_BASE + r)); la_msr := sim_la_msr |};
    unfold sim_la_msr, rdmsr, wrmsr, sim_machine.
  - intros d. cbn. generalize (default (0, 0) (s_msr d !! Lapic.BASE_MSR)) as p. intros p.
    pose proof (u32_range p.1). pose proof (u32_range p.2). lia.
  - intros d. cbn. generalize (default (0, 0) (s_msr d !! Lapic.BASE_MSR)) as p. intros p.
    pose proof (u32_range p.1). pose proof (u32_range p.2). f_equal; zdm.
  - intros d hi lo Hh Hl. cbn. rewrite lookup_insert_eq. cbn. by rewrite !u32_small by lia.
  - done.
  - intros d r Hr _. split; [|done].
    by destruct Hr as [-> | ->].
  - intros d r v Hr _ _ _.
    assert (Hs : sim_write (LAPIC_BASE + r) v d = mkSim (s_sel d) (s_io d) (<[LAPIC_BASE + r := v]> (s_bus d))
      (s_msr d) (s_keys d) (s_isr d) (s_out d)) by by destruct Hr as [-> | ->].
    cbn [bus_write]. rewrite Hs. cbn. rewrite lookup_insert_eq. split; [done|]. split; [done|].
    intros r' _ Hne. rewrite lookup_insert_ne by lia. done.
Defined.

Lemma lapic_init_correct_witness :
  exists d', Lapic.init LAPIC_BASE sim0 = Done (tt, d') /\
    la_msr LAPIC_BASE d' = la_msr LAPIC_BASE sim0 /\ la_reg LAPIC_BASE Lapic.TPR d' = 0 /\
    get_field (la_reg LAPIC_BASE Lapic.SPURIOUS_REG d') 0 8 = int_vector SPURIOUS /\
    get_field (la_reg LAPIC_BASE Lapic.SPURIOUS_REG d') 8 1 = 1.
Proof. apply (lapic_init_correct sim0); [unfold LAPIC_BASE; lia|by vm_compute]. Defined.

(** ** What the I/O APIC does

    The 82093AA data sheet: IOWIN is a window on the register that IOREGSEL
    selects.  [io_rw r k]: bit [k] of register [r] is a read/write bit; the other
    bits are read-only or reserved, and nothing is assumed of them. *)
Definition io_rw (r k : Z) : bool :=
  (0x10 <=? r) && (r <? 0x40) &&
  if Z.even r then (0 <=? k) && (k <? 17) && negb (k =? 12) && negb (k =? 14)
  else (24 <=? k) && (k <? 32).

Lemma io_rw_range r k : io_rw r k = true -> 0 <= k < 32.
Proof. unfold io_rw. destruct (Z.even r); lia. Qed.

Class IoapicDev (D : Type) `{Machine D} (base : Z) : Type := {
  io_sel : D -> Z;
  io_reg : Z -> D -> Z;
  io_write_sel d v : 0 <= v < 256 ->
    io_sel (bus_write 4 base v d) = v /\
    forall r k, io_rw r k = true -> Z.testbit (io_reg r (bus_write 4 base v d)) k = Z.testbit (io_reg r d) k;
  io_write_win d v :
    io_sel (bus_write 4 (base + 0x10) v d) = io_sel d /\
    forall r k, io_rw r k = true ->
      Z.testbit (io_reg r (bus_write 4 (base + 0x10) v d)) k =
        Z.testbit (if decide (r = io_sel d) then v else io_reg r d) k;
  io_read_win d :
    (forall k, io_rw (io_sel d) k = true -> Z.testbit (bus_read 4 (base + 0x10) d).1 k = Z.testbit (io_reg (io_sel d) d) k) /\
    io_sel (bus_read 4 (base + 0x10) d).2 = io_sel d /\
    forall r k, io_rw r k = true -> Z.testbit (io_reg r (bus_read 4 (base + 0x10) d).2) k = Z.testbit (io_reg r d) k
}.
Arguments io_sel {_ _} base {_} _.
Arguments io_reg {_ _} base {_} _ _.

Section IoapicProps.
Context {D : Type} `{IoapicDev D base}.
Context (Hbase : 0 <= base < 2 ^ 32).
Implicit Types d : D.

(** Registers that agree on their read/write bits. *)
Definition io_agree (P : Z -> Prop) d d' : Prop :=
  forall r k, P r -> io_rw r k = true -> Z.testbit (io_reg base r d') k = Z.testbit (io_reg base r d) k.

Lemma set_ioregsel_spec d r : 0 <= r < 256 ->
  runs (Ioapic.set_ioregsel base r) d (fun _ d' => io_sel base d' = r /\ io_agree (fun _ => True) d d').
Proof.
  intros Hr. apply runs_write32. rewrite u64_small, (u8_small r), u32_small by lia.
  destruct (io_write_sel d r) as [E1 E2]; [lia|]. split; [done|]. intros r' k _. apply E2.
Qed.

Lemma set_iowin_spec d v : 0 <= v < 2 ^ 32 ->
  runs (Ioapic.set_iowin base v) d (fun _ d' =>
    (forall k, io_rw (io_sel base d) k = true -> Z.testbit (io_reg base (io_sel base d) d') k = Z.testbit v k) /\
    io_agree (fun r => r <> io_sel base d) d d').
Proof.
  intros Hv. apply runs_write32. unfold Ioapic.IOWIN. rewrite u64_small, u32_small by lia.
  destruct (io_write_win d v) as [E1 E2]. split.
  - intros k Hk. by rewrite E2, decide_True.
  - intros r k Hr Hk. by rewrite E2, decide_False.
Qed.

Lemma get_iowin_spec d :
  runs (Ioapic.get_iowin base) d (fun v d' =>
    (forall k, io_rw (io_sel base d) k = true -> Z.testbit v k = Z.testbit (io_reg base (io_sel base d) d) k) /\
    io_agree (fun _ => True) d d').
Proof.
  apply runs_read32. unfold Ioapic.IOWIN. rewrite u64_small by lia.
  destruct (io_read_win d) as (E1 & E2 & E3). split.
  - intros k Hk. unfold u32. rewrite Z.mod_pow2_bits_low; [by apply E1|]. apply io_rw_range in Hk. lia.
  - intros r k _. apply E3.
Qed.

(** The redirection entry [i] of the device, and the bits of an entry that can be written. *)
Definition redir (i : Z) d : Z :=
  Ioapic.make_entry (io_reg base (0x10 + 2 * i) d) (io_reg base (0x11 + 2 * i) d).
Definition redir_rw (k : Z) : bool :=
  ((0 <=? k) && (k <? 17) && negb (k =? 12) && negb (k =? 14)) || ((56 <=? k) && (k <? 64)).

Lemma make_entry_bits lo hi k : 0 <= k < 64 ->
  Z.testbit (Ioapic.make_entry lo hi) k = if k <? 32 then Z.testbit lo k else Z.testbit hi (k - 32).
Proof.
  intros Hk. unfold Ioapic.make_entry. rewrite !set_field_bits by lia.
  destruct (Z.ltb_spec k 32).
  - destruct (Z.leb_spec 32 k); [lia|]. simpl. destruct (Z.leb_spec 0 k); [|lia]. simpl.
    destruct (Z.ltb_spec k (0 + 32)); [|lia]. f_equal. lia.
  - destruct (Z.leb_spec 32 k); [|lia]. simpl. destruct (Z.ltb_spec k (32 + 32)); [done|lia].
Qed.

(** What a change of the two registers of an entry means for the entry. *)
Lemma redir_bits i d w k : 0 <= i < 24 -> redir_rw k = true ->
  (forall j, io_rw (0x10 + 2 * i) j = true -> Z.testbit (io_reg base (0x10 + 2 * i) d) j = Z.testbit w j) ->
  (forall j, io_rw (0x11 + 2 * i) j = true -> Z.testbit (io_reg base (0x11 + 2 * i) d) j = Z.testbit w (j + 32)) ->
  Z.testbit (redir i d) k = Z.testbit w k.
Proof.
  intros Hi Hk Hlo Hhi. unfold redir. unfold redir_rw in Hk. rewrite make_entry_bits by lia.
  destruct (Z.ltb_spec k 32).
  - apply Hlo. unfold io_rw. replace (Z.even (0x10 + 2 * i)) with true; [lia|].
    symmetry. rewrite Z.even_add_mul_2. done.
  - rewrite Hhi; [f_equal; lia|]. unfold io_rw. replace (Z.even (0x11 + 2 * i)) with false; [lia|].
    symmetry. rewrite Z.even_add_mul_2. done.
Qed.

Lemma io_agree_weaken (P Q : Z -> Prop) d d' : (forall r, Q r -> P r) -> io_agree P d d' -> io_agree Q d d'.
Proof. intros HPQ HP r k HQ. apply HP. auto. Qed.
Lemma io_agree_trans (P : Z -> Prop) d d1 d' : io_agree P d d1 -> io_agree P d1 d' -> io_agree P d d'.
Proof. intros H1 H2 r k HP Hk. rewrite H2, H1 by done. done. Qed.

Definition entry_regs (i r : Z) : Prop := r = 0x10 + 2 * i \/ r = 0x11 + 2 * i.

Lemma half_range w lo : 0 <= lo -> 0 <= get_field w lo 32 < 2 ^ 32.
Proof. intros. unfold get_field. rewrite Z.land_ones by lia. apply Z.mod_pos_bound. lia. Qed.

Lemma set_redir_entry_spec d i w : 0 <= i < 24 ->
  runs (Ioapic.set_redir_entry base i w) d (fun _ d' =>
    (forall k, redir_rw k = true -> Z.testbit (redir i d') k = Z.testbit w k) /\
    io_agree (fun r => ~ entry_regs i r) d d').
Proof.
  intros Hi. unfold Ioapic.set_redir_entry, Ioapic.IOREDTBL. rewrite (u8_small (0x10 + i * 2)) by lia.
  apply runs_bind. eapply runs_mono; [apply set_ioregsel_spec; lia|]. intros _ d1 [S1 A1].
  apply runs_bind. eapply runs_mono; [apply set_iowin_spec, half_range; lia|]. intros _ d2 [W2 A2].
  rewrite S1 in W2, A2. apply runs_bind.
  eapply runs_mono; [apply set_ioregsel_spec; lia|]. intros _ d3 [S3 A3].
  eapply runs_mono; [apply set_iowin_spec, half_range; lia|]. intros _ d4 [W4 A4].
  rewrite S3 in W4, A4. split.
  - intros k Hk. apply redir_bits; [done..| |].
    + intros j Hj. pose proof (io_rw_range _ _ Hj). replace (0x10 + 2 * i) with (0x10 + i * 2) in * by lia.
      rewrite A4, A3, W2 by (lia || done). unfold Ioapic.lower_half. rewrite get_field_bits by lia.
      destruct (Z.ltb_spec j 32); [|lia]. cbn [andb]. f_equal; lia.
    + intros j Hj. pose proof (io_rw_range _ _ Hj). replace (0x11 + 2 * i) with (0x10 + i * 2 + 1) in * by lia.
      rewrite W4 by done. unfold Ioapic.upper_half. rewrite get_field_bits by lia.
      destruct (Z.ltb_spec j 32); [|lia]. cbn [andb]. f_equal; lia.
  - unfold entry_regs. apply (io_agree_trans _ _ d1); [by apply (io_agree_weaken (fun _ => True))|].
    apply (io_agree_trans _ _ d2); [apply (io_agree_weaken (fun r => r <> 0x10 + i * 2)); [lia|done]|].
    apply (io_agree_trans _ _ d3); [by apply (io_agree_weaken (fun _ => True))|].
    apply (io_agree_weaken (fun r => r <> 0x10 + i * 2 + 1)); [lia|done].
Qed.

Lemma redir_agree (P : Z -> Prop) i d d' k : 0 <= i < 24 -> (forall r, entry_regs i r -> P r) -> io_agree P d d' ->
  redir_rw k = true -> Z.testbit (redir i d') k = Z.testbit (redir i d) k.
Proof.
  intros Hi HP HA Hk. apply redir_bits; [done..| |].
  - intros j Hj. rewrite HA by (done || (apply HP; by left)). unfold redir.
    apply io_rw_range in Hj. rewrite make_entry_bits by lia. destruct (Z.ltb_spec j 32); [done|lia].
  - intros j Hj. rewrite HA by (done || (apply HP; by right)). unfold redir.
    apply io_rw_range in Hj. rewrite make_entry_bits by lia. destruct (Z.ltb_spec (j + 32) 32); [lia|]. f_equal. lia.
Qed.

Lemma get_redir_entry_spec d i : 0 <= i < 24 ->
  runs (Ioapic.get_redir_entry base i) d (fun w d' =>
    (forall k, redir_rw k = true -> Z.testbit w k = Z.testbit (redir i d) k) /\ io_agree (fun _ => True) d d').
Proof.
  intros Hi. unfold Ioapic.get_redir_entry, Ioapic.IOREDTBL. rewrite (u8_small (0x10 + i * 2)) by lia.
  apply runs_bind. eapply runs_mono; [apply set_ioregsel_spec; lia|]. intros _ d1 [S1 A1].
  apply runs_bind. eapply runs_mono; [apply get_iowin_spec|]. intros lo d2 [W2 A2]. rewrite S1 in W2.
  apply runs_bind. eapply runs_mono; [apply set_ioregsel_spec; lia|]. intros _ d3 [S3 A3].
  apply runs_bind. eapply runs_mono; [apply get_iowin_spec|]. intros hi d4 [W4 A4]. rewrite S3 in W4.
  apply runs_ret. split.
  - intros k Hk. unfold redir. unfold redir_rw in Hk. rewrite !make_entry_bits by lia.
    destruct (Z.ltb_spec k 32).
    + rewrite W2; [rewrite A1; [do 2 f_equal; lia|done|]|]; unfold io_rw;
        (replace (Z.even (0x10 + i * 2)) with true; [lia|]); rewrite Z.mul_comm, Z.even_add_mul_2; done.
    + rewrite W4; [rewrite A3, A2, A1; [do 2 f_equal; lia|done| |done| |done|]|]; unfold io_rw;
        (replace (Z.even (0x10 + i * 2 + 1)) with false; [lia|]);
        replace (0x10 + i * 2 + 1) with (0x11 + 2 * i) by lia; rewrite Z.even_add_mul_2; done.
  - eauto using io_agree_trans.
Qed.
End IoapicProps.

(** C26: a redirection entry written by [set_redir_entry] is what
    [get_redir_entry] reads back, on every bit of the entry that is not
    read-only or reserved. *)
Theorem redir_entry_roundtrip {D} `{IoapicDev D base} (d : D) (i w : Z) :
  0 <= base < 2 ^ 32 -> 0 <= i < 24 ->
  runs (Ioapic.set_redir_entry base i w;; Ioapic.get_redir_entry base i) d (fun w' _ =>
    forall k, redir_rw k = true -> Z.testbit w' k = Z.testbit w k).
Proof.
  intros Hb Hi. apply runs_bind. eapply runs_mono; [by apply set_redir_entry_spec|].
  intros _ d1 [W _]. eapply runs_mono; [by apply get_redir_entry_spec|].
  intros w' d2 [G _] k Hk. by rewrite G, W.
Qed.

(** The interrupt an entry delivers: its vector, fixed delivery to the APIC with
    id 0, active high, edge triggered, not masked. *)
Definition routed (w : Z) (i : Interrupt) : Prop :=
  get_field w 0 8 = int_vector i /\ get_field w 8 3 = Ioapic.FIXED /\ get_field w 11 1 = Ioapic.PHYSICAL /\
  get_field w 13 1 = Ioapic.HIGH /\ get_field w 15 1 = Ioapic.EDGE /\ get_field w 16 1 = 0 /\ get_field w 56 8 = 0.

Lemma routed_ext w w' i : (forall k, redir_rw k = true -> Z.testbit w' k = Z.testbit w k) ->
  routed w i -> routed w' i.
Proof.
  intros E. assert (F : forall lo n, 0 <= lo -> 0 <= n -> (forall k, lo <= k < lo + n -> redir_rw k = true) ->
    get_field w' lo n = get_field w lo n).
  { intros lo n Hlo Hn Hk. apply get_field_ext; [done..|]. intros k ?. apply E, Hk. lia. }
  unfold routed. rewrite !F by (lia || (unfold redir_rw; lia)). done.
Qed.

Lemma init_entry_routed junk i : routed (Ioapic.set_intvec (Ioapic.init_entry junk) (int_vector i)) i.
Proof.
  unfold routed, Ioapic.set_intvec. rewrite get_set_field by lia.
  rewrite !(get_set_field_other _ 0 8) by lia.
  unfold Ioapic.init_entry, Ioapic.set_delmod, Ioapic.set_destmod, Ioapic.set_intpol, Ioapic.set_int_mask,
    Ioapic.set_destination, Ioapic.set_trigmod.
  split; [by destruct i|]. split_and!; repeat first [rewrite get_set_field by lia | rewrite get_set_field_other by lia];
    reflexivity.
Qed.

Lemma set_intvec_twice w v v' : Ioapic.set_intvec (Ioapic.set_intvec w v) v' = Ioapic.set_intvec w v'.
Proof.
  apply Z.bits_inj'. intros k Hk. unfold Ioapic.set_intvec. rewrite !set_field_bits by lia.
  by destruct ((0 <=? k) && (k <? 0 + 8)).
Qed.

Lemma ioapic_init_spec {D} `{IoapicDev D base} (d : D) (junk : Z) :
  0 <= base < 2 ^ 32 ->
  runs (Ioapic.init base junk) d (fun _ d' =>
    routed (redir (base := base) Ioapic.IRQ_HPET d') TIMER /\
    routed (redir (base := base) Ioapic.IRQ_KEYBOARD d') KEYBOARD /\
    forall i k, 2 <= i < 24 -> redir_rw k = true ->
      Z.testbit (redir (base := base) i d') k = Z.testbit (redir (base := base) i d) k).
Proof.
  intros Hb. unfold Ioapic.init, Ioapic.IRQ_HPET, Ioapic.IRQ_KEYBOARD.
  apply runs_bind. eapply runs_mono; [apply set_redir_entry_spec; (done || lia)|]. intros _ d1 [W1 A1].
  eapply runs_mono; [apply set_redir_entry_spec; (done || lia)|]. intros _ d2 [W2 A2].
  split; [|split].
  - apply (routed_ext (redir 0 d1)).
    + intros k. apply (redir_agree (fun r => ~ entry_regs 1 r)); [lia| |done]. unfold entry_regs. lia.
    + by apply (routed_ext _ _ _ W1), init_entry_routed.
  - apply (routed_ext _ _ _ W2). rewrite set_intvec_twice. apply init_entry_routed.
  - intros i k Hi Hk. rewrite (redir_agree (fun r => ~ entry_regs 1 r) i d1 d2) by (done || unfold entry_regs; lia).
    apply (redir_agree (fun r => ~ entry_regs 0 r)); try done; unfold entry_regs; lia.
Qed.

(** C25: [ioapic::init] routes the two interrupts the kernel uses: whatever the
    uninitialised local [entry] holds, input 0 (the HPET) delivers the timer
    vector and input 1 the keyboard vector, to the first CPU, unmasked, active
    high and edge triggered, and no other redirection entry is changed. *)
Theorem ioapic_init_correct {D} `{IoapicDev D base} (d : D) (junk : Z) :
  0 <= base < 2 ^ 32 ->
  runs (Ioapic.init base junk) d (fun _ d' =>
    routed (redir (base := base) Ioapic.IRQ_HPET d') TIMER /\
    routed (redir (base := base) Ioapic.IRQ_KEYBOARD d') KEYBOARD /\
    forall i k, 2 <= i < 24 -> redir_rw k = true ->
      Z.testbit (redir (base := base) i d') k = Z.testbit (redir (base := base) i d) k).
Proof. intros Hb. by apply ioapic_init_spec. Qed.

Global Instance sim_ioapic : IoapicDev sim IOAPIC_BASE.
Proof.
  refine {| io_sel := s_sel; io_reg r d := default 0 (s_io d !! r) |}.
  - intros d v Hv. done.
  - intros d v. split; [done|]. intros r k _. change (s_io (bus_write 4 (IOAPIC_BASE + 16) v d)) with (<[s_sel d := v]> (s_io d)).
    case_decide; subst; [by rewrite lookup_insert_eq|by rewrite lookup_insert_ne].
  - intros d. done.
Defined.

Lemma redir_entry_roundtrip_witness :
  runs (Ioapic.set_redir_entry IOAPIC_BASE 5 0x1234;; Ioapic.get_redir_entry IOAPIC_BASE 5) sim0 (fun w' _ =>
    forall k, redir_rw k = true -> Z.testbit w' k = Z.testbit 0x1234 k).
Proof. apply (redir_entry_roundtrip sim0 5 0x1234); unfold IOAPIC_BASE; lia. Defined.

Lemma ioapic_init_correct_witness :
  runs (Ioapic.init IOAPIC_BASE 0xdeadbeef) sim0 (fun _ d' =>
    routed (redir (base := IOAPIC_BASE) Ioapic.IRQ_HPET d') TIMER /\
    routed (redir (base := IOAPIC_BASE) Ioapic.IRQ_KEYBOARD d') KEYBOARD /\
    forall i k, 2 <= i < 24 -> redir_rw k = true ->
      Z.testbit (redir (base := IOAPIC_BASE) i d') k = Z.testbit (redir (base := IOAPIC_BASE) i sim0) k).
Proof. apply (ioapic_init_correct sim0 0xdeadbeef). unfold IOAPIC_BASE. lia. Defined.
