(* ===== verification/Hpet.v ===== *)
(** * Hpet: the high precision event timer, acpi/hpet/hpet.cpp and acpi/hpet/comparator.cpp

    A free-running counter with a period in femtoseconds, and up to 32
    comparators that interrupt when the counter reaches their value.  The global
    [g_clk_period_ns] is the argument [g] of the functions that read it, and
    what [init] returns is its new value. *)
From S2P Require Import Prelude Memory Bitmap Libc Acpi Machine Sim Apic.

Module Hpet.

(** [hpet::Reg] *)
Definition CAP_REG : Z := 0x000.
Definition CONFIG_REG : Z := 0x010.
Definition INT_STATUS_REG : Z := 0x020.
Definition COUNTER_REG : Z := 0x0f0.

Section Hpet.
Context {D : Type} `{Machine D}.

(** [base] is [kernel.acpi_tables.hpet->base_address.address]. *)
Definition __get_reg_ptr (base reg : Z) : Z := u64 (base + reg).
Definition read_reg (base reg : Z) : M D Z := Mmio.read64 (__get_reg_ptr base reg).
Definition write_reg (base reg val : Z) : M D unit := Mmio.write64 (__get_reg_ptr base reg) val.





Definition is_counter_enabled (base : Z) : M D bool :=
  reg ← read_reg base CONFIG_REG; mret (negb (get_field reg 0 1 =? 0)).

Definition get_counter (base : Z) : M D Z := read_reg base COUNTER_REG.

Definition get_no_comparators (base : Z) : M D Z :=
  reg ← read_reg base CAP_REG; mret (u8 (get_field reg 8 5 + 1)).

Definition get_mmio_sz (base : Z) : M D Z :=
  n ← get_no_comparators base; mret (u32 (8 * 8 + n * (4 * 8))).

End Hpet.

(** [get_sdt_table] *)
Definition get_sdt_table (m : mem) (rsdp HPET_SIG : Z) : Z := Acpi.sdt_get_header m rsdp HPET_SIG.

End Hpet.

Module Comparator.

Definition BLOCK_SZ : Z := 4 * 8.
Definition FIRST_OFF : Z := 0x100.

(** [comparator::Type] and [comparator::Reg] *)
Definition ONE_SHOT : Z := 0.
Definition CONFIG : Z := 0x0.
Definition COMPAR : Z := 0x8.
Definition FSB : Z := 0xf.

(** [ConfigReg] as the designated initialisers of [set_one_shot] and
    [set_periodic] build it; the fields they leave out are 0. *)
Definition config_reg (type_cnf val_set_cnf : Z) : Z :=
  let w := set_field 0 1 1 0 in                  (* int_type_cnf *)
  let w := set_field w 2 1 1 in                  (* int_enb_cnf *)
  let w := set_field w 3 1 type_cnf in
  let w := set_field w 6 1 val_set_cnf in
  let w := set_field w 8 1 0 in                  (* mode32_cnf *)
  let w := set_field w 9 5 Ioapic.IRQ_HPET in    (* int_route_cnf *)
  set_field w 14 1 0.                            (* fsb_en_cnf *)

Section Comparator.
Context {D : Type} `{Machine D}.


Definition get_compar_reg_ptr (base id reg : Z) : Z :=
  let timers := u64 (base + FIRST_OFF) in
  let base_addr := u64 (timers + BLOCK_SZ * id) in
  u64 (base_addr + reg).
Definition write_reg (base id reg val : Z) : M D unit := Mmio.write64 (get_compar_reg_ptr base id reg) val.
Definition read_reg (base id reg : Z) : M D Z := Mmio.read64 (get_compar_reg_ptr base id reg).

Definition set_config (base id reg : Z) : M D unit := write_reg base id CONFIG reg.
Definition set_compar_value (base id val : Z) : M D unit := write_reg base id COMPAR val.
Definition get_compar_value (base id : Z) : M D Z := read_reg base id COMPAR.
Definition get_available_ioapic_routes (base id : Z) : M D Z :=
  v ← read_reg base id CONFIG; mret (u32 (Z.shiftr v 32)).

Definition __calc_ms_to_compar (g counter ms_time : Z) : M D Z :=
  if g =? 0 then fail DivideError else mret (u64 (counter + u64 (ms_time * 1000000) / g)).

Definition set_one_shot (base g id ms_time : Z) : M D unit :=
  counter ← Hpet.get_counter base;
  v ← __calc_ms_to_compar g counter ms_time;
  set_compar_value base id v;;
  set_config base id (config_reg ONE_SHOT 0).


End Comparator.
End Comparator.

(** ** What the timer does

    The IA-PC HPET specification.  The capability register [cap] gives the
    number of timers, the width of the counter and whether the legacy routes
    exist; the read-only bits [tcap id] of the configuration of timer [id]
    (2.3.8) say whether it can be periodic (bit 4), is 64 bits wide (bit 5), can
    send messages on the bus (bit 15) and which inputs of the I/O APIC it can
    reach (bits 32 to 63).  What a bit of a register does depends on them:
    [BitRW] holds what was last written to it, [BitZero] reads as 0, and of the
    other bits nothing is said. *)
Definition hp_timer_config (id : Z) : Z := 0x100 + 32 * id.

Inductive bit_kind : Type := BitRW | BitZero | BitOther.

Section Kinds.
Context (cap : Z) (tcap : Z -> Z).

Definition hp_last_timer : Z := get_field cap 8 5.
Definition hp_count_width : Z := if Z.testbit cap 13 then 64 else 32.
Definition hp_legacy_cap : bool := Z.testbit cap 15.
Definition hp_periodic_cap (id : Z) : bool := Z.testbit (tcap id) 4.
Definition hp_width (id : Z) : Z := if Z.testbit (tcap id) 5 then 64 else 32.
Definition hp_fsb_cap (id : Z) : bool := Z.testbit (tcap id) 15.
Definition hp_route_cap (id n : Z) : bool := Z.testbit (tcap id) (32 + n).

Definition rw_if (b : bool) : bit_kind := if b then BitRW else BitOther.

(** The bits of the configuration of timer [id]: type of interrupt and enable;
    periodic; 32-bit mode; route; messages. *)
Definition hp_config_bit (id k : Z) : bit_kind :=
  if k =? 3 then if hp_periodic_cap id then BitRW else BitZero
  else if k =? 8 then if hp_width id =? 64 then BitRW else BitZero
  else if k =? 14 then rw_if (hp_fsb_cap id)
  else rw_if ((k =? 1) || (k =? 2) || (9 <=? k) && (k <=? 13)).

Definition hp_bit (r k : Z) : bit_kind :=
  if r =? Hpet.CONFIG_REG then rw_if ((k =? 0) || (k =? 1) && hp_legacy_cap)
  else if r =? Hpet.COUNTER_REG then rw_if ((0 <=? k) && (k <? hp_count_width))
  else let id := (r - 0x100) / 32 in
    if (0x100 <=? r) && (id <=? hp_last_timer) then
      if r mod 32 =? 0 then hp_config_bit id k
      else rw_if ((r mod 32 =? 8) && (0 <=? k) && (k <? hp_width id))
    else BitOther.

Definition hp_def (r k : Z) : bool := match hp_bit r k with BitRW => true | _ => false end.

(** The value [v] may be written to [r]: when [r] is the configuration of a
    timer, the route in it is one that the timer has.  (Of another route the
    specification says that it may not be read back.) *)
Definition hp_route_ok (r v : Z) : Prop :=
  0x100 <= r -> r mod 32 = 0 -> hp_route_cap ((r - 0x100) / 32) (get_field v 9 5) = true.

Lemma hp_last_timer_range : 0 <= hp_last_timer < 32.
Proof. unfold hp_last_timer, get_field. rewrite Z.land_ones by lia. apply Z.mod_pos_bound. lia. Qed.






End Kinds.

Class HpetDev (D : Type) `{Machine D} (base : Z) : Type := {
  hp_cap : Z;
  hp_tcap : Z -> Z;
  hp_reg : Z -> D -> Z;
  hp_cap_range : 0 <= hp_cap < 2 ^ 64;
  hp_stopped d := Z.testbit (hp_reg Hpet.CONFIG_REG d) 0 = false;
  (** The capabilities can be read, and unavailable features are off. *)
  hp_read_cap d : (bus_read 8 base d).1 = hp_cap /\
    (forall k, hp_def hp_cap hp_tcap Hpet.CONFIG_REG k = true ->
       Z.testbit (hp_reg Hpet.CONFIG_REG (bus_read 8 base d).2) k = Z.testbit (hp_reg Hpet.CONFIG_REG d) k);
  hp_read_tcap d id k : 0 <= id <= hp_last_timer hp_cap -> k = 4 \/ k = 5 \/ k = 15 \/ 32 <= k < 64 ->
    Z.testbit (bus_read 8 (base + hp_timer_config id) d).1 k = Z.testbit (hp_tcap id) k;
  hp_unavailable d r k : hp_bit hp_cap hp_tcap r k = BitZero -> Z.testbit (hp_reg r d) k = false;
  (** Reading returns what the register holds.  Reading changes no register as
      long as the counter is stopped, and never the general configuration. *)
  hp_read d r : (exists k, hp_def hp_cap hp_tcap r k = true) ->
    (forall k, hp_def hp_cap hp_tcap r k = true -> Z.testbit (bus_read 8 (base + r) d).1 k = Z.testbit (hp_reg r d) k) /\
    (forall r' k, hp_def hp_cap hp_tcap r' k = true -> r' = Hpet.CONFIG_REG \/ hp_stopped d ->
       Z.testbit (hp_reg r' (bus_read 8 (base + r) d).2) k = Z.testbit (hp_reg r' d) k);
  (** Writing, with the counter stopped or to the general configuration, sets
      the bits of the register that can be set, the route only to one that the
      timer has; with the counter stopped the other registers are kept. *)
  hp_write d r v : (exists k, hp_def hp_cap hp_tcap r k = true) -> r = Hpet.CONFIG_REG \/ hp_stopped d ->
    (forall k, hp_def hp_cap hp_tcap r k = true -> (9 <= k <= 13 -> hp_route_ok hp_tcap r v) ->
       Z.testbit (hp_reg r (bus_write 8 (base + r) v d)) k = Z.testbit v k) /\
    (forall r' k, r' <> r -> hp_def hp_cap hp_tcap r' k = true -> hp_stopped d ->
       Z.testbit (hp_reg r' (bus_write 8 (base + r) v d)) k = Z.testbit (hp_reg r' d) k)
}.
Arguments hp_cap {_ _} base {_}.
Arguments hp_tcap {_ _} base {_} _.
Arguments hp_reg {_ _} base {_} _ _.
Arguments hp_stopped {_ _} base {_} _.

Section HpetProps.
Context {D : Type} `{HpetDev D base}.
Context (Hbase : 0 <= base < 2 ^ 63).
Implicit Types d : D.





(** The address of a register, general or of a comparator. *)
Lemma general_ptr r : 0 <= r < 0x500 -> Hpet.__get_reg_ptr base r = base + r.
Proof. intros. apply u64_small. lia. Qed.

Lemma compar_ptr id r : 0 <= id < 32 -> 0 <= r < 32 ->
  Comparator.get_compar_reg_ptr base id r = base + (0x100 + 32 * id + r).
Proof.
  intros. unfold Comparator.get_compar_reg_ptr, Comparator.FIRST_OFF, Comparator.BLOCK_SZ.
  rewrite (u64_small (base + 256)) by lia. rewrite (u64_small (base + 256 + 4 * 8 * id)) by lia.
  rewrite u64_small by lia. lia.
Qed.











End HpetProps.




Lemma sim_hpet_addr r : 0 < r < 0x500 ->
  (HPET_BASE + r =? IOAPIC_BASE) = false /\ (HPET_BASE + r =? IOAPIC_BASE + 0x10) = false /\
  (HPET_BASE + r =? LAPIC_BASE + 0xb0) = false /\ (HPET_BASE + r =? HPET_BASE) = false.
Proof. intros. unfold HPET_BASE, IOAPIC_BASE, LAPIC_BASE. lia. Qed.

(** The registers of the simulated timer. *)
Lemma sim_def_range r k : hp_def HPET_CAP (fun _ => HPET_TIMER_CAP) r k = true -> 0 < r < 0x500.
Proof.
  unfold hp_def, hp_bit, Hpet.CONFIG_REG, Hpet.COUNTER_REG. destruct (Z.eqb_spec r 16); [lia|].
  destruct (Z.eqb_spec r 240); [lia|]. change (hp_last_timer HPET_CAP) with 2. intros E.
  destruct (Z.leb_spec 256 r), (Z.leb_spec ((r - 256) / 32) 2); try done. zdm.
Qed.

Lemma sim_timer_bit v k : (1 <= k <= 3 \/ 8 <= k <= 13) ->
  Z.testbit (Z.lor (Z.land v HPET_TIMER_MASK) HPET_TIMER_CAP) k = Z.testbit v k.
Proof.
  intros Hk. rewrite Z.lor_spec, Z.land_spec.
  assert (k = 1 \/ k = 2 \/ k = 3 \/ k = 8 \/ k = 9 \/ k = 10 \/ k = 11 \/ k = 12 \/ k = 13)
    as [->|[->|[->|[->|[->|[->|[->|[->| ->]]]]]]]] by lia; cbn; by rewrite andb_true_r, orb_false_r.
Qed.

Lemma sim_config_bits r k : hpet_timer_config (HPET_BASE + r) = true ->
  hp_def HPET_CAP (fun _ => HPET_TIMER_CAP) r k = true -> 1 <= k <= 3 \/ 8 <= k <= 13.
Proof.
  unfold hpet_timer_config, hp_def, hp_bit, Hpet.CONFIG_REG, Hpet.COUNTER_REG. intros E.
  replace (HPET_BASE + r - HPET_BASE) with r in E by lia. apply andb_prop in E as [E E3%Z.eqb_eq].
  assert (256 <= r < 352) by (unfold HPET_BASE in E; lia).
  destruct (Z.eqb_spec r 16); [lia|]. destruct (Z.eqb_spec r 240); [lia|].
  change (hp_last_timer HPET_CAP) with 2. destruct (Z.leb_spec 256 r); [|done].
  destruct (Z.leb_spec ((r - 256) / 32) 2); [|done]. rewrite E3. cbn [andb Z.eqb].
  unfold hp_config_bit, hp_periodic_cap, hp_width, hp_fsb_cap. cbn.
  destruct (Z.eqb_spec k 3); [lia|]. destruct (Z.eqb_spec k 8); [lia|]. destruct (Z.eqb_spec k 14); [done|].
  destruct (_ || _) eqn:Eb; [|done]. intros _. lia.
Qed.

Lemma sim_reg_read d r k : hp_def HPET_CAP (fun _ => HPET_TIMER_CAP) r k = true ->
  Z.testbit (sim_read (HPET_BASE + r) d) k = Z.testbit (default 0 (s_bus d !! (HPET_BASE + r))) k.
Proof.
  intros Hk. destruct (sim_hpet_addr r (sim_def_range r k Hk)) as (E1 & E2 & E3 & E4).
  unfold sim_read. rewrite E1, E2, E4. destruct (hpet_timer_config _) eqn:Ec; [|done].
  apply sim_timer_bit. by apply (sim_config_bits r k).
Qed.

Lemma sim_caps v k : k = 4 \/ k = 5 \/ k = 15 \/ 32 <= k < 64 ->
  Z.testbit (Z.lor (Z.land v HPET_TIMER_MASK) HPET_TIMER_CAP) k = Z.testbit HPET_TIMER_CAP k.
Proof.
  intros Hk. rewrite Z.lor_spec, Z.land_spec. assert (Z.testbit HPET_TIMER_MASK k = false) as ->; [|by rewrite andb_false_r].
  destruct Hk as [->|[->|[->|Hk]]]; [done..|]. apply Z.bits_above_log2; [by unfold HPET_TIMER_MASK|]. cbn. lia.
Qed.

Global Instance sim_hpet : HpetDev sim HPET_BASE.
Proof.
  refine {| hp_cap := HPET_CAP; hp_tcap _ := HPET_TIMER_CAP; hp_reg r d := sim_read (HPET_BASE + r) d |}.
  - unfold HPET_CAP. lia.
  - intros d. done.
  - intros d id k Hid Hk. change (hp_last_timer HPET_CAP) with 2 in Hid. cbn [bus_read sim_machine fst].
    unfold hp_timer_config. assert (id = 0 \/ id = 1 \/ id = 2) as [->|[->| ->]] by lia; by apply (sim_caps _ k Hk).
  - intros d r k. unfold hp_bit, hp_config_bit, rw_if, hp_periodic_cap, hp_width. cbn [Z.testbit HPET_TIMER_CAP].
    by repeat case_match.
  - intros d r Hr. by split.
  - intros d r v [k0 Hr] _. pose proof (sim_def_range r k0 Hr) as Hr'. destruct (sim_hpet_addr r Hr') as (E1 & E2 & E3 & E4).
    assert (Ew : bus_write 8 (HPET_BASE + r) v d =
      mkSim (s_sel d) (s_io d) (<[HPET_BASE + r := v]> (s_bus d)) (s_msr d) (s_keys d) (s_isr d) (s_out d)).
    { cbn [bus_write sim_machine]. unfold sim_write. by rewrite E1, E2, E3. }
    rewrite Ew. split.
    + intros k Hk _. rewrite sim_reg_read by done. cbn [s_bus]. by rewrite lookup_insert_eq.
    + intros r' k Hne Hk _. rewrite !sim_reg_read by done. cbn [s_bus]. by rewrite lookup_insert_ne by lia.
Defined.


(** [get_available_ioapic_routes] reads the inputs of the I/O APIC that the
    timer can reach, which [set_periodic] does not consult. *)
Theorem available_routes_correct {D} `{HpetDev D base} (d : D) (id : Z) :
  0 <= base < 2 ^ 63 -> 0 <= id <= hp_last_timer (hp_cap base) ->
  runs (Comparator.get_available_ioapic_routes base id) d (fun v _ =>
    forall n, 0 <= n < 32 -> Z.testbit v n = hp_route_cap (hp_tcap base) id n).
Proof.
  intros Hb Hid. pose proof (hp_last_timer_range (hp_cap base)).
  unfold Comparator.get_available_ioapic_routes, Comparator.read_reg, Comparator.CONFIG.
  rewrite compar_ptr by lia. rewrite Z.add_0_r. change (0x100 + 32 * id) with (hp_timer_config id).
  apply runs_bind, runs_read64. rewrite (u64_small (base + _)) by (unfold hp_timer_config; lia).
  apply runs_ret. intros n Hn. unfold u32, u64. rewrite Z.mod_pow2_bits_low, Z.shiftr_spec, Z.mod_pow2_bits_low by lia.
  rewrite hp_read_tcap by lia. unfold hp_route_cap. f_equal. lia.
Qed.

(** The size [get_mmio_sz] reports leaves out the comparators it counts: the
    registers of a timer with [n] comparators end [0x100 - 64] bytes behind it. *)
Theorem hpet_mmio_size_short {D} `{HpetDev D base} (d : D) :
  0 <= base < 2 ^ 63 ->
  runs (Hpet.get_mmio_sz base) d (fun sz _ =>
    let last := get_field (hp_cap base) 8 5 in
    sz = 64 + 32 * (last + 1) /\ sz <= Comparator.get_compar_reg_ptr base last Comparator.COMPAR - base).
Proof.
  intros Hb. assert (Hl : 0 <= get_field (hp_cap base) 8 5 < 32).
  { unfold get_field. rewrite Z.land_ones by lia. apply Z.mod_pos_bound. lia. }
  unfold Hpet.get_mmio_sz, Hpet.get_no_comparators, Hpet.read_reg. apply runs_bind, runs_bind.
  rewrite general_ptr by (unfold Hpet.CAP_REG; lia). unfold Hpet.CAP_REG. rewrite Z.add_0_r.
  apply runs_read64. rewrite (u64_small base) by lia. destruct (hp_read_cap d) as [-> _].
  rewrite u64_small by apply hp_cap_range. do 2 apply runs_ret. rewrite u8_small, u32_small by lia.
  unfold Comparator.COMPAR. rewrite compar_ptr by lia. lia.
Qed.
