(* ===== verification/Descriptors.v ===== *)
(** * Descriptors: the segment and the interrupt descriptor tables, gdt/ and idt/idt.cpp *)
From S2P Require Import Prelude Memory Bitmap Apic.

(** ** The global descriptor table *)
Record SegmentDescriptor : Type := mkSegment {
  limit0 : Z;
  base0 : Z;
  base1 : Z;
  flags1 : Z;
  limit1_flags2 : Z;
  base2 : Z
}.

Record GDT : Type := mkGdt {
  gdt_null : SegmentDescriptor;
  kernel_code : SegmentDescriptor;
  kernel_data : SegmentDescriptor;
  user_code : SegmentDescriptor;
  user_data : SegmentDescriptor
}.

Record GDTR : Type := mkGdtr { gdtr_size : Z; gdtr_offset : Z }.

(** [SegmentSelector] *)
Inductive SegmentSelector : Type := KERNEL_CODE | KERNEL_DATA | USER_CODE | USER_DATA.
Definition selector_code (s : SegmentSelector) : Z :=
  match s with KERNEL_CODE => 8 | KERNEL_DATA => 16 | USER_CODE => 24 | USER_DATA => 32 end.

Module Gdt.

Definition gdt : GDT := {|
  gdt_null := mkSegment 0x0 0x0 0x0 0x0 0x0 0x0;
  kernel_code := mkSegment 0x0 0x0 0x0 0x9a 0xa0 0x0;
  kernel_data := mkSegment 0x0 0x0 0x0 0x92 0xa0 0x0;
  user_code := mkSegment 0x0 0x0 0x0 0x9a 0xa0 0x0;
  user_data := mkSegment 0x0 0x0 0x0 0x92 0xa0 0x0
|}.

(** [sizeof(GDT)]: the alignment to 0x1000 pads the struct to a page. *)
Definition GDT_SZ : Z := 0x1000.
Definition gdtr (gdt_addr : Z) : GDTR := mkGdtr (u16 (GDT_SZ - 1)) gdt_addr.

(** The table in memory: five packed descriptors. *)
Definition put_segment (m : mem) (p : Z) (s : SegmentDescriptor) : mem :=
  let m := write16 m p (limit0 s) in
  let m := write16 m (p + 2) (base0 s) in
  let m := write8 m (p + 4) (base1 s) in
  let m := write8 m (p + 5) (flags1 s) in
  let m := write8 m (p + 6) (limit1_flags2 s) in
  write8 m (p + 7) (base2 s).
Definition put_gdt (m : mem) (p : Z) (g : GDT) : mem :=
  let m := put_segment m p (gdt_null g) in
  let m := put_segment m (p + 8) (kernel_code g) in
  let m := put_segment m (p + 16) (kernel_data g) in
  let m := put_segment m (p + 24) (user_code g) in
  put_segment m (p + 32) (user_data g).

(** The registers that [__load_gdt] sets: GDTR, CS and the data segments. *)
Record seg_regs : Type := mkSegRegs { r_gdtr : GDTR; r_cs : Z; r_ds : Z }.

Definition __load_gdt (g : GDTR) (r : seg_regs) : seg_regs := mkSegRegs g 0x08 0x10.

(** [gdt::init] *)
Definition init (gdt_addr : Z) (r : seg_regs) : Z * seg_regs := (gdt_addr, __load_gdt (gdtr gdt_addr) r).

End Gdt.

(** ** The interrupt descriptor table *)

(** [Gate] *)
Inductive Gate : Type := CALL_GATE | INTERRUPT_GATE | TRAP_GATE.
Definition gate_code (g : Gate) : Z := match g with CALL_GATE => 12 | INTERRUPT_GATE => 14 | TRAP_GATE => 15 end.

Definition ALL_IDT_ENTRIES : Z := 256.
(** [sizeof(Entry)], and the offsets of its fields; the bit-fields [gate_type],
    [ignore2], [dpl] and [present] share the byte at offset 5. *)
Definition ENTRY_SZ : Z := 16.
Definition OFF_OFFSET1 : Z := 0.
Definition OFF_SELECTOR : Z := 2.
Definition OFF_IST : Z := 4.
Definition OFF_TYPE : Z := 5.
Definition OFF_OFFSET2 : Z := 6.
Definition OFF_OFFSET3 : Z := 8.

Record IDTR : Type := mkIdtr { idtr_limit : Z; idtr_base : Z }.

Module Idt.

(** [IDT::add_int], on the table at [idt]. *)
Definition add_int (idt : Z) (gate : Gate) (index : Interrupt) (handler : Z) (m : mem) : mem :=
  let entry := idt + ENTRY_SZ * int_vector index in
  let m := write8 m (entry + OFF_TYPE) (set_field (read8 m (entry + OFF_TYPE)) 7 1 1) in
  let m := write8 m (entry + OFF_TYPE) (set_field (read8 m (entry + OFF_TYPE)) 0 4 (gate_code gate)) in
  let m := write16 m (entry + OFF_SELECTOR) (selector_code KERNEL_CODE) in
  let offset := handler in
  let m := write16 m (entry + OFF_OFFSET1) (u16 (Z.land offset 0xffff)) in
  let offset := Z.shiftr offset 16 in
  let m := write16 m (entry + OFF_OFFSET2) (u16 (Z.land offset 0xffff)) in
  let offset := Z.shiftr offset 16 in
  write32 m (entry + OFF_OFFSET3) (u32 (Z.land offset 0xffffffff)).

Definition __load_idtr (idt : Z) : IDTR := mkIdtr (u16 (ENTRY_SZ * ALL_IDT_ENTRIES)) idt.

(** [IDT::IDT], for handlers at the addresses [handler]; the table itself is
    not cleared. *)
Definition construct (idt : Z) (handler : Interrupt -> Z) (m : mem) : IDTR * mem :=
  let m := add_int idt TRAP_GATE DIVISION_BY_ZERO (handler DIVISION_BY_ZERO) m in
  let m := add_int idt INTERRUPT_GATE PAGE_FAULT (handler PAGE_FAULT) m in
  let m := add_int idt INTERRUPT_GATE TIMER (handler TIMER) m in
  let m := add_int idt INTERRUPT_GATE KEYBOARD (handler KEYBOARD) m in
  let m := add_int idt INTERRUPT_GATE SPURIOUS (handler SPURIOUS) m in
  (__load_idtr idt, m).

End Idt.

(** ** What the processor reads

    IM3, figure 6-8: the handler, the segment, the type and the other fields of
    the gate of a vector. *)
Record gate : Type := mkGate {
  g_offset : Z;
  g_selector : Z;
  g_type : Z;
  g_present : bool;
  g_ist : Z;       (** the interrupt stack, with the reserved bits of its byte *)
  g_dpl : Z        (** the privilege level, with the reserved bit below it *)
}.

Definition gate_at (m : mem) (idt v : Z) : gate :=
  let e := idt + 16 * v in
  mkGate (read16 m e + 2 ^ 16 * read16 m (e + 6) + 2 ^ 32 * read32 m (e + 8)) (read16 m (e + 2))
    (get_field (read8 m (e + 5)) 0 4) (negb (get_field (read8 m (e + 5)) 7 1 =? 0))
    (read8 m (e + 4)) (get_field (read8 m (e + 5)) 4 3).

(** Bytes and words stored at different places of an entry. *)
Ltac apart := unfold read8, read16, read32, write8, write16, write32;
  repeat first [rewrite load_store_same | rewrite load_store_out by lia].

Lemma offset_split h : 0 <= h < 2 ^ 64 ->
  u16 (Z.land h 0xffff) mod 256 ^ 2 + 2 ^ 16 * (u16 (Z.land (Z.shiftr h 16) 0xffff) mod 256 ^ 2) +
    2 ^ 32 * (u32 (Z.land (Z.shiftr (Z.shiftr h 16) 16) 0xffffffff) mod 256 ^ 4) = h.
Proof.
  intros Hh. change 0xffff with (Z.ones 16). change 0xffffffff with (Z.ones 32).
  rewrite Z.shiftr_shiftr, !Z.land_ones, !Z.shiftr_div_pow2 by lia. unfold u16, u32.
  change (256 ^ 2) with (2 ^ 16). change (256 ^ 4) with (2 ^ 32). rewrite !Z.mod_mod by lia. zdm.
Qed.

Lemma add_int_gate idt g i h m : 0 <= h < 2 ^ 64 ->
  gate_at (Idt.add_int idt g i h m) idt (int_vector i) =
    mkGate h (selector_code KERNEL_CODE) (gate_code g) true
      (g_ist (gate_at m idt (int_vector i))) (g_dpl (gate_at m idt (int_vector i))).
Proof.
  intros Hh. unfold gate_at, Idt.add_int, ENTRY_SZ, OFF_TYPE, OFF_SELECTOR, OFF_OFFSET1, OFF_OFFSET2, OFF_OFFSET3.
  cbn [g_ist g_dpl]. rewrite Z.add_0_r. set (e := idt + 16 * int_vector i). apart.
  change (256 ^ Z.of_nat 2) with (256 ^ 2). change (256 ^ Z.of_nat 4) with (256 ^ 4). rewrite offset_split by done.
  change (256 ^ Z.of_nat 1) with (2 ^ 8).
  set (w := load 1 m (e + 5)).
  assert (F : forall lo n, 0 <= lo -> 0 <= n -> lo + n <= 8 ->
    get_field (set_field (set_field w 7 1 1 mod 2 ^ 8) 0 4 (gate_code g) mod 2 ^ 8) lo n =
    get_field (set_field (set_field w 7 1 1) 0 4 (gate_code g)) lo n).
  { intros lo n ???. apply get_field_ext; [done..|]. intros k Hk.
    rewrite Z.mod_pow2_bits_low, !set_field_bits by lia. rewrite Z.mod_pow2_bits_low, set_field_bits by lia. done. }
  rewrite !F by lia. rewrite get_set_field by lia. rewrite !(get_set_field_other _ 0 4) by lia.
  rewrite get_set_field by lia. rewrite get_set_field_other by lia. f_equal. by destruct g.
Qed.

Lemma add_int_out idt g i h m a :
  ~ (idt + 16 * int_vector i <= a < idt + 16 * int_vector i + 16) ->
  mget (Idt.add_int idt g i h m) a = mget m a.
Proof.
  intros Ha. unfold Idt.add_int, ENTRY_SZ, OFF_TYPE, OFF_SELECTOR, OFF_OFFSET1, OFF_OFFSET2, OFF_OFFSET3.
  unfold write8, write16, write32. rewrite !mget_store_out by lia. done.
Qed.

Lemma gate_agree m m' idt v :
  (forall a, idt + 16 * v <= a < idt + 16 * v + 16 -> mget m' a = mget m a) -> gate_at m' idt v = gate_at m idt v.
Proof.
  intros E. unfold gate_at, read8, read16, read32.
  rewrite !(load_agree _ m' m) by (intros a Ha; apply E; lia). done.
Qed.

Lemma int_vector_inj i j : int_vector i = int_vector j -> i = j.
Proof. by destruct i, j. Qed.

Lemma add_int_other idt g i h m v :
  v <> int_vector i -> gate_at (Idt.add_int idt g i h m) idt v = gate_at m idt v.
Proof. intros Hv. apply gate_agree. intros a Ha. apply add_int_out. lia. Qed.

Definition gate_of (i : Interrupt) : Gate := match i with DIVISION_BY_ZERO => TRAP_GATE | _ => INTERRUPT_GATE end.

Lemma idt_construct_spec (idt : Z) (handler : Interrupt -> Z) (m : mem) :
  (forall i, 0 <= handler i < 2 ^ 64) ->
  let '(idtr, m') := Idt.construct idt handler m in
  idtr = mkIdtr 4096 idt /\
  (forall i, gate_at m' idt (int_vector i) =
     mkGate (handler i) (selector_code KERNEL_CODE) (gate_code (gate_of i)) true
       (g_ist (gate_at m idt (int_vector i))) (g_dpl (gate_at m idt (int_vector i)))) /\
  (forall v, (forall i, v <> int_vector i) -> gate_at m' idt v = gate_at m idt v) /\
  (forall a, ~ (idt <= a < idt + 4096) -> mget m' a = mget m a).
Proof.
  intros Hh. unfold Idt.construct. split; [done|]. split; [|split].
  - intros []; repeat first [rewrite add_int_gate by apply Hh | rewrite add_int_other by done]; done.
  - intros v Hv. rewrite !add_int_other by apply Hv. done.
  - intros a Ha. rewrite !add_int_out by (cbn; lia). done.
Qed.

(** [IDT::IDT] installs the five handlers: each vector the kernel uses has
    a present gate of its kind to its handler in the kernel's code segment, the
    gates of all other vectors and every byte outside the table are as before,
    and IDTR points to the table.  The interrupt stack and the privilege level of
    the installed gates are those the memory held, as nothing clears the table. *)
Theorem idt_constructor_correct (idt : Z) (handler : Interrupt -> Z) (m : mem) :
  (forall i, 0 <= handler i < 2 ^ 64) ->
  let '(idtr, m') := Idt.construct idt handler m in
  idtr = mkIdtr 4096 idt /\
  (forall i, gate_at m' idt (int_vector i) =
     mkGate (handler i) (selector_code KERNEL_CODE) (gate_code (gate_of i)) true
       (g_ist (gate_at m idt (int_vector i))) (g_dpl (gate_at m idt (int_vector i)))) /\
  (forall v, (forall i, v <> int_vector i) -> gate_at m' idt v = gate_at m idt v) /\
  (forall a, ~ (idt <= a < idt + 4096) -> mget m' a = mget m a).
Proof. apply idt_construct_spec. Qed.

Lemma idt_constructor_correct_witness :
  let '(idtr, m') := Idt.construct 0x8000 (fun i => 0x100000 + int_vector i) ∅ in
  idtr = mkIdtr 4096 0x8000 /\
  (forall i, gate_at m' 0x8000 (int_vector i) =
     mkGate (0x100000 + int_vector i) (selector_code KERNEL_CODE) (gate_code (gate_of i)) true
       (g_ist (gate_at ∅ 0x8000 (int_vector i))) (g_dpl (gate_at ∅ 0x8000 (int_vector i)))) /\
  (forall v, (forall i, v <> int_vector i) -> gate_at m' 0x8000 v = gate_at ∅ 0x8000 v) /\
  (forall a, ~ (0x8000 <= a < 0x8000 + 4096) -> mget m' a = mget ∅ a).
Proof. apply (idt_constructor_correct 0x8000 (fun i => 0x100000 + int_vector i) ∅). intros []; cbn; lia. Defined.

(** ** The segments

    IM3, figure 3-8: the fields of the descriptor at [p]. *)
Definition seg_present (m : mem) (p : Z) : bool := Z.testbit (read8 m (p + 5)) 7.
Definition seg_dpl (m : mem) (p : Z) : Z := get_field (read8 m (p + 5)) 5 2.
Definition seg_is_code (m : mem) (p : Z) : bool := Z.testbit (read8 m (p + 5)) 3.
Definition seg_writable (m : mem) (p : Z) : bool := Z.testbit (read8 m (p + 5)) 1.
Definition seg_long (m : mem) (p : Z) : bool := Z.testbit (read8 m (p + 6)) 5.

Definition is_code (s : SegmentSelector) : bool := match s with KERNEL_CODE | USER_CODE => true | _ => false end.

(** The segments of the GDT in memory.  Every selector names a descriptor
    inside the limit of GDTR that is present, 64-bit, and a code or a data segment
    as its name says; but all four, those of the user too, have privilege level 0.
    After [gdt::init] CS and DS name the kernel's code and data segment. *)
Theorem gdt_segments_correct (m : mem) (p : Z) (r : Gdt.seg_regs) (s : SegmentSelector) :
  let m' := Gdt.put_gdt m p Gdt.gdt in
  let q := p + selector_code s in
  let r' := (Gdt.init p r).2 in
  q + 8 <= gdtr_offset (Gdt.r_gdtr r') + gdtr_size (Gdt.r_gdtr r') + 1 /\
  seg_present m' q = true /\ seg_long m' q = true /\ seg_is_code m' q = is_code s /\ seg_writable m' q = true /\
  seg_dpl m' q = 0 /\
  Gdt.r_cs r' = selector_code KERNEL_CODE /\ Gdt.r_ds r' = selector_code KERNEL_DATA.
Proof.
  cbn zeta. assert (E : forall b, b = 5 \/ b = 6 -> read8 (Gdt.put_gdt m p Gdt.gdt) (p + selector_code s + b) =
    if b =? 5 then (if is_code s then 0x9a else 0x92) else 0xa0).
  { intros b Hb. unfold Gdt.put_gdt, Gdt.put_segment. rewrite <- !Z.add_assoc. cbn [Z.add Pos.add].
    destruct s, Hb as [-> | ->]; cbn [selector_code Z.add Pos.add Pos.succ Pos.add_carry]; apart; reflexivity. }
  unfold seg_present, seg_long, seg_is_code, seg_writable, seg_dpl. rewrite !E by lia.
  change (gdtr_size (Gdt.r_gdtr (Gdt.init p r).2)) with 4095.
  change (gdtr_offset (Gdt.r_gdtr (Gdt.init p r).2)) with p.
  split; [destruct s; cbn [selector_code]; lia|]. by destruct s.
Qed.
