(* ===== verification/CpuInfo.v ===== *)
(** * CpuInfo: the identification of the processor, cpu/cpu.cpp *)
From S2P Require Import Prelude Memory Bitmap Machine Sim.

(** [cpu::State] and [cpu::Info] *)
Inductive State : Type := ERROR | SUCCESS | NO_LONG_MODE | NO_FPU | NO_LAPIC | NO_MSR.

Record Info : Type := mkInfo {
  manufacturer : list Z;     (** [char manufacturer[13]] *)
  stepping_id : Z;           (** 4 bits *)
  cpu_type : Z;              (** [type], 2 bits *)
  model_id : Z;              (** [u16] *)
  family_id : Z;             (** [u16] *)
  brand : list Z;            (** [char brand[49]] *)
  hyperthreading : bool;
  physical_cores : Z;        (** [u8] *)
  logical_cores : Z          (** [u8] *)
}.

Module CpuInfo.

(** The four bytes that [memcpy(dst, &reg, 4)] copies from a register. *)
Definition le4 (reg : Z) : list Z := [u8 reg; u8 (Z.shiftr reg 8); u8 (Z.shiftr reg 16); u8 (Z.shiftr reg 24)].

Section CpuInfo.
Context {D : Type} `{Machine D}.

(** [_get_cpu_brand]: the code passes [&edx] and [&ecx] in the places of the
    pointers for ECX and EDX, and copies the variables in that order. *)
Definition _get_cpu_brand : M D (list Z) :=
  '(eax, ebx, edx, ecx) ← Cpu.get_cpuid 0x80000002;
  let b1 := le4 eax ++ le4 ebx ++ le4 edx ++ le4 ecx in
  '(eax, ebx, edx, ecx) ← Cpu.get_cpuid 0x80000003;
  let b2 := le4 eax ++ le4 ebx ++ le4 edx ++ le4 ecx in
  '(eax, ebx, edx, ecx) ← Cpu.get_cpuid 0x80000004;
  let b3 := le4 eax ++ le4 ebx ++ le4 edx ++ le4 ecx in
  mret (b1 ++ b2 ++ b3 ++ [0]).

Definition get_info : M D Info :=
  '(_, ebx, ecx, edx) ← Cpu.get_cpuid 0x0;
  let manufacturer := le4 ebx ++ le4 edx ++ le4 ecx ++ [0] in
  '(eax, ebx, _, edx) ← Cpu.get_cpuid 0x1;
  let stepping := Z.land eax 0xf in
  let eax := Z.shiftr eax 4 in
  let model := Z.land eax 0xf in
  let eax := Z.shiftr eax 4 in
  let family := Z.land eax 0xf in
  let eax := Z.shiftr eax 4 in
  let type := Z.land eax 0x3 in
  let eax := Z.shiftr eax 4 in
  let model := if model =? 0xf then u16 (model + Z.land eax 0xf) else model in
  let eax := Z.shiftr eax 4 in
  let family := if family =? 0xf then u16 (family + Z.land eax 0xff) else family in
  brand ← _get_cpu_brand;
  let logical := Z.land (Z.shiftr ebx 16) 0xff in
  let ht := negb (test_bit edx 28 =? 0) in
  '(_, _, ecx, _) ← Cpu.get_cpuid 0x80000008;
  let physical := u8 (u8 ecx + 1) in
  mret (mkInfo manufacturer stepping type model family brand ht physical logical).

Definition check_state : M D State :=
  '(_, _, _, edx) ← Cpu.get_cpuid 0x1;
  if test_bit edx 0 =? 0 then mret NO_FPU
  else if test_bit edx 5 =? 0 then mret NO_MSR
  else if test_bit edx 9 =? 0 then mret NO_LAPIC
  else
    '(_, _, _, edx) ← Cpu.get_cpuid 0x80000001;
    if test_bit edx 29 =? 0 then mret NO_LONG_MODE else mret SUCCESS.

End CpuInfo.
End CpuInfo.

(** ** Properties *)

(** The registers of a CPUID leaf: EAX, EBX, ECX and EDX for 0 to 3. *)
Definition cpuid_reg {D} `{Machine D} (d : D) (leaf i : Z) : Z :=
  let '(eax, ebx, ecx, edx) := cpuid leaf d in
  u32 (if i =? 0 then eax else if i =? 1 then ebx else if i =? 2 then ecx else edx).

Lemma get_cpuid_spec {D} `{Machine D} (d : D) leaf : 0 <= leaf < 2 ^ 32 ->
  Cpu.get_cpuid leaf d = Done ((cpuid_reg d leaf 0, cpuid_reg d leaf 1, cpuid_reg d leaf 2, cpuid_reg d leaf 3), d).
Proof.
  intros Hl. unfold Cpu.get_cpuid, gets, cpuid_reg. rewrite (u32_small leaf) by done.
  destruct (cpuid leaf d) as [[[eax ebx] ecx] edx]. done.
Qed.

Lemma le4_lookup w (j : nat) : (j < 4)%nat -> CpuInfo.le4 w !! j = Some (u8 (Z.shiftr w (8 * Z.of_nat j))).
Proof. intros Hj. destruct j as [|[|[|[|]]]]; try lia; cbn; by rewrite ?Z.shiftr_0_r. Qed.

(** The bytes of a sequence of registers. *)
Lemma le4_concat (ws : list Z) (k : nat) w : ws !! (k / 4)%nat = Some w ->
  concat (CpuInfo.le4 <$> ws) !! k = Some (u8 (Z.shiftr w (8 * Z.of_nat (k mod 4)))).
Proof.
  revert k. induction ws as [|w0 ws IH]; intros k Hk; [done|]. cbn [fmap list_fmap concat].
  destruct (decide (k < 4)%nat).
  - rewrite Nat.div_small in Hk by lia. injection Hk as ->. rewrite Nat.mod_small by lia.
    rewrite lookup_app_l by done. by apply le4_lookup.
  - rewrite lookup_app_r by (cbn; lia). change (length (CpuInfo.le4 w0)) with 4%nat.
    replace (k / 4)%nat with (S ((k - 4) / 4)) in Hk.
    + rewrite (IH (k - 4)%nat) by exact Hk. replace (k mod 4)%nat with ((k - 4) mod 4)%nat; [done|].
      rewrite <- (Nat.Div0.mod_add (k - 4) 1 4). f_equal. lia.
    + replace k with (k - 4 + 1 * 4)%nat at 2 by lia. rewrite Nat.div_add by lia. lia.
Qed.

(** The bytes of [n] registers, followed by a NUL. *)
Lemma le4_string (ws : list Z) (l : list Z) (k : nat) w :
  l = concat (CpuInfo.le4 <$> ws) ++ [0] -> ws !! (k / 4)%nat = Some w ->
  l !! k = Some (u8 (Z.shiftr w (8 * Z.of_nat (k mod 4)))).
Proof. intros -> Hw. apply lookup_app_l_Some. by apply le4_concat. Qed.

(** The twelve registers of the brand string. *)
Definition brand_regs {D} `{Machine D} (d : D) : list Z :=
  i ← [0; 1; 2]; (fun r => cpuid_reg d (0x80000002 + i) r) <$> [0; 1; 2; 3].

Lemma brand_regs_lookup {D} `{Machine D} (d : D) (k : nat) : (k < 48)%nat ->
  brand_regs d !! (k / 4)%nat =
    Some (cpuid_reg d (0x80000002 + Z.of_nat (k / 16)) (Z.of_nat ((k / 4) mod 4))).
Proof.
  intros Hk. replace (k / 16)%nat with (k / 4 / 4)%nat by by rewrite Nat.Div0.div_div.
  assert (Hq : (k / 4 < 12)%nat) by (apply Nat.Div0.div_lt_upper_bound; lia).
  revert Hq. generalize (k / 4)%nat. intros q Hq. do 12 (destruct q as [|q]; [done|]). lia.
Qed.

Lemma get_info_strings {D} `{Machine D} (d : D) :
  runs CpuInfo.get_info d (fun info d' => d' = d /\
    manufacturer info = concat (CpuInfo.le4 <$> [cpuid_reg d 0 1; cpuid_reg d 0 3; cpuid_reg d 0 2]) ++ [0] /\
    brand info = concat (CpuInfo.le4 <$> brand_regs d) ++ [0]).
Proof.
  unfold CpuInfo.get_info, CpuInfo._get_cpu_brand.
  repeat (apply runs_bind; (eapply runs_eq; [apply get_cpuid_spec; lia|]); cbn beta iota zeta).
  apply runs_bind.
  repeat (apply runs_bind; (eapply runs_eq; [apply get_cpuid_spec; lia|]); cbn beta iota zeta).
  apply runs_ret. apply runs_bind. (eapply runs_eq; [apply get_cpuid_spec; lia|]). cbn beta iota zeta.
  apply runs_ret. done.
Qed.

(** The strings of [cpu::get_info].  The vendor string is the bytes of
    EBX, EDX and ECX of leaf 0; the brand string is the bytes of EAX, EBX, ECX and
    EDX of the leaves 0x80000002 to 0x80000004 in order, although the code
    exchanges its variables for ECX and EDX; both end in NUL. *)
Theorem cpu_strings_correct {D} `{Machine D} (d : D) :
  runs CpuInfo.get_info d (fun info d' => d' = d /\
    (forall k : nat, (k < 12)%nat ->
       let reg := match (k / 4)%nat with 0%nat => 1 | 1%nat => 3 | _ => 2 end in
       manufacturer info !! k = Some (u8 (Z.shiftr (cpuid_reg d 0 reg) (8 * Z.of_nat (k mod 4))))) /\
    (forall k : nat, (k < 48)%nat ->
       brand info !! k = Some (u8 (Z.shiftr
         (cpuid_reg d (0x80000002 + Z.of_nat (k / 16)) (Z.of_nat ((k / 4) mod 4))) (8 * Z.of_nat (k mod 4))))) /\
    manufacturer info !! 12%nat = Some 0 /\ length (manufacturer info) = 13%nat /\
    brand info !! 48%nat = Some 0 /\ length (brand info) = 49%nat).
Proof.
  eapply runs_mono; [apply get_info_strings|]. intros info d' (-> & Em & Eb).
  split; [done|]. split; [|split].
  - intros k Hk. eapply le4_string; [exact Em|].
    assert (Hq : (k / 4 < 3)%nat) by (apply Nat.Div0.div_lt_upper_bound; lia).
    destruct (k / 4)%nat as [|[|[|]]]; [done..|lia].
  - intros k Hk. eapply le4_string; [exact Eb|]. by apply brand_regs_lookup.
  - by rewrite Em, Eb.
Qed.

(** The first feature that is missing, in the order in which they are checked. *)
Theorem check_state_correct {D} `{Machine D} (d : D) :
  let f := cpuid_reg d 1 3 in let x := cpuid_reg d 0x80000001 3 in
  CpuInfo.check_state d = Done (
    if negb (Z.testbit f 0) then NO_FPU else if negb (Z.testbit f 5) then NO_MSR
    else if negb (Z.testbit f 9) then NO_LAPIC else if negb (Z.testbit x 29) then NO_LONG_MODE else SUCCESS, d).
Proof.
  cbn zeta. rewrite <- !land_pow2_testbit by lia. rewrite !negb_involutive.
  unfold CpuInfo.check_state, test_bit. rewrite (bind_done _ _ _ _ _ (get_cpuid_spec d 1 ltac:(lia))).
  repeat case_match; try done; rewrite (bind_done _ _ _ _ _ (get_cpuid_spec d 0x80000001 ltac:(lia))); by simplify_eq/=; repeat case_match.
Qed.
