(* ===== verification/Interrupts.v ===== *)
(** * Interrupts: the interrupt handlers, idt/interrupts.cpp

    The handlers run on the state they share with the rest of the kernel: the
    keyboard object, the clock of the timer interrupt, the console and the
    hardware. *)
From Stdlib Require Import String.
From S2P Require Import Prelude Memory Libc Printf Machine Sim Keyboard Apic.

(** [kernel.keyboard], [kernel.console], the globals [secs] and [ms], and the
    hardware. *)
Record ist (C D : Type) : Type := mkIst {
  i_kbd : Keyboard;
  i_con : C;
  i_secs : Z;     (** [size secs] *)
  i_ms : Z;       (** [u8 ms] *)
  i_dev : D
}.
Arguments mkIst {_ _}.
Arguments i_kbd {_ _}. Arguments i_con {_ _}. Arguments i_secs {_ _}. Arguments i_ms {_ _}. Arguments i_dev {_ _}.

Module Int.
Section Int.
Context {C D : Type} `{ConsoleI C} `{Machine D}.
Abbreviation I := (M (ist C D)).

(** Code of the drivers and of the console, on their part of the state. *)
Definition on_dev {A} (f : M D A) : I A := fun s =>
  match f (i_dev s) with
  | Done (a, d) => Done (a, mkIst (i_kbd s) (i_con s) (i_secs s) (i_ms s) d)
  | Fail e => Fail e
  end.
Definition on_kbd {A} (f : M (Keyboard * D) A) : I A := fun s =>
  match f (i_kbd s, i_dev s) with
  | Done (a, (k, d)) => Done (a, mkIst k (i_con s) (i_secs s) (i_ms s) d)
  | Fail e => Fail e
  end.
Definition on_con (f : C -> outcome C) : I unit := fun s =>
  match f (i_con s) with
  | Done c => Done (tt, mkIst (i_kbd s) c (i_secs s) (i_ms s) (i_dev s))
  | Fail e => Fail e
  end.

(** The software interrupt that [interrupt] raises: none for the timer. *)
Definition interrupt (isr_index : Interrupt) : option Z :=
  match isr_index with
  | DIVISION_BY_ZERO => Some (int_vector DIVISION_BY_ZERO)
  | PAGE_FAULT => Some (int_vector PAGE_FAULT)
  | KEYBOARD => Some (int_vector KEYBOARD)
  | SPURIOUS => Some (int_vector SPURIOUS)
  | TIMER => None
  end.

(** The handlers that print and loop for ever. *)
Definition page_fault_handler : I unit := on_con (Printf.kprintf (cs "page fault") []);; fail Hang.
Definition divide_by_zero_handler : I unit := on_con (Printf.kpanic (cs "division by zero"));; fail Hang.
Definition spurious_handler : I unit := on_con (Printf.kprintf (cs "SPURIOUS!!!") []);; fail Hang.
Definition apic_error_handler : I unit := on_con (Printf.kprintf (cs "APIC ERROR!!!") []);; fail Hang.

(** The clock of the timer interrupt. *)
Definition tick (s : ist C D) : ist C D :=
  let ms := u8 (i_ms s + 1) in
  if ms =? 10 then mkIst (i_kbd s) (i_con s) (u64 (i_secs s + 1)) 0 (i_dev s)
  else mkIst (i_kbd s) (i_con s) (i_secs s) ms (i_dev s).

(** [lapic_addr] is [kernel.acpi_tables.madt->lapic_addr]. *)
Definition timer_handler (lapic_addr : Z) : I unit :=
  modify tick;;
  s ← gets id;
  on_con (Printf.kprintf (cs "%d.%d" ++ [13]) [VaU64 (i_secs s); VaU64 (i_ms s)]);;
  on_dev (Lapic.write_eoi lapic_addr).

(** [kernel.console->print(chr)] of one character prints the string of it. *)
Definition keyboard_handler (lapic_addr : Z) : I unit :=
  chr ← on_kbd Kb.read_key;
  (if chr =? 0 then mret tt else on_con (fun c => Done (console_print [chr] c)));;
  on_dev (Lapic.write_eoi lapic_addr).

(** [n] interrupts with the same handler. *)
Fixpoint times (n : nat) (h : I unit) : I unit :=
  match n with O => mret tt | S n' => h;; times n' h end.

End Int.
End Int.

(** ** What the interrupt hardware does

    The vectors in service, the latest first: writing to the EOI register ends
    the latest.  Reading the keyboard does not change them, nor does the end of an
    interrupt change the codes that wait at the keyboard. *)
Class EoiDev (D : Type) `{ScanSource D} (base : Z) : Type := {
  in_service : D -> list Z;
  eoi_ends d v : in_service (bus_write 4 (base + Lapic.EOI) v d) = tail (in_service d);
  eoi_keeps_keys d v : pending (bus_write 4 (base + Lapic.EOI) v d) = pending d;
  key_keeps_service d : in_service (port_in 0x60 d).2 = in_service d
}.
Arguments in_service {_ _ _} base {_} _.

Section Handlers.
Context {C D : Type} `{ConsoleI C} `{EoiDev D base}.
Context (Hbase : 0 <= base < 2 ^ 32).
Implicit Types s : ist C D.

Lemma on_dev_eoi s :
  Int.on_dev (Lapic.write_eoi base) s =
    Done (tt, mkIst (i_kbd s) (i_con s) (i_secs s) (i_ms s) (bus_write 4 (base + Lapic.EOI) 0xff (i_dev s))).
Proof.
  unfold Int.on_dev, Lapic.write_eoi, Lapic.write_reg, Mmio.write32, modify.
  rewrite (u64_small (base + _)) by (unfold Lapic.EOI; lia). done.
Qed.

(** A character goes to the console unless it is NUL. *)
Definition echo (c : C) (chr : Z) : C := if chr =? 0 then c else console_print [chr] c.

Lemma keyboard_handler_spec k pre c q s :
  i_kbd s = kbd_after k pre -> pending (i_dev s) = c :: q -> 0 <= c < 256 ->
  runs (Int.keyboard_handler base) s (fun _ s' =>
    i_kbd s' = kbd_after k (pre ++ [c]) /\ pending (i_dev s') = q /\
    i_con s' = echo (i_con s) (key_char (shift_after k pre) (caps_after k pre) c) /\
    in_service base (i_dev s') = tail (in_service base (i_dev s)) /\
    i_secs s' = i_secs s /\ i_ms s' = i_ms s).
Proof.
  intros Hk Hp Hc. destruct (pending_read _ c q Hp) as [_ Hq].
  unfold Int.keyboard_handler. apply runs_bind.
  eapply runs_eq. { unfold Int.on_kbd. rewrite Hk. rewrite (read_key_spec k pre _ c q) by done. reflexivity. }
  cbn beta. apply runs_bind. set (chr := key_char _ _ _). unfold echo.
  destruct (Z.eqb_spec chr 0); [apply runs_ret|eapply runs_eq; [reflexivity|]];
    (eapply runs_eq; [apply on_dev_eoi|]); cbn [i_kbd i_con i_dev i_secs i_ms];
    rewrite eoi_ends, eoi_keeps_keys, key_keeps_service; done.
Qed.

Lemma keyboard_handlers_spec k codes : forall pre s,
  i_kbd s = kbd_after k pre -> pending (i_dev s) = codes -> Forall is_byte codes ->
  runs (Int.times (length codes) (Int.keyboard_handler base)) s (fun _ s' =>
    i_kbd s' = kbd_after k (pre ++ codes) /\ pending (i_dev s') = [] /\
    i_con s' = foldl echo (i_con s) (typed k pre codes) /\
    in_service base (i_dev s') = drop (length codes) (in_service base (i_dev s))).
Proof.
  induction codes as [|c q IH]; intros pre s Hk Hp Hb; cbn [length Int.times].
  - apply runs_ret. by rewrite app_nil_r, drop_0.
  - inv Hb. apply runs_bind. eapply runs_mono; [by apply (keyboard_handler_spec k pre c q)|].
    intros _ s1 (K1 & P1 & C1 & S1 & _). eapply runs_mono; [by apply (IH (pre ++ [c]) s1)|].
    intros _ s2 (K2 & P2 & C2 & S2). rewrite K2, C2, C1, S2, S1. rewrite <- app_assoc. split_and!; try done.
    destruct (in_service base (i_dev s)); cbn; by rewrite ?drop_nil.
Qed.
End Handlers.

(** Typing.  When the keyboard interrupts once for each scan code that
    waits at the PS/2 data port, the console gets exactly the characters that the
    US layout gives for the codes, in order, each in the state the modifiers have
    after the codes before it (shift as the last shift event says, capslock
    toggled by each press and acting on letters only), without the codes that
    stand for no character; the modifiers end in that state, every code is taken,
    and every interrupt is ended at the local APIC. *)
Theorem keyboard_session_correct {C D} `{ConsoleI C} `{EoiDev D base} (s : ist C D) (codes : list Z) :
  0 <= base < 2 ^ 32 -> pending (i_dev s) = codes -> Forall is_byte codes ->
  runs (Int.times (length codes) (Int.keyboard_handler base)) s (fun _ s' =>
    i_con s' = foldl echo (i_con s) (typed (i_kbd s) [] codes) /\
    i_kbd s' = mkKeyboard (shift_after (i_kbd s) codes) (caps_after (i_kbd s) codes) /\
    pending (i_dev s') = [] /\
    in_service base (i_dev s') = drop (length codes) (in_service base (i_dev s))).
Proof.
  intros Hb Hp Hc. eapply runs_mono; [apply (keyboard_handlers_spec Hb (i_kbd s) codes [] s); [|done..]|].
  - destruct s as [[sh caps] c x y d]. unfold kbd_after, shift_after, caps_after. cbn. by destruct caps.
  - intros _ s' (K & P & E & S). done.
Qed.

Global Instance sim_scan : ScanSource sim.
Proof.
  refine {| pending := s_keys |}. intros d c q Hp. cbn. unfold sim_in. change (0x60 =? 0x60) with true. by rewrite Hp.
Defined.

Global Instance sim_eoi : EoiDev sim LAPIC_BASE.
Proof.
  refine {| in_service := s_isr |}; try done.
  intros d. cbn. unfold sim_in. change (0x60 =? 0x60) with true. by destruct (s_keys d).
Defined.

(** Shift down, h, shift up, i, capslock, i, 1 *)
Definition typing_sample : ist (list console_event) sim :=
  mkIst Kb.make [] 0 0 (mkSim 0 ∅ ∅ ∅ [0x2a; 0x23; 0xaa; 0x17; 0x3a; 0x17; 0x02] [41; 41; 41; 41; 41; 41; 41] []).

Lemma keyboard_session_correct_witness :
  runs (Int.times 7 (Int.keyboard_handler LAPIC_BASE)) typing_sample (fun _ s' =>
    i_con s' = [Printed [15]; Printed (cs "H"); Printed [14]; Printed (cs "i"); Printed (cs "I"); Printed (cs "1")] /\
    i_kbd s' = mkKeyboard false true /\ pending (i_dev s') = [] /\ in_service LAPIC_BASE (i_dev s') = []).
Proof.
  eapply runs_mono; [apply (keyboard_session_correct typing_sample [0x2a; 0x23; 0xaa; 0x17; 0x3a; 0x17; 0x02])|].
  - unfold LAPIC_BASE. lia.
  - reflexivity.
  - repeat constructor; unfold is_byte; lia.
  - intros _ s' (E1 & E2 & E3 & E4). rewrite E1, E2, E3, E4. by vm_compute.
Defined.

(** ** The timer *)

(** What the timer interrupt prints after [t] tenths of a second. *)
Definition clock (t : Z) : list Z := numeral 10 (t / 10) ++ cs "." ++ numeral 10 (t mod 10) ++ [13].

(** The tenths of a second that the globals stand for. *)
Definition tenths {C D} (s : ist C D) : Z := i_secs s * 10 + i_ms s.
Definition clock_ok {C D} (s : ist C D) : Prop := 0 <= i_secs s < 2 ^ 64 /\ 0 <= i_ms s < 10.

Lemma clock_format secs ms : 0 <= secs < 2 ^ 64 -> 0 <= ms < 10 ->
  Printf.format (cs "%d.%d" ++ [13]) [VaU64 secs; VaU64 ms] = Done (clock (secs * 10 + ms)).
Proof.
  intros Hs Hm. unfold clock. replace ((secs * 10 + ms) / 10) with secs by zdm.
  replace ((secs * 10 + ms) mod 10) with ms by zdm. apply Printf.format_spec.
  - cbn. unfold fmap, option_map. cbn. by rewrite <- ?app_assoc.
  - by repeat constructor.
  - repeat constructor; cbn; lia.
  - cbn. lia.
  - rewrite !length_app. pose proof (length_numeral 10 secs 20). pose proof (length_numeral 10 ms 1).
    cbn [length cs fmap list_fmap]. unfold Printf.BUF_SZ. cbn in *. lia.
Qed.

Section Timer.
Context {C D : Type} `{ConsoleI C} `{EoiDev D base}.
Context (Hbase : 0 <= base < 2 ^ 32).
Implicit Types s : ist C D.

Lemma tick_spec s : clock_ok s -> tenths s + 1 < 10 * 2 ^ 64 ->
  clock_ok (Int.tick s) /\ tenths (Int.tick s) = tenths s + 1 /\
  i_con (Int.tick s) = i_con s /\ i_kbd (Int.tick s) = i_kbd s /\ i_dev (Int.tick s) = i_dev s.
Proof.
  intros [Hs Hm] Ht. unfold clock_ok, tenths, Int.tick in *. rewrite u8_small by lia.
  destruct (Z.eqb_spec (i_ms s + 1) 10); cbn [i_secs i_ms i_con i_kbd i_dev]; [rewrite u64_small by lia|];
    (split; [lia|]); (split; [lia|]); done.
Qed.

Lemma timer_handler_spec s : clock_ok s -> tenths s + 1 < 10 * 2 ^ 64 ->
  runs (Int.timer_handler base) s (fun _ s' =>
    clock_ok s' /\ tenths s' = tenths s + 1 /\ i_con s' = console_print (clock (tenths s + 1)) (i_con s) /\
    i_kbd s' = i_kbd s /\ in_service base (i_dev s') = tail (in_service base (i_dev s)) /\
    pending (i_dev s') = pending (i_dev s)).
Proof.
  intros Hok Ht. destruct (tick_spec s Hok Ht) as (Hok' & E1 & E2 & E3 & E4).
  unfold Int.timer_handler. apply runs_bind, runs_modify, runs_bind, runs_gets. cbn [id].
  apply runs_bind. eapply runs_eq.
  { unfold Int.on_con, Printf.kprintf. destruct Hok' as [Hs Hm].
    rewrite (clock_format _ _ Hs Hm). cbn [mbind outcome_bind]. reflexivity. }
  cbn beta. eapply runs_eq; [by apply on_dev_eoi|]. cbn [i_kbd i_con i_secs i_ms i_dev].
  rewrite eoi_ends, eoi_keeps_keys, E2, E3, E4, <- E1. split; [exact Hok'|]. done.
Qed.

Lemma timer_handlers_spec n : forall s, clock_ok s -> tenths s + Z.of_nat n < 10 * 2 ^ 64 ->
  runs (Int.times n (Int.timer_handler base)) s (fun _ s' =>
    clock_ok s' /\ tenths s' = tenths s + Z.of_nat n /\
    i_con s' = foldl (fun c t => console_print (clock t) c) (i_con s) (seqZ (tenths s + 1) (Z.of_nat n)) /\
    i_kbd s' = i_kbd s /\ in_service base (i_dev s') = drop n (in_service base (i_dev s))).
Proof.
  induction n as [|n IH]; intros s Hok Ht; cbn [Int.times].
  - apply runs_ret. rewrite drop_0. split; [done|]. split; [lia|done].
  - apply runs_bind. eapply runs_mono; [apply timer_handler_spec; (done || lia)|].
    intros _ s1 (Hok1 & T1 & C1 & K1 & S1 & _). eapply runs_mono; [apply IH; (done || lia)|].
    intros _ s2 (Hok2 & T2 & C2 & K2 & S2). split; [done|]. split; [lia|]. split; [|split; [congruence|]].
    + rewrite C2, C1, T1. rewrite (seqZ_cons (tenths s + 1)) by lia. cbn [foldl].
      do 2 f_equal; lia.
    + rewrite S2, S1. destruct (in_service base (i_dev s)); cbn; by rewrite ?drop_nil.
Qed.
End Timer.

(** The clock of the timer interrupt.  After [n] timer interrupts the
    globals [secs] and [ms] stand for [n] more tenths of a second, with [ms] below
    ten; each interrupt has printed the time reached, as seconds and tenths in
    decimal, and has been ended at the local APIC. *)
Theorem timer_counts_tenths {C D} `{ConsoleI C} `{EoiDev D base} (s : ist C D) (n : nat) :
  0 <= base < 2 ^ 32 -> clock_ok s -> tenths s + Z.of_nat n < 10 * 2 ^ 64 ->
  runs (Int.times n (Int.timer_handler base)) s (fun _ s' =>
    clock_ok s' /\ tenths s' = tenths s + Z.of_nat n /\
    i_con s' = foldl (fun c t => console_print (clock t) c) (i_con s) (seqZ (tenths s + 1) (Z.of_nat n)) /\
    i_kbd s' = i_kbd s /\ in_service base (i_dev s') = drop n (in_service base (i_dev s))).
Proof. intros Hb Hok Ht. by apply timer_handlers_spec. Qed.

Lemma timer_counts_tenths_witness :
  runs (Int.times 3 (Int.timer_handler LAPIC_BASE))
    (mkIst Kb.make ([] : list console_event) 7 8 (mkSim 0 ∅ ∅ ∅ [] [40; 40; 40] [])) (fun _ s' =>
    i_secs s' = 8 /\ i_ms s' = 1 /\
    i_con s' = [Printed (cs "7.9" ++ [13]); Printed (cs "8.0" ++ [13]); Printed (cs "8.1" ++ [13])] /\
    in_service LAPIC_BASE (i_dev s') = []).
Proof.
  eapply runs_mono; [apply (timer_counts_tenths (mkIst Kb.make ([] : list console_event) 7 8
    (mkSim 0 ∅ ∅ ∅ [] [40; 40; 40] [])) 3)|].
  - unfold LAPIC_BASE. lia.
  - unfold clock_ok. cbn. lia.
  - unfold tenths. cbn. lia.
  - intros _ s' ([Hs Hm] & T & E & _ & S). unfold tenths in T. cbn in T.
    split; [lia|]. split; [lia|]. rewrite E, S. by vm_compute.
Defined.
