(* ===== verification/IntSession.v ===== *)
(** * IntSession: interrupts in any order

    The handlers of the timer and of the keyboard share the console, the local APIC
    and the globals of idt/interrupts.cpp.  Their gates are interrupt gates
    (Descriptors), so that a handler runs with interrupts off and is not
    interrupted by the other; between two handlers the processor is in the loop at
    the end of [_start], which changes nothing.  What happens then is a
    sequence of steps, one for each interrupt, in whatever order the hardware
    delivers them. *)
From Stdlib Require Import String.
From S2P Require Import Prelude Memory Libc Printf Machine Sim Keyboard Apic Interrupts.

(** What the hardware reports: a scan code of the keyboard, or the timer. *)
Inductive event : Type := Key (code : Z) | Tick.

Definition event_vector (e : event) : Z := int_vector (match e with Key _ => KEYBOARD | Tick => TIMER end).
Definition event_codes (e : event) : list Z := match e with Key c => [c] | Tick => [] end.
Definition codes_of (evs : list event) : list Z := evs ≫= event_codes.
Definition event_ticks (e : event) : Z := match e with Key _ => 0 | Tick => 1 end.
Definition ticks_of (evs : list event) : Z := foldr (fun e n => event_ticks e + n) 0 evs.

(** The handler that the gate of the event's vector has; [base] is the local APIC. *)
Definition event_handler {C D} `{ConsoleI C} `{Machine D} (base : Z) (e : event) : M (ist C D) unit :=
  match e with Key _ => Int.keyboard_handler base | Tick => Int.timer_handler base end.

Section Session.
Context {C D : Type} `{ConsoleI C} `{EoiDev D base}.
Implicit Types s : ist C D.

(** The delivery of an event: the devices change in any way that leaves its
    vector in service, before those that were, and its code waiting behind
    those that wait. *)
Record delivered (e : event) (d d' : D) : Prop := {
  del_service : in_service base d' = event_vector e :: in_service base d;
  del_pending : pending d' = (pending d ++ event_codes e)%list
}.

Definition with_dev s (d : D) : ist C D := mkIst (i_kbd s) (i_con s) (i_secs s) (i_ms s) d.

Inductive isr_step (e : event) s : ist C D -> Prop :=
| isr_handled d s' : delivered e (i_dev s) d -> event_handler base e (with_dev s d) = Done (tt, s') -> isr_step e s s'.

Inductive isr_run : list event -> ist C D -> ist C D -> Prop :=
| run_nil s : isr_run [] s s
| run_snoc evs e s s1 s2 : isr_run evs s s1 -> isr_step e s1 s2 -> isr_run (evs ++ [e]) s s2.

(** What the console gets for an event after the codes [pre], at the time [t]. *)
Definition show (k : Keyboard) (pre : list Z) (t : Z) (e : event) (c : C) : C :=
  match e with
  | Key code => echo c (key_char (shift_after k pre) (caps_after k pre) code)
  | Tick => console_print (clock (t + 1)) c
  end.
Fixpoint show_all (k : Keyboard) (pre : list Z) (t : Z) (evs : list event) (c : C) : C :=
  match evs with
  | [] => c
  | e :: evs' => show_all k (pre ++ event_codes e) (t + event_ticks e) evs' (show k pre t e c)
  end.

(** The state after the events [evs] from [s]. *)
Record after (s : ist C D) (evs : list event) (s' : ist C D) : Prop := {
  af_con : i_con s' = show_all (i_kbd s) [] (tenths s) evs (i_con s);
  af_kbd : i_kbd s' = kbd_after (i_kbd s) (codes_of evs);
  af_clock : clock_ok s';
  af_tenths : tenths s' = tenths s + ticks_of evs;
  af_pending : pending (i_dev s') = [];
  af_service : in_service base (i_dev s') = in_service base (i_dev s)
}.

Lemma codes_of_snoc evs e : codes_of (evs ++ [e]) = codes_of evs ++ event_codes e.
Proof. unfold codes_of. rewrite bind_app. cbn. by rewrite app_nil_r. Qed.

Lemma ticks_of_snoc evs e : ticks_of (evs ++ [e]) = ticks_of evs + event_ticks e.
Proof. unfold ticks_of. induction evs; cbn in *; lia. Qed.

Lemma show_all_snoc k e evs : forall pre t c,
  show_all k pre t (evs ++ [e]) c = show k (pre ++ codes_of evs) (t + ticks_of evs) e (show_all k pre t evs c).
Proof.
  induction evs as [|e0 evs IH]; intros pre t c; cbn [app show_all].
  - by rewrite app_nil_r, Z.add_0_r.
  - rewrite IH. unfold codes_of. rewrite bind_cons, <- app_assoc. f_equal. unfold ticks_of. cbn [foldr]. lia.
Qed.

Lemma kbd_after_nil (k : Keyboard) : kbd_after k [] = k.
Proof. destruct k as [sh caps]. unfold kbd_after, shift_after, caps_after. cbn. by destruct caps. Qed.

Lemma after_nil s : clock_ok s -> pending (i_dev s) = [] -> after s [] s.
Proof.
  intros Hc Hp. split; try done.
  - symmetry. apply kbd_after_nil.
  - cbn. lia.
Qed.

(** One handler, from the state after some events: it returns, and the state is
    the one after one more event. *)
Lemma event_handled s evs s1 e d : 0 <= base < 2 ^ 32 ->
  tenths s + ticks_of (evs ++ [e]) < 10 * 2 ^ 64 -> Forall is_byte (event_codes e) ->
  after s evs s1 -> delivered e (i_dev s1) d ->
  runs (event_handler base e) (with_dev s1 d) (fun _ s2 => after s (evs ++ [e]) s2).
Proof.
  intros Hb Ht Hc [A1 A2 A3 A4 A5 A6] [D1 D2]. rewrite A5 in D2. rewrite ticks_of_snoc in Ht.
  destruct e as [c|]; cbn [event_handler event_codes event_ticks app] in *.
  - inv Hc. eapply runs_mono; [apply (keyboard_handler_spec Hb (i_kbd s) (codes_of evs) c [] (with_dev s1 d)); done|].
    intros _ s2 (K & P & E & S & X & Y). unfold clock_ok, tenths in *. cbn in S, E, X, Y. split.
    + rewrite show_all_snoc, E. cbn. by rewrite A1.
    + by rewrite codes_of_snoc, K.
    + unfold clock_ok. by rewrite X, Y.
    + unfold tenths. rewrite X, Y, ticks_of_snoc. cbn. lia.
    + done.
    + rewrite S, D1, <- A6. done.
  - eapply runs_mono; [apply (timer_handler_spec Hb (with_dev s1 d)); [done|]|].
    + unfold tenths in *. cbn [with_dev i_secs i_ms]. lia.
    + intros _ s2 (O & T & E & K & S & P). change (tenths (with_dev s1 d)) with (tenths s1) in *.
      cbn [with_dev i_con i_kbd i_dev] in *. split.
      * rewrite show_all_snoc, E, A1, A4. done.
      * by rewrite codes_of_snoc, app_nil_r, K.
      * done.
      * rewrite T, A4, ticks_of_snoc. cbn. lia.
      * by rewrite P, D2.
      * rewrite S, D1, <- A6. done.
Qed.

Lemma run_after evs s s' : 0 <= base < 2 ^ 32 ->
  clock_ok s -> pending (i_dev s) = [] -> tenths s + ticks_of evs < 10 * 2 ^ 64 -> Forall is_byte (codes_of evs) ->
  isr_run evs s s' -> after s evs s'.
Proof.
  intros Hb Hc Hp Ht Hbytes Hrun. induction Hrun as [s|evs e s s1 s2 Hrun IH Hstep]; [by apply after_nil|].
  rewrite codes_of_snoc, Forall_app in Hbytes. destruct Hbytes as [Hb1 Hb2].
  assert (A : after s evs s1).
  { apply IH; try done. rewrite ticks_of_snoc in Ht. destruct e; cbn in Ht; lia. }
  destruct Hstep as [d s2 Hdel E]. destruct (event_handled s evs s1 e d) as ([] & s2' & E' & A'); try done.
  rewrite E in E'. apply done_inj in E' as [_ ->]. done.
Qed.

Lemma run_progress evs e s s1 d : 0 <= base < 2 ^ 32 ->
  clock_ok s -> pending (i_dev s) = [] -> tenths s + ticks_of (evs ++ [e]) < 10 * 2 ^ 64 ->
  Forall is_byte (codes_of (evs ++ [e])) -> isr_run evs s s1 -> delivered e (i_dev s1) d ->
  exists s2, event_handler base e (with_dev s1 d) = Done (tt, s2) /\ isr_run (evs ++ [e]) s s2.
Proof.
  intros Hb Hc Hp Ht Hbytes Hrun Hdel. pose proof Hbytes as Hbytes'. pose proof Ht as Ht'.
  rewrite codes_of_snoc, Forall_app in Hbytes. destruct Hbytes as [Hb1 Hb2].
  rewrite ticks_of_snoc in Ht. assert (0 <= event_ticks e) by (destruct e; cbn; lia).
  assert (A : after s evs s1) by (apply run_after; try done; lia).
  destruct (event_handled s evs s1 e d) as ([] & s2 & E & A2); try done.
  exists s2. split; [done|]. eapply run_snoc; [done|]. by eapply isr_handled.
Qed.
End Session.

(** C24: interrupts in any order.  From a state in which no scan code waits, take any
    sequence of keyboard and timer interrupts, each delivered when the handler before it
    has returned.  The console has got, in the order of the interrupts, the character that each
    code stands for under the modifiers as the codes before it left them, whatever timer
    interrupts came between, and for each timer interrupt the time reached, whatever keys
    were pressed; the clock counts the timer interrupts and the modifiers are those after
    all the codes; no code is left waiting and exactly the vectors that were in service before
    are in service.  The handler of whatever interrupt is delivered next returns, and the
    sequence goes on with it. *)
Theorem interrupts_interleave {C D} `{ConsoleI C} `{EoiDev D base} (evs : list event) (s s1 : ist C D) :
  0 <= base < 2 ^ 32 -> clock_ok s -> pending (i_dev s) = [] ->
  tenths s + ticks_of evs + 1 < 10 * 2 ^ 64 -> Forall is_byte (codes_of evs) -> isr_run evs s s1 ->
  i_con s1 = show_all (i_kbd s) [] (tenths s) evs (i_con s) /\
  i_kbd s1 = mkKeyboard (shift_after (i_kbd s) (codes_of evs)) (caps_after (i_kbd s) (codes_of evs)) /\
  clock_ok s1 /\ tenths s1 = tenths s + ticks_of evs /\
  pending (i_dev s1) = [] /\ in_service base (i_dev s1) = in_service base (i_dev s) /\
  forall e d, Forall is_byte (event_codes e) -> delivered e (i_dev s1) d ->
    exists s2, event_handler base e (with_dev s1 d) = Done (tt, s2) /\ isr_run (evs ++ [e]) s s2.
Proof.
  intros Hb Hc Hp Ht Hbytes Hrun. destruct (run_after evs s s1) as [A1 A2 A3 A4 A5 A6]; try done; [lia|].
  split_and!; try done; try (by destruct A3). intros e d He Hd. eapply run_progress; try done.
  - rewrite ticks_of_snoc. destruct e; cbn; lia.
  - rewrite codes_of_snoc, Forall_app. done.
Qed.

(** ** On the simulated machine *)
Definition sim_deliver (e : event) (d : sim) : sim :=
  mkSim (s_sel d) (s_io d) (s_bus d) (s_msr d) (s_keys d ++ event_codes e) (event_vector e :: s_isr d) (s_out d).

Fixpoint sim_session (evs : list event) (s : ist (list console_event) sim) : outcome (ist (list console_event) sim) :=
  match evs with
  | [] => Done s
  | e :: evs' =>
      match event_handler LAPIC_BASE e (with_dev s (sim_deliver e (i_dev s))) with
      | Done (_, s') => sim_session evs' s'
      | Fail f => Fail f
      end
  end.

Lemma sim_session_run evs : forall pre s0 s s', isr_run pre s0 s -> sim_session evs s = Done s' ->
  isr_run (base := LAPIC_BASE) (pre ++ evs) s0 s'.
Proof.
  induction evs as [|e evs IH]; intros pre s0 s s' Hrun E; cbn [sim_session] in E.
  - inv E. by rewrite app_nil_r.
  - destruct (event_handler _ _ _) as [[[] s1]|] eqn:Eh; [|done].
    change (e :: evs) with ([e] ++ evs). rewrite (assoc app). eapply IH; [|exact E].
    eapply run_snoc; [exact Hrun|]. eapply isr_handled; [|exact Eh]. by split.
Qed.

(** h, a tick, shift down, a tick, i.  The shift key prints a control code, which the
    console ignores. *)
Definition session_sample : ist (list console_event) sim := mkIst Kb.make [] 0 0 (mkSim 0 ∅ ∅ ∅ [] [] []).
Definition session_events : list event := [Key 0x23; Tick; Key 0x2a; Tick; Key 0x17].

Lemma interrupts_interleave_witness : exists s1,
  isr_run (base := LAPIC_BASE) session_events session_sample s1 /\
  i_con s1 = [Printed (cs "h"); Printed (cs "0.1" ++ [13]); Printed [15]; Printed (cs "0.2" ++ [13]); Printed (cs "I")] /\
  tenths s1 = 2 /\ in_service LAPIC_BASE (i_dev s1) = [].
Proof.
  destruct (sim_session session_events session_sample) as [s1|] eqn:E; [|by vm_compute in E].
  assert (Hr : isr_run (base := LAPIC_BASE) session_events session_sample s1).
  { by apply (sim_session_run session_events [] session_sample session_sample); [constructor|]. }
  clear E. exists s1. split; [done|].
  destruct (interrupts_interleave session_events session_sample s1) as (H1 & _ & _ & H4 & _ & H6 & _); [..|done|].
  - unfold LAPIC_BASE. lia.
  - unfold clock_ok. cbn. lia.
  - reflexivity.
  - unfold tenths. cbn. lia.
  - repeat constructor; unfold is_byte; lia.
  - rewrite H1, H4, H6. by vm_compute.
Defined.
