(* ===== verification/Debug.v ===== *)
(** * Debug: assertions and memory dumps

    kutils/assertions.cpp and debug/print.cpp.  The dumps read memory and print to
    the console; their local buffers hold one byte as text. *)
From Stdlib Require Import String.
From S2P Require Import Prelude Memory Libc Printf.

Module Dbg.
Section Dbg.
Context {C : Type} `{ConsoleI C}.

(** [__assertion_failed]: the panic screen, and then a loop for ever. *)
Definition __assertion_failed (msg file : list Z) (line : Z) (func : list Z) (c : C) : outcome C :=
  c1 ← Printf.kpanic_at msg file line func c; Fail AssertFailed.

(** One byte as text in a local array of [sz] bytes, and its length. *)
Definition byte_text (sz : nat) (m : mem) (ptr base : Z) : outcome (mem * Z) :=
  t ← Libc.itoa (memset ∅ 0 0 (Z.of_nat sz)) (read8 m ptr) 0 base;
  len ← Libc.str_len (S sz) t 0;
  Done (t, len).

(** The loop of [kprint_mem_hex]; the prints of the bytes are commented out. *)
Fixpoint hex_loop (n_bytes : nat) (m : mem) (ptr line_c : Z) (c : C) : outcome C :=
  match n_bytes with
  | O => Done c
  | S n' =>
    '(line_c, c) ← (if (line_c =? 8) || (line_c =? 0) then
        c' ← Printf.kprintf (NL ++ cs "%p-%p:  ") [VaU64 ptr; VaU64 (u64 (ptr - 7))] c; Done (0, c')
      else Done (line_c, c));
    t ← byte_text 4 m ptr 16;
    hex_loop n' m (u64 (ptr - 1)) (u8 (line_c + 1)) c
  end.
Definition kprint_mem_hex (m : mem) (ptr n_bytes : Z) (c : C) : outcome C :=
  hex_loop (Z.to_nat n_bytes) m (u64 (ptr + n_bytes - 1)) 0 c.

(** The line above the other two dumps. *)
Definition dump_header (ptr n_bytes : Z) (c : C) : outcome C :=
  Printf.kprintf (cs "(first: 0x%p, last: 0x%p, %d bytes):" ++ NL) [VaU64 (u64 (ptr + n_bytes - 1)); VaU64 ptr; VaU64 n_bytes] c.

(** The loop that counts [len] up to 8 prints nothing. *)
Fixpoint bin_loop (n_bytes : nat) (m : mem) (ptr : Z) (c : C) : outcome C :=
  match n_bytes with
  | O => Done c
  | S n' =>
    '(t, len) ← byte_text 16 m ptr 2;
    bin_loop n' m (u64 (ptr - 1)) (console_print (get_bytes (Z.to_nat len) t 0) c)
  end.
Definition kprint_mem_bin (m : mem) (ptr n_bytes : Z) (c : C) : outcome C :=
  c' ← dump_header ptr n_bytes c;
  bin_loop (Z.to_nat n_bytes) m (u64 (ptr + n_bytes - 1)) c'.

(** Of [kprint_mem_ascii] only the header is left. *)
Definition kprint_mem_ascii (ptr n_bytes : Z) (c : C) : outcome C := dump_header ptr n_bytes c.

End Dbg.
End Dbg.

(** One byte fits its buffer: text and terminator stay inside. *)
Lemma byte_text_spec sz k m ptr base : 2 <= base <= 36 -> 256 <= base ^ Z.of_nat k -> (0 < k)%nat -> (k < sz)%nat ->
  exists t, Dbg.byte_text sz m ptr base = Done (t, Z.of_nat (length (numeral base (read8 m ptr)))) /\
    get_bytes (length (numeral base (read8 m ptr))) t 0 = numeral base (read8 m ptr) /\
    (length (numeral base (read8 m ptr)) < sz)%nat /\ forall a, ~ (0 <= a < Z.of_nat sz) -> mget t a = 0.
Proof.
  intros Hb Hk Hk0 Hsz. assert (Hr : 0 <= read8 m ptr < 256) by (rewrite read8_mget; apply mget_range).
  assert (Hl : (length (numeral base (read8 m ptr)) <= k)%nat) by (apply length_numeral; lia).
  destruct (itoa_spec (memset ∅ 0 0 (Z.of_nat sz)) (read8 m ptr) 0 base Hb ltac:(lia)) as (t & E & Ht & Hout).
  exists t. unfold Dbg.byte_text. rewrite E. cbn [mbind outcome_bind]. rewrite (str_len_cstr _ _ _ _ Ht) by lia.
  cbn [mbind outcome_bind]. destruct Ht as (_ & Hg & _). split_and!; [done|done|lia|].
  intros a Ha. rewrite Hout by lia. rewrite mget_memset by lia. case_decide; [lia|]. unfold mget. by rewrite lookup_empty.
Qed.

(** The addresses of a dump, from the last byte to the first. *)
Definition dump_addrs (ptr n : Z) : list Z := reverse (seqZ ptr n).

Lemma bin_loop_spec n m ptr c : 0 <= ptr -> ptr + Z.of_nat n < 2 ^ 64 ->
  Dbg.bin_loop n m (u64 (ptr + Z.of_nat n - 1)) c =
    Done (c ++ ((fun a => Printed (numeral 2 (read8 m a))) <$> dump_addrs ptr (Z.of_nat n))).
Proof.
  intros Hp. revert c. induction n as [|n IH]; intros c Hn.
  { cbn. by rewrite app_nil_r. }
  cbn [Dbg.bin_loop]. replace (u64 (ptr + Z.of_nat (S n) - 1)) with (ptr + Z.of_nat n) by (rewrite u64_small; lia).
  destruct (byte_text_spec 16 8 m (ptr + Z.of_nat n) 2) as (t & -> & Hg & _); [lia|done|lia|lia|].
  cbn [mbind outcome_bind]. rewrite Nat2Z.id, Hg, IH by lia. f_equal. unfold dump_addrs.
  rewrite seqZ_S, reverse_app. cbn. by rewrite <- app_assoc.
Qed.

(** The text of the header. *)
Definition header_text (ptr n : Z) : list Z :=
  cs "(first: 0x" ++ numeral 16 (ptr + n - 1) ++ cs ", last: 0x" ++ numeral 16 ptr ++ cs ", " ++ numeral 10 n ++ cs " bytes):" ++ NL.

Lemma expand_hex lit str n a out : Printf.literal lit ->
  Printf.expand str a = Some out -> Printf.expand (lit ++ 37 :: 112 :: str) (VaU64 n :: a) = Some (lit ++ numeral 16 n ++ out).
Proof.
  intros Hl E. rewrite Printf.expand_lit by done. cbn [Printf.expand]. change (37 =? 37) with true. cbn. by rewrite E.
Qed.

Lemma dump_header_spec {C} `{ConsoleI C} ptr n (c : C) : 0 <= ptr -> 0 < n < 2 ^ 16 -> ptr + n < 2 ^ 64 ->
  Dbg.dump_header ptr n c = Done (console_print (header_text ptr n) c).
Proof.
  intros Hp Hn Hs. unfold Dbg.dump_header, Printf.kprintf. rewrite u64_small by lia.
  assert (Hd : forall base x, 10 <= base -> 0 <= x < 2 ^ 64 -> (length (numeral base x) <= 20)%nat).
  { intros base x Hb Hx. apply length_numeral; [lia| |lia]. assert (10 ^ Z.of_nat 20 <= base ^ Z.of_nat 20) by (apply Z.pow_le_mono_l; lia). lia. }
  pose proof (Hd 16 (ptr + n - 1) ltac:(lia) ltac:(lia)). pose proof (Hd 16 ptr ltac:(lia) ltac:(lia)). pose proof (Hd 10 n ltac:(lia) ltac:(lia)).
  rewrite (Printf.format_spec _ _ (header_text ptr n)); [reflexivity|..].
  - change (cs "(first: 0x%p, last: 0x%p, %d bytes):" ++ NL) with
      (cs "(first: 0x" ++ 37 :: 112 :: (cs ", last: 0x" ++ 37 :: 112 :: (cs ", " ++ 37 :: 100 :: (cs " bytes):" ++ NL)))).
    unfold header_text. do 2 (apply expand_hex; [by repeat constructor|]). apply Printf.expand_num; [by repeat constructor|].
    by vm_compute.
  - by repeat constructor.
  - repeat constructor; cbn; lia.
  - by vm_compute.
  - unfold header_text. rewrite !length_app. unfold Printf.BUF_SZ.
    repeat match goal with |- context [length (cs ?s)] => let k := eval vm_compute in (length (cs s)) in change (length (cs s)) with k end.
    change (length NL) with 1%nat. lia.
Qed.

(** What the binary dump prints: below the header the binary numerals of the
    bytes, the last byte first, without the leading zeros that would make them eight
    digits each. *)
Theorem mem_bin_prints_numerals (m : mem) (ptr n : Z) (c : list console_event) :
  0 <= ptr -> 0 < n < 2 ^ 16 -> ptr + n < 2 ^ 64 ->
  Dbg.kprint_mem_bin m ptr n c =
    Done (c ++ [Printed (header_text ptr n)] ++ ((fun a => Printed (numeral 2 (read8 m a))) <$> dump_addrs ptr n)).
Proof.
  intros Hp Hn Hs. unfold Dbg.kprint_mem_bin. rewrite dump_header_spec by lia. cbn [mbind outcome_bind].
  pose proof (bin_loop_spec (Z.to_nat n) m ptr (console_print (header_text ptr n) c) Hp ltac:(lia)) as E.
  rewrite Z2Nat.id in E by lia. rewrite E. cbn. by rewrite <- app_assoc.
Qed.

(** The hexadecimal dump prints addresses only: what it prints does not depend on
    the memory. *)
Theorem mem_hex_prints_no_bytes {C} `{ConsoleI C} (m m' : mem) (ptr n : Z) (c : C) :
  Dbg.kprint_mem_hex m ptr n c = Dbg.kprint_mem_hex m' ptr n c.
Proof.
  unfold Dbg.kprint_mem_hex. generalize (u64 (ptr + n - 1)), 0. revert c. induction (Z.to_nat n) as [|k IH]; intros c p l; [done|].
  cbn [Dbg.hex_loop].
  destruct (byte_text_spec 4 2 m p 16) as (t & -> & _); [lia|done|lia|lia|].
  destruct (byte_text_spec 4 2 m' p 16) as (t' & -> & _); [lia|done|lia|lia|].
  destruct (if (l =? 8) || (l =? 0) then _ else _) as [[l' c']|]; cbn [mbind outcome_bind]; [apply IH|done].
Qed.
