(* ===== verification/Kernel.v ===== *)
(** * Kernel: the reports of kutils/console.cpp and the self test of kernel.cpp

    [_start] ends its initialisation with a self test of the heap: eight blocks
    of 10 bytes and one of 5000, freed in an order that exercises the merging,
    with a report after each call. *)
From Stdlib Require Import String.
From S2P Require Import Prelude Memory Libc Printf Bitmap MMap PMem Paging PagingInit PagingProps Heap HeapSpec HeapInv HeapGrow HeapProps Machine CpuInfo.

Module Kernel.
Section Kernel.
Context {C : Type} `{ConsoleI C}.
Abbreviation K := (M (kst C)).

Definition tab : list Z := [9].

Definition kprint_info (msg : list Z) : K unit := fun s =>
  c ← Printf.kprint_info msg (k_con s); Done (tt, mkK (k_mem s) (k_pmem s) c).

Definition megabytes (n : Z) : Z := u64 (n * FRAME_SZ) / 1024 / 1024.

(** [kprint_pmem_info] *)
Definition kprint_pmem_info : K unit :=
  kprint_info (cs "physical memory info (provided by the UEFI Memory Map):");;
  p ← gets k_pmem;
  PM.kprintf (tab ++ cs " all: frames = %d, memory = %dMB (holes and MMIO included) " ++ NL)
    [VaU64 (frames p); VaU64 (megabytes (frames p))];;
  PM.kprintf (tab ++ cs " free: frames = %d, memory = %dMB " ++ NL)
    [VaU64 (free_frames p); VaU64 (megabytes (free_frames p))];;
  PM.kprintf (tab ++ cs " locked: frames = %d, memory = %dMB " ++ NL)
    [VaU64 (locked_frames p); VaU64 (megabytes (locked_frames p))].

(** [kprint_cpu_info]; the strings are printed up to their first NUL. *)
Fixpoint c_string (s : list Z) : list Z :=
  match s with [] => [] | c :: s' => if c =? 0 then [] else c :: c_string s' end.
Definition kprint_cpu_info (info : Info) : K unit :=
  kprint_info (cs "CPU info:");;
  PM.kprintf (tab ++ cs " - manufacturer:   %s " ++ NL) [VaStr (c_string (manufacturer info))];;
  PM.kprintf (tab ++ cs " - stepping id:    %d " ++ NL) [VaU64 (stepping_id info)];;
  PM.kprintf (tab ++ cs " - family id:      %d " ++ NL) [VaU64 (family_id info)];;
  PM.kprintf (tab ++ cs " - model id:       %d " ++ NL) [VaU64 (model_id info)];;
  PM.kprintf (tab ++ cs " - type:           %d " ++ NL) [VaU64 (cpu_type info)];;
  PM.kprintf (tab ++ cs " - brand:          %s " ++ NL) [VaStr (c_string (brand info))];;
  PM.kprintf (tab ++ cs " - logical cores:  %d " ++ NL) [VaU64 (logical_cores info)];;
  PM.kprintf (tab ++ cs " - physical cores: %d " ++ NL) [VaU64 (physical_cores info)];;
  PM.kprintf (tab ++ cs " - hyperthreading: %d " ++ NL) [VaU64 (b2z (hyperthreading info))].

(** [kprint_heap_info] *)
Definition kprint_heap_info (fuel : nat) (blocks : Z) : K unit :=
  stats ← Hp.get_heap_stats fuel blocks;
  PM.kprintf (cs "Heap blocks: all = %d, free = %d, allocated: %d" ++ NL)
    [VaU64 (all_blocks stats); VaU64 (free_blocks stats); VaU64 (allocated_blocks stats)].

(** A release and the report after it. *)
Definition free_report (fuel : nat) (blocks ptr : Z) (msg : list Z) : K unit :=
  Hp.free ptr;;
  PM.kprintf msg [];;
  kprint_heap_info fuel blocks.

(** The self test of the heap in [_start]; returns [ptr9]. *)
Definition heap_self_test (fuel : nat) (pml4 blocks : Z) : K Z :=
  ptr1 ← Hp.malloc fuel pml4 blocks 10;
  ptr2 ← Hp.malloc fuel pml4 blocks 10;
  ptr3 ← Hp.malloc fuel pml4 blocks 10;
  ptr4 ← Hp.malloc fuel pml4 blocks 10;
  ptr5 ← Hp.malloc fuel pml4 blocks 10;
  ptr6 ← Hp.malloc fuel pml4 blocks 10;
  ptr7 ← Hp.malloc fuel pml4 blocks 10;
  ptr8 ← Hp.malloc fuel pml4 blocks 10;
  ptr9 ← Hp.malloc fuel pml4 blocks 5000;
  PM.kprintf (cs "init: ") [];;
  kprint_heap_info fuel blocks;;
  free_report fuel blocks ptr2 (cs "ptr2: ");;
  free_report fuel blocks ptr3 (cs "ptr3: ");;
  free_report fuel blocks ptr8 (cs "ptr8: ");;
  free_report fuel blocks ptr6 (cs "ptr6: ");;
  free_report fuel blocks ptr4 (cs "ptr4: ");;
  free_report fuel blocks ptr1 (cs "ptr1: ");;
  free_report fuel blocks ptr5 (cs "ptr5: ");;
  free_report fuel blocks ptr7 (cs "ptr7: ");;
  Hp.free ptr9;;
  mret ptr9.

End Kernel.
End Kernel.

(** ** Reports *)
Section Reports.
Context {C : Type} `{ConsoleI C}.
Implicit Types s : kst C.

(** A heap whose list of blocks is [l]. *)
Definition has_blocks (b : Z) (l : list blk) s : Prop :=
  blocks_ok l /\ rep (k_mem s) 0 l 0 /\ hd_addr l 0 = b /\ l <> [].

(** A report leaves the blocks alone. *)
Lemma kprintf_blocks b l s str a out :
  Printf.format str a = Done out -> has_blocks b l s -> runs (PM.kprintf str a) s (fun _ => has_blocks b l).
Proof.
  intros E Hl. unfold PM.kprintf, Printf.kprintf. rewrite E. cbn [mbind outcome_bind].
  eexists _, _. split; [reflexivity|exact Hl].
Qed.

Lemma heap_info_format a f u : 0 <= a < 2 ^ 64 -> 0 <= f < 2 ^ 64 -> 0 <= u < 2 ^ 64 ->
  Printf.format (cs "Heap blocks: all = %d, free = %d, allocated: %d" ++ NL) [VaU64 a; VaU64 f; VaU64 u] =
    Done (cs "Heap blocks: all = " ++ numeral 10 a ++ cs ", free = " ++ numeral 10 f ++ cs ", allocated: " ++
          numeral 10 u ++ NL).
Proof.
  intros Ha Hf Hu. apply Printf.format_spec.
  - change (cs "Heap blocks: all = %d, free = %d, allocated: %d" ++ NL) with
      (cs "Heap blocks: all = " ++ 37 :: 100 :: cs ", free = " ++ 37 :: 100 :: cs ", allocated: " ++ 37 :: 100 :: NL).
    repeat (apply Printf.expand_num; [by repeat constructor|]). reflexivity.
  - by repeat constructor.
  - repeat constructor; cbn; lia.
  - cbn. lia.
  - rewrite !length_app. pose proof (length_numeral 10 a 20). pose proof (length_numeral 10 f 20).
    pose proof (length_numeral 10 u 20). cbn [length cs fmap list_fmap]. unfold Printf.BUF_SZ. cbn in *. lia.
Qed.

Lemma heap_info_blocks b l s fuel :
  has_blocks b l s -> (length l < fuel)%nat -> Z.of_nat (length l) < 2 ^ 63 ->
  runs (Kernel.kprint_heap_info fuel b) s (fun _ => has_blocks b l).
Proof.
  intros Hl Hf Hn. pose proof Hl as (Hok & Hrep & <- & _). unfold Kernel.kprint_heap_info, Hp.get_heap_stats.
  apply runs_bind. eapply runs_eq; [apply (stats_loop_spec s fuel 0 l 0 0 0); (done || lia || apply Hok)|].
  cbn beta. eapply kprintf_blocks; [|exact Hl]. cbn [all_blocks free_blocks allocated_blocks]. apply heap_info_format.
  - lia.
  - unfold n_free. pose proof (length_filter (fun b => b_free b = true) l). lia.
  - unfold ptrs. rewrite length_fmap. pose proof (length_filter (fun b => b_free b = false) l). lia.
Qed.

(** One release of the self test, with its report. *)
Lemma free_report_spec b l1 x l2 l' s fuel msg out :
  has_blocks b (l1 ++ x :: l2) s -> a_free l1 x l2 = Some l' -> hd_addr l' 0 = b -> l' <> [] ->
  Printf.format msg [] = Done out -> (length l' < fuel)%nat -> Z.of_nat (length l') < 2 ^ 63 ->
  runs (Kernel.free_report fuel b (b_addr x + HDR) msg) s (fun _ => has_blocks b l').
Proof.
  intros (Hok & Hrep & Hhd & Hne) Hfree Hhd' Hne' Hmsg Hf Hn. unfold Kernel.free_report. apply runs_bind.
  pose proof (free_spec s l1 x l2 Hok Hrep) as Hsp. rewrite Hfree in Hsp.
  eapply runs_mono; [exact Hsp|]. intros _ s1 [R O _ _ _]. apply runs_bind.
  eapply runs_mono; [apply (kprintf_blocks b l' s1 msg [] out Hmsg); by split_and!|].
  intros [] s2 Hs2. by apply heap_info_blocks.
Qed.
End Reports.

(** ** The self test of the heap *)
Section SelfTest.
Context {C : Type} `{ConsoleI C} (root : Z).
Implicit Types s : kst C.

(** A heap whose blocks lie in one page that only the heap uses. *)
Record page_heap (b : Z) (l : list blk) s : Prop := {
  ph_paging : paging_ok root s;
  ph_blocks : has_blocks b l s;
  ph_page : forall a, b <= a < b + 4096 -> private root s a;
  ph_inside : Forall (fun c => b <= b_addr c /\ b_end c <= b + 4096) l
}.

(** The allocator of frames as before. *)
Definition same_frames s s' : Prop :=
  k_pmem s' = k_pmem s /\ avail s' = avail s /\
  forall k, 0 <= k < frames (k_pmem s) -> frame_locked s' k = frame_locked s k.

Lemma same_frames_trans s1 s2 s3 : same_frames s1 s2 -> same_frames s2 s3 -> same_frames s1 s3.
Proof.
  intros (P1 & A1 & F1) (P2 & A2 & F2). split_and!; [congruence|congruence|].
  intros k Hk. rewrite F2, F1 by (done || by rewrite P1). done.
Qed.

Lemma malloc_in_page b l l' n r s fuel :
  page_heap b l s -> (length l <= fuel)%nat -> 0 < n -> a_malloc l n = Some (r, l') ->
  hd_addr l' 0 = b -> l' <> [] -> Forall (fun c => b <= b_addr c /\ b_end c <= b + 4096) l' ->
  runs (Hp.malloc fuel root b n) s (fun r' s' => r' = r /\ page_heap b l' s' /\ same_frames s s').
Proof.
  intros [Hpg (Hok & Hrep & <- & Hne) Hpr Hin] Hf Hn Ha Hhd Hne' Hin'.
  eapply runs_mono; [by apply malloc_spec|]. intros r' s' [-> [R O F P E]]. split; [done|].
  assert (Hout : forall a, ~ private root s a -> mget (k_mem s') a = mget (k_mem s) a).
  { intros a Hna. apply F. intros c Hc Hh. apply Hna, Hpr.
    assert (Hb : (hd_addr l 0 <= b_addr c /\ b_end c <= hd_addr l 0 + 4096) /\ blk_ok c).
    { rewrite Forall_forall in Hin, Hin'. destruct Hc as [Hc|Hc].
      - split; [by apply Hin|by apply (blocks_ok_elem l)].
      - split; [|by apply (blocks_ok_elem l')]. rewrite <- Hhd. rewrite <- Hhd in Hin'. by apply Hin'. }
    destruct Hb as [Hb (_ & ? & _)]. unfold in_hdr, b_end, HDR in *. lia. }
  destruct (private_write root s s' Hpg P Hout) as [Hk Hav].
  destruct (paging_bits_agree s s' (pg_pmem _ _ Hpg) P) as (_ & Hbits & _).
  { intros a Ha'. apply Hout. intros (_ & _ & Hnb & _). done. }
  split; [|done]. split; [by eapply keep_ok|by split_and!| |done].
  intros a Ha'. by apply (keep_private root s s'), Hpr.
Qed.

(** The blocks of the first eight requests, and the rest of the page. *)
Definition cell (b i : Z) : blk := mkBlk (b + 42 * i) 10 false.
Definition rest (b i : Z) : blk := mkBlk (b + 42 * i) (4064 - 42 * i) true.
Definition cells (b k : Z) : list blk := (cell b <$> seqZ 0 k) ++ [rest b k].

Lemma a_malloc_last l1 x n : Forall (fun c => b_free c = false) l1 -> fits n x ->
  a_malloc (l1 ++ [x]) n = Some (b_addr x + HDR, l1 ++ a_take x n).
Proof.
  intros H1 Hx. unfold a_malloc. rewrite a_find_none_app; [|rewrite app_nil_r|done].
  - by rewrite take_app_length, drop_ge, app_nil_r by (rewrite length_app; cbn; lia).
  - apply list_find_None. eapply Forall_impl; [exact H1|]. intros c Hc [Hc' _]. congruence.
Qed.

Lemma a_malloc_cells b k : 0 <= k < 8 -> a_malloc (cells b k) 10 = Some (b + 42 * k + HDR, cells b (k + 1)).
Proof.
  intros Hk. unfold cells. rewrite a_malloc_last.
  - f_equal. f_equal. rewrite seqZ_app, fmap_app, <- app_assoc by lia. f_equal.
    rewrite (seqZ_cons _ 1), seqZ_nil by lia.
    unfold a_take, rest, cell, HDR. cbn [b_bytes b_addr]. rewrite decide_False by lia.
    cbn [fmap list_fmap app]. f_equal. f_equal. f_equal; lia.
  - apply Forall_fmap, Forall_true. done.
  - split; [done|]. cbn. lia.
Qed.

Lemma cells_inside b k : 0 <= k <= 8 -> Forall (fun c => b <= b_addr c /\ b_end c <= b + 4096) (cells b k).
Proof.
  intros Hk. apply Forall_app. split.
  - apply Forall_fmap, Forall_forall. intros i Hi%elem_of_seqZ. unfold compose, cell, b_end, HDR. cbn. lia.
  - apply Forall_singleton. unfold rest, b_end, HDR. cbn. lia.
Qed.

Lemma malloc_cell b k s fuel : 0 <= k < 8 -> (9 <= fuel)%nat -> page_heap b (cells b k) s ->
  runs (Hp.malloc fuel root b 10) s (fun r s' =>
    r = b_addr (cell b k) + HDR /\ page_heap b (cells b (k + 1)) s' /\ same_frames s s').
Proof.
  intros Hk Hf Hph. apply (malloc_in_page b (cells b k)); [done| |lia|by apply a_malloc_cells|..].
  - unfold cells. rewrite length_app, length_fmap, length_seqZ. cbn. lia.
  - unfold cells. rewrite (seqZ_cons 0) by lia. cbn. lia.
  - unfold cells. intros E%(f_equal length). rewrite length_app in E. cbn in E. lia.
  - apply cells_inside. lia.
Qed.

(** The ninth request does not fit the page: its block of two new pages goes
    behind the first block, as both that block and the next lie below it. *)
Definition big (st : Z) : blk := mkBlk (st * 4096) 5000 false.
Definition spare (st : Z) : blk := mkBlk (st * 4096 + HDR + 5000) 3128 true.
Definition gap (b i n : Z) : blk := mkBlk (b + 42 * i) n true.
Definition grown_cells (b st : Z) : list blk :=
  [cell b 0; big st; spare st; cell b 1; cell b 2; cell b 3; cell b 4; cell b 5; cell b 6; cell b 7; rest b 8].

Lemma malloc_big b b0 s fuel : (10 <= fuel)%nat -> page_heap b (cells b 8) s -> b mod 4096 = 0 ->
  b / 4096 <= last_free_idx (k_pmem s) -> spare_run s b0 2 -> 8 <= avail s ->
  runs (Hp.malloc fuel root b 5000) s (fun r s' => exists st, b + 4096 <= st * 4096 /\
    r = b_addr (big st) + HDR /\ has_blocks b (grown_cells b st) s').
Proof.
  intros Hf [Hpg (Hok & Hrep & Hhd & Hne) Hpr Hin] Hb Hlast Hrun Hav.
  destruct (malloc_grown_spec root s fuel (cells b 8) 5000 b0) as (st & x & y & Hst & _ & El & Hcl & Hr);
    [done|done|done|done|change (length (cells b 8)) with 9%nat; lia| |by vm_compute|by vm_compute|exact Hrun|exact Hav|].
  { intros c a Hc Ha. rewrite Forall_forall in Hin. destruct (Hin c Hc). apply Hpr. unfold in_blk in Ha. lia. }
  assert (Hbig : b + 4096 <= st * 4096).
  { destruct Hst as (S1 & _ & _ & S2). destruct (Hpr b ltac:(lia)) as (_ & Hl & _).
    change (5000 / 4096 + 1) with 2 in S2.
    assert (st <> b / 4096) by (intros ->; rewrite S2 in Hl by lia; done). zdm. }
  assert (Hxy : x = [cell b 0] /\ y = cell b 1 :: cell b 2 :: cell b 3 :: cell b 4 :: cell b 5 :: cell b 6 ::
    cell b 7 :: [rest b 8]).
  { change (cells b 8) with (cell b 0 :: cell b 1 :: cell b 2 :: cell b 3 :: cell b 4 :: cell b 5 :: cell b 6 ::
      cell b 7 :: [rest b 8]) in Hcl. cbn [a_close] in Hcl.
    rewrite (proj2 (Z.ltb_lt (b_addr (cell b 0)) (st * 4096))) in Hcl by (cbn; lia).
    rewrite (proj2 (Z.ltb_lt (b_addr (cell b 1)) (st * 4096))) in Hcl by (cbn; lia).
    cbn [andb] in Hcl. by injection Hcl. }
  destruct Hxy as [-> ->]. rewrite Hhd in Hr. eapply runs_mono; [exact Hr|].
  intros r s' (-> & R & O & _). exists st. split; [done|]. split; [done|]. by split_and!.
Qed.

(** The merges of the releases. *)
Ltac merges := unfold a_free, a_merge_next, a_merge_prev, a_merge_prev_null, a_set, joinable, contiguous, a_join, b_end,
  cell, gap, rest, big, spare, HDR; cbn [b_addr b_bytes b_free last removelast app];
  repeat first [rewrite decide_True by (split; [done|lia]) | rewrite decide_False by (intros [? ?]; first [done|lia])];
  cbn [b_addr b_bytes b_free last removelast app];
  repeat first [rewrite decide_True by (split; [done|lia]) | rewrite decide_False by (intros [? ?]; first [done|lia])].

Section Releases.
Context (b st : Z) (Hst : b + 4096 <= st * 4096).

Lemma release2 : a_free [cell b 0; big st; spare st] (cell b 1) [cell b 2; cell b 3; cell b 4; cell b 5; cell b 6; cell b 7; rest b 8] =
  Some [cell b 0; big st; spare st; gap b 1 10; cell b 2; cell b 3; cell b 4; cell b 5; cell b 6; cell b 7; rest b 8].
Proof. merges. reflexivity. Qed.
Lemma release3 : a_free [cell b 0; big st; spare st; gap b 1 10] (cell b 2) [cell b 3; cell b 4; cell b 5; cell b 6; cell b 7; rest b 8] =
  Some [cell b 0; big st; spare st; gap b 1 52; cell b 3; cell b 4; cell b 5; cell b 6; cell b 7; rest b 8].
Proof. merges. reflexivity. Qed.
Lemma release8 : a_free [cell b 0; big st; spare st; gap b 1 52; cell b 3; cell b 4; cell b 5; cell b 6] (cell b 7) [rest b 8] =
  Some [cell b 0; big st; spare st; gap b 1 52; cell b 3; cell b 4; cell b 5; cell b 6; gap b 7 3770].
Proof. merges. reflexivity. Qed.
Lemma release6 : a_free [cell b 0; big st; spare st; gap b 1 52; cell b 3; cell b 4] (cell b 5) [cell b 6; gap b 7 3770] =
  Some [cell b 0; big st; spare st; gap b 1 52; cell b 3; cell b 4; gap b 5 10; cell b 6; gap b 7 3770].
Proof. merges. reflexivity. Qed.
Lemma release4 : a_free [cell b 0; big st; spare st; gap b 1 52] (cell b 3) [cell b 4; gap b 5 10; cell b 6; gap b 7 3770] =
  Some [cell b 0; big st; spare st; gap b 1 94; cell b 4; gap b 5 10; cell b 6; gap b 7 3770].
Proof. merges. reflexivity. Qed.
Lemma release1 : a_free [] (cell b 0) [big st; spare st; gap b 1 94; cell b 4; gap b 5 10; cell b 6; gap b 7 3770] =
  Some [gap b 0 10; big st; spare st; gap b 1 94; cell b 4; gap b 5 10; cell b 6; gap b 7 3770].
Proof. merges. reflexivity. Qed.
Lemma release5 : a_free [gap b 0 10; big st; spare st; gap b 1 94] (cell b 4) [gap b 5 10; cell b 6; gap b 7 3770] =
  Some [gap b 0 10; big st; spare st; gap b 1 178; cell b 6; gap b 7 3770].
Proof. merges. reflexivity. Qed.
(** The last one merges with the block behind it, which is the last of the list,
    and with the one before it. *)
Lemma release7 : a_free [gap b 0 10; big st; spare st; gap b 1 178] (cell b 6) [gap b 7 3770] = None.
Proof. merges. reflexivity. Qed.
End Releases.

(** A release of the self test before the code [k], which faults. *)
Lemma free_report_bind (b : Z) l1 x l2 l' s fuel msg out {A} (k : M (kst C) A) e :
  has_blocks b (l1 ++ x :: l2) s -> a_free l1 x l2 = Some l' -> hd_addr l' 0 = b -> l' <> [] ->
  Printf.format msg [] = Done out -> (length l' < fuel)%nat -> Z.of_nat (length l') < 2 ^ 63 ->
  (forall s', has_blocks b l' s' -> k s' = Fail e) ->
  (Kernel.free_report fuel b (b_addr x + HDR) msg;; k) s = Fail e.
Proof.
  intros Hl Hf Hhd Hne Hm Hfu Hn Hk. apply runs_bind_fail.
  eapply runs_mono; [by apply (free_report_spec b l1 x l2 l' s fuel msg out)|]. intros [] s' Hs'. by apply Hk.
Qed.

(** The side conditions of a release. *)
Ltac release_side := first [done | by vm_compute | cbn; lia].


Lemma self_test_releases b st s fuel : (12 <= fuel)%nat -> b + 4096 <= st * 4096 ->
  has_blocks b (grown_cells b st) s ->
  (Kernel.free_report fuel b (b_addr (cell b 1) + HDR) (cs "ptr2: ");;
   Kernel.free_report fuel b (b_addr (cell b 2) + HDR) (cs "ptr3: ");;
   Kernel.free_report fuel b (b_addr (cell b 7) + HDR) (cs "ptr8: ");;
   Kernel.free_report fuel b (b_addr (cell b 5) + HDR) (cs "ptr6: ");;
   Kernel.free_report fuel b (b_addr (cell b 3) + HDR) (cs "ptr4: ");;
   Kernel.free_report fuel b (b_addr (cell b 0) + HDR) (cs "ptr1: ");;
   Kernel.free_report fuel b (b_addr (cell b 4) + HDR) (cs "ptr5: ");;
   Kernel.free_report fuel b (b_addr (cell b 6) + HDR) (cs "ptr7: ");;
   Hp.free (b_addr (big st) + HDR);;
   mret (b_addr (big st) + HDR)) s = Fail NullDeref.
Proof.
  intros Hf Hst Hs.
  assert (Hhd : forall l, hd_addr (cell b 0 :: l) 0 = b) by (intros; cbn; lia).
  assert (Hhd' : forall l, hd_addr (gap b 0 10 :: l) 0 = b) by (intros; cbn; lia).
  eapply free_report_bind with (2 := release2 b st Hst); [exact Hs|apply Hhd|..]; [release_side ..|intros s2 Hs2].
  eapply free_report_bind with (2 := release3 b st); [exact Hs2|apply Hhd|..]; [release_side ..|intros s3 Hs3].
  eapply free_report_bind with (2 := release8 b st); [exact Hs3|apply Hhd|..]; [release_side ..|intros s8 Hs8].
  eapply free_report_bind with (2 := release6 b st); [exact Hs8|apply Hhd|..]; [release_side ..|intros s6 Hs6].
  eapply free_report_bind with (2 := release4 b st); [exact Hs6|apply Hhd|..]; [release_side ..|intros s4 Hs4].
  eapply free_report_bind with (2 := release1 b st); [exact Hs4|apply Hhd'|..]; [release_side ..|intros s1 Hs1].
  eapply free_report_bind with (2 := release5 b st); [exact Hs1|apply Hhd'|..]; [release_side ..|intros s5 Hs5].
  apply bind_fail. unfold Kernel.free_report. apply bind_fail.
  pose proof (free_spec s5 [gap b 0 10; big st; spare st; gap b 1 178] (cell b 6) [gap b 7 3770]) as Hsp.
  rewrite (release7 b st) in Hsp. destruct Hs5 as (Hok & Hrep & _). by apply Hsp.
Qed.
(** A request of the self test before the code [k], which faults; [s0] is the
    state in which the self test starts. *)
Lemma malloc_cell_bind b i s0 s fuel {A} (k : Z -> M (kst C) A) e :
  (9 <= fuel)%nat -> 0 <= i < 8 -> page_heap b (cells b i) s /\ same_frames s0 s ->
  (forall s', page_heap b (cells b (i + 1)) s' /\ same_frames s0 s' -> k (b_addr (cell b i) + HDR) s' = Fail e) ->
  (ptr ← Hp.malloc fuel root b 10; k ptr) s = Fail e.
Proof.
  intros Hf Hi [Hs Hsf] Hk. apply runs_bind_fail. eapply runs_mono; [by apply (malloc_cell b i)|].
  intros r s' (-> & Hs' & Hsf'). apply Hk. split; [done|]. by eapply same_frames_trans.
Qed.

(** The self test of a heap of one page. *)
Lemma self_test_of_page b b0 s fuel : (12 <= fuel)%nat -> page_heap b (cells b 0) s -> b mod 4096 = 0 ->
  b / 4096 <= last_free_idx (k_pmem s) -> spare_run s b0 2 -> 8 <= avail s ->
  Kernel.heap_self_test fuel root b s = Fail NullDeref.
Proof.
  intros Hf Hs Hb Hlast Hrun Hav. unfold Kernel.heap_self_test.
  assert (Hf9 : (9 <= fuel)%nat) by lia.
  assert (H0 : page_heap b (cells b 0) s /\ same_frames s s) by (by split_and!).
  eapply (malloc_cell_bind b 0 s _ _ _ _ Hf9); [lia|exact H0|intros s1 H1].
  eapply (malloc_cell_bind b 1 s _ _ _ _ Hf9); [lia|exact H1|intros s2 H2].
  eapply (malloc_cell_bind b 2 s _ _ _ _ Hf9); [lia|exact H2|intros s3 H3].
  eapply (malloc_cell_bind b 3 s _ _ _ _ Hf9); [lia|exact H3|intros s4 H4].
  eapply (malloc_cell_bind b 4 s _ _ _ _ Hf9); [lia|exact H4|intros s5 H5].
  eapply (malloc_cell_bind b 5 s _ _ _ _ Hf9); [lia|exact H5|intros s6 H6].
  eapply (malloc_cell_bind b 6 s _ _ _ _ Hf9); [lia|exact H6|intros s7 H7].
  eapply (malloc_cell_bind b 7 s _ _ _ _ Hf9); [lia|exact H7|intros s8 [H8 (P & A & F)]].
  apply runs_bind_fail. eapply runs_mono.
  { apply (malloc_big b b0 s8); [lia|exact H8|done|by rewrite P| |by rewrite A].
    destruct Hrun as [(R1 & R2 & R3 & R4) R5].
    split; [split_and!; [by rewrite P|done|by rewrite P|]|by rewrite (horizon_bits s s8)].
    intros k Hk. rewrite F by lia. by apply R4. }
  intros r s9 (st & Hst & -> & H9). apply runs_bind_fail.
  eapply runs_mono; [eapply kprintf_blocks; [by vm_compute|exact H9]|]. intros [] s10 H10. apply runs_bind_fail.
  eapply runs_mono; [apply (heap_info_blocks b _ s10 fuel H10); cbn; lia|]. intros [] s11 H11.
  by apply self_test_releases.
Qed.

(** The self test of the heap that the constructor leaves. *)
Lemma self_test_of_new_heap b b0 s fuel : (12 <= fuel)%nat -> paging_ok root s ->
  heap_inv b 4096 [mkBlk b 4064 true] [] s -> heap_private root [mkBlk b 4064 true] s -> b / 4096 <= last_free_idx (k_pmem s) ->
  b mod 4096 = 0 -> 8 <= avail s -> spare_run s b0 2 -> Kernel.heap_self_test fuel root b s = Fail NullDeref.
Proof.
  intros Hf Hpg Hi Hpr Hlast Hb Hav Hb0.
  assert (Hone : cells b 0 = [mkBlk b 4064 true]).
  { unfold cells, rest. cbn [seqZ]. rewrite (seqZ_nil 0 0) by lia. cbn [fmap list_fmap app]. do 2 f_equal; lia. }
  eapply (self_test_of_page b b0); [done| |done|done|exact Hb0|lia].
  rewrite Hone. destruct Hi as [Hok Hrep Hhd Hne _ _ _ _]. split; [done|by split_and!| |].
  - intros a Ha. apply (Hpr (mkBlk b 4064 true)); [by apply list_elem_of_singleton|].
    unfold in_blk, b_end, HDR. cbn. lia.
  - apply Forall_singleton. unfold b_end, HDR. cbn. lia.
Qed.

(** The self test at the end of [_start], on the heap that the constructor
    makes (with twelve frames to hand out and two of them adjacent, for the
    request of 5000 bytes), does not come to its end: its eighth release, of
    [ptr7], merges the block with the last block of the list, and the merge with
    the block before it then dereferences the null [next] pointer. *)
Theorem kernel_self_test_null_dereference s fuel :
  paging_ok root s -> 12 <= avail s -> (12 <= fuel)%nat ->
  (forall b s1, Hp.construct root s = Done (b, s1) -> exists b0, spare_run s1 b0 2) ->
  (blocks ← Hp.construct root; Kernel.heap_self_test fuel root blocks) s = Fail NullDeref.
Proof.
  intros Hpg Hav Hf Hrun. destruct (heap_construct_spec root s) as (b & s1 & E & Hpg1 & Hi & Hpr & Hav1 & Hlast & Hb & _);
    [done|lia|]. rewrite (bind_done _ _ _ _ _ E). destruct (Hrun b s1 E) as [b0 Hb0].
  apply (self_test_of_new_heap b b0); try done. lia.
Qed.
End SelfTest.

Lemma kernel_self_test_null_dereference_witness :
  (blocks ← Hp.construct psample_root; Kernel.heap_self_test 12 psample_root blocks) psample0 = Fail NullDeref.
Proof.
  apply (kernel_self_test_null_dereference psample_root psample0 12);
    [apply psample0_ok|rewrite (proj2 psample0_ok); lia|lia|].
  intros b s1 E. rewrite hgrow_run in E. apply done_inj in E as [_ <-]. exists 20. exact hgrow_spare_run.
Defined.
