(* ===== verification/BootMem.v ===== *)
(** * BootMem: bringing up the memory of the kernel

    The frame allocator, the page tables and the heap are constructed one after
    the other, each on the state that the one before leaves.  The allocator does
    not lock the frames of its own bitmap, so the page tables and the heap are
    safe as long as the frames below the bitmap suffice. *)
From S2P Require Import Prelude Memory Libc Printf Bitmap MMap PMem Paging PagingInit PagingProps Heap HeapSpec HeapInv HeapGrow.

Section Free.
Context (e : kenv) (m : mem).

(** The frames that the constructor of the allocator leaves free, as a test. *)
Definition coversb (i k : Z) : bool :=
  MM.is_usable_memory (init_desc e m i) && (d_paddr (init_desc e m i) / FRAME_SZ <=? k) &&
  (k <? d_paddr (init_desc e m i) / FRAME_SZ + d_pages (init_desc e m i)).
Definition relockedb (k : Z) : bool :=
  (k =? 0) || (k =? e_stack e / FRAME_SZ) ||
  ((e_bitmap_self e / FRAME_SZ <=? k) && (k <? e_bitmap_self e / FRAME_SZ + init_size e m / FRAME_SZ)).
Definition freeb (k : Z) : bool :=
  existsb (fun i => coversb i k) (seqZ 0 (mm_entries (e_mmap e))) && negb (relockedb k).

Lemma freeb_spec k :
  freeb k = true <-> covered_below e m (mm_entries (e_mmap e)) k /\ ~ relocked e m k.
Proof.
  unfold freeb, covered_below, covers, relocked. rewrite andb_true_iff, negb_true_iff. f_equiv.
  - rewrite existsb_exists. unfold coversb. f_equiv. intros i.
    rewrite !andb_true_iff, Z.leb_le, Z.ltb_lt, <- list_elem_of_In, elem_of_seqZ. intuition lia.
  - unfold relockedb. rewrite !orb_false_iff, !Z.eqb_neq, andb_false_iff, Z.leb_gt, Z.ltb_ge. lia.
Qed.

(** The first frame of the bitmap, and the free frames below it. *)
Definition bitmap_frame : Z := snd (init_seg e m) / FRAME_SZ.
Definition low_free : Z :=
  count (fun k => (k <? bitmap_frame) && freeb k) (Z.to_nat (init_frames e m)).

(** What the machine must offer: a memory map of up to 4 GiB, the bitmap inside
    the memory and in usable frames, the PML4 and the memory map in memory that
    the allocator does not hand out, regions that can be mapped, and enough frames
    below the bitmap. *)
Record memory_ok (root : Z) (rg : Pg.regions) : Prop := {
  mo_boot : boot_ok e m;
  mo_frames : init_frames e m <= 2 ^ 20;
  mo_bitmap : 0 < bitmap_frame /\ (snd (init_seg e m) + init_size e m - 1) / FRAME_SZ < init_frames e m /\
    freeb bitmap_frame = true;
  mo_align : root mod 4096 = 0;
  mo_root : 0 < root / 4096 < init_frames e m /\ freeb (root / 4096) = false;
  mo_root_apart : root + 4096 <= snd (init_seg e m) \/ snd (init_seg e m) + init_size e m <= root;
  mo_map : forall i a, 0 <= i < mm_entries (e_mmap e) ->
    MM.get_desc (e_mmap e) i <= a < MM.get_desc (e_mmap e) i + 40 ->
    0 <= a / 4096 < init_frames e m /\ freeb (a / 4096) = false /\ ~ in_page root a;
  mo_regions : forall i, 0 <= i < mm_entries (e_mmap e) ->
    region_ok (map_addr m (e_mmap e) i) (map_bytes m (e_mmap e) i);
  mo_devices : Forall (fun '(a, n) => region_ok a n) (device_regions rg);
  mo_enough : map_need m (e_mmap e) (Z.to_nat (mm_entries (e_mmap e))) + need (device_regions rg) + 7 <= low_free
}.

(** Bytes that no step of the start-up may touch: outside free frames, the
    bitmap and the PML4. *)
Definition fixed (root a : Z) : Prop :=
  0 <= a / 4096 < init_frames e m /\ freeb (a / 4096) = false /\
  ~ (snd (init_seg e m) <= a < snd (init_seg e m) + init_size e m) /\ ~ in_page root a.
End Free.

Section Built.
Context {C : Type} `{ConsoleI C} (e : kenv) (m : mem) (root : Z) (rg : Pg.regions).
Hypothesis Hmo : memory_ok e m root rg.
Implicit Types s : kst C.

(** The allocator after its constructor, whatever else was written since. *)
Record built s : Prop := {
  bt_fresh : fresh_root root s;
  bt_frames : frames (k_pmem s) = init_frames e m;
  bt_avail : avail s = low_free e m;
  bt_quiet : forall a, fixed e m root a -> quiet root s a
}.

Let P k := covered_below e m (mm_entries (e_mmap e)) k /\ ~ relocked e m k.

Lemma building_locked s k : building e m P s -> 0 <= k < init_frames e m -> frame_locked s k = negb (freeb e m k).
Proof.
  intros HB Hk. pose proof (bd_bits _ _ _ _ HB k Hk) as Hb. unfold P in Hb. rewrite <- freeb_spec in Hb.
  destruct (frame_locked s k), (freeb e m k); intuition congruence.
Qed.

(** The null page is never handed out. *)
Lemma null_page_fixed a : 0 <= a < 4096 -> fixed e m root a.
Proof.
  intros Ha. destruct (mo_bitmap _ _ _ _ Hmo) as (H0 & _). pose proof (mo_root _ _ _ _ Hmo) as [H3 _].
  unfold bitmap_frame, FRAME_SZ in H0. pose proof (boot_frames _ _ (mo_boot _ _ _ _ Hmo)).
  assert (E : a / 4096 = 0) by zdm. unfold fixed. rewrite E. split_and!; try lia.
  - unfold freeb. by rewrite andb_false_r.
  - zdm.
  - unfold in_page, PAGE_SZ, FRAME_SZ. zdm.
Qed.

Lemma building_horizon s : building e m P s -> horizon s = bitmap_frame e m.
Proof.
  intros HB. destruct (mo_bitmap _ _ _ _ Hmo) as (H0 & H1 & H2).
  assert (Hle : bitmap_frame e m < init_frames e m).
  { unfold bitmap_frame, FRAME_SZ in *. pose proof (boot_frames _ _ (mo_boot _ _ _ _ Hmo)).
    unfold init_size in H1. zdm. }
  unfold horizon. rewrite (bd_bitmap _ _ _ _ HB), (bd_frames _ _ _ _ HB). simpl bm_buf. fold (bitmap_frame e m).
  rewrite (building_locked s _ HB), H2 by lia.
  rewrite (proj2 (Z.leb_le 0 _)), (proj2 (Z.ltb_lt _ (init_frames e m))) by lia. done.
Qed.

Lemma building_built s : building e m P s -> built s.
Proof.
  intros HB. pose proof (building_horizon s HB) as Hh. pose proof HB as [Hok Hf Hb Hl _ _].
  destruct (mo_bitmap _ _ _ _ Hmo) as (H0 & H1 & H2). pose proof (mo_root _ _ _ _ Hmo) as [H3 H4].
  pose proof (boot_frames _ _ (mo_boot _ _ _ _ Hmo)).
  assert (Hz : freeb e m 0 = false) by (unfold freeb; by rewrite andb_false_r).
  assert (Hbuf : forall a, in_buf (bitmap (k_pmem s)) a <-> snd (init_seg e m) <= a < snd (init_seg e m) + init_size e m).
  { intros a. rewrite Hb. done. }
  split; [split|..]; rewrite ?Hf; try done.
  - rewrite (building_locked s 0 HB), Hz by lia. done.
  - apply (mo_frames _ _ _ _ Hmo).
  - intros a Ha%Hbuf. rewrite Hh. unfold bitmap_frame, FRAME_SZ in *. split; [zdm|right; zdm].
  - apply (mo_align _ _ _ _ Hmo).
  - rewrite (building_locked s _ HB), H4 by lia. done.
  - intros a Ha Hin%Hbuf. pose proof (mo_root_apart _ _ _ _ Hmo). unfold in_page, PAGE_SZ, FRAME_SZ in Ha. lia.
  - unfold avail, low_free. rewrite Hf, Hh, Hl. apply count_ext. intros k Hk.
    rewrite (building_locked s k HB), negb_involutive by lia. by rewrite (proj2 (Z.leb_le 0 k)) by lia.
  - intros a (Q1 & Q2 & Q3 & Q4). split; [by rewrite Hf|]. split; [by rewrite (building_locked s _ HB), Q2|].
    split; [by rewrite Hbuf|done].
Qed.

(** Writes outside the bitmap, and output, leave it so. *)
Lemma built_write s s' :
  built s -> k_pmem s' = k_pmem s -> agree (in_buf (bitmap (k_pmem s))) (k_mem s') (k_mem s) -> built s'.
Proof.
  intros [[F1 F2 F3 F4 F5 [F6 F7] F8] Hf Hav Hq] Hp Hm.
  destruct (paging_bits_agree s s' F1 Hp Hm) as (Hok & Hbits & Hav'). pose proof (horizon_bits s s' Hp Hbits) as Hh.
  pose proof (ok_frames _ F1). split; [split|..]; rewrite ?Hp, ?Hh; try done.
  - by rewrite Hbits by lia.
  - intros a Ha. destruct (F4 a Ha). by rewrite Hbits.
  - by rewrite Hbits by lia.
  - congruence.
  - intros a Ha. destruct (Hq a Ha) as (Q1 & Q2 & Q3 & Q4). unfold quiet. rewrite Hp. split_and!; try done; try lia.
    by rewrite Hbits.
Qed.

Lemma pmem_built s : k_mem s = m -> runs (PM.construct e) s (fun _ s' => built s' /\
    forall a, ~ (snd (init_seg e m) <= a < snd (init_seg e m) + init_size e m) -> mget (k_mem s') a = mget m a).
Proof.
  intros Hm. eapply runs_mono; [apply (construct_spec e m (mo_boot _ _ _ _ Hmo) s Hm)|].
  - destruct (mo_bitmap _ _ _ _ Hmo) as (H0 & H1 & H2). exists (bitmap_frame e m). split; [|by apply freeb_spec].
    unfold bitmap_frame, FRAME_SZ, init_size in *. pose proof (boot_frames _ _ (mo_boot _ _ _ _ Hmo)). zdm.
  - intros [] s' HB. split; [by apply building_built|apply (bd_mem _ _ _ _ HB)].
Qed.

(** The page tables on top of it. *)
Lemma paging_built s regs :
  built s -> (forall i a, 0 <= i < mm_entries (e_mmap e) ->
    MM.get_desc (e_mmap e) i <= a < MM.get_desc (e_mmap e) i + 40 -> mget (k_mem s) a = mget m a) ->
  runs (Pg.construct root (e_mmap e) rg regs) s (fun regs' s' =>
    paging_ok root s' /\ 4 <= avail s' /\
    Pg.cr3 regs' = root /\ Z.testbit (Pg.cr0 regs') 31 = true /\ Z.testbit (Pg.cr4 regs') 5 = true /\
    Z.testbit (Pg.efer regs') 8 = true /\ k_con s' = k_con s /\
    (forall i, 0 <= i < mm_entries (e_mmap e) ->
       identity_mapped root s' (map_addr m (e_mmap e) i) (id_pages (map_bytes m (e_mmap e) i))) /\
    (forall a n, (a, n) ∈ device_regions rg -> identity_mapped root s' a (id_pages n)) /\
    (forall a, fixed e m root a -> private root s' a /\ (a <> 0x999 -> mget (k_mem s') a = mget (k_mem s) a))).
Proof.
  intros Hb Hm. pose proof (boot_entries _ _ (mo_boot _ _ _ _ Hmo)) as He. pose proof (bt_avail _ Hb) as Hav.
  assert (Hd : forall i, 0 <= i < mm_entries (e_mmap e) -> MM.desc (k_mem s) (e_mmap e) i = MM.desc m (e_mmap e) i).
  { intros i Hi. apply desc_agree. intros a Ha. by apply (Hm i). }
  assert (Ha : forall i, 0 <= i < mm_entries (e_mmap e) ->
    map_addr (k_mem s) (e_mmap e) i = map_addr m (e_mmap e) i /\ map_bytes (k_mem s) (e_mmap e) i = map_bytes m (e_mmap e) i).
  { intros i Hi. unfold map_addr, map_bytes. by rewrite Hd. }
  assert (Hn : forall k, Z.of_nat k <= mm_entries (e_mmap e) ->
    map_need (k_mem s) (e_mmap e) k = map_need m (e_mmap e) k).
  { induction k as [|k IH]; intros Hk; [done|]. cbn [map_need]. rewrite IH by lia. by destruct (Ha (Z.of_nat k)) as [_ ->]; [lia|]. }
  pose proof (mo_enough _ _ _ _ Hmo) as Hen.
  eapply runs_mono; [apply (construct_paging_spec root s (e_mmap e) rg regs)|]; try done.
  - apply Hb.
  - lia.
  - apply (bt_quiet _ Hb), null_page_fixed. lia.
  - intros i a Hi Hin. apply (bt_quiet _ Hb). destruct (mo_map _ _ _ _ Hmo i a Hi Hin) as (? & ? & ?).
    split_and!; try done; try lia. by apply (boot_map _ _ (mo_boot _ _ _ _ Hmo) i a).
  - intros i Hi. destruct (Ha i Hi) as [-> ->]. by apply (mo_regions _ _ _ _ Hmo).
  - apply (mo_devices _ _ _ _ Hmo).
  - rewrite Hn by lia. lia.
  - intros regs' s' (R1 & R2 & R3 & R4 & R5 & R6 & R7 & R8 & R9 & R10). rewrite Hn in R9 by lia.
    split_and!; try done; try lia.
    + intros i Hi. destruct (Ha i Hi) as [<- <-]. by apply R7.
    + intros a Hf. by apply R10, (bt_quiet _ Hb).
Qed.
End Built.
