(* ===== verification/Boot.v ===== *)
(** * Boot: the entry point of the kernel, kernel.cpp

    [_start] makes the objects of the kernel one after the other, on its own
    stack, from what the bootloader hands over.  Its state is the state of all the
    components: memory, frame allocator and console, the keyboard, the CPU's
    registers and the devices. *)
From Stdlib Require Import String.
From S2P Require Import Prelude Memory Libc Printf Bitmap MMap PMem Paging PagingInit PagingProps Heap HeapSpec HeapInv HeapGrow HeapProps Framebuffer Console Machine Sim Keyboard Acpi Apic Hpet Descriptors CpuInfo Kernel.

(** [pic::disable], pic/pic.asm: both controllers are masked. *)
Module Pic.
Definition disable {D} `{Machine D} : M D unit := Cpu.outb 0xa1 0xff;; Cpu.outb 0x21 0xff.
End Pic.

(** The addresses that the linker and the stack of [_start] fix, and what the
    registers and uninitialised locals hold at the start. *)
Record image : Type := mkImage {
  im_pml4 : Z;                    (** [paging.PML4] *)
  im_bitmap : Z;                  (** [pmem.__bitmap] *)
  im_idt : Z;                     (** [idt.idt] *)
  im_gdt : Z;                     (** [gdt::gdt] *)
  im_handler : Interrupt -> Z;    (** the interrupt handlers *)
  im_rsdp_sig : Z;                (** the string literals of acpi.hpp *)
  im_rsdt_sig : Z;
  im_madt_sig : Z;
  im_hpet_sig : Z;
  im_junk : Z                     (** the local [entry] of [ioapic::init] *)
}.

(** The state of the machine while [_start] runs. *)
Record bst (D : Type) : Type := mkB {
  b_k : kst Console;
  b_kbd : Keyboard;
  b_cpu : Info;                   (** [devices.cpu] *)
  b_regs : Pg.cpu_regs;
  b_seg : Gdt.seg_regs;
  b_idtr : IDTR;
  b_if : bool;                    (** the interrupt flag *)
  b_dev : D
}.
Arguments mkB {_}. Arguments b_k {_}. Arguments b_kbd {_}. Arguments b_cpu {_}. Arguments b_regs {_}.
Arguments b_seg {_}. Arguments b_idtr {_}. Arguments b_if {_}. Arguments b_dev {_}.

(** The structures that the bootloader leaves in memory. *)
Definition read_fb_data (m : mem) (p : Z) : FramebufferData :=
  mkFbData (read64 m p) (read64 m (p + 8)) (read64 m (p + 16)) (read16 m (p + 24)) (read16 m (p + 26))
    (read16 m (p + 28)) (read8 m (p + 30)).
Definition read_font (m : mem) (p : Z) : ConsoleFont :=
  mkFont (read64 m p) (read8 m (p + 8)) (read8 m (p + 9)) (read64 m (p + 16)).
Definition read_memory_data (m : mem) (p : Z) : MemoryData :=
  mkMemoryData (read64 m p) (read64 m (p + 8)) (read64 m (p + 16)) (read64 m (p + 24)).

(** [BootloaderData] *)
Definition bd_framebuffer (m : mem) (bd : Z) : Z := read64 m bd.
Definition bd_font (m : mem) (bd : Z) : Z := read64 m (bd + 8).
Definition bd_memory (m : mem) (bd : Z) : Z := read64 m (bd + 16).
Definition bd_acpi_rsdp (m : mem) (bd : Z) : Z := read64 m (bd + 24).

(** [ACPI_Tables] *)
Record ACPI_Tables : Type := mkTables { t_madt : Z; t_lapic : Z; t_ioapic : Z; t_hpet : Z }.

Module Boot.
Section Boot.
Context {D : Type} `{Machine D} (im : image).
Abbreviation B := (M (bst D)).

(** Code on the memory components, and on the devices. *)
Definition on_k {A} (f : M (kst Console) A) : B A := fun s =>
  match f (b_k s) with
  | Done (a, k) => Done (a, mkB k (b_kbd s) (b_cpu s) (b_regs s) (b_seg s) (b_idtr s) (b_if s) (b_dev s))
  | Fail e => Fail e
  end.
Definition on_dev {A} (f : M D A) : B A := fun s =>
  match f (b_dev s) with
  | Done (a, d) => Done (a, mkB (b_k s) (b_kbd s) (b_cpu s) (b_regs s) (b_seg s) (b_idtr s) (b_if s) d)
  | Fail e => Fail e
  end.
Definition lift {A} (o : outcome A) : B A := fun s => match o with Done a => Done (a, s) | Fail e => Fail e end.
Definition memory : B mem := gets (fun s => k_mem (b_k s)).
Definition on_con (f : Console -> outcome Console) : B unit := on_k (fun k =>
  match f (k_con k) with Done c => Done (tt, mkK (k_mem k) (k_pmem k) c) | Fail e => Fail e end).

Definition kprint_succ (msg : list Z) : B unit := on_con (Printf.kprint_succ msg).
Definition kpanic (msg : list Z) : B unit := on_con (Printf.kpanic msg).
Definition kprintf (str : list Z) (a : list va_arg) : B unit := on_con (Printf.kprintf str a).

(** Keyboard, memory map, framebuffer and console; returns the environment of
    the frame allocator, the framebuffer and [kernel.acpi_rsdp]. *)
Definition start_console (bd : Z) : B (kenv * Framebuffer * Z) :=
  ASSERT (negb (bd =? 0));;
  m ← memory;
  modify (fun s => mkB (b_k s) Kb.make (b_cpu s) (b_regs s) (b_seg s) (b_idtr s) (b_if s) (b_dev s));;
  let data := read_memory_data m (bd_memory m bd) in
  mm ← lift (MM.make data);
  fb ← lift (Fb.make (read_fb_data m (bd_framebuffer m bd)));
  let con := Con.clear (Con.make (read_font m (bd_font m bd)) fb m) in
  on_k (modify (fun k => mkK (k_mem k) (k_pmem k) con));;
  mret (mkEnv mm (md_entries data) bd (im_bitmap im), fb, bd_acpi_rsdp m bd).

(** Physical memory. *)
Definition start_pmem (e : kenv) : B unit :=
  on_k (PM.construct e);;
  kprint_succ (cs "Physical memory initalization success");;
  on_k Kernel.kprint_pmem_info.

(** The CPU; the state is printed as a number, in the order of [cpu::State]. *)
Definition state_code (st : State) : Z :=
  match st with ERROR => 0 | SUCCESS => 1 | NO_LONG_MODE => 2 | NO_FPU => 3 | NO_LAPIC => 4 | NO_MSR => 5 end.
Definition start_cpu : B unit :=
  info ← on_dev CpuInfo.get_info;
  modify (fun s => mkB (b_k s) (b_kbd s) info (b_regs s) (b_seg s) (b_idtr s) (b_if s) (b_dev s));;
  st ← on_dev CpuInfo.check_state;
  match st with
  | SUCCESS => kprint_succ (cs "CPU state correct")
  | _ => kprintf (cs "[-] CPU state error: %d") [VaU64 (state_code st)]
  end.

(** The descriptor tables. *)
Definition start_tables : B unit :=
  modify (fun s => mkB (b_k s) (b_kbd s) (b_cpu s) (b_regs s) (Gdt.init (im_gdt im) (b_seg s)).2 (b_idtr s) (b_if s) (b_dev s));;
  kprint_succ (cs "GDT initalization success");;
  m ← memory;
  let '(idtr, m') := Idt.construct (im_idt im) (im_handler im) m in
  modify (fun s => mkB (mkK m' (k_pmem (b_k s)) (k_con (b_k s))) (b_kbd s) (b_cpu s) (b_regs s) (b_seg s) idtr (b_if s) (b_dev s));;
  kprint_succ (cs "IDT initialization success").

(** ACPI: an unknown version and bad signatures are reported and do not stop
    the kernel; missing tables do. *)
Definition start_acpi (rsdp : Z) : B ACPI_Tables :=
  m ← memory;
  match Acpi.get_version m rsdp with
  | VER_1 => kprint_succ (cs "ACPI 1.0 detected")
  | VER_2 => kprint_succ (cs "ACPI 2.0 detected")
  | UNKNOWN => kpanic (cs "Unknown version of ACPI detected")
  end;;
  (if Acpi.verify_rsdp m rsdp (im_rsdp_sig im) then kprint_succ (cs "RSDP verified")
   else kpanic (cs "RSDP not verified"));;
  (if Acpi.verify_rsdt m rsdp (im_rsdt_sig im) then kprint_succ (cs "RSDT verified")
   else kpanic (cs "RSDT not verified"));;
  let madt := Acpi.sdt_get_header m rsdp (im_madt_sig im) in
  ASSERT (negb (madt =? 0));;
  let lapic := Acpi.ics_get_header m madt CPU_LAPIC in
  ASSERT (negb (lapic =? 0));;
  let ioapic := Acpi.ics_get_header m madt IO_APIC in
  ASSERT (negb (ioapic =? 0));;
  let hpet := Acpi.sdt_get_header m rsdp (im_hpet_sig im) in
  ASSERT (negb (hpet =? 0));;
  kprint_succ (cs "HPET initialization success");;
  mret (mkTables madt lapic ioapic hpet).

(** Paging.  The constructor reads the addresses of the device regions, and
    the size of the HPET's registers from the HPET. *)
Definition start_paging (e : kenv) (fb : Framebuffer) (t : ACPI_Tables) : B unit :=
  m ← memory;
  let hpet := hpet_base_address m (t_hpet t) in
  size ← on_dev (Hpet.get_mmio_sz hpet);
  let rg := Pg.mkRegions (Fb.get_fb_addr fb) (fb_b_size fb) (madt_lapic_addr m (t_madt t))
              (io_apic_addr m (t_ioapic t)) hpet size in
  regs ← gets b_regs;
  regs' ← on_k (Pg.construct (im_pml4 im) (e_mmap e) rg regs);
  modify (fun s => mkB (b_k s) (b_kbd s) (b_cpu s) regs' (b_seg s) (b_idtr s) (b_if s) (b_dev s));;
  kprint_succ (cs "4-level paging initialization success");;
  m' ← memory;
  on_con (Acpi.dbg_print_lapic_info m' (t_madt t)).

(** External interrupts. *)
Definition enable_external_interrupts : B unit :=
  modify (fun s => mkB (b_k s) (b_kbd s) (b_cpu s) (b_regs s) (b_seg s) (b_idtr s) true (b_dev s)).
Definition start_interrupts (t : ACPI_Tables) : B unit :=
  on_dev Pic.disable;;
  enable_external_interrupts;;
  m ← memory;
  on_dev (Ioapic.init (io_apic_addr m (t_ioapic t)) (im_junk im));;
  on_dev (Lapic.init (madt_lapic_addr m (t_madt t))).

(** [_start] up to the heap; returns the address of the first block. *)
Definition init (bd : Z) : B Z :=
  '(e, fb, rsdp) ← start_console bd;
  start_pmem e;;
  start_cpu;;
  start_tables;;
  t ← start_acpi rsdp;
  start_paging e fb t;;
  start_interrupts t;;
  on_k (Hp.construct (im_pml4 im)).

(** What follows the self test: a report on the last block, the PS/2 controller
    and the end; the counting loop before the end has no effect. *)
Definition finish (ptr9 : Z) : B unit :=
  m ← memory;
  let hdr := ptr9 - HDR in
  let next := read64 m (hdr + OFF_NEXT) in
  let prev := read64 m (hdr + OFF_PREV) in
  (if (next =? 0) || (prev =? 0) then fail NullDeref else mret tt);;
  kprintf (cs "Bytes: %d, next: %d, prev: %d, header: %d" ++ NL)
    [VaU64 (read64 m (hdr + OFF_BYTES)); VaU64 (read64 m (next + OFF_BYTES)); VaU64 (read64 m (prev + OFF_BYTES));
     VaU64 HDR];;
  on_dev (Cpu.outb 0x64 0xAA);;
  resp ← on_dev (Cpu.inb 0x60);
  kprintf (cs "%p" ++ NL) [VaU64 resp];;
  on_dev (Cpu.outb 0x64 0xAB);;
  resp ← on_dev (Cpu.inb 0x60);
  kprintf (cs "%p" ++ NL) [VaU64 resp];;
  on_dev Ps2.port_1_enable;;
  kprintf (cs "Done :/") [];;
  fail Hang.

Definition _start (fuel : nat) (bd : Z) : B unit :=
  blocks ← init bd;
  ptr9 ← on_k (Kernel.heap_self_test fuel (im_pml4 im) blocks);
  finish ptr9.

End Boot.
End Boot.
