(* ===== verification/BootDev.v ===== *)
(** * BootDev: the devices during the start of the kernel

    [_start] masks the old interrupt controllers and initialises the I/O APIC
    and the local APIC.  The devices are separate: an access to one of them does
    not change the registers of another. *)
From S2P Require Import Prelude Memory Bitmap Machine Sim Apic Hpet Boot.

(** The I/O APIC at [io] and the local APIC at [la], beside the ports and the
    other memory-mapped devices. *)
Class ApicPlatform (D : Type) `{Machine D} (io la : Z) `{!IoapicDev D io} `{!LapicDev D la} : Prop := {
  la_port d p v : la_msr la (port_out p v d) = la_msr la d;
  la_io_write d a v : io <= a < io + 0x20 -> la_msr la (bus_write 4 a v d) = la_msr la d;
  io_la_write d a v : la <= a < la + 0x1000 -> io_agree (base := io) (fun _ => True) d (bus_write 4 a v d);
  io_la_read d a : la <= a < la + 0x1000 -> io_agree (base := io) (fun _ => True) d (bus_read 4 a d).2;
  io_wrmsr d r hi lo : io_agree (base := io) (fun _ => True) d (wrmsr r hi lo d)
}.

(** Device code that keeps a property of the device, whatever it returns. *)
Definition keeps {D A} (I : D -> Prop) (f : M D A) : Prop := forall d a d', I d -> f d = Done (a, d') -> I d'.

Lemma keeps_runs {D A} (I : D -> Prop) (f : M D A) d Q :
  keeps I f -> I d -> runs f d Q -> runs f d (fun a d' => Q a d' /\ I d').
Proof. intros Hk Hi (a & d' & E & HQ). exists a, d'. split_and!; [done|done|by eapply Hk]. Qed.

Section Keeps.
Context {D : Type} `{Machine D} (I : D -> Prop).

Lemma keeps_bind {A B} (f : M D A) (g : A -> M D B) : keeps I f -> (forall a, keeps I (g a)) -> keeps I (mbind g f).
Proof.
  intros Hf Hg d b d' Hd E. unfold mbind, M_bind in E. destruct (f d) as [[a d1]|] eqn:Ef; [|done].
  by eapply Hg, E; eapply Hf.
Qed.
Lemma keeps_modify (g : D -> D) : (forall d, I d -> I (g d)) -> keeps I (modify g).
Proof. intros Hg d a d' Hd E. injection E as <- <-. auto. Qed.
Lemma keeps_gets {A} (g : D -> A) : keeps I (gets g).
Proof. intros d a d' Hd E. by injection E as <- <-. Qed.
Lemma keeps_write32 p v : (forall d, I d -> I (bus_write 4 (u64 p) (u32 v) d)) -> keeps I (Mmio.write32 p v).
Proof. apply keeps_modify. Qed.
Lemma keeps_read32 p : (forall d, I d -> I (bus_read 4 (u64 p) d).2) -> keeps I (Mmio.read32 p).
Proof.
  intros Hr d a d' Hd E. unfold Mmio.read32 in E. specialize (Hr d Hd). destruct (bus_read _ _ d). by injection E as <- <-.
Qed.
End Keeps.

(** Steps through device code. *)
Ltac keeps_step := repeat first [apply keeps_bind; intros | apply keeps_write32 | apply keeps_read32 | apply keeps_gets | apply keeps_modify].

Section Apics.
Context {D : Type} {io la : Z} `{Hpl : ApicPlatform D io la}.
Context (Hio : 0 <= io < 2 ^ 32) (Hla : 0 <= la < 2 ^ 32).
Implicit Types d : D.

Lemma ioapic_init_keeps_msr x junk : keeps (fun d => la_msr la d = x) (Ioapic.init io junk).
Proof.
  unfold Ioapic.init, Ioapic.set_redir_entry, Ioapic.set_ioregsel, Ioapic.set_iowin, Ioapic.IOWIN.
  keeps_step; intros d <-; apply la_io_write; rewrite u64_small; lia.
Qed.

Lemma lapic_init_keeps_io d0 : keeps (io_agree (base := io) (fun _ => True) d0) (Lapic.init la).
Proof.
  unfold Lapic.init, Lapic.set_spurious_interrupt, Lapic.enable, Lapic.write_reg, Lapic.read_reg, Lapic.write_msr,
    Cpu.write_msr, Cpu.read_msr.
  assert (Hr : forall r, r = Lapic.TPR \/ r = Lapic.SPURIOUS_REG -> la <= u64 (la + r) < la + 0x1000).
  { unfold Lapic.TPR, Lapic.SPURIOUS_REG. intros r Hr. rewrite u64_small; lia. }
  keeps_step; intros d Hd; (eapply io_agree_trans; [exact Hd|]);
    first [apply io_wrmsr | apply io_la_write, Hr; auto | apply io_la_read, Hr; auto].
Qed.

(** The interrupt controllers after their initialisation. *)
Definition apics_ready d : Prop :=
  routed (redir (base := io) Ioapic.IRQ_HPET d) TIMER /\
  routed (redir (base := io) Ioapic.IRQ_KEYBOARD d) KEYBOARD /\
  Z.testbit (la_msr la d) 11 = true /\ la_reg la Lapic.TPR d = 0 /\ la_reg la Lapic.SPURIOUS_REG d = 0x1ff.

Lemma apics_init junk d : Z.testbit (la_msr la d) 11 = true ->
  runs (Pic.disable;; Ioapic.init io junk;; Lapic.init la) d (fun _ => apics_ready).
Proof.
  intros E. apply runs_bind. unfold Pic.disable. apply runs_bind, runs_outb, runs_outb.
  set (d1 := port_out _ _ _). assert (E1 : la_msr la d1 = la_msr la d) by (unfold d1; by rewrite !la_port).
  apply runs_bind. eapply runs_mono.
  { apply (keeps_runs (fun d' => la_msr la d' = la_msr la d)); [apply ioapic_init_keeps_msr|done|by apply ioapic_init_spec]. }
  intros [] d2 [(R1 & R2 & _) E2]. eapply runs_mono.
  { apply (keeps_runs (io_agree (base := io) (fun _ => True) d2)); [apply lapic_init_keeps_io|done|].
    apply lapic_init_spec; [done|by rewrite E2]. }
  intros [] d3 [(L1 & L2 & L3) A]. split_and!; try done.
  - eapply routed_ext; [|exact R1]. intros k. by apply (redir_agree (fun _ => True)).
  - eapply routed_ext; [|exact R2]. intros k. by apply (redir_agree (fun _ => True)).
  - by rewrite L1, E2.
Qed.
End Apics.

(** The simulated machine. *)
Global Instance sim_platform : ApicPlatform sim IOAPIC_BASE LAPIC_BASE.
Proof.
  assert (Hw : forall d a v, IOAPIC_BASE <= a < IOAPIC_BASE + 0x20 -> s_msr (sim_write a v d) = s_msr d).
  { intros d a v Ha. unfold sim_write. repeat case_match; done. }
  assert (Hi : forall d a v, LAPIC_BASE <= a < LAPIC_BASE + 0x1000 -> s_io (sim_write a v d) = s_io d).
  { intros d a v Ha. unfold sim_write, IOAPIC_BASE, LAPIC_BASE in *. repeat case_match; try done; lia. }
  split; intros; try done.
  - unfold la_msr. simpl. unfold sim_la_msr. simpl. by rewrite Hw.
  - intros r k _ _. simpl. by rewrite Hi.
Qed.
