(* ===== verification/BootProps.v ===== *)
(** * BootProps: what [_start] leaves behind *)
From Stdlib Require Import String.
From S2P Require Import Prelude Memory Libc Printf Bitmap MMap PMem Paging PagingInit PagingProps Heap HeapSpec HeapInv HeapGrow HeapProps HeapClient Framebuffer Console Machine Sim Keyboard Acpi Apic Hpet Descriptors CpuInfo Kernel BootMem Boot BootDev.

(** ** Steps of [_start] *)
Section Steps.
Context {D : Type} `{Machine D}.
Implicit Types s : bst D.

Definition set_k s (k : kst Console) : bst D :=
  mkB k (b_kbd s) (b_cpu s) (b_regs s) (b_seg s) (b_idtr s) (b_if s) (b_dev s).

Lemma runs_on_k {A} (f : M (kst Console) A) s (Q : A -> bst D -> Prop) :
  runs f (b_k s) (fun a k => Q a (set_k s k)) -> runs (Boot.on_k f) s Q.
Proof. intros (a & k & E & HQ). exists a, (set_k s k). split; [|done]. unfold Boot.on_k. by rewrite E. Qed.

Lemma runs_on_dev {A} (f : M D A) s (Q : A -> bst D -> Prop) :
  runs f (b_dev s) (fun a d => Q a (mkB (b_k s) (b_kbd s) (b_cpu s) (b_regs s) (b_seg s) (b_idtr s) (b_if s) d)) ->
  runs (Boot.on_dev f) s Q.
Proof. intros (a & d & E & HQ). eexists a, _. split; [|exact HQ]. unfold Boot.on_dev. by rewrite E. Qed.

Lemma runs_lift {A} (a : A) s (Q : A -> bst D -> Prop) : Q a s -> runs (Boot.lift (Done a)) s Q.
Proof. intros HQ. by exists a, s. Qed.

(** Output changes the console only. *)
Definition printed (k k' : kst Console) : Prop := k_mem k' = k_mem k /\ k_pmem k' = k_pmem k.

Lemma printed_trans k1 k2 k3 : printed k1 k2 -> printed k2 k3 -> printed k1 k3.
Proof. intros [] []. split; congruence. Qed.

Lemma runs_print (f : Console -> outcome Console) s (Q : unit -> bst D -> Prop) :
  (forall c, exists c', f c = Done c') -> (forall k', printed (b_k s) k' -> Q tt (set_k s k')) -> runs (Boot.on_con f) s Q.
Proof.
  intros Hf HQ. apply runs_on_k. destruct (Hf (k_con (b_k s))) as [c' E].
  exists tt, (mkK (k_mem (b_k s)) (k_pmem (b_k s)) c'). rewrite E. split; [done|]. by apply HQ.
Qed.

(** Whether a format is printed without an error. *)
Definition formats (str : list Z) (a : list va_arg) : bool := match Printf.format str a with Done _ => true | Fail _ => false end.

Lemma kprintf_done {C} `{ConsoleI C} str a (c : C) : formats str a = true -> exists c', Printf.kprintf str a c = Done c'.
Proof. unfold formats, Printf.kprintf. destruct (Printf.format str a); [|done]. eauto. Qed.

Lemma kpanic_done {C} `{ConsoleI C} msg (c : C) :
  formats (cs "Error: %s") [VaStr msg] = true -> exists c', Printf.kpanic msg c = Done c'.
Proof.
  unfold formats, Printf.kpanic, Printf.__prepare_kpanic, Printf.kprintf. destruct (Printf.format _ [VaStr msg]); [|done].
  replace (Printf.format (cs "===== Kernel panic ===== " ++ NL) []) with (Done (cs "===== Kernel panic ===== " ++ NL))
    by (symmetry; by vm_compute). intros _. eexists. reflexivity.
Qed.
End Steps.

(** Fixed messages. *)
Ltac prints :=
  apply runs_print; [intros ?; lazymatch goal with
    | |- context [Printf.kpanic] => eapply kpanic_done; vm_compute; reflexivity
    | |- _ => eapply kprintf_done; vm_compute; reflexivity
    end|].

(** The reports of numbers. *)
Section Numbers.
Context {C : Type} `{ConsoleI C}.

Definition same_memory (k k' : kst C) : Prop := k_mem k' = k_mem k /\ k_pmem k' = k_pmem k.

Lemma kprintf_same str a out (k : kst C) (Q : unit -> kst C -> Prop) : Printf.format str a = Done out ->
  (forall k', same_memory k k' -> Q tt k') -> runs (PM.kprintf str a) k Q.
Proof.
  intros E HQ. unfold PM.kprintf, Printf.kprintf. rewrite E. eexists _, _. split; [reflexivity|]. by apply HQ.
Qed.

Lemma megabytes_range n : 0 <= Kernel.megabytes n < 2 ^ 64.
Proof. unfold Kernel.megabytes. pose proof (u64_range (n * FRAME_SZ)). zdm. Qed.

Lemma pmem_line l1 l2 l3 n : 0 <= n < 2 ^ 64 ->
  Forall Printf.literal [l1; l2; l3] -> Forall is_char (l1 ++ [37; 100] ++ l2 ++ [37; 100] ++ l3) ->
  Z.of_nat (length (l1 ++ [37; 100] ++ l2 ++ [37; 100] ++ l3)) < 4000 ->
  exists out, Printf.format (l1 ++ [37; 100] ++ l2 ++ [37; 100] ++ l3) [VaU64 n; VaU64 (Kernel.megabytes n)] = Done out.
Proof.
  intros Hn [H1 [H2 [H3 _]%Forall_cons]%Forall_cons]%Forall_cons Hc Hl.
  pose proof (Printf.format_numbers [(l1, n); (l2, Kernel.megabytes n)] l3) as E. cbn in E. eexists. apply E.
  - repeat constructor; try done; try lia; apply megabytes_range.
  - done.
  - exact Hc.
  - cbn in Hl. lia.
Qed.

(** One line of the report. *)
Lemma pmem_line_runs l1 l2 l3 n (k : kst C) (Q : unit -> kst C -> Prop) : 0 <= n < 2 ^ 64 ->
  Forall Printf.literal [l1; l2; l3] -> Forall is_char (l1 ++ [37; 100] ++ l2 ++ [37; 100] ++ l3) ->
  Z.of_nat (length (l1 ++ [37; 100] ++ l2 ++ [37; 100] ++ l3)) < 4000 -> (forall k', same_memory k k' -> Q tt k') ->
  runs (PM.kprintf (l1 ++ [37; 100] ++ l2 ++ [37; 100] ++ l3) [VaU64 n; VaU64 (Kernel.megabytes n)]) k Q.
Proof.
  intros Hn Hl Hc Hlen HQ. destruct (pmem_line l1 l2 l3 n Hn Hl Hc Hlen) as [out E]. by apply (kprintf_same _ _ out).
Qed.

Lemma pmem_info_runs (k : kst C) : pmem_ok k ->
  runs Kernel.kprint_pmem_info k (fun _ k' => same_memory k k').
Proof.
  intros [H1 _ _ H4 H5]. unfold Kernel.kprint_pmem_info. apply runs_bind.
  assert (Hi : exists c, Printf.kprint_info (cs "physical memory info (provided by the UEFI Memory Map):") (k_con k) = Done c).
  { eapply kprintf_done. by vm_compute. }
  destruct Hi as [c Ec]. eapply runs_eq; [unfold Kernel.kprint_info; rewrite Ec; reflexivity|].
  apply runs_bind, runs_gets. cbn [k_pmem]. set (k1 := mkK _ _ _).
  pose proof (count_range (fun i => negb (frame_locked k i)) (Z.to_nat (frames (k_pmem k)))).
  pose proof (count_range (frame_locked k) (Z.to_nat (frames (k_pmem k)))).
  apply runs_bind, (pmem_line_runs (Kernel.tab ++ cs " all: frames = ") (cs ", memory = ")
    (cs "MB (holes and MMIO included) " ++ NL)); [lia|by repeat constructor|by repeat constructor|by vm_compute|]. intros k2 [M2 P2].
  apply runs_bind, (pmem_line_runs (Kernel.tab ++ cs " free: frames = ") (cs ", memory = ") (cs "MB " ++ NL));
    [lia|by repeat constructor|by repeat constructor|by vm_compute|]. intros k3 [M3 P3].
  apply (pmem_line_runs (Kernel.tab ++ cs " locked: frames = ") (cs ", memory = ") (cs "MB " ++ NL));
    [lia|by repeat constructor|by repeat constructor|by vm_compute|]. intros k4 [M4 P4].
  split; [by rewrite M4, M3, M2|by rewrite P4, P3, P2].
Qed.

(** The page tables do not depend on the console. *)
Lemma paging_ok_printed root (k k' : kst C) : same_memory k k' -> paging_ok root k -> paging_ok root k'.
Proof.
  destruct k, k'. unfold same_memory. cbn. intros [-> ->] [[] Hz Hl Hb []]. by split.
Qed.
End Numbers.

(** The report on the local APIC. *)
Lemma lapic_info_done m' madt (c : Console) : Acpi.ics_get_header m' madt CPU_LAPIC <> 0 ->
  exists c', Acpi.dbg_print_lapic_info m' madt c = Done c'.
Proof.
  intros Hn. unfold Acpi.dbg_print_lapic_info. rewrite (proj2 (Z.eqb_neq _ _) Hn). apply kprintf_done. unfold formats.
  set (p := Acpi.ics_get_header _ _ _).
  pose proof (Printf.format_numbers [(cs "ACPI CPU UID: ", lapic_acpi_cpu_uid m' p); (cs ", APIC ID: ", lapic_apic_id m' p);
    (cs ", flags: ", lapic_flags m' p)] NL) as E. cbn [Printf.num_format fmap list_fmap snd] in E.
  assert (Ef : Printf.format (cs "ACPI CPU UID: %d, APIC ID: %d, flags: %d" ++ NL)
    [VaU64 (lapic_acpi_cpu_uid m' p); VaU64 (lapic_apic_id m' p); VaU64 (lapic_flags m' p)] = Done (Printf.num_text
      [(cs "ACPI CPU UID: ", lapic_acpi_cpu_uid m' p); (cs ", APIC ID: ", lapic_apic_id m' p);
       (cs ", flags: ", lapic_flags m' p)] NL)).
  { apply E; [|by repeat constructor|by repeat constructor|done].
    assert (Hr : forall n q, (n <= 8)%nat -> 0 <= load n m' q < 2 ^ 64).
    { intros n q Hn8. pose proof (load_range n m' q). 
      assert (256 ^ Z.of_nat n <= 256 ^ 8) by (apply Z.pow_le_mono_r; lia). lia. }
    do 3 (apply Forall_cons; split; [split; [by repeat constructor|by apply Hr; lia]|]). constructor. }
  by rewrite Ef.
Qed.

(** ** The stages *)

(** The bytes of the interrupt descriptor table. *)
Definition in_idt (im : image) (a : Z) : Prop := im_idt im <= a < im_idt im + 4096.

Section Stages.
Context {D : Type} `{Machine D} (im : image).
Implicit Types s : bst D.

(** Everything but the memory components and [devices.cpu] is as before. *)
Definition same_machine s s' : Prop :=
  b_kbd s' = b_kbd s /\ b_regs s' = b_regs s /\ b_seg s' = b_seg s /\ b_idtr s' = b_idtr s /\ b_if s' = b_if s /\
  b_dev s' = b_dev s.

Lemma same_machine_trans s1 s2 s3 : same_machine s1 s2 -> same_machine s2 s3 -> same_machine s1 s3.
Proof. unfold same_machine. intuition congruence. Qed.

Lemma start_console_spec bd s fb :
  bd <> 0 -> 0 < md_entries (read_memory_data (k_mem (b_k s)) (bd_memory (k_mem (b_k s)) bd)) ->
  Fb.make (read_fb_data (k_mem (b_k s)) (bd_framebuffer (k_mem (b_k s)) bd)) = Done fb ->
  let m := k_mem (b_k s) in
  let data := read_memory_data m (bd_memory m bd) in
  runs (Boot.start_console im bd) s (fun r s' =>
    r = (mkEnv (mkMemoryMap (md_mmap_sz data) (md_desc_sz data) (md_entries data) (md_mmap data)) (md_entries data) bd
           (im_bitmap im), fb, bd_acpi_rsdp m bd) /\
    k_mem (b_k s') = m /\ b_kbd s' = Kb.make /\ b_regs s' = b_regs s /\ b_seg s' = b_seg s /\ b_if s' = b_if s /\
    b_dev s' = b_dev s).
Proof.
  intros Hbd He Hfb m data. unfold Boot.start_console. apply runs_bind, runs_assert; [by apply negb_true_iff, Z.eqb_neq|].
  apply runs_bind, runs_gets. fold m data. apply runs_bind, runs_modify, runs_bind.
  assert (Emm : MM.make data = Done (mkMemoryMap (md_mmap_sz data) (md_desc_sz data) (md_entries data) (md_mmap data))).
  { unfold MM.make. by rewrite (proj2 (Z.ltb_lt 0 (md_entries data)) He). }
  rewrite Emm. apply runs_lift, runs_bind. fold m in Hfb. rewrite Hfb. apply runs_lift, runs_bind, runs_on_k, runs_modify, runs_ret. done.
Qed.

Lemma start_cpu_spec s :
  runs Boot.start_cpu s (fun _ s' => same_machine s s' /\ printed (b_k s) (b_k s')).
Proof.
  assert (Hi : exists info, CpuInfo.get_info (b_dev s) = Done (info, b_dev s)).
  { destruct (get_info_strings (b_dev s)) as (info & ? & E & -> & _). by exists info. }
  assert (Hc : exists st, CpuInfo.check_state (b_dev s) = Done (st, b_dev s)).
  { unfold CpuInfo.check_state, Cpu.get_cpuid, mbind, M_bind, gets.
    repeat match goal with |- context [cpuid ?l ?d] => destruct (cpuid l d) as [[[? ?] ?] ?] end.
    repeat case_match; eexists; reflexivity. }
  destruct Hi as [info Ei], Hc as [st Ec]. unfold Boot.start_cpu.
  apply runs_bind, runs_on_dev. eapply runs_eq; [exact Ei|]. apply runs_bind, runs_modify, runs_bind, runs_on_dev.
  eapply runs_eq; [exact Ec|]. destruct st; prints; intros k' Hk'; by split.
Qed.

Lemma start_tables_spec s : (forall i, 0 <= im_handler im i < 2 ^ 64) ->
  runs (Boot.start_tables im) s (fun _ s' =>
    b_kbd s' = b_kbd s /\ b_regs s' = b_regs s /\ b_seg s' = (Gdt.init (im_gdt im) (b_seg s)).2 /\
    b_idtr s' = mkIdtr 4096 (im_idt im) /\ b_if s' = b_if s /\ b_dev s' = b_dev s /\
    k_pmem (b_k s') = k_pmem (b_k s) /\
    (forall a, ~ in_idt im a -> mget (k_mem (b_k s')) a = mget (k_mem (b_k s)) a) /\
    (forall i, gate_at (k_mem (b_k s')) (im_idt im) (int_vector i) =
       mkGate (im_handler im i) (selector_code KERNEL_CODE) (gate_code (gate_of i)) true
         (g_ist (gate_at (k_mem (b_k s)) (im_idt im) (int_vector i)))
         (g_dpl (gate_at (k_mem (b_k s)) (im_idt im) (int_vector i))))).
Proof.
  intros Hh. unfold Boot.start_tables. apply runs_bind, runs_modify, runs_bind. prints. intros k1 [M1 P1].
  apply runs_bind, runs_gets. cbn [set_k b_k]. rewrite M1.
  pose proof (idt_construct_spec (im_idt im) (im_handler im) (k_mem (b_k s)) Hh) as Hidt. cbn [b_k] in *.
  destruct (Idt.construct _ _ _) as [idtr m']. destruct Hidt as (-> & Hg & _ & Hout).
  apply runs_bind, runs_modify. prints. intros k2 [M2 P2]. cbn in M2, P2. cbn.
  rewrite M2, P2. split_and!; try done.
Qed.

(** The reports of the ACPI tables change the console only. *)
Definition reports s (s' : bst D) : Prop := exists k, printed (b_k s) k /\ s' = set_k s k.

Lemma report_version v s : runs (match v with VER_1 => Boot.kprint_succ (cs "ACPI 1.0 detected")
  | VER_2 => Boot.kprint_succ (cs "ACPI 2.0 detected") | UNKNOWN => Boot.kpanic (cs "Unknown version of ACPI detected") end) s
  (fun _ s' => reports s s').
Proof. destruct v; prints; intros k Hk; by exists k. Qed.
Lemma report_rsdp (b : bool) s :
  runs (if b then Boot.kprint_succ (cs "RSDP verified") else Boot.kpanic (cs "RSDP not verified")) s (fun _ s' => reports s s').
Proof. destruct b; prints; intros k Hk; by exists k. Qed.
Lemma report_rsdt (b : bool) s :
  runs (if b then Boot.kprint_succ (cs "RSDT verified") else Boot.kpanic (cs "RSDT not verified")) s (fun _ s' => reports s s').
Proof. destruct b; prints; intros k Hk; by exists k. Qed.

Lemma start_acpi_spec s rsdp t :
  let m := k_mem (b_k s) in
  Acpi.sdt_get_header m rsdp (im_madt_sig im) = t_madt t -> Acpi.ics_get_header m (t_madt t) CPU_LAPIC = t_lapic t ->
  Acpi.ics_get_header m (t_madt t) IO_APIC = t_ioapic t -> Acpi.sdt_get_header m rsdp (im_hpet_sig im) = t_hpet t ->
  t_madt t <> 0 /\ t_lapic t <> 0 /\ t_ioapic t <> 0 /\ t_hpet t <> 0 ->
  runs (Boot.start_acpi im rsdp) s (fun r s' => r = t /\ same_machine s s' /\ printed (b_k s) (b_k s')).
Proof.
  intros m E1 E2 E3 E4 (N1 & N2 & N3 & N4). unfold Boot.start_acpi. apply runs_bind, runs_gets. fold m.
  apply runs_bind. eapply runs_mono; [apply report_version|]. intros [] ? (k1 & P1 & ->).
  apply runs_bind. eapply runs_mono; [apply report_rsdp|]. intros [] ? (k2 & P2 & ->).
  apply runs_bind. eapply runs_mono; [apply report_rsdt|]. intros [] ? (k3 & P3 & ->). cbv zeta.
  rewrite E1, E4. rewrite E2, E3. clear E1 E2 E3 E4.
  do 4 (apply runs_bind, runs_assert; [by apply negb_true_iff, Z.eqb_neq|]).
  apply runs_bind. prints. intros k4 P4. apply runs_ret. cbn [set_k b_k] in *. split; [by destruct t|]. split; [done|].
  by do 3 (eapply printed_trans; [eassumption|]).
Qed.
End Stages.

(** ** The machine that the kernel starts on *)
Section Start.
Context {D : Type} {io la : Z} `{Hpl : ApicPlatform D io la}.
Context (im : image) (bd : Z) (s0 : bst D).
Let m : mem := k_mem (b_k s0).

(** What the bootloader handed over. *)
Definition boot_data : MemoryData := read_memory_data m (bd_memory m bd).
Definition boot_mmap : MemoryMap :=
  mkMemoryMap (md_mmap_sz boot_data) (md_desc_sz boot_data) (md_entries boot_data) (md_mmap boot_data).
Definition boot_kenv : kenv := mkEnv boot_mmap (md_entries boot_data) bd (im_bitmap im).
Definition boot_fb_data : FramebufferData := read_fb_data m (bd_framebuffer m bd).

(** The tables [t] as the searches find them in the memory [m']. *)
Record tables_found (t : ACPI_Tables) (hpet : Z) (m' : mem) : Prop := {
  tf_madt : Acpi.sdt_get_header m' (bd_acpi_rsdp m bd) (im_madt_sig im) = t_madt t;
  tf_lapic : Acpi.ics_get_header m' (t_madt t) CPU_LAPIC = t_lapic t;
  tf_ioapic : Acpi.ics_get_header m' (t_madt t) IO_APIC = t_ioapic t;
  tf_hpet : Acpi.sdt_get_header m' (bd_acpi_rsdp m bd) (im_hpet_sig im) = t_hpet t;
  tf_nonnull : t_madt t <> 0 /\ t_lapic t <> 0 /\ t_ioapic t <> 0 /\ t_hpet t <> 0;
  tf_la : madt_lapic_addr m' (t_madt t) = la;
  tf_io : io_apic_addr m' (t_ioapic t) = io;
  tf_hpet_addr : hpet_base_address m' (t_hpet t) = hpet
}.

(** Bytes outside the bitmap that the page tables and the heap leave alone. *)
Definition kept (a : Z) : Prop := fixed boot_kenv m (im_pml4 im) a /\ a <> 0x999.

(** The hand-over is complete; the memory can be brought up; the IDT on the stack
    and the ACPI tables, between [lo] and [hi], lie in memory that is not handed
    out; the HPET answers with [size]; the local APIC is globally enabled. *)
Record boot_pre (t : ACPI_Tables) (hpet size lo hi : Z) : Prop := {
  bp_bd : bd <> 0;
  bp_fb : fd_base_addr boot_fb_data <> 0;
  bp_hpet : exists d, Hpet.get_mmio_sz hpet (b_dev s0) = Done (size, d) /\ la_msr la d = la_msr la (b_dev s0);
  bp_memory : memory_ok boot_kenv m (im_pml4 im)
    (Pg.mkRegions (fd_base_addr boot_fb_data) (fd_b_size boot_fb_data) la io hpet size);
  bp_idt : forall a, in_idt im a -> kept a;
  bp_idt_map : forall i a, 0 <= i < mm_entries boot_mmap ->
    MM.get_desc boot_mmap i <= a < MM.get_desc boot_mmap i + 40 -> ~ in_idt im a;
  bp_handlers : forall i, 0 <= im_handler im i < 2 ^ 64;
  bp_tables : forall a, lo <= a < hi -> kept a /\ ~ in_idt im a;
  bp_found : forall m', (forall a, lo <= a < hi -> mget m' a = mget m a) -> tables_found t hpet m';
  bp_apic : Z.testbit (la_msr la (b_dev s0)) 11 = true
}.

(** The bitmap of the frame allocator. *)
Definition in_bitmap (a : Z) : Prop :=
  snd (init_seg boot_kenv m) <= a < snd (init_seg boot_kenv m) + init_size boot_kenv m.

Section Run.
Context (t : ACPI_Tables) (hpet size lo hi : Z).
Hypothesis Hpre : boot_pre t hpet size lo hi.
Let rg : Pg.regions := Pg.mkRegions (fd_base_addr boot_fb_data) (fd_b_size boot_fb_data) la io hpet size.
Let Hmo : memory_ok boot_kenv m (im_pml4 im) rg := bp_memory _ _ _ _ _ Hpre.
Implicit Types s : bst D.

(** Between the frame allocator and the page tables. *)
Record staged s : Prop := {
  sg_built : built boot_kenv m (im_pml4 im) (b_k s);
  sg_mem : forall a, ~ in_bitmap a -> ~ in_idt im a -> mget (k_mem (b_k s)) a = mget m a;
  sg_dev : b_dev s = b_dev s0
}.

Lemma staged_printed s s' : staged s -> printed (b_k s) (b_k s') -> b_dev s' = b_dev s -> staged s'.
Proof.
  intros [Hb Hm Hd] [Em Ep] E. split; [|by rewrite Em|by rewrite E].
  eapply built_write; [done|done|]. intros a _. by rewrite Em.
Qed.

(** The tables are where they were. *)
Lemma staged_found s : staged s -> tables_found t hpet (k_mem (b_k s)).
Proof.
  intros Hs. apply (bp_found _ _ _ _ _ Hpre). intros a Ha.
  destruct (bp_tables _ _ _ _ _ Hpre a Ha) as [[(_ & _ & H3 & _) _] Hi]. by apply (sg_mem _ Hs).
Qed.

Lemma start_pmem_spec s : k_mem (b_k s) = m -> b_dev s = b_dev s0 ->
  runs (Boot.start_pmem boot_kenv) s (fun _ s' => staged s' /\ same_machine s s' /\
    forall a, ~ in_bitmap a -> mget (k_mem (b_k s')) a = mget m a).
Proof.
  intros Hm Hd. unfold Boot.start_pmem. apply runs_bind, runs_on_k.
  eapply runs_mono; [by apply (pmem_built boot_kenv m (im_pml4 im) rg Hmo)|]. intros [] k1 [Hb1 Hm1].
  apply runs_bind. prints. intros k2 [M2 P2]. apply runs_on_k.
  assert (Hs2 : staged (set_k s k2)).
  { apply (staged_printed (set_k s k1)); [|by split|done]. split; [done| |done]. intros a Ha _. by apply Hm1. }
  eapply runs_mono; [apply pmem_info_runs, (fr_pmem _ _ (bt_fresh _ _ _ _ (sg_built _ Hs2)))|]. intros [] k3 Hk3.
  split; [by apply (staged_printed (set_k s k2))|]. split; [done|]. intros a Ha. destruct Hk3 as [E3 _].
  cbn in M2, E3 |- *. rewrite E3, M2. by apply Hm1.
Qed.

(** The address space once the page tables are in use. *)
Record address_space s : Prop := {
  as_ok : paging_ok (im_pml4 im) (b_k s);
  as_cr3 : Pg.cr3 (b_regs s) = im_pml4 im;
  as_mode : Z.testbit (Pg.cr0 (b_regs s)) 31 = true /\ Z.testbit (Pg.cr4 (b_regs s)) 5 = true /\
    Z.testbit (Pg.efer (b_regs s)) 8 = true;
  as_memory : forall i, 0 <= i < mm_entries boot_mmap ->
    identity_mapped (im_pml4 im) (b_k s) (map_addr m boot_mmap i) (id_pages (map_bytes m boot_mmap i));
  as_devices : forall a n, (a, n) ∈ device_regions rg -> identity_mapped (im_pml4 im) (b_k s) a (id_pages n)
}.

(** The bytes set aside are those of the state [s]. *)
Definition set_aside s s' : Prop := forall a, fixed boot_kenv m (im_pml4 im) a ->
  private (im_pml4 im) (b_k s') a /\ (a <> 0x999 -> mget (k_mem (b_k s')) a = mget (k_mem (b_k s)) a).

Lemma start_paging_spec s fb : staged s -> Fb.get_fb_addr fb = fd_base_addr boot_fb_data -> fb_b_size fb = fd_b_size boot_fb_data ->
  runs (Boot.start_paging im boot_kenv fb t) s (fun _ s' =>
    address_space s' /\ 4 <= avail (b_k s') /\ set_aside s s' /\ la_msr la (b_dev s') = la_msr la (b_dev s0) /\
    b_kbd s' = b_kbd s /\ b_seg s' = b_seg s /\ b_idtr s' = b_idtr s /\ b_if s' = b_if s).
Proof.
  intros Hs Ha Hz. destruct (staged_found s Hs) as [_ _ _ _ _ Fla Fio Fhp]. pose proof (sg_dev _ Hs) as Hd.
  destruct (bp_hpet _ _ _ _ _ Hpre) as (d & Ed & Emsr).
  unfold Boot.start_paging. apply runs_bind, runs_gets. rewrite Fla, Fio, Fhp, Ha, Hz. fold rg. cbv zeta.
  apply runs_bind, runs_on_dev. rewrite Hd. eapply runs_eq; [exact Ed|]. apply runs_bind, runs_gets.
  apply runs_bind, runs_on_k. eapply runs_mono.
  { apply (paging_built boot_kenv m (im_pml4 im) rg Hmo); [apply (sg_built _ Hs)|]. intros i a Hi Hin.
    apply (sg_mem _ Hs); [by apply (boot_map _ _ (mo_boot _ _ _ _ Hmo) i a)|by apply (bp_idt_map _ _ _ _ _ Hpre i a)]. }
  intros regs k1 (K1 & K2 & K3 & K4 & K5 & K6 & _ & K7 & K8 & K9). apply runs_bind, runs_modify, runs_bind. prints.
  intros k2 Hk2. apply runs_bind, runs_gets. cbn [set_k b_k] in *. apply runs_print.
  { intros c. apply lapic_info_done.
    assert (F : tables_found t hpet (k_mem k2)).
    { apply (bp_found _ _ _ _ _ Hpre). intros a Hin. destruct (bp_tables _ _ _ _ _ Hpre a Hin) as [[Hf Hne] Hi].
      destruct Hk2 as [-> _]. destruct (K9 a Hf) as [_ ->]; [|done]. apply (sg_mem _ Hs); [apply Hf|done]. }
    rewrite (tf_lapic _ _ _ F). apply (tf_nonnull _ _ _ F). }
  cbn [set_k b_k]. intros k3 Hk3. assert (Hk : same_memory k1 k3) by (eapply printed_trans; [exact Hk2|exact Hk3]).
  pose proof (paging_ok_printed _ _ _ Hk K1) as Hok. destruct Hk as [Em Ep].
  assert (Hpr : forall a, private (im_pml4 im) k1 a -> private (im_pml4 im) k3 a).
  { intros a. unfold private, frame_locked, PM.bit. by rewrite Em, Ep. }
  split_and!; try done.
  - split; cbn [b_k b_regs set_k]; try done.
    + intros i Hi va Hva. cbn. rewrite Em. by apply (K7 i).
    + intros a n Hn va Hva. cbn. rewrite Em. by apply (K8 a n).
  - cbn. unfold avail, horizon, frame_locked, PM.bit in *. by rewrite Em, Ep.
  - intros a Hf. destruct (K9 a Hf) as [P1 P2]. cbn. rewrite Em. auto.
Qed.

(** The gates of the interrupts, in a table that was not cleared before. *)
Definition gates_set (m' : mem) : Prop := forall i,
  gate_at m' (im_idt im) (int_vector i) =
    mkGate (im_handler im i) (selector_code KERNEL_CODE) (gate_code (gate_of i)) true
      (g_ist (gate_at m (im_idt im) (int_vector i))) (g_dpl (gate_at m (im_idt im) (int_vector i))).

Lemma gates_kept m1 m2 : gates_set m1 -> (forall a, in_idt im a -> mget m2 a = mget m1 a) -> gates_set m2.
Proof.
  intros Hg Hm i. rewrite <- (Hg i). apply gate_agree. intros a Ha. apply Hm. unfold in_idt.
  destruct i; cbn [int_vector] in Ha; lia.
Qed.

(** The bytes of the table are set aside. *)
Lemma idt_kept s s' a : set_aside s s' -> in_idt im a -> mget (k_mem (b_k s')) a = mget (k_mem (b_k s)) a.
Proof. intros Hs Ha. destruct (bp_idt _ _ _ _ _ Hpre a Ha) as [Hf Hne]. by apply Hs. Qed.

Lemma staged_tables s :
  staged s -> (forall a, ~ in_bitmap a -> mget (k_mem (b_k s)) a = mget m a) ->
  runs (Boot.start_tables im) s (fun _ s' => staged s' /\ gates_set (k_mem (b_k s')) /\
    b_kbd s' = b_kbd s /\ b_seg s' = (Gdt.init (im_gdt im) (b_seg s)).2 /\ b_idtr s' = mkIdtr 4096 (im_idt im)).
Proof.
  intros Hs Hm. eapply runs_mono; [apply start_tables_spec, (bp_handlers _ _ _ _ _ Hpre)|].
  intros [] s' (E1 & E2 & E3 & E4 & E5 & E6 & E7 & E8 & E9).
  assert (Hi : forall a, in_idt im a -> ~ in_bitmap a).
  { intros a Ha. apply (bp_idt _ _ _ _ _ Hpre a Ha). }
  split; [split|split_and!; try done].
  - eapply built_write; [apply (sg_built _ Hs)|done|]. intros a Ha. apply E8. intros Hin.
    destruct (bp_idt _ _ _ _ _ Hpre a Hin) as [Hf _]. by apply (bt_quiet _ _ _ _ (sg_built _ Hs)) in Hf as (_ & _ & ? & _).
  - intros a Ha Hn. rewrite E8 by done. by apply Hm.
  - by rewrite E6, (sg_dev _ Hs).
  - intros i. rewrite E9.
    assert (E : gate_at (k_mem (b_k s)) (im_idt im) (int_vector i) = gate_at m (im_idt im) (int_vector i)); [|by rewrite E].
    apply gate_agree. intros a Ha. apply Hm, Hi. unfold in_idt. destruct i; cbn [int_vector] in Ha; lia.
Qed.

Lemma start_interrupts_spec s :
  tables_found t hpet (k_mem (b_k s)) -> la_msr la (b_dev s) = la_msr la (b_dev s0) ->
  runs (Boot.start_interrupts im t) s (fun _ s' => apics_ready (io := io) (la := la) (b_dev s') /\ b_if s' = true /\
    b_k s' = b_k s /\ b_kbd s' = b_kbd s /\ b_seg s' = b_seg s /\ b_idtr s' = b_idtr s /\ b_regs s' = b_regs s).
Proof.
  intros F Hmsr. pose proof (tf_la _ _ _ F) as Fla. pose proof (tf_io _ _ _ F) as Fio.
  assert (Hla : 0 <= la < 2 ^ 32) by (rewrite <- Fla; apply load_range).
  assert (Hio : 0 <= io < 2 ^ 32) by (rewrite <- Fio; apply load_range).
  unfold Boot.start_interrupts. apply runs_bind, runs_on_dev. eapply runs_mono.
  { eapply runs_bind_inv, (apics_init Hio Hla (im_junk im)). rewrite Hmsr. apply (bp_apic _ _ _ _ _ Hpre). }
  intros [] d1 H1. apply runs_bind, runs_modify, runs_bind, runs_gets. cbn [b_k]. rewrite Fio, Fla.
  apply runs_bind, runs_on_dev. eapply runs_mono; [eapply runs_bind_inv, H1|]. intros [] d2 H2.
  apply runs_on_dev. eapply runs_mono; [apply H2|]. intros [] d3 H3. by split_and!.
Qed.

(** The state in which [_start] enters its self test. *)
Record booted (blocks : Z) s : Prop := {
  bo_space : address_space s;
  bo_heap : kheap (im_pml4 im) blocks [mkBlk blocks 4064 true] [] (b_k s);
  bo_gates : gates_set (k_mem (b_k s));
  bo_idtr : b_idtr s = mkIdtr 4096 (im_idt im);
  bo_seg : b_seg s = (Gdt.init (im_gdt im) (b_seg s0)).2;
  bo_if : b_if s = true;
  bo_apics : apics_ready (io := io) (la := la) (b_dev s);
  bo_kbd : b_kbd s = Kb.make
}.

(** The heap on top of the address space. *)
Lemma heap_on_space s k : address_space s ->
  paging_ok (im_pml4 im) k ->
  (forall va, 0 <= va < 2 ^ 48 -> translate (k_mem (b_k s)) (im_pml4 im) va = Some va -> translate (k_mem k) (im_pml4 im) va = Some va) ->
  address_space (set_k s k).
Proof.
  intros [A1 A2 A3 A4 A5] Hok Htr.
  assert (Hid : forall a n, region_ok a n -> identity_mapped (im_pml4 im) (b_k s) a (id_pages n) ->
    identity_mapped (im_pml4 im) k a (id_pages n)).
  { intros a n (R1 & R2 & R3) Hi va Hva. apply Htr; [|by apply Hi]. zdm. }
  split; cbn [set_k b_k b_regs]; try done.
  - intros i Hi. apply Hid; [by apply (mo_regions _ _ _ _ Hmo)|by apply A4].
  - intros a n Hn. apply Hid; [|by apply A5].
    pose proof (mo_devices _ _ _ _ Hmo) as Hd. rewrite Forall_forall in Hd. apply (Hd (a, n) Hn).
Qed.

Lemma boot_runs :
  runs (Boot.init im bd) s0 (fun blocks s => booted blocks s /\ blocks / 4096 <= last_free_idx (k_pmem (b_k s)) /\
    blocks mod 4096 = 0).
Proof.
  pose proof (boot_entries _ _ (mo_boot _ _ _ _ Hmo)) as [He _].
  assert (Hfb : exists fb, Fb.make boot_fb_data = Done fb /\ Fb.get_fb_addr fb = fd_base_addr boot_fb_data /\
    fb_b_size fb = fd_b_size boot_fb_data).
  { unfold Fb.make. rewrite (proj2 (Z.eqb_neq _ _) (bp_fb _ _ _ _ _ Hpre)). eexists. by split_and!. }
  destruct Hfb as (fb & Efb & Hfa & Hfs). unfold Boot.init.
  apply runs_bind. eapply runs_mono; [by apply (start_console_spec im bd s0 fb (bp_bd _ _ _ _ _ Hpre))|].
  intros r s1 (-> & M1 & K1 & R1 & G1 & I1 & D1).
  apply runs_bind. eapply runs_mono; [by apply start_pmem_spec|]. intros [] s2 (S2 & (K2 & R2 & G2 & T2 & I2 & D2) & M2).
  apply runs_bind. eapply runs_mono; [apply start_cpu_spec|]. intros [] s3 [(K3 & R3 & G3 & T3 & I3 & D3) P3].
  pose proof (staged_printed _ _ S2 P3 D3) as S3.
  apply runs_bind. eapply runs_mono; [apply (staged_tables s3 S3)|].
  { intros a Ha. destruct P3 as [-> _]. by apply M2. }
  intros [] s4 (S4 & H4 & K4 & G4 & T4). pose proof (staged_found s4 S4) as F4.
  apply runs_bind. eapply runs_mono.
  { apply (start_acpi_spec im s4 _ t); [apply (tf_madt _ _ _ F4)|apply (tf_lapic _ _ _ F4)|apply (tf_ioapic _ _ _ F4)|
      apply (tf_hpet _ _ _ F4)|apply (tf_nonnull _ _ _ F4)]. }
  intros t' s5 (-> & (K5 & R5 & G5 & T5 & I5 & D5) & P5). pose proof (staged_printed _ _ S4 P5 D5) as S5.
  apply runs_bind. eapply runs_mono; [by apply (start_paging_spec s5 fb S5)|].
  intros [] s6 (A6 & V6 & Q6 & L6 & K6 & G6 & T6 & I6).
  assert (F6 : tables_found t hpet (k_mem (b_k s6))).
  { apply (bp_found _ _ _ _ _ Hpre). intros a Ha. destruct (bp_tables _ _ _ _ _ Hpre a Ha) as [[Hf Hne] Hi].
    destruct (Q6 a Hf) as [_ ->]; [|done]. apply (sg_mem _ S5); [apply Hf|done]. }
  apply runs_bind. eapply runs_mono; [by apply start_interrupts_spec|].
  intros [] s7 (H7 & I7 & B7 & K7 & G7 & T7 & R7). apply runs_on_k. rewrite B7.
  eapply runs_mono; [apply (heap_construct_spec (im_pml4 im) (b_k s6)); [apply (as_ok _ A6)|done]|].
  intros b k (O1 & O2 & O3 & _ & O4 & O5 & O8 & O6 & O7). split; [|by split_and!].
  split; cbn [set_k b_k b_idtr b_seg b_if b_dev b_kbd]; try done; try congruence.
  - apply heap_on_space; [|done|by rewrite B7]. destruct A6 as [? ? ? ? ?]. by split; rewrite ?B7, ?R7.
  - split; [done..|]. intros c a ->%list_elem_of_singleton Ha. apply O8. unfold in_blk, b_end, HDR in Ha. simpl in Ha. lia.
  - eapply (gates_kept (k_mem (b_k s4))); [done|]. intros a Ha. destruct (bp_idt _ _ _ _ _ Hpre a Ha) as [Hf _].
    rewrite O7 by apply (Q6 a Hf). rewrite (idt_kept s5 s6 a) by done. by destruct P5 as [-> _].
Qed.

(** C6: the start of the kernel, from the hand-over of the bootloader to its
    self test.  If the hand-over is complete and the frames below the bitmap suffice,
    [_start] gets through all its constructors, and leaves an address space in which
    the memory map and the device regions are mapped to themselves (the first
    [n / 4097 + 1] pages of each), CR3 and the paging
    bits set, a heap of one free block of 4064 bytes in the invariant that serves its clients
    ([kheap]), the five gates of the IDT
    with the addresses of the handlers, interrupts enabled, and the local and I/O APICs
    ready to deliver timer and keyboard. *)
Theorem boot_init_correct : runs (Boot.init im bd) s0 booted.
Proof. eapply runs_mono; [exact boot_runs|]. by intros blocks s [H1 _]. Qed.

(** C32: the start of the kernel as it is written dereferences a null pointer.  When
    eight frames and two neighbouring ones are left below the bitmap after the
    constructors, the self test of the heap reaches, before the PS/2 controller is set
    up, an access to a member of a block through a null pointer (the [free] that merges the
    last block of the list, heap.cpp line 184).  This is undefined behaviour of the C++
    program, and the model ends there.  What the machine does with the access is not part
    of the claim: with the tables that [Paging::init] builds, the page at address 0 is
    mapped when a descriptor of the memory map starts there. *)
Theorem boot_self_test_dereferences_null fuel :
  (12 <= fuel)%nat ->
  (forall blocks s, Boot.init im bd s0 = Done (blocks, s) -> 8 <= avail (b_k s) /\ exists b0, spare_run (b_k s) b0 2) ->
  Boot._start im fuel bd s0 = Fail NullDeref.
Proof.
  intros Hf Hrun. destruct boot_runs as (blocks & s & E & [Hsp [Hi _ Hpr _] _ _ _ _ _ _] & Hl & Hb).
  destruct (Hrun blocks s E) as [Hav [b0 Hb0]]. unfold Boot._start. rewrite (bind_done _ _ _ _ _ E).
  apply bind_fail. unfold Boot.on_k.
  rewrite (self_test_of_new_heap (im_pml4 im) blocks b0 (b_k s) fuel); [done|done|apply (as_ok _ Hsp)|done..].
Qed.

End Run.
End Start.
