(* ===== verification/BootSample.v ===== *)
(** * BootSample: the start of the kernel on the simulated machine *)
From Stdlib Require Import String.
From S2P Require Import Prelude Memory Libc Printf Bitmap MMap PMem Paging PagingInit PagingProps Heap HeapSpec HeapInv HeapGrow HeapProps Framebuffer Console Machine Sim Keyboard Acpi Apic Hpet Descriptors CpuInfo Kernel BootMem Boot BootDev BootProps.

(** 137 frames: the lowest 16 are reserved, two ranges are free, and the second,
    from frame 76 on, is the larger one and gets the bitmap.  The reserved frames
    hold the ACPI tables (from 0x1000), the memory map (0x5000), the data of the
    bootloader (0x6000), the allocator (0x7000), the PML4 (0x8000) and the IDT (0x9000). *)
Definition put_desc (m : mem) (i type paddr pages : Z) : mem :=
  let p := 0x5000 + 48 * i in write64 (write64 (write32 m p type) (p + 8) paddr) (p + 24) pages.

Definition bsample_mem : mem :=
  let m := put_bytes ∅ 0x1000 (cs "RSD PTR ") in
  let m := write32 m 0x1010 0x2000 in
  let m := put_bytes m 0x2000 (cs "RSDT") in
  let m := write32 m 0x2004 44 in
  let m := write32 m 0x2024 0x3000 in
  let m := write32 m 0x2028 0x4000 in
  let m := put_bytes m 0x3000 (cs "APIC") in
  let m := write32 m 0x3004 64 in
  let m := write32 m 0x3024 LAPIC_BASE in
  let m := put_bytes m 0x302c [0; 8; 0; 0; 1; 0; 0; 0; 1; 12; 0; 0] in
  let m := write32 m 0x3038 IOAPIC_BASE in
  let m := put_bytes m 0x4000 (cs "HPET") in
  let m := write64 m 0x402c HPET_BASE in
  let m := put_bytes m 0x4800 (cs "HPETAPICRSDTRSD PTR ") in
  let m := put_desc m 0 0 0 16 in
  let m := put_desc m 1 7 0x10000 60 in
  let m := put_desc m 2 7 0x4c000 61 in
  let m := write64 (write64 (write64 (write64 m 0x6000 0x6100) 0x6008 0x6200) 0x6010 0x6300) 0x6018 0x1000 in
  let m := write64 (write64 (write64 m 0x6100 0xfd000000) 0x6108 0xfd001000) 0x6110 256 in
  let m := write8 (write16 (write16 (write16 m 0x6118 8) 0x611a 8) 0x611c 8) 0x611e 4 in
  let m := write64 (write8 (write8 (write64 m 0x6200 0x6400) 0x6208 2) 0x6209 2) 0x6210 0x6500 in
  write64 (write64 (write64 (write64 m 0x6300 0x5000) 0x6308 144) 0x6310 48) 0x6318 3.

Definition bsample_image : image :=
  mkImage 0x8000 0x7000 0x9000 0x7800 (fun i => 0x7900 + int_vector i) 0x480c 0x4808 0x4804 0x4800 0.

Definition bsample_con : Console := mkConsole (mkFont 0 0 0 0) (mkFb 0 0 0 0 0 0 0) Cur.make ∅.
Definition bsample : bst sim :=
  mkB (mkK bsample_mem (mkPMem 0 0 0 0 (mkBitmap 0 0 0)) bsample_con) Kb.make (mkInfo [] 0 0 0 0 [] false 0 0)
    (Pg.mkRegs 0 0 0 0) (Gdt.mkSegRegs (Gdt.gdtr 0) 0 0) (mkIdtr 0 0) false sim0.

Definition bsample_env : kenv := boot_kenv bsample_image 0x6000 bsample.
Definition bsample_tables : ACPI_Tables := mkTables 0x3000 0x302c 0x3034 0x4000.

Lemma bsample_frames : init_frames bsample_env bsample_mem = 138.
Proof. by vm_compute. Qed.
Lemma bsample_bitmap : init_seg bsample_env bsample_mem = (0x3d000, 0x4c000) /\ init_size bsample_env bsample_mem = 18.
Proof. by vm_compute. Qed.
Lemma bsample_desc i : 0 <= i < 3 -> MM.get_desc (e_mmap bsample_env) i = 0x5000 + 48 * i.
Proof. intros Hi. assert (i = 0 \/ i = 1 \/ i = 2) as [->|[->| ->]] by lia; by vm_compute. Qed.

(** The reserved frames are not handed out. *)
Lemma bsample_reserved k : 0 <= k < 16 -> freeb bsample_env bsample_mem k = false.
Proof.
  intros Hk. assert (Hb : forallb (fun k => negb (freeb bsample_env bsample_mem k)) (seqZ 0 16) = true) by by vm_compute.
  rewrite forallb_forall in Hb. specialize (Hb k). rewrite negb_true_iff in Hb. apply Hb.
  apply list_elem_of_In, elem_of_seqZ. lia.
Qed.

Lemma bsample_fixed a : 0 <= a < 0x10000 -> a / 4096 <> 8 -> fixed bsample_env bsample_mem 0x8000 a.
Proof.
  intros Ha Hn. destruct bsample_bitmap as [E1 E2]. unfold fixed. rewrite bsample_frames, E1, E2. cbn [snd].
  split_and!; [zdm..|apply bsample_reserved; zdm|lia|]. unfold in_page, PAGE_SZ, FRAME_SZ. zdm.
Qed.

Lemma bsample_covers i k : 0 <= i < 3 -> covers bsample_env bsample_mem i k -> 16 <= k < 137.
Proof.
  intros Hi [Hu Hr]. assert (i = 0 \/ i = 1 \/ i = 2) as [->|[->| ->]] by lia; [by vm_compute in Hu|..].
  - replace (init_desc bsample_env bsample_mem 1) with (mkDesc 7 0 0x10000 0 60 0) in Hr by by vm_compute.
    cbn [d_paddr d_pages] in Hr. unfold FRAME_SZ in Hr. change (0x10000 / 4096) with 16 in Hr. lia.
  - replace (init_desc bsample_env bsample_mem 2) with (mkDesc 7 0 0x4c000 0 61 0) in Hr by by vm_compute.
    cbn [d_paddr d_pages] in Hr. unfold FRAME_SZ in Hr. change (0x4c000 / 4096) with 76 in Hr. lia.
Qed.

Lemma bsample_boot_ok : boot_ok bsample_env bsample_mem.
Proof.
  destruct bsample_bitmap as [E1 E2]. split; rewrite ?bsample_frames, ?E1, ?E2; cbn [fst snd]; clear E1 E2.
  - done.
  - done.
  - split; vm_compute; done.
  - intros i a Hi. rewrite bsample_desc by done. change (0 <= i < 3) in Hi. lia.
  - intros i k Hi Hc. apply bsample_covers in Hc; [lia|done].
  - split; vm_compute; done.
  - split; vm_compute; done.
Qed.

Definition bsample_regions : Pg.regions := Pg.mkRegions 0xfd000000 256 LAPIC_BASE IOAPIC_BASE HPET_BASE 160.

Lemma bsample_memory_ok : memory_ok bsample_env bsample_mem 0x8000 bsample_regions.
Proof.
  split; rewrite ?bsample_frames.
  - apply bsample_boot_ok.
  - done.
  - by vm_compute.
  - done.
  - split; [by vm_compute|]. by apply bsample_reserved.
  - destruct bsample_bitmap as [-> ->]. left. cbn. lia.
  - intros i a Hi. rewrite bsample_desc by done. change (0 <= i < 3) in Hi. intros Ha.
    split_and!; [zdm..|apply bsample_reserved; zdm|]. unfold in_page, PAGE_SZ, FRAME_SZ. zdm.
  - intros i Hi. change (0 <= i < 3) in Hi. assert (i = 0 \/ i = 1 \/ i = 2) as [->|[->| ->]] by lia; by vm_compute.
  - repeat constructor; by vm_compute.
  - by vm_compute.
Qed.

(** The searches read the tables only. *)
Lemma bsample_found m' : (forall a, 0x1000 <= a < 0x4900 -> mget m' a = mget bsample_mem a) ->
  tables_found (io := IOAPIC_BASE) (la := LAPIC_BASE) bsample_image 0x6000 bsample bsample_tables HPET_BASE m'.
Proof.
  intros Hm. split.
  - rewrite (sdt_get_header_within 0x1000 0x4900 bsample_mem) by (done || by vm_compute). by vm_compute.
  - unfold Acpi.ics_get_header. rewrite (ics_loop_within 0x1000 0x4900 bsample_mem) by (done || by vm_compute). by vm_compute.
  - unfold Acpi.ics_get_header. rewrite (ics_loop_within 0x1000 0x4900 bsample_mem) by (done || by vm_compute). by vm_compute.
  - rewrite (sdt_get_header_within 0x1000 0x4900 bsample_mem) by (done || by vm_compute). by vm_compute.
  - by vm_compute.
  - unfold madt_lapic_addr, read32. rewrite (load_within 0x1000 0x4900 bsample_mem) by (done || by vm_compute). by vm_compute.
  - unfold io_apic_addr, read32. rewrite (load_within 0x1000 0x4900 bsample_mem) by (done || by vm_compute). by vm_compute.
  - unfold hpet_base_address, read64. rewrite (load_within 0x1000 0x4900 bsample_mem) by (done || by vm_compute). by vm_compute.
Qed.

Lemma bsample_pre :
  boot_pre (io := IOAPIC_BASE) (la := LAPIC_BASE) bsample_image 0x6000 bsample bsample_tables HPET_BASE 160 0x1000 0x4900.
Proof.
  split.
  - done.
  - by vm_compute.
  - eexists. split; [by vm_compute|done].
  - exact bsample_memory_ok.
  - intros a Ha. change (0x9000 <= a < 0x9000 + 4096) in Ha. split; [apply bsample_fixed; zdm|lia].
  - intros i a Hi. change (0 <= i < 3) in Hi. change (boot_mmap 0x6000 bsample) with (e_mmap bsample_env).
    rewrite bsample_desc by done. unfold in_idt. cbn. lia.
  - intros []; by vm_compute.
  - intros a Ha. split; [split; [apply bsample_fixed; zdm|lia]|]. unfold in_idt. cbn. lia.
  - exact bsample_found.
  - by vm_compute.
Qed.

Lemma boot_init_correct_witness :
  runs (Boot.init bsample_image 0x6000) bsample
    (booted (io := IOAPIC_BASE) (la := LAPIC_BASE) bsample_image 0x6000 bsample HPET_BASE 160).
Proof. apply (boot_init_correct bsample_image 0x6000 bsample bsample_tables HPET_BASE 160 0x1000 0x4900 bsample_pre). Defined.

Lemma boot_self_test_dereferences_null_witness : Boot._start bsample_image 12 0x6000 bsample = Fail NullDeref.
Proof.
  apply (boot_self_test_dereferences_null bsample_image 0x6000 bsample bsample_tables HPET_BASE 160 0x1000 0x4900 bsample_pre); [lia|].
  intros blocks s E. apply (f_equal (fun o => match o with Done (_, s) => b_k s | Fail _ => b_k bsample end)) in E.
  rewrite <- E. split; [by vm_compute|]. exists 40. split; [|by vm_compute]. split_and!; [by vm_compute..|].
  intros k Hk. assert (k = 40 \/ k = 41) as [->| ->] by lia; by vm_compute.
Defined.
