(* ===== verification/Efi.v ===== *)
(** * Efi: the bootloader's firmware, messages and files

    The bootloader (src/bootloader) calls the services of the UEFI firmware, which
    is not part of this program: the class [Efi] lists the services it uses, over a
    state [F] of the firmware.  Here are its utils.c, and file.c on top of them. *)
From Stdlib Require Import String.
From S2P Require Import Prelude Memory Bitmap Libc.

(** Status codes: errors have the top bit set. *)
Definition EFI_STATUS : Type := Z.
Definition EFI_ERR (code : Z) : EFI_STATUS := 2 ^ 63 + code.
Definition EFI_SUCCESS : EFI_STATUS := 0.
Definition EFI_LOAD_ERROR : EFI_STATUS := EFI_ERR 1.
Definition EFI_UNSUPPORTED : EFI_STATUS := EFI_ERR 3.
Definition EFI_BUFFER_TOO_SMALL : EFI_STATUS := EFI_ERR 5.
Definition EFI_ABORTED : EFI_STATUS := EFI_ERR 21.

(** The protocols that the bootloader opens. *)
Inductive protocol : Type := LoadedImageProtocol | SimpleFileSystemProtocol | GraphicsOutputProtocol.

(** The services.  A service returns its status, and the new contents of the
    variables whose addresses it gets; [old] is the contents before the call.  The
    services that fill a buffer return the bytes they write to it. *)
Class Efi (F : Type) : Type := {
  AllocatePool (size old : Z) : F -> EFI_STATUS * Z * F;
  AllocatePages (pages addr : Z) : F -> EFI_STATUS * Z * F;
  OpenProtocol (handle : Z) (p : protocol) (agent old : Z) : F -> EFI_STATUS * Z * F;
  LocateProtocol (p : protocol) (old : Z) : F -> EFI_STATUS * Z * F;
  OpenVolume (fs old : Z) : F -> EFI_STATUS * Z * F;
  FileOpen (dir : Z) (name : string) (old : Z) : F -> EFI_STATUS * Z * F;
  FileSetPosition (file pos : Z) : F -> EFI_STATUS * F;
  FileRead (file size : Z) : F -> EFI_STATUS * Z * list Z * F;
  FileGetInfo (file size : Z) : F -> EFI_STATUS * Z * list Z * F;
  GetMemoryMap (size key desc_sz : Z) : F -> EFI_STATUS * (Z * Z * Z) * list Z * F;
  ExitBootServices (handle key : Z) : F -> EFI_STATUS * F;
  (** Printing, on the console output of the firmware: [Print] of the EFI library. *)
  OutputString (fmt : string) (args : list string) : F -> F;
  (** The fields of the firmware's structures that the bootloader reads. *)
  DeviceHandle (loaded_image : Z) : F -> Z;
  FrameBufferBase (gop : Z) : F -> Z;
  FrameBufferSize (gop : Z) : F -> Z;
  HorizontalResolution (gop : Z) : F -> Z;
  VerticalResolution (gop : Z) : F -> Z;
  PixelsPerScanLine (gop : Z) : F -> Z;
  ConfigurationTable : F -> list (Z * Z);
  (** The constant and the comparison of the EFI library. *)
  ACPI_TABLE_GUID : Z;
  CompareGuid : Z -> Z -> Z
}.

(** The state of the bootloader: memory, firmware, what was printed, and the call
    of the kernel: its entry point and the address of the [BootloaderData]. *)
Record est (F : Type) : Type := mkE {
  e_mem : mem;
  e_fw : F;
  e_out : list (string * list string);
  e_jump : option (Z * Z)
}.
Arguments mkE {_}. Arguments e_mem {_}. Arguments e_fw {_}. Arguments e_out {_}. Arguments e_jump {_}.

Module Utils.

Definition STATUSES : list string :=
  ["success"; "load error"; "invalid parameter"; "unsupported"; "bad buffer size"; "buffer too small"; "not ready";
   "device error"; "write protected"; "out of resources"; "volume corrupted"; "volume full"; "no media";
   "media changed"; "not found"; "access denied"; "no response"; "no mapping"; "timeout"; "not started";
   "already started"; "aborted"; "ICMP error"; "TFTP error"; "protocol error"; "incompatible version";
   "security violation"; "CRC error"; "end of media"; "end of file"; "invalid language"; "compromised data";
   "undefined status"]%string.
Definition STATUSES_COUNT : Z := 33.

(** An access outside the array is a fault. *)
Definition statuses_at (i : Z) : outcome string :=
  match STATUSES !! Z.to_nat i with Some s => Done s | None => Fail BufferOverflow end.
Definition efi_status_str (_status : EFI_STATUS) : outcome string :=
  let status := u8 _status in
  if 32 <? status then statuses_at (STATUSES_COUNT - 1) else statuses_at status.

(** [memcmp] of utils.c. *)
Fixpoint memcmp_loop (n : nat) (m : mem) (a b : Z) : Z :=
  match n with
  | O => 0
  | S n' => if mget m a <? mget m b then -1 else if mget m b <? mget m a then 1 else memcmp_loop n' m (a + 1) (b + 1)
  end.
Definition memcmp (m : mem) (a_ptr b_ptr n : Z) : Z := memcmp_loop (Z.to_nat n) m a_ptr b_ptr.

Section Print.
Context {F : Type} `{Efi F}.
Abbreviation L := (M (est F)).

(** A message is a call of the firmware, too; [e_out] records the messages. *)
Definition Print (fmt : string) (args : list string) : L unit :=
  modify (fun s => mkE (e_mem s) (OutputString fmt args (e_fw s)) (e_out s ++ [(fmt, args)]) (e_jump s)).
Definition print_efi_err (str : string) (status : EFI_STATUS) : L unit := fun s =>
  match efi_status_str status with
  | Done t => Print "[!] Error: %s (EFI error: %s) \n\r" [str; t] s
  | Fail e => Fail e
  end.
Definition print_err (str : string) : L unit := Print "[!] Error: %s \n\r" [str].

(** Calls of the firmware, memory, and pointers that must not be null. *)
Definition call {A} (f : F -> A * F) : L A := fun s =>
  let '(a, fw) := f (e_fw s) in Done (a, mkE (e_mem s) fw (e_out s) (e_jump s)).
Definition memory : L mem := gets e_mem.
Definition write (f : mem -> mem) : L unit := modify (fun s => mkE (f (e_mem s)) (e_fw s) (e_out s) (e_jump s)).
Definition non_null (p : Z) : L unit := if p =? 0 then fail NullDeref else mret tt.
End Print.
End Utils.

Module File.
Section File.
Context {F : Type} `{Efi F}.
Abbreviation L := (M (est F)).
Import Utils.

(** The services that fill a buffer. *)
Definition Read (file size buf : Z) : L (EFI_STATUS * Z) :=
  '(st, n, bytes) ← call (FileRead file size);
  write (fun m => put_bytes m buf bytes);; mret (st, n).
Definition GetInfo (file size buf : Z) : L (EFI_STATUS * Z) :=
  '(st, n, bytes) ← call (FileGetInfo file size);
  write (fun m => put_bytes m buf bytes);; mret (st, n).

(** The functions return their status and the contents of their out variable. *)
Definition get_image (image_handle loaded_image : Z) : L (EFI_STATUS * Z) :=
  '(status, p) ← call (OpenProtocol image_handle LoadedImageProtocol image_handle loaded_image);
  (if status =? EFI_UNSUPPORTED then print_efi_err "The device doesn't support specified image protocol" status
   else if negb (status =? EFI_SUCCESS) then print_efi_err "Opening EFI Loaded Image Protocol failed" status
   else mret tt);;
  mret (status, p).

Definition get_root_fs (image_handle loaded_image root_fs : Z) : L (EFI_STATUS * Z) :=
  non_null loaded_image;;
  dev ← gets (fun s => DeviceHandle loaded_image (e_fw s));
  '(status, p) ← call (OpenProtocol dev SimpleFileSystemProtocol image_handle root_fs);
  (if status =? EFI_UNSUPPORTED then print_efi_err "The device does not support specified file system protocol" status
   else if negb (status =? EFI_SUCCESS) then print_efi_err "Opening EFI Simple File System failed" status
   else mret tt);;
  mret (status, p).

Definition get_root_dir (root_fs dir : Z) : L (EFI_STATUS * Z) :=
  non_null root_fs;;
  '(status, p) ← call (OpenVolume root_fs dir);
  (if negb (status =? EFI_SUCCESS) then print_efi_err "Accessing root directory failed" status else mret tt);;
  mret (status, p).

Definition get_file (dir : Z) (file_name : string) (file : Z) : L (EFI_STATUS * Z) :=
  non_null dir;;
  '(status, p) ← call (FileOpen dir file_name file);
  (if negb (status =? EFI_SUCCESS) then print_efi_err "Fail during opening file" status else mret tt);;
  mret (status, p).

Definition get_file_info (file file_info : Z) : L (EFI_STATUS * Z) :=
  non_null file;;
  '(status, file_size) ← GetInfo file 0 0;
  if negb (status =? EFI_BUFFER_TOO_SMALL) then
    print_efi_err "First GetInfo() should return BUFFER_TO_SMALL" status;; mret (EFI_ABORTED, file_info)
  else
  '(status, p) ← call (AllocatePool file_size file_info);
  if negb (status =? EFI_SUCCESS) then print_efi_err "Memory allocation failed" status;; mret (status, p)
  else
  '(status, _) ← GetInfo file file_size p;
  (if negb (status =? EFI_SUCCESS) then print_efi_err "Get file info failed" status else mret tt);;
  mret (status, p).

Definition load_file (dir : Z) (file_name : string) (image_handle : Z) : L Z :=
  '(st, loaded_image) ← get_image image_handle 0;
  if negb (st =? EFI_SUCCESS) then mret 0 else
  '(st, root_fs) ← get_root_fs image_handle loaded_image 0;
  if negb (st =? EFI_SUCCESS) then mret 0 else
  '(st, dir) ← (if dir =? 0 then get_root_dir root_fs dir else mret (EFI_SUCCESS, dir));
  if negb (st =? EFI_SUCCESS) then mret 0 else
  '(st, file) ← get_file dir file_name 0;
  if negb (st =? EFI_SUCCESS) then mret 0 else
  mret file.

End File.
End File.
