(* ===== verification/Loader.v ===== *)
(** * Loader: what the bootloader loads

    kernel_loader.c (the kernel's ELF file), font.c (the PSF font), gop.c (the
    framebuffer) and acpi.c (the RSDP) of src/bootloader. *)
From Stdlib Require Import String.
From S2P Require Import Prelude Memory Bitmap Libc Efi.

(** ** The ELF header and the program headers, elf.h *)
Module Elf.
Definition EHDR_SZ : Z := 64.
Definition e_ident (m : mem) (h i : Z) : Z := read8 m (h + i).
Definition e_type (m : mem) (h : Z) : Z := read16 m (h + 16).
Definition e_machine (m : mem) (h : Z) : Z := read16 m (h + 18).
Definition e_version (m : mem) (h : Z) : Z := read32 m (h + 20).
Definition e_entry (m : mem) (h : Z) : Z := read64 m (h + 24).
Definition e_phoff (m : mem) (h : Z) : Z := read64 m (h + 32).
Definition e_phentsize (m : mem) (h : Z) : Z := read16 m (h + 54).
Definition e_phnum (m : mem) (h : Z) : Z := read16 m (h + 56).

Definition p_type (m : mem) (p : Z) : Z := read32 m p.
Definition p_offset (m : mem) (p : Z) : Z := read64 m (p + 8).
Definition p_paddr (m : mem) (p : Z) : Z := read64 m (p + 24).
Definition p_filesz (m : mem) (p : Z) : Z := read64 m (p + 32).
Definition p_memsz (m : mem) (p : Z) : Z := read64 m (p + 40).

Definition ELFMAG : list Z := [0x7f; 0x45; 0x4c; 0x46].
Definition SELFMAG : Z := 4.
Definition EI_MAG0 : Z := 0.
Definition EI_CLASS : Z := 4.
Definition EI_DATA : Z := 5.
Definition ELFCLASS64 : Z := 2.
Definition ELFDATA2LSB : Z := 1.
Definition ET_EXEC : Z := 2.
Definition EM_X86_64 : Z := 62.
Definition EV_CURRENT : Z := 1.
Definition PT_LOAD : Z := 1.
End Elf.

Module KernelLoader.
Section Loader.
Context {F : Type} `{Efi F}.
Abbreviation L := (M (est F)).
Import Utils File Elf.

Definition PAGE_SZ : Z := 0x1000.

(** The comparison gets the first byte of the file as the address, 0x7f for an ELF
    file; [elfmag] is the address of the string literal.  No address below 256 is special
    to [memcmp]: the firmware maps low memory, and the bytes there are compared. *)
Definition verify_kernel_elf_header (m : mem) (elfmag e_hdr : Z) : bool :=
  (memcmp m (e_ident m e_hdr EI_MAG0) elfmag SELFMAG =? 0) && (e_ident m e_hdr EI_CLASS =? ELFCLASS64) &&
  (e_ident m e_hdr EI_DATA =? ELFDATA2LSB) && (e_type m e_hdr =? ET_EXEC) && (e_machine m e_hdr =? EM_X86_64) &&
  (e_version m e_hdr =? EV_CURRENT).

Definition get_elf_header (file e_hdr : Z) : L EFI_STATUS :=
  status ← call (FileSetPosition file 0);
  if negb (status =? EFI_SUCCESS) then print_efi_err "Jumping at the beginning of ELF failed" status;; mret status
  else
  '(status, _) ← Read file EHDR_SZ e_hdr;
  (if negb (status =? EFI_SUCCESS) then print_efi_err "Reading ELF header failed" status else mret tt);;
  mret status.

(** The product of two [UINT16] is an [int], which is extended to 64 bits. *)
Definition int_product (a b : Z) : Z := u64 ((a * b + 2 ^ 31) mod 2 ^ 32 - 2 ^ 31).

Definition get_elf_p_hdrs (file e_hdr p_hdrs : Z) : L (EFI_STATUS * Z) :=
  m ← memory;
  let all_p_hdrs_sz := int_product (e_phentsize m e_hdr) (e_phnum m e_hdr) in
  '(status, p_hdrs) ← call (AllocatePool all_p_hdrs_sz p_hdrs);
  if negb (status =? EFI_SUCCESS) then
    print_efi_err "Allocating memory for ELF p_hdrs failed" status;; mret (status, p_hdrs)
  else
  status ← call (FileSetPosition file (e_phoff m e_hdr));
  if negb (status =? EFI_SUCCESS) then
    print_efi_err "Jumping at e_phoff in ELF file failed" status;; mret (status, p_hdrs)
  else
  '(status, _) ← Read file all_p_hdrs_sz p_hdrs;
  (if negb (status =? EFI_SUCCESS) then print_efi_err "Reading ELF program headers failed" status else mret tt);;
  mret (status, p_hdrs).

Definition _get_next_p_hdr (p_hdr p_hdr_size : Z) : Z := u64 (p_hdr + p_hdr_size).

Definition load_elf_segment_by_p_hdr (file p_hdr : Z) : L EFI_STATUS :=
  m ← memory;
  let num_of_pages := u16 (p_filesz m p_hdr / PAGE_SZ + 1) in
  '(status, segment_paddr) ← call (AllocatePages num_of_pages (p_paddr m p_hdr));
  if negb (status =? EFI_SUCCESS) then print_efi_err "Memory allocation for ELF segment failed" status;; mret status
  else
  status ← call (FileSetPosition file (p_offset m p_hdr));
  if negb (status =? EFI_SUCCESS) then print_efi_err "Jumping at segment offset" status;; mret status
  else
  '(status, _) ← Read file (p_filesz m p_hdr) segment_paddr;
  (if negb (status =? EFI_SUCCESS) then print_efi_err "Reading one of ELF's PT_LOAD segments failed" status else mret tt);;
  mret status.

(** The loop over the program headers; [false] for the early return. *)
Fixpoint load_loop (n : nat) (file i p_hdr phentsize : Z) : L bool :=
  match n with
  | O => mret true
  | S n' =>
    let p_hdr := if 0 <? i then _get_next_p_hdr p_hdr phentsize else p_hdr in
    non_null p_hdr;;
    m ← memory;
    ok ← (if p_type m p_hdr =? PT_LOAD then
            status ← load_elf_segment_by_p_hdr file p_hdr; mret (status =? EFI_SUCCESS)
          else mret true);
    if (ok : bool) then load_loop n' file (i + 1) p_hdr phentsize else mret false
  end.

(** [e_hdr] is the address of the local variable, which no load may touch. *)
Definition load_kernel_into_memory (elfmag e_hdr kernel_file : Z) : L Z :=
  st ← get_elf_header kernel_file e_hdr;
  if negb (st =? EFI_SUCCESS) then mret 0 else
  m ← memory;
  if verify_kernel_elf_header m elfmag e_hdr then print_err "Kernel ELF format is bad";; mret 0 else
  '(st, p_hdrs) ← get_elf_p_hdrs kernel_file e_hdr 0;
  if negb (st =? EFI_SUCCESS) then mret 0 else
  m ← memory;
  ok ← load_loop (Z.to_nat (e_phnum m e_hdr)) kernel_file 0 p_hdrs (e_phentsize m e_hdr);
  if (ok : bool) then m ← memory; mret (e_entry m e_hdr) else mret 0.

End Loader.
End KernelLoader.

Module Font.
Section Font.
Context {F : Type} `{Efi F}.
Abbreviation L := (M (est F)).
Import Utils File.

Definition GLYPH_WIDTH : Z := 8.
Definition GLYPH_HEIGHT : Z := 16.
Definition PSF1_MAGIC : Z := 0x3604.
Definition PSF1_MODE512 : Z := 0x01.
Definition PSF_HEADER_SZ : Z := 4.
Definition PSF_FONT_SZ : Z := 24.

(** [Psf1_header] *)
Definition psf_magic (m : mem) (h : Z) : Z := read16 m h.
Definition psf_mode (m : mem) (h : Z) : Z := read8 m (h + 2).
Definition psf_charsize (m : mem) (h : Z) : Z := read8 m (h + 3).

Definition get_psf_header (psf_file psf_header : Z) : L (EFI_STATUS * Z) :=
  '(status, p) ← call (AllocatePool PSF_HEADER_SZ psf_header);
  if negb (status =? EFI_SUCCESS) then print_efi_err "Allocating memory for PSF header failed" status;; mret (status, p)
  else
  '(status, _) ← Read psf_file PSF_HEADER_SZ p;
  (if negb (status =? EFI_SUCCESS) then print_efi_err "Reading PSF header failed" status else mret tt);;
  mret (status, p).

Definition verify_psf_header (m : mem) (psf_header : Z) : bool := psf_magic m psf_header =? PSF1_MAGIC.

Definition get_psf_glyphs (psf_file glyphs_buf_sz glyphs_buf : Z) : L (EFI_STATUS * Z) :=
  status ← call (FileSetPosition psf_file PSF_HEADER_SZ);
  if negb (status =? EFI_SUCCESS) then print_efi_err "Jumping at PSF glyphs buffer failed" status;; mret (status, glyphs_buf)
  else
  '(status, p) ← call (AllocatePool glyphs_buf_sz glyphs_buf);
  if negb (status =? EFI_SUCCESS) then print_efi_err "Allocating memory for PSF glyphs failed" status;; mret (status, p)
  else
  '(status, _) ← Read psf_file glyphs_buf_sz p;
  (if negb (status =? EFI_SUCCESS) then print_efi_err "Reading PSF glyphs failed" status else mret tt);;
  mret (status, p).

(** The stores to the fields of [Psf1_font]. *)
Definition set_font (p psf_header glyphs_buf : Z) (m : mem) : mem :=
  write8 (write8 (write64 (write64 m p psf_header) (p + 16) glyphs_buf) (p + 8) GLYPH_HEIGHT) (p + 9) GLYPH_WIDTH.

Definition load_psf_font (dir : Z) (path : string) (image_handle : Z) : L Z :=
  psf_file ← load_file dir path image_handle;
  if psf_file =? 0 then print_err "Loading PSF file failed";; mret 0 else
  '(st, psf_header) ← get_psf_header psf_file 0;
  if negb (st =? EFI_SUCCESS) then mret 0 else
  non_null psf_header;;
  m ← memory;
  if verify_psf_header m psf_header then print_err "Invalid PSF file header";; mret 0 else
  let glyphs_buf_sz :=
    if psf_mode m psf_header =? PSF1_MODE512 then psf_charsize m psf_header * 512 else psf_charsize m psf_header * 256 in
  '(st, glyphs_buf) ← get_psf_glyphs psf_file glyphs_buf_sz 0;
  if negb (st =? EFI_SUCCESS) then mret 0 else
  '(status, psf_font) ← call (AllocatePool PSF_FONT_SZ 0);
  if negb (status =? EFI_SUCCESS) then print_efi_err "Allocating memory for PSF font struct failed" status;; mret 0
  else
  non_null psf_font;;
  write (set_font psf_font psf_header glyphs_buf);;
  mret psf_font.

End Font.
End Font.

Module Gop.
Section Gop.
Context {F : Type} `{Efi F}.
Abbreviation L := (M (est F)).
Import Utils.

Definition BYTES_PER_PIXEL : Z := 4.
Definition FRAMEBUFFER_SZ : Z := 32.

Definition locate_gop (gop : Z) : L (EFI_STATUS * Z) :=
  '(status, p) ← call (LocateProtocol GraphicsOutputProtocol gop);
  (if negb (status =? EFI_SUCCESS) then print_efi_err "Locate GOP failed" status else mret tt);;
  mret (status, p).

(** The stores to the fields of [Framebuffer]. *)
Definition set_framebuffer (p base size width height scan : Z) (m : mem) : mem :=
  write8 (write16 (write16 (write16 (write64 (write64 m p base) (p + 16) size) (p + 24) width) (p + 26) height)
    (p + 28) scan) (p + 30) BYTES_PER_PIXEL.

Definition get_framebuffer : L Z :=
  '(st, gop) ← locate_gop 0;
  if negb (st =? EFI_SUCCESS) then mret 0 else
  '(status, framebuffer) ← call (AllocatePool FRAMEBUFFER_SZ 0);
  if negb (status =? EFI_SUCCESS) then print_efi_err "Allocating memory for framebuffer struct failed" status;; mret 0
  else
  non_null gop;; non_null framebuffer;;
  fw ← gets e_fw;
  write (set_framebuffer framebuffer (FrameBufferBase gop fw) (FrameBufferSize gop fw) (HorizontalResolution gop fw)
    (VerticalResolution gop fw) (PixelsPerScanLine gop fw));;
  mret framebuffer.

Definition allocate_double_framebuffer (size : Z) : L Z :=
  '(status, buffer) ← call (AllocatePool size 0);
  if negb (status =? EFI_SUCCESS) then print_efi_err "Allocating memory for double framebuffer failed" status;; mret 0
  else mret buffer.

End Gop.
End Gop.

Module Rsdp.
Section Rsdp.
Context {F : Type} `{Efi F}.

(** The loop over the entries of the configuration table. *)
Fixpoint rsdp_loop (entries : list (Z * Z)) : Z :=
  match entries with
  | [] => 0
  | (VendorGuid, VendorTable) :: rest =>
    if CompareGuid VendorGuid ACPI_TABLE_GUID =? 0 then VendorTable else rsdp_loop rest
  end.
Definition get_rsdp : M (est F) Z := gets (fun s => rsdp_loop (ConfigurationTable (e_fw s))).

End Rsdp.
End Rsdp.
