(* ===== verification/Bootloader.v ===== *)
(** * Bootloader: the hand-over to the kernel

    kernel_starter.c and main.c of src/bootloader. *)
From Stdlib Require Import String.
From S2P Require Import Prelude Memory Bitmap Libc Efi Loader.

(** The addresses of the local variables [e_hdr] of [load_kernel_into_memory] and
    [bootloader_data] of [start_kernel], and of the literal [ELFMAG]. *)
Record bl_frame : Type := mkFrame { fr_elfmag : Z; fr_e_hdr : Z; fr_bd : Z }.

Module Starter.
Section Starter.
Context {F : Type} `{Efi F} (fr : bl_frame).
Abbreviation L := (M (est F)).
Import Utils.

Definition KERNEL_STACK_SIZE : Z := 0x1000.
Definition MEMORY_DATA_SZ : Z := 32.

(** A call of [GetMemoryMap]: the status, and the size, the key and the size
    of a descriptor. *)
Definition GetMap (mmap_sz mmap key descriptor_sz : Z) : L (EFI_STATUS * (Z * Z * Z)) :=
  '(st, r, bytes) ← call (GetMemoryMap mmap_sz key descriptor_sz);
  write (fun m => put_bytes m mmap bytes);; mret (st, r).

(** Returns the status and the contents of the four variables; the first call
    passes no address for the key. *)
Definition get_memory_map (mmap_sz mmap mmap_key descriptor_sz : Z) : L (EFI_STATUS * (Z * Z * Z * Z)) :=
  '(status, (mmap_sz, _, descriptor_sz)) ← GetMap mmap_sz mmap 0 descriptor_sz;
  if negb (status =? EFI_BUFFER_TOO_SMALL) then
    print_efi_err "First GetMemoryMap() should return BUFFER_TO_SMALL" status;;
    mret (EFI_ABORTED, (mmap_sz, mmap, mmap_key, descriptor_sz))
  else
  '(status, mmap) ← call (AllocatePool mmap_sz mmap);
  if negb (status =? EFI_SUCCESS) then
    print_efi_err "Allocation for memory map failed" status;; mret (status, (mmap_sz, mmap, mmap_key, descriptor_sz))
  else
  '(status, (mmap_sz, mmap_key, descriptor_sz)) ← GetMap mmap_sz mmap mmap_key descriptor_sz;
  (if negb (status =? EFI_SUCCESS) then print_efi_err "GetMemoryMap() failed" status else mret tt);;
  mret (status, (mmap_sz, mmap, mmap_key, descriptor_sz)).

(** The stores to the fields of [MemoryData]. *)
Definition set_memory_data (p mmap mmap_sz descriptor_sz : Z) (m : mem) : mem :=
  write64 (write64 (write64 (write64 m (p + 16) descriptor_sz) (p + 8) mmap_sz) p mmap) (p + 24) (mmap_sz / descriptor_sz).

(** Returns the pointer and the key.  A failed allocation of the structure is
    reported, and the code goes on with the pointer it has. *)
Definition get_memory_data (mmap_key : Z) : L (Z * Z) :=
  '(status, memory_data) ← call (AllocatePool MEMORY_DATA_SZ 0);
  (if negb (status =? EFI_SUCCESS) then print_efi_err "Allocating memory for memory data struct failed" status else mret tt);;
  '(st, (mmap_sz, mmap, mmap_key, descriptor_sz)) ← get_memory_map 0 0 mmap_key 0;
  if negb (st =? EFI_SUCCESS) then mret (0, mmap_key) else
  non_null memory_data;;
  (if descriptor_sz =? 0 then fail DivideError else mret tt);;
  write (set_memory_data memory_data mmap mmap_sz descriptor_sz);;
  mret (memory_data, mmap_key).

Definition allocate_memory_for_kernel_stack (kernel_stack : Z) : L Z :=
  '(status, p) ← call (AllocatePool KERNEL_STACK_SIZE kernel_stack);
  (if negb (status =? EFI_SUCCESS) then print_efi_err "Memory allocation for kernel stack failed" status else mret tt);;
  mret p.

(** The initialisation of [bootloader_data]. *)
Definition set_bootloader_data (framebuffer psf_font memory_data acpi_rsdp : Z) (m : mem) : mem :=
  write64 (write64 (write64 (write64 m (fr_bd fr) framebuffer) (fr_bd fr + 8) psf_font) (fr_bd fr + 16) memory_data)
    (fr_bd fr + 24) acpi_rsdp.

Definition start_kernel (image_handle framebuffer psf_font kernel_addr acpi_rsdp : Z) : L unit :=
  kernel_stack ← allocate_memory_for_kernel_stack 0;
  if kernel_stack =? 0 then print_err "Kernel stack allocation failed" else
  '(memory_data, mmap_key) ← get_memory_data 0;
  if memory_data =? 0 then print_err "Memory data gathering failed" else
  status ← call (ExitBootServices image_handle mmap_key);
  if negb (status =? EFI_SUCCESS) then print_efi_err "ExitBootServices() failed" status else
  write (set_bootloader_data framebuffer psf_font memory_data acpi_rsdp);;
  modify (fun s => mkE (e_mem s) (e_fw s) (e_out s) (Some (kernel_addr, fr_bd fr))).

End Starter.
End Starter.

Module Main.
Section Main.
Context {F : Type} `{Efi F} (fr : bl_frame).
Abbreviation L := (M (est F)).
Import Utils File KernelLoader Font Gop Rsdp Starter.

(** [framebuffer->double_buffer = buffer] *)
Definition set_double_buffer (framebuffer buffer : Z) (m : mem) : mem := write64 m (framebuffer + 8) buffer.

Definition efi_main (image_handle : Z) : L EFI_STATUS :=
  Print "[*] Starting bootloader... \n\r" [];;
  kernel_file ← load_file 0 "kernel.elf" image_handle;
  if kernel_file =? 0 then print_err "Loading kernel file error";; mret EFI_LOAD_ERROR else
  Print "[+] Kernel file has been loaded successfully \n\r" [];;
  kernel_addr ← load_kernel_into_memory (fr_elfmag fr) (fr_e_hdr fr) kernel_file;
  if kernel_addr =? 0 then print_err "Loading kernel into memory error";; mret EFI_LOAD_ERROR else
  Print "[+] Kernel has been successfully loaded into memory \n\r" [];;
  psf_font ← load_psf_font 0 "zap-light16.psf" image_handle;
  if psf_font =? 0 then print_err "Psf font loading error";; mret EFI_LOAD_ERROR else
  Print "[+] Psf font loaded successfully \n\r" [];;
  framebuffer ← get_framebuffer;
  if framebuffer =? 0 then print_err "Framebuffer initialization error";; mret EFI_LOAD_ERROR else
  Print "[+] Framebuffer initialized successfully \n\r" [];;
  m ← memory;
  double_buffer ← allocate_double_framebuffer (read64 m (framebuffer + 16));
  write (set_double_buffer framebuffer double_buffer);;
  if double_buffer =? 0 then print_err "Double framebuffer allocation error";; mret EFI_LOAD_ERROR else
  Print "[+] Double framebuffer allocated successfully \n\r" [];;
  acpi_rsdp ← get_rsdp;
  if acpi_rsdp =? 0 then print_err "Obtaining RSDP of ACPI failed";; mret EFI_LOAD_ERROR else
  Print "[+] RSDP of ACPI obtained successfully \n\r" [];;
  Print "[*] Starting kernel... \n\r" [];;
  start_kernel fr image_handle framebuffer psf_font kernel_addr acpi_rsdp;;
  mret EFI_SUCCESS.

End Main.
End Main.
