(* ===== verification/Structs.v ===== *)
(** * Structs: the declared structs, and the offsets of the model

    The structs of the headers of the kernel and of the bootloader, as their
    declarations give them to the compiler (Layout).  The components of this
    library read and write members at offsets, sizes and bit positions that are
    written as numbers; the tables at the end name the member each of them is, and
    the theorems show that the declarations put it there. *)
From stdpp Require Import strings.
From S2P Require Import Prelude Memory Bitmap Layout MMap Paging Heap Framebuffer Console Acpi Apic Hpet Descriptors Boot Efi Loader Bootloader.

Local Open Scope string_scope.
Local Open Scope Z_scope.

(** ** The structs of the kernel *)
Module Decl.

(** acpi/acpi.hpp *)
Definition RSDP : cstruct := packed [
  fld "signature" (t_array t_u8 8); fld "checksum" t_u8; fld "oem_id" (t_array t_u8 6);
  fld "revision" t_u8; fld "rsdt_addr" t_u32].
Definition GAS : cstruct := packed [
  fld "address_space_id" t_u8; fld "reg_bit_width" t_u8; fld "reg_bit_offset" t_u8;
  fld "access_size" t_u8; fld "address" t_u64].
Definition sdt_Header : cstruct := packed [
  fld "signature" (t_array t_u8 4); fld "length" t_u32; fld "revision" t_u8; fld "checksum" t_u8;
  fld "oem_id" (t_array t_u8 6); fld "oem_table_id" (t_array t_u8 8);
  fld "oem_revision" t_u32; fld "creator_id" t_u32; fld "creator_revision" t_u32].
Definition RSDT : cstruct := packed [
  fld "header" (t_struct sdt_Header); fld "sdt_table" (t_array t_u32 0)].

(** acpi/apic/madt.hpp *)
Definition ics_Header : cstruct := packed [fld "type" t_u8; fld "length" t_u8].
Definition CPU_LAPIC_Flags : cstruct := packed [
  bits "enabled" t_u8 1; bits "online_capable" t_u8 1; bits "reserved" t_u32 30].
Definition CPU_LAPIC_Struct : cstruct := packed [
  fld "header" (t_struct ics_Header); fld "acpi_cpu_uid" t_u8; fld "apic_id" t_u8;
  fld "flags" (t_struct CPU_LAPIC_Flags)].
Definition IO_APIC_Struct : cstruct := packed [
  fld "header" (t_struct ics_Header); fld "io_apic_id" t_u8; fld "reserved" t_u8;
  fld "io_apic_addr" t_u32; fld "gsib" t_u32].
Definition madt_Flags : cstruct := packed [bits "pcat_compat" t_u8 1; bits "reserved" t_u32 31].
Definition madt_SDT_Table : cstruct := packed [
  fld "header" (t_struct sdt_Header); fld "lapic_addr" t_u32; fld "flags" (t_struct madt_Flags);
  fld "ics_table" (t_array (t_struct ics_Header) 0)].

(** acpi/apic/lapic.hpp *)
Definition lapic_MSR : cstruct := packed [
  fld "reserved1" t_u8; bits "bsp" t_u8 1; bits "reserved2" t_u8 2; bits "is_enabled" t_u8 1;
  bits "base_addr" t_u32 24].

(** acpi/apic/ioapic.hpp: the two structs of the union [RedirEntry]. *)
Definition RedirEntry : cstruct := packed [
  fld "intvec" t_u8; bits "delmod" t_u8 3; bits "destmod" t_u8 1; bits "delivs" t_u8 1;
  bits "intpol" t_u8 1; bits "remote_irr" t_u8 1; bits "trigmod" t_u8 1; bits "int_mask" t_u8 1;
  bits "reserved" t_u64 39; fld "destination" t_u8].
Definition RedirEntry_halves : cstruct := packed [fld "lower_half" t_u32; fld "upper_half" t_u32].

(** acpi/hpet/hpet.hpp *)
Definition CapReg : cstruct := packed [
  fld "rev_id" t_u8; bits "num_tim_cap" t_u8 5; bits "count_size_cap" t_u8 1; bits "reserved1" t_u8 1;
  bits "leg_route_cap" t_u8 1; fld "vendor_id" t_u16; fld "counter_clk_period" t_u32].
Definition hpet_ConfigReg : cstruct := packed [
  bits "enable_cnf" t_u8 1; bits "leg_rt_cnf" t_u8 1; bits "reserved1" t_u64 62].
Definition hpet_SDT_Table : cstruct := packed [
  fld "header" (t_struct sdt_Header); fld "event_timer_block_id" t_u32; fld "base_address" (t_struct GAS);
  fld "hpet_number" t_u8; fld "min_clock_tick_periodic_mode" t_u16; fld "page_protection" t_u8].

(** acpi/hpet/comparator.hpp *)
Definition comparator_ConfigReg : cstruct := packed [
  bits "reserved1" t_u8 1; bits "int_type_cnf" t_u8 1; bits "int_enb_cnf" t_u8 1; bits "type_cnf" t_u8 1;
  bits "per_int_cap" t_u8 1; bits "size_cap" t_u8 1; bits "val_set_cnf" t_u8 1; bits "reserved2" t_u8 1;
  bits "mode32_cnf" t_u8 1; bits "int_route_cnf" t_u8 5; bits "fsb_en_cnf" t_u8 1;
  bits "fsb_int_del_cap" t_u8 1; fld "reserved3" t_u16; fld "int_route_cap" t_u32].
Definition FsbReg : cstruct := packed [fld "tn_fsb_int_val" t_u32; fld "tn_fsb_int_addr" t_u32].
Definition comparator_MMIO : cstruct := packed [
  fld "config_reg" (t_struct comparator_ConfigReg); fld "compar_reg" t_u64; fld "fsb_reg" (t_struct FsbReg);
  fld "reserved" t_u64].

(** gdt/gdt.hpp *)
Definition GDTR : cstruct := packed [fld "size" t_u16; fld "offset" t_u64].
Definition SegmentDescriptor : cstruct := packed [
  fld "limit0" t_u16; fld "base0" t_u16; fld "base1" t_u8; fld "flags1" t_u8; fld "limit1_flags2" t_u8;
  fld "base2" t_u8].
Definition GDT : cstruct := mkStruct true 0x1000 [
  fld "null" (t_struct SegmentDescriptor); fld "kernel_code" (t_struct SegmentDescriptor);
  fld "kernel_data" (t_struct SegmentDescriptor); fld "user_code" (t_struct SegmentDescriptor);
  fld "user_data" (t_struct SegmentDescriptor)].

(** idt/idt.hpp *)
Definition Entry : cstruct := packed [
  fld "offset1" t_u16; fld "segment_selector" t_u16; bits "ist" t_u8 3; bits "ignore1" t_u8 5;
  bits "gate_type" t_u8 4; bits "ignore2" t_u8 1; bits "dpl" t_u8 2; bits "present" t_u8 1;
  fld "offset2" t_u16; fld "offset3" t_u32; fld "reserved1" t_u32].
Definition IDTR : cstruct := packed [fld "limit" t_u16; fld "base_addr" t_ptr].

(** memory/paging.hpp *)
Definition PT_Entry : cstruct := packed [
  bits "present" t_u64 1; bits "rw" t_u64 1; bits "us" t_u64 1; bits "pwt" t_u64 1; bits "pcd" t_u64 1;
  bits "a" t_u64 1; bits "d" t_u64 1; bits "pat" t_u64 1; bits "g" t_u64 1; bits "ignored1" t_u64 3;
  bits "page_addr" t_u64 32; bits "reserved1" t_u64 8; bits "ignored3" t_u64 7;
  bits "protection_key" t_u64 4; bits "xd" t_u64 1].
Definition PD_Entry : cstruct := packed [
  bits "present" t_u64 1; bits "rw" t_u64 1; bits "us" t_u64 1; bits "pwt" t_u64 1; bits "pcd" t_u64 1;
  bits "a" t_u64 1; bits "ignored1" t_u64 1; bits "ps" t_u64 1; bits "ignored2" t_u64 4;
  bits "pt_addr" t_u64 32; bits "reserved1" t_u64 8; bits "ignored3" t_u64 11; bits "xd" t_u64 1].
Definition PDPT_Entry : cstruct := packed [
  bits "present" t_u64 1; bits "rw" t_u64 1; bits "us" t_u64 1; bits "pwt" t_u64 1; bits "pcd" t_u64 1;
  bits "a" t_u64 1; bits "ignored1" t_u64 1; bits "ps" t_u64 1; bits "ignored2" t_u64 4;
  bits "pd_addr" t_u64 32; bits "reserved1" t_u64 8; bits "ignored3" t_u64 11; bits "xd" t_u64 1].
Definition PML4_Entry : cstruct := packed [
  bits "present" t_u64 1; bits "rw" t_u64 1; bits "us" t_u64 1; bits "pwt" t_u64 1; bits "pcd" t_u64 1;
  bits "a" t_u64 1; bits "ignored1" t_u64 1; bits "ps" t_u64 1; bits "ignored2" t_u64 4;
  bits "pdpt_addr" t_u64 32; bits "reserved1" t_u64 8; bits "ignored3" t_u64 11; bits "xd" t_u64 1].

(** memory/mmap.hpp, memory/heap.hpp *)
Definition EfiMMapDesc : cstruct := packed [
  fld "type" t_u32; fld "pad" t_u32; fld "paddr" t_ptr; fld "vaddr" t_ptr; fld "pages" t_u64; fld "attr" t_u64].
Definition MemoryData : cstruct := plain [
  fld "mmap" t_ptr; fld "mmap_sz" t_u64; fld "desc_sz" t_u64; fld "entries" t_u64].
Definition BlockHeader : cstruct := plain [
  fld "prev" t_ptr; fld "next" t_ptr; fld "is_free" t_u8; fld "bytes" t_u64].

(** framebuffer/framebuffer.hpp, console/console.hpp, kernel.hpp *)
Definition FramebufferData : cstruct := packed [
  fld "base_addr" t_ptr; fld "double_buffer" t_ptr; fld "b_size" t_u64; fld "width" t_u16; fld "height" t_u16;
  fld "px_per_scan" t_u16; fld "b_per_px" t_u8].
Definition PsfHeader : cstruct := packed [fld "magic" (t_array t_u8 2); fld "mode" t_u8; fld "charsize" t_u8].
Definition ConsoleFont : cstruct := plain [
  fld "psf_header" t_ptr; fld "glyph_height" t_u8; fld "glyph_width" t_u8; fld "glyph_buffer" t_ptr].
Definition BootloaderData : cstruct := plain [
  fld "framebuffer" t_ptr; fld "font" t_ptr; fld "memory" t_ptr; fld "acpi_rsdp" t_ptr].

End Decl.

(** ** The structs of the bootloader *)
Module BootDecl.

(** font.h, gop.h, kernel_starter.h, bootloader.h *)
Definition Psf1_header : cstruct := plain [fld "magic" t_u16; fld "mode" t_u8; fld "charsize" t_u8].
Definition Psf1_font : cstruct := plain [
  fld "psf_header" t_ptr; fld "glyph_height" t_u8; fld "glyph_width" t_u8; fld "glyph_buffer" t_ptr].
Definition Framebuffer : cstruct := plain [
  fld "base_address" t_ptr; fld "double_buffer" t_ptr; fld "buffer_size" t_u64; fld "width" t_u16;
  fld "height" t_u16; fld "pixels_per_scanline" t_u16; fld "bytes_per_pixel" t_u8].
Definition MemoryData : cstruct := plain [
  fld "memory_map" t_ptr; fld "map_sz" t_u64; fld "descriptor_sz" t_u64; fld "entries" t_u64].
Definition BootloaderData : cstruct := plain [
  fld "framebuffer" t_ptr; fld "font" t_ptr; fld "memory" t_ptr; fld "acpi_rsdp" t_ptr].

End BootDecl.

(** ** Where the model has its numbers from

    The loads from memory, and the member each of them reads. *)
Definition reads : list ((mem -> Z -> Z) * cstruct * string) := [
  (rsdp_revision, Decl.RSDP, "revision"); (rsdp_rsdt_addr, Decl.RSDP, "rsdt_addr");
  (sdt_length, Decl.sdt_Header, "length"); (madt_lapic_addr, Decl.madt_SDT_Table, "lapic_addr");
  (ics_type, Decl.ics_Header, "type"); (ics_length, Decl.ics_Header, "length");
  (lapic_acpi_cpu_uid, Decl.CPU_LAPIC_Struct, "acpi_cpu_uid"); (lapic_apic_id, Decl.CPU_LAPIC_Struct, "apic_id");
  (lapic_flags, Decl.CPU_LAPIC_Struct, "flags"); (io_apic_addr, Decl.IO_APIC_Struct, "io_apic_addr");
  (fun m p => d_type (read_desc m p), Decl.EfiMMapDesc, "type");
  (fun m p => d_pad (read_desc m p), Decl.EfiMMapDesc, "pad");
  (fun m p => d_paddr (read_desc m p), Decl.EfiMMapDesc, "paddr");
  (fun m p => d_vaddr (read_desc m p), Decl.EfiMMapDesc, "vaddr");
  (fun m p => d_pages (read_desc m p), Decl.EfiMMapDesc, "pages");
  (fun m p => d_attr (read_desc m p), Decl.EfiMMapDesc, "attr");
  (fun m p => fd_base_addr (read_fb_data m p), Decl.FramebufferData, "base_addr");
  (fun m p => fd_double_buffer (read_fb_data m p), Decl.FramebufferData, "double_buffer");
  (fun m p => fd_b_size (read_fb_data m p), Decl.FramebufferData, "b_size");
  (fun m p => fd_width (read_fb_data m p), Decl.FramebufferData, "width");
  (fun m p => fd_height (read_fb_data m p), Decl.FramebufferData, "height");
  (fun m p => fd_px_per_scan (read_fb_data m p), Decl.FramebufferData, "px_per_scan");
  (fun m p => fd_b_per_px (read_fb_data m p), Decl.FramebufferData, "b_per_px");
  (fun m p => cf_psf_header (read_font m p), Decl.ConsoleFont, "psf_header");
  (fun m p => cf_glyph_height (read_font m p), Decl.ConsoleFont, "glyph_height");
  (fun m p => cf_glyph_width (read_font m p), Decl.ConsoleFont, "glyph_width");
  (fun m p => cf_glyph_buffer (read_font m p), Decl.ConsoleFont, "glyph_buffer");
  (fun m p => md_mmap (read_memory_data m p), Decl.MemoryData, "mmap");
  (fun m p => md_mmap_sz (read_memory_data m p), Decl.MemoryData, "mmap_sz");
  (fun m p => md_desc_sz (read_memory_data m p), Decl.MemoryData, "desc_sz");
  (fun m p => md_entries (read_memory_data m p), Decl.MemoryData, "entries");
  (bd_framebuffer, Decl.BootloaderData, "framebuffer"); (bd_font, Decl.BootloaderData, "font");
  (bd_memory, Decl.BootloaderData, "memory"); (bd_acpi_rsdp, Decl.BootloaderData, "acpi_rsdp");
  (Font.psf_magic, BootDecl.Psf1_header, "magic"); (Font.psf_mode, BootDecl.Psf1_header, "mode");
  (Font.psf_charsize, BootDecl.Psf1_header, "charsize")].

(** The fields of words that are read, written, and set to 1. *)
Definition word_gets : list ((Z -> Z) * cstruct * string) := [
  (e_addr, Decl.PT_Entry, "page_addr"); (e_addr, Decl.PD_Entry, "pt_addr");
  (e_addr, Decl.PDPT_Entry, "pd_addr"); (e_addr, Decl.PML4_Entry, "pdpt_addr");
  (Ioapic.lower_half, Decl.RedirEntry_halves, "lower_half");
  (Ioapic.upper_half, Decl.RedirEntry_halves, "upper_half")].
Definition word_sets : list ((Z -> Z -> Z) * cstruct * string) := [
  (set_addr, Decl.PT_Entry, "page_addr"); (set_addr, Decl.PD_Entry, "pt_addr");
  (set_addr, Decl.PDPT_Entry, "pd_addr"); (set_addr, Decl.PML4_Entry, "pdpt_addr");
  (Ioapic.set_intvec, Decl.RedirEntry, "intvec"); (Ioapic.set_delmod, Decl.RedirEntry, "delmod");
  (Ioapic.set_destmod, Decl.RedirEntry, "destmod"); (Ioapic.set_intpol, Decl.RedirEntry, "intpol");
  (Ioapic.set_trigmod, Decl.RedirEntry, "trigmod"); (Ioapic.set_int_mask, Decl.RedirEntry, "int_mask");
  (Ioapic.set_destination, Decl.RedirEntry, "destination")].
Definition word_marks : list ((Z -> Z) * cstruct * string) := [
  (set_present, Decl.PT_Entry, "present"); (set_present, Decl.PD_Entry, "present");
  (set_present, Decl.PDPT_Entry, "present"); (set_present, Decl.PML4_Entry, "present");
  (set_rw, Decl.PT_Entry, "rw"); (set_rw, Decl.PD_Entry, "rw");
  (set_rw, Decl.PDPT_Entry, "rw"); (set_rw, Decl.PML4_Entry, "rw")].

(** Offsets and sizes. *)
Definition offsets : list (Z * cstruct * string) := [
  (OFF_PREV, Decl.BlockHeader, "prev"); (OFF_NEXT, Decl.BlockHeader, "next");
  (OFF_FREE, Decl.BlockHeader, "is_free"); (OFF_BYTES, Decl.BlockHeader, "bytes");
  (OFF_OFFSET1, Decl.Entry, "offset1"); (OFF_SELECTOR, Decl.Entry, "segment_selector");
  (OFF_IST, Decl.Entry, "ist"); (OFF_TYPE, Decl.Entry, "gate_type"); (OFF_TYPE, Decl.Entry, "present");
  (OFF_OFFSET2, Decl.Entry, "offset2"); (OFF_OFFSET3, Decl.Entry, "offset3");
  (Comparator.CONFIG, Decl.comparator_MMIO, "config_reg"); (Comparator.COMPAR, Decl.comparator_MMIO, "compar_reg")].
Definition sizes : list (Z * cstruct) := [
  (HDR, Decl.BlockHeader); (ENTRY_SZ, Decl.Entry); (Gdt.GDT_SZ, Decl.GDT); (SDT_HEADER_SZ, Decl.sdt_Header);
  (Comparator.BLOCK_SZ, Decl.comparator_MMIO); (Font.PSF_HEADER_SZ, BootDecl.Psf1_header);
  (Font.PSF_FONT_SZ, BootDecl.Psf1_font); (Gop.FRAMEBUFFER_SZ, BootDecl.Framebuffer);
  (Starter.MEMORY_DATA_SZ, BootDecl.MemoryData)].

(** Computes the slots of the goal. *)
Ltac slots :=
  unfold get_member, set_member;
  repeat match goal with |- context [slot ?s ?n] =>
    let v := eval vm_compute in (slot s n) in change (slot s n) with v; cbv iota beta end.

(** [f m p] is the load of the member, after the layout is computed. *)
Ltac member_load :=
  symmetry;
  match goal with |- get_member ?s ?n (struct_at _ ?m ?p) = _ =>
    let v := eval vm_compute in (slot s n) in
    lazymatch v with Some (?o, ?w) =>
      let j := eval vm_compute in (Z.to_nat (o / 8)) in
      let k := eval vm_compute in (Z.to_nat (w / 8)) in
      etransitivity; [apply (get_member_load s n k m p j); [by vm_compute|apply Nat.leb_le; by vm_compute]|];
      rewrite ?Z.add_0_r; reflexivity
    end
  end.

(** The numbers of the model against the declarations, for the entries of the lists
    above: each load listed in [reads] is the member that the layout of its declaration
    gives, for any memory and address; so is each bit-field of [word_gets], [word_sets] and
    [word_marks], each offset of [offsets] and each size of [sizes].  (The lists leave out
    the members that are reached in more than one step, which follow below, and fields that
    the components build in place, such as those of gates and segment descriptors.) *)
Lemma model_follows_declarations :
  Forall (fun '(f, s, n) => forall m p, f m p = get_member s n (struct_at s m p)) reads /\
  Forall (fun '(f, s, n) => forall w, f w = get_member s n w) word_gets /\
  Forall (fun '(f, s, n) => forall w v, f w v = set_member s n w v) word_sets /\
  Forall (fun '(f, s, n) => forall w, f w = set_member s n w 1) word_marks /\
  Forall (fun '(o, s, n) => o = offsetof s n) offsets /\
  Forall (fun '(z, s) => z = sizeof s) sizes.
Proof.
  split_and!.
  - repeat constructor; intros m p; member_load.
  - repeat constructor; intros w; slots; reflexivity.
  - repeat constructor; intros w v; slots; reflexivity.
  - repeat constructor; intros w; slots; reflexivity.
  - repeat constructor.
  - repeat constructor.
Qed.

(** The members that are reached in more than one step, and the configuration word
    of a comparator, whose initialisers name the fields. *)
Theorem nested_members_follow_declarations :
  (forall m p, hpet_base_address m p =
    get_member Decl.GAS "address" (get_member Decl.hpet_SDT_Table "base_address" (struct_at Decl.hpet_SDT_Table m p))) /\
  (forall m p i, rsdt_entry m p i = read32 m (p + offsetof Decl.RSDT "sdt_table" + ty_size t_u32 * i)) /\
  (forall p, madt_ics_table p = p + offsetof Decl.madt_SDT_Table "ics_table") /\
  (forall c, Con.charsize c =
    get_member Decl.PsfHeader "charsize" (struct_at Decl.PsfHeader (con_mem c) (cf_psf_header (con_font c)))) /\
  (forall ty v, Comparator.config_reg ty v =
    set_member Decl.comparator_ConfigReg "fsb_en_cnf"
    (set_member Decl.comparator_ConfigReg "int_route_cnf"
    (set_member Decl.comparator_ConfigReg "mode32_cnf"
    (set_member Decl.comparator_ConfigReg "val_set_cnf"
    (set_member Decl.comparator_ConfigReg "type_cnf"
    (set_member Decl.comparator_ConfigReg "int_enb_cnf"
    (set_member Decl.comparator_ConfigReg "int_type_cnf" 0 0) 1) ty) v) 0) Ioapic.IRQ_HPET) 0).
Proof.
  split_and!.
  - intros m p. transitivity (get_member Decl.GAS "address" (load 12 m (p + 40))).
    + symmetry. slots. etransitivity; [apply (get_field_load 8 12 m (p + 40) 4); lia|].
      unfold hpet_base_address, read64. f_equal. lia.
    + f_equal. member_load.
  - intros m p i. unfold rsdt_entry, SDT_HEADER_SZ. by change (offsetof Decl.RSDT "sdt_table") with 36.
  - done.
  - intros c. unfold Con.charsize. member_load.
  - intros ty v. slots. reflexivity.
Qed.

(** The register at 0x10 of a comparator block is declared at offset 0xf: the enumerator
    [FSB] is not the offset of the member. *)
Theorem fsb_register_misplaced :
  offsetof Decl.comparator_MMIO "fsb_reg" = 0x10 /\ Comparator.FSB <> offsetof Decl.comparator_MMIO "fsb_reg".
Proof. by vm_compute. Qed.

(** ** All the structs *)
Definition structs : list cstruct := [
  Decl.RSDP; Decl.GAS; Decl.sdt_Header; Decl.RSDT; Decl.ics_Header; Decl.CPU_LAPIC_Flags; Decl.CPU_LAPIC_Struct;
  Decl.IO_APIC_Struct; Decl.madt_Flags; Decl.madt_SDT_Table; Decl.lapic_MSR; Decl.RedirEntry; Decl.RedirEntry_halves;
  Decl.CapReg; Decl.hpet_ConfigReg; Decl.hpet_SDT_Table; Decl.comparator_ConfigReg; Decl.FsbReg; Decl.comparator_MMIO;
  Decl.GDTR; Decl.SegmentDescriptor; Decl.GDT; Decl.Entry; Decl.IDTR; Decl.PT_Entry; Decl.PD_Entry; Decl.PDPT_Entry;
  Decl.PML4_Entry; Decl.EfiMMapDesc; Decl.MemoryData; Decl.BlockHeader; Decl.FramebufferData; Decl.PsfHeader;
  Decl.ConsoleFont; Decl.BootloaderData; BootDecl.Psf1_header; BootDecl.Psf1_font; BootDecl.Framebuffer;
  BootDecl.MemoryData; BootDecl.BootloaderData].

Lemma structs_wf s : s ∈ structs -> wf_struct s = true.
Proof. assert (H : Forall (fun s => wf_struct s = true) structs) by repeat constructor. rewrite Forall_forall in H. apply H. Qed.

(** Members are independent: storing a value to a member of any of the structs and
    reading it back gives the value, cut to the width of the member; the value of every other
    member is as before, and nothing outside the struct is touched. *)
Theorem struct_members_independent s n n' o k w v :
  s ∈ structs -> slot s n = Some (o, k) -> n <> n' -> 0 <= w < 2 ^ (8 * sizeof s) ->
  get_member s n (set_member s n w v) = v mod 2 ^ k /\
  get_member s n' (set_member s n w v) = get_member s n' w /\
  0 <= set_member s n w v < 2 ^ (8 * sizeof s).
Proof.
  intros Hs%structs_wf Hn Hne Hw. split; [by eapply get_set_member|].
  split; [by apply get_set_member_other|by apply set_member_range].
Qed.

(** Masking a redirection entry leaves its vector alone. *)
Lemma struct_members_independent_witness :
  get_member Decl.RedirEntry "int_mask" (set_member Decl.RedirEntry "int_mask" 0x41 1) = 1 /\
  get_member Decl.RedirEntry "intvec" (set_member Decl.RedirEntry "int_mask" 0x41 1) = 0x41.
Proof.
  destruct (struct_members_independent Decl.RedirEntry "int_mask" "intvec" 16 1 0x41 1) as (H1 & H2 & _).
  - unfold structs. do 11 right. by left.
  - reflexivity.
  - done.
  - change (sizeof Decl.RedirEntry) with 8. lia.
  - by rewrite H1, H2.
Defined.

(** The sizes that the hardware and the ACPI specification give for the registers, the
    descriptors and the tables. *)
Theorem declared_sizes_documented :
  Forall (fun '(s, z) => sizeof s = z) [
    (Decl.PT_Entry, 8); (Decl.PD_Entry, 8); (Decl.PDPT_Entry, 8); (Decl.PML4_Entry, 8);
    (Decl.RedirEntry, 8); (Decl.RedirEntry_halves, 8); (Decl.CapReg, 8); (Decl.hpet_ConfigReg, 8);
    (Decl.comparator_ConfigReg, 8); (Decl.FsbReg, 8); (Decl.comparator_MMIO, 32);
    (Decl.SegmentDescriptor, 8); (Decl.GDTR, 10); (Decl.Entry, 16); (Decl.IDTR, 10);
    (Decl.RSDP, 20); (Decl.GAS, 12); (Decl.sdt_Header, 36); (Decl.hpet_SDT_Table, 56); (Decl.madt_SDT_Table, 44);
    (Decl.ics_Header, 2); (Decl.CPU_LAPIC_Struct, 8); (Decl.IO_APIC_Struct, 12); (Decl.PsfHeader, 4)].
Proof. repeat constructor. Qed.

(** ** The two sides of the hand-over

    The bootloader fills its structs, the kernel reads them through its own.  For each
    pair of declarations: which member of the bootloader's struct is meant by which
    member of the kernel's. *)
Definition handover : list (cstruct * cstruct * list (string * string)) := [
  (BootDecl.BootloaderData, Decl.BootloaderData,
    [("framebuffer", "framebuffer"); ("font", "font"); ("memory", "memory"); ("acpi_rsdp", "acpi_rsdp")]);
  (BootDecl.Framebuffer, Decl.FramebufferData,
    [("base_address", "base_addr"); ("double_buffer", "double_buffer"); ("buffer_size", "b_size");
     ("width", "width"); ("height", "height"); ("pixels_per_scanline", "px_per_scan");
     ("bytes_per_pixel", "b_per_px")]);
  (BootDecl.Psf1_font, Decl.ConsoleFont,
    [("psf_header", "psf_header"); ("glyph_height", "glyph_height"); ("glyph_width", "glyph_width");
     ("glyph_buffer", "glyph_buffer")]);
  (BootDecl.MemoryData, Decl.MemoryData,
    [("memory_map", "mmap"); ("map_sz", "mmap_sz"); ("descriptor_sz", "desc_sz"); ("entries", "entries")]);
  (BootDecl.Psf1_header, Decl.PsfHeader,
    [("magic", "magic"); ("mode", "mode"); ("charsize", "charsize")])].

Lemma same_slot_same_member (b k : cstruct) nb nk o w m p :
  wf_struct k = true -> slot b nb = Some (o, w) -> slot k nk = Some (o, w) -> 0 <= sizeof k <= sizeof b ->
  get_member k nk (struct_at k m p) = get_member b nb (struct_at b m p).
Proof.
  intros Hk Eb Ek Hle. pose proof (slot_within k nk o w Hk Ek). unfold get_member, struct_at. rewrite Eb, Ek.
  symmetry. apply get_field_load_low; lia.
Qed.

(** The slots of a pair of names are the same. *)
Definition same_slot (b k : cstruct) (n : string * string) : bool :=
  match slot b n.1, slot k n.2 with Some sl, Some sl' => bool_decide (sl = sl') | _, _ => false end.

(** C14: the two sides of the hand-over agree, member by member.  For each struct that
    the bootloader passes to the kernel ([BootloaderData], the framebuffer, the font, the
    memory data and the font's header), every member of the one declaration corresponds, by
    its name, to one of the other ([handover]); in any memory the kernel reads as that
    member what the bootloader's member of that name holds, although one side of the
    framebuffer is packed and the other is not; and the kernel's struct is not larger than
    what the bootloader allocates for its own. *)
Theorem handover_layouts_agree b k names :
  (b, k, names) ∈ handover ->
  names.*1 = m_name <$> s_members b /\ names.*2 = m_name <$> s_members k /\ sizeof k <= sizeof b /\
  forall nb nk m p, (nb, nk) ∈ names ->
    is_Some (slot b nb) /\ is_Some (slot k nk) /\
    get_member k nk (struct_at k m p) = get_member b nb (struct_at b m p).
Proof.
  assert (H : Forall (fun '(b, k, names) => (names.*1 = m_name <$> s_members b /\ names.*2 = m_name <$> s_members k) /\
    (sizeof k <=? sizeof b) && (0 <=? sizeof k) && wf_struct k && forallb (same_slot b k) names = true) handover).
  { repeat constructor. }
  intros Hin. rewrite Forall_forall in H. destruct (H _ Hin) as ((E1 & E2) & E3).
  rewrite !andb_true_iff, forallb_forall in E3. destruct E3 as (((Hle & H0) & Hwf) & HF).
  split_and!; [done|done|lia|]. intros nb nk m p Hn%list_elem_of_In%HF. unfold same_slot in Hn. cbn [fst snd] in Hn.
  destruct (slot b nb) as [[o w]|] eqn:Eb; [|done]. destruct (slot k nk) as [sl|] eqn:Ek; [|done].
  apply bool_decide_eq_true in Hn as <-. split_and!; [done|done|]. apply (same_slot_same_member b k nb nk o w); [done|done|done|lia].
Qed.

(** The height that the bootloader stores is the one the kernel reads. *)
Lemma handover_layouts_agree_witness :
  get_member Decl.FramebufferData "height" (struct_at Decl.FramebufferData (write16 ∅ 0x101a 768) 0x1000) = 768.
Proof.
  edestruct (handover_layouts_agree BootDecl.Framebuffer Decl.FramebufferData) as (_ & _ & _ & H).
  - unfold handover. right. left.
  - destruct (H "height" "height" (write16 ∅ 0x101a 768) 0x1000) as (_ & _ & Hv); [do 4 right; by left|].
    rewrite Hv. by vm_compute.
Defined.
