(* ===== verification/Firmware.v ===== *)
(** * Firmware: what the bootloader relies on

    The services of the firmware as the UEFI specification documents them: memory
    comes from free memory, files are read at their position, the memory map is
    copied when the buffer is large enough. *)
From Stdlib Require Import String.
From S2P Require Import Prelude Memory Bitmap Libc Efi Loader Bootloader.

(** The video mode of the graphics output protocol. *)
Record gop_mode : Type := mkMode { gm_base : Z; gm_size : Z; gm_width : Z; gm_height : Z; gm_scan : Z }.

(** A firmware that serves the image [image]: [free] tells the free memory,
    [pool_area] where the pools are, [contents] the files, [map_of] and [key_of] the
    current memory map and its key, [budget] how many more pools can be allocated. *)
Class Firmware (F : Type) `{Efi F} (image : Z) : Type := {
  free : F -> Z -> Prop;
  pool_area : Z -> Prop;
  pool_limit : Z;
  file_of : string -> Z;
  contents : string -> list Z;
  position : Z -> F -> Z;
  mode : gop_mode;
  tables_of : list (Z * Z);
  desc_size : Z;
  map_of : F -> list Z;
  key_of : F -> Z;
  budget : F -> nat;

  (** [f'] differs from [f] in nothing but positions of files. *)
  same_memory (f f' : F) : Prop := (forall a, free f' a <-> free f a) /\ map_of f' = map_of f /\ key_of f' = key_of f /\
    budget f' = budget f;

  fw_pool n old f : 0 <= n <= pool_limit -> (0 < budget f)%nat -> exists p f', AllocatePool n old f = (EFI_SUCCESS, p, f') /\
    0 < p < 2 ^ 64 /\ p + n <= 2 ^ 64 /\ (forall a, p <= a < p + n -> free f a /\ pool_area a) /\
    (forall a, free f' a -> free f a /\ ~ (p <= a < p + n)) /\ (forall a, free f a -> ~ pool_area a -> free f' a) /\
    (forall h, position h f' = position h f) /\ budget f = S (budget f');
  fw_pages n a f : 0 < n -> a mod 4096 = 0 -> (forall b, a <= b < a + 4096 * n -> free f b /\ ~ pool_area b) ->
    exists f', AllocatePages n a f = (EFI_SUCCESS, a, f') /\
      (forall b, free f' b <-> free f b /\ ~ (a <= b < a + 4096 * n)) /\ (forall h, position h f' = position h f) /\
      budget f' = budget f;
  fw_open h p agent old f : exists q f', OpenProtocol h p agent old f = (EFI_SUCCESS, q, f') /\ q <> 0 /\ same_memory f f';
  fw_volume fs old f : exists q f', OpenVolume fs old f = (EFI_SUCCESS, q, f') /\ q <> 0 /\ same_memory f f';
  fw_file dir name old f : contents name <> [] -> exists f', FileOpen dir name old f = (EFI_SUCCESS, file_of name, f') /\
    file_of name <> 0 /\ position (file_of name) f' = 0 /\ same_memory f f';
  fw_setpos h pos f : 0 <= pos < 2 ^ 64 - 1 -> exists f', FileSetPosition h pos f = (EFI_SUCCESS, f') /\
    position h f' = pos /\ same_memory f f';
  fw_read name n f : 0 <= n -> let bytes := take (Z.to_nat n) (drop (Z.to_nat (position (file_of name) f)) (contents name)) in
    exists f', FileRead (file_of name) n f = (EFI_SUCCESS, Z.of_nat (length bytes), bytes, f') /\ same_memory f f';
  fw_bytes name : Forall is_byte (contents name);
  fw_gop old f : exists g f', LocateProtocol GraphicsOutputProtocol old f = (EFI_SUCCESS, g, f') /\ g <> 0 /\ same_memory f f';
  fw_mode g f : mkMode (FrameBufferBase g f) (FrameBufferSize g f) (HorizontalResolution g f) (VerticalResolution g f)
    (PixelsPerScanLine g f) = mode;
  fw_tables f : ConfigurationTable f = tables_of;
  fw_guid g : CompareGuid g ACPI_TABLE_GUID = 0 <-> g = ACPI_TABLE_GUID;
  fw_desc : 0 < desc_size < 2 ^ 64;
  fw_map f : Forall is_byte (map_of f) /\ exists k, 0 < k /\ Z.of_nat (length (map_of f)) = k * desc_size;
  fw_map_short sz key dsz f : sz < Z.of_nat (length (map_of f)) -> exists f',
    GetMemoryMap sz key dsz f = (EFI_BUFFER_TOO_SMALL, (Z.of_nat (length (map_of f)), key, desc_size), [], f') /\ same_memory f f';
  fw_map_fits sz key dsz f : Z.of_nat (length (map_of f)) <= sz -> exists f',
    GetMemoryMap sz key dsz f = (EFI_SUCCESS, (Z.of_nat (length (map_of f)), key_of f, desc_size), map_of f, f') /\ same_memory f f';
  fw_exit f : exists f', ExitBootServices image (key_of f) f = (EFI_SUCCESS, f') /\ same_memory f f';
  fw_print fmt args f : same_memory f (OutputString fmt args f) /\
    forall h, position h (OutputString fmt args f) = position h f
}.

Section Firmware.
Context {F : Type} {image : Z} `{Hfw : Firmware F image}.
Implicit Types s : est F.
Abbreviation L := (M (est F)).
Import Utils File.

(** Code of the bootloader writes to memory that it was given, and to [W]. *)
Record grows (W : Z -> Prop) s s' : Prop := {
  g_free : forall a, free (e_fw s') a -> free (e_fw s) a;
  g_mem : forall a, ~ free (e_fw s) a -> ~ W a -> mget (e_mem s') a = mget (e_mem s) a;
  g_jump : e_jump s' = e_jump s
}.

Definition nowhere (_ : Z) : Prop := False.
Definition region (p n a : Z) : Prop := p <= a < p + n.

Lemma grows_refl W s : grows W s s.
Proof. by split. Qed.

Lemma grows_trans W s1 s2 s3 : grows W s1 s2 -> grows W s2 s3 -> grows W s1 s3.
Proof.
  intros [F1 M1 J1] [F2 M2 J2]. split; [by auto| |by rewrite J2].
  intros a Ha Hw. rewrite M2, M1; auto.
Qed.

Lemma grows_weaken (W W' : Z -> Prop) s s' : (forall a, W a -> W' a) -> grows W s s' -> grows W' s s'.
Proof. intros Hw [Hf Hm Hj]. split; [done| |done]. intros a Ha Hn. apply Hm; auto. Qed.

Global Instance grows_preorder W : PreOrder (grows W).
Proof. split; [intros s; apply grows_refl|intros s1 s2 s3; apply grows_trans]. Qed.

(** The contents of a file at its addresses. *)
Definition file_mem (name : string) : mem := put_bytes ∅ 0 (contents name).
Definition file_size (name : string) : Z := Z.of_nat (length (contents name)).

Lemma mget_put_bytes m p l (j : nat) x : Forall is_byte l -> l !! j = Some x -> mget (put_bytes m p l) (p + Z.of_nat j) = x.
Proof.
  revert m p j. induction l as [|c l IH]; intros m p j Hl Hj; [done|]. apply Forall_cons in Hl as [Hc Hl].
  destruct j as [|j]; cbn in Hj.
  - injection Hj as <-. cbn. rewrite mget_put_bytes_out by lia. rewrite mget_mput, decide_True by lia. by apply u8_small.
  - cbn. replace (p + Z.of_nat (S j)) with (p + 1 + Z.of_nat j) by lia. by apply IH.
Qed.

(** A read copies the bytes of the file at its position to the buffer. *)
Lemma read_spec name n buf s (W : Z -> Prop) (Q : EFI_STATUS * Z -> est F -> Prop) :
  0 <= n -> 0 <= position (file_of name) (e_fw s) -> position (file_of name) (e_fw s) + n <= file_size name ->
  (forall a, region buf n a -> ~ free (e_fw s) a -> W a) ->
  (forall s', grows W s s' -> same_memory (e_fw s) (e_fw s') ->
     (forall a, ~ region buf n a -> mget (e_mem s') a = mget (e_mem s) a) ->
     (forall j, 0 <= j < n -> mget (e_mem s') (buf + j) = mget (file_mem name) (position (file_of name) (e_fw s) + j)) ->
     Q (EFI_SUCCESS, n) s') ->
  runs (Read (file_of name) n buf) s Q.
Proof.
  intros Hn Hp Hl HW HQ. set (pos := position _ _) in *. unfold file_size in Hl.
  destruct (fw_read name n (e_fw s) Hn) as (f' & E & Hs). fold pos in E.
  set (bytes := take (Z.to_nat n) (drop (Z.to_nat pos) (contents name))) in *.
  assert (Hlen : length bytes = Z.to_nat n) by (unfold bytes; rewrite length_take, length_drop; lia).
  assert (Hb : Forall is_byte bytes) by (apply Forall_take, Forall_drop, fw_bytes).
  unfold Read. apply runs_bind. eapply runs_eq; [unfold call; rewrite E; reflexivity|].
  apply runs_bind, runs_modify, runs_ret. cbn [e_mem e_fw e_out e_jump].
  rewrite Hlen, Z2Nat.id by done.
  assert (Hout : forall a, ~ region buf n a -> mget (put_bytes (e_mem s) buf bytes) a = mget (e_mem s) a).
  { intros a Ha. apply mget_put_bytes_out. unfold region in Ha. lia. }
  apply HQ; cbn [e_mem e_fw e_jump]; [|done|done|].
  - split; cbn [e_mem e_fw e_jump]; [|intros a Ha Hw; apply Hout; auto|done]. intros a. by apply Hs.
  - intros j Hj. destruct (lookup_lt_is_Some_2 (contents name) (Z.to_nat (pos + j))) as [x Hx]; [lia|].
    replace (buf + j) with (buf + Z.of_nat (Z.to_nat j)) by lia.
    rewrite (mget_put_bytes _ _ bytes (Z.to_nat j) x Hb).
    + unfold file_mem. replace (pos + j) with (0 + Z.of_nat (Z.to_nat (pos + j))) by lia.
      symmetry. apply mget_put_bytes; [apply fw_bytes|done].
    + unfold bytes. rewrite lookup_take_lt by lia. rewrite lookup_drop. by replace (Z.to_nat pos + Z.to_nat j)%nat with (Z.to_nat (pos + j)) by lia.
Qed.

(** Memory taken in between may be written. *)
Lemma grows_own (W R : Z -> Prop) s1 s2 s3 :
  grows W s1 s2 -> grows (fun a => W a \/ R a) s2 s3 -> (forall a, R a -> free (e_fw s1) a) -> grows W s1 s3.
Proof.
  intros [F1 M1 J1] [F2 M2 J2] HR. split; [by auto| |by rewrite J2]. intros a Ha Hw. rewrite M2, M1; auto. intros [?|Hr]; auto.
Qed.

(** Nothing but files and messages. *)
Record still s s' : Prop := {
  st_mem : e_mem s' = e_mem s;
  st_jump : e_jump s' = e_jump s;
  st_fw : same_memory (e_fw s) (e_fw s')
}.

Global Instance still_preorder : PreOrder still.
Proof.
  split; [by intros s|]. intros s1 s2 s3 [M1 J1 (A1 & B1 & C1 & D1)] [M2 J2 (A2 & B2 & C2 & D2)].
  split; [by rewrite M2|by rewrite J2|]. split_and!; [|congruence..]. intros a. by rewrite A2.
Qed.

Lemma still_grows W s s' : still s s' -> grows W s s'.
Proof. intros [Hm Hj [Hf _]]. split; [by intros a ?%Hf|by rewrite Hm|done]. Qed.

Lemma still_budget s s' : still s s' -> budget (e_fw s') = budget (e_fw s).
Proof. by intros [_ _ (_ & _ & _ & Hb)]. Qed.

Lemma still_free s s' a : still s s' -> free (e_fw s') a <-> free (e_fw s) a.
Proof. intros [_ _ [Hf _]]. apply Hf. Qed.

(** [n] bytes from [src] on in [fm] are at [p], in memory that is not free. *)
Definition copied (fm : mem) (p src n : Z) s : Prop := forall o, 0 <= o < n ->
  mget (e_mem s) (p + o) = mget fm (src + o) /\ ~ free (e_fw s) (p + o).

Lemma copied_grows W fm p src n s s' :
  copied fm p src n s -> grows W s s' -> (forall a, W a -> ~ region p n a) -> copied fm p src n s'.
Proof.
  intros Hc [Hf Hm _] HW o Ho. destruct (Hc o Ho) as [E Hn]. split; [|auto]. rewrite Hm; [done|done|].
  intros Hw. apply (HW _ Hw). unfold region. lia.
Qed.
Lemma copied_kept fm p src n s s' : copied fm p src n s -> grows nowhere s s' -> copied fm p src n s'.
Proof. intros Hc Hg. eapply copied_grows; [done|exact Hg|by intros a []]. Qed.

Lemma copied_load fm p src n s k o :
  copied fm p src n s -> 0 <= o -> o + Z.of_nat k <= n -> load k (e_mem s) (p + o) = load k fm (src + o).
Proof.
  intros Hc. revert o. induction k as [|k IH]; intros o H1 H2; [done|]. cbn [load]. rewrite (proj1 (Hc o ltac:(lia))).
  replace (p + o + 1) with (p + (o + 1)) by lia. replace (src + o + 1) with (src + (o + 1)) by lia. rewrite IH by lia. done.
Qed.

(** Calls of the firmware. *)
Lemma call_spec {A} (f : F -> A * F) s a fw (Q : A -> est F -> Prop) :
  f (e_fw s) = (a, fw) -> Q a (mkE (e_mem s) fw (e_out s) (e_jump s)) -> runs (call f) s Q.
Proof. intros E HQ. eapply runs_eq; [unfold call; rewrite E; reflexivity|exact HQ]. Qed.

Lemma print_out_spec fmt args s (Q : unit -> est F -> Prop) :
  (forall s', still s s' -> e_out s' = e_out s ++ [(fmt, args)] -> Q tt s') -> runs (Print fmt args) s Q.
Proof. intros HQ. destruct (fw_print fmt args (e_fw s)). apply runs_modify, HQ; [by split|done]. Qed.

Lemma print_spec fmt args s (Q : unit -> est F -> Prop) :
  (forall s', still s s' -> (forall h, position h (e_fw s') = position h (e_fw s)) -> Q tt s') -> runs (Print fmt args) s Q.
Proof. intros HQ. destruct (fw_print fmt args (e_fw s)). apply runs_modify, HQ; [by split|done]. Qed.

(** A pool just allocated. *)
Record pool (p n : Z) s s' : Prop := {
  po_pos : 0 < p < 2 ^ 64;
  po_end : p + n <= 2 ^ 64;
  po_mem : e_mem s' = e_mem s;
  po_jump : e_jump s' = e_jump s;
  po_was : forall a, region p n a -> free (e_fw s) a /\ pool_area a;
  po_free : forall a, free (e_fw s') a -> free (e_fw s) a /\ ~ region p n a;
  po_else : forall a, free (e_fw s) a -> ~ pool_area a -> free (e_fw s') a;
  po_position : forall h, position h (e_fw s') = position h (e_fw s);
  po_budget : budget (e_fw s) = S (budget (e_fw s'))
}.

Lemma pool_spec n old s (Q : EFI_STATUS * Z -> est F -> Prop) : 0 <= n <= pool_limit -> (0 < budget (e_fw s))%nat ->
  (forall p s', pool p n s s' -> s' = mkE (e_mem s) (AllocatePool n old (e_fw s)).2 (e_out s) (e_jump s) -> Q (EFI_SUCCESS, p) s') ->
  runs (call (AllocatePool n old)) s Q.
Proof.
  intros Hn Hb HQ. destruct (fw_pool n old (e_fw s) Hn Hb) as (p & f' & E & H1 & H2 & H3 & H4 & H5 & H6 & H7).
  eapply call_spec; [exact E|]. apply HQ; [by split|]. by rewrite E.
Qed.

Lemma pool_grows p n s s' : pool p n s s' -> grows nowhere s s'.
Proof. intros [H1 H2 H3 H4 H5 H6 H7 H8 H9]. split; [by intros a [? _]%H6|by rewrite H3|done]. Qed.

Lemma pool_owned p n s s' a : pool p n s s' -> region p n a -> ~ free (e_fw s') a.
Proof. intros Hp Ha [_ Hn]%(po_free _ _ _ _ Hp). done. Qed.

(** A pool that is filled afterwards. *)
Lemma pool_fill p n s1 s2 s3 : pool p n s1 s2 -> grows (region p n) s2 s3 -> grows nowhere s1 s3.
Proof.
  intros Hp Hg. eapply (grows_own nowhere (region p n)); [by eapply pool_grows| |].
  - eapply grows_weaken; [|exact Hg]. auto.
  - intros a Ha. apply (po_was _ _ _ _ Hp a Ha).
Qed.

(** A store of the bootloader. *)
Lemma write_spec (f : mem -> mem) (W : Z -> Prop) s (Q : unit -> est F -> Prop) :
  (forall a, ~ W a -> mget (f (e_mem s)) a = mget (e_mem s) a) ->
  (forall s', grows W s s' -> e_mem s' = f (e_mem s) -> e_fw s' = e_fw s -> Q tt s') -> runs (write f) s Q.
Proof. intros Hf HQ. apply runs_modify, HQ; [|done|done]. split; [done| |done]. intros a _ Hw. by apply Hf. Qed.

Lemma non_null_spec p s (Q : unit -> est F -> Prop) : p <> 0 -> Q tt s -> runs (non_null p) s Q.
Proof. intros Hp HQ. unfold non_null. rewrite (proj2 (Z.eqb_neq p 0) Hp). by apply runs_ret. Qed.

(** ** Files *)
Lemma load_file_spec name s : contents name <> [] ->
  runs (load_file 0 name image) s (fun h s' =>
    h = file_of name /\ h <> 0 /\ position h (e_fw s') = 0 /\ still s s').
Proof.
  intros Hc. unfold load_file, get_image, get_root_fs, get_root_dir, get_file.
  destruct (fw_open image LoadedImageProtocol image 0 (e_fw s)) as (li & f1 & E1 & N1 & S1).
  apply runs_bind, runs_bind. eapply call_spec; [exact E1|]. apply runs_bind, runs_ret, runs_ret.
  apply runs_bind, runs_bind, non_null_spec; [done|]. apply runs_bind, runs_gets, runs_bind. cbn [e_fw e_mem e_out e_jump].
  destruct (fw_open (DeviceHandle li f1) SimpleFileSystemProtocol image 0 f1) as (fs & f2 & E2 & N2 & S2).
  eapply call_spec; [exact E2|]. apply runs_bind, runs_ret, runs_ret. cbn [e_fw e_mem e_out e_jump].
  apply runs_bind, runs_bind, non_null_spec; [done|]. apply runs_bind.
  destruct (fw_volume fs 0 f2) as (dir & f3 & E3 & N3 & S3).
  eapply call_spec; [exact E3|]. apply runs_bind, runs_ret, runs_ret. cbn [e_fw e_mem e_out e_jump].
  apply runs_bind, runs_bind, non_null_spec; [done|]. apply runs_bind.
  destruct (fw_file dir name 0 f3 Hc) as (f4 & E4 & N4 & P4 & S4).
  eapply call_spec; [exact E4|]. apply runs_bind, runs_ret, runs_ret, runs_ret.
  split_and!; try done. split; [done|done|]. cbn. destruct S1 as (A1 & B1 & C1 & D1), S2 as (A2 & B2 & C2 & D2),
    S3 as (A3 & B3 & C3 & D3), S4 as (A4 & B4 & C4 & D4). split_and!; [|congruence..]. intros a. by rewrite A4, A3, A2, A1.
Qed.
End Firmware.
