(* ===== verification/LoaderProps.v ===== *)
(** * LoaderProps: the kernel and the font in memory *)
From Stdlib Require Import String.
From S2P Require Import Prelude Memory Bitmap Libc Framebuffer Console MMap Boot Efi Loader Bootloader Firmware.

(** [memcmp] of utils.c compares bytes. *)
Lemma memcmp_zero n m a b : Utils.memcmp_loop n m a b = 0 <-> get_bytes n m a = get_bytes n m b.
Proof.
  revert a b. induction n as [|n IH]; intros a b; [done|]. cbn [Utils.memcmp_loop get_bytes].
  destruct (Z.ltb_spec (mget m a) (mget m b)) as [H1|H1].
  { split; [lia|]. intros [=]. lia. }
  destruct (Z.ltb_spec (mget m b) (mget m a)) as [H2|H2].
  { split; [lia|]. intros [=]. lia. }
  assert (E : mget m a = mget m b) by lia. rewrite E, IH. split; [by intros ->|by intros [=]].
Qed.

(** ** The kernel's file *)
Section Kernel.
Context {F : Type} {image : Z} `{Hfw : Firmware F image}.
Context (name : string).
Implicit Types s : est F.
Import Utils File Elf KernelLoader.

Let fm : mem := file_mem name.

(** The program headers and the segments of the file. *)
Definition entsize : Z := e_phentsize fm 0.
Definition phnum : Z := e_phnum fm 0.
Definition ph (i : Z) : Z := e_phoff fm 0 + i * entsize.
Definition loads (i : Z) : Prop := 0 <= i < phnum /\ p_type fm (ph i) = PT_LOAD.
Definition seg_start (i : Z) : Z := p_paddr fm (ph i).
Definition seg_size (i : Z) : Z := p_filesz fm (ph i).
Definition seg_pages (i : Z) : Z := seg_size i / PAGE_SZ + 1.
Definition seg (i : Z) : Z -> Prop := region (seg_start i) (4096 * seg_pages i).

(** A file that can be loaded: its headers and segments are in the file, the
    pages of the segments do not overlap and their number fits a [UINT16]. *)
Record loadable : Prop := {
  lo_header : EHDR_SZ <= file_size name < 2 ^ 63;
  lo_phdrs : 0 <= e_phoff fm 0 /\ e_phoff fm 0 + entsize * phnum <= file_size name;
  lo_entsize : 56 <= entsize /\ entsize * phnum < 2 ^ 31 /\ entsize * phnum <= pool_limit;
  lo_seg i : loads i -> p_offset fm (ph i) + seg_size i <= file_size name /\ seg_pages i < 65536 /\ seg_start i mod 4096 = 0;
  lo_apart i j a : loads i -> loads j -> i < j -> seg i a -> seg j a -> False;
  lo_pool i a : loads i -> seg i a -> ~ pool_area a
}.

(** Segment [i] is in memory, which is not free any more. *)
Definition loaded (i : Z) s : Prop := copied fm (seg_start i) (p_offset fm (ph i)) (seg_size i) s.

Hypothesis Hlo : loadable.

Lemma seg_size_range i : 0 <= seg_size i < 2 ^ 64.
Proof. apply read64_range. Qed.

(** Program header [i] in memory, at [p]. *)
Definition header_at (p i : Z) s : Prop := copied fm p (ph i) 56 s.

Lemma header_fields p i s : header_at p i s -> p_type (e_mem s) p = p_type fm (ph i) /\
  p_offset (e_mem s) p = p_offset fm (ph i) /\ p_paddr (e_mem s) p = seg_start i /\ p_filesz (e_mem s) p = seg_size i.
Proof.
  intros Hh. unfold p_type, p_offset, seg_start, seg_size, p_paddr, p_filesz, read32, read64.
  rewrite <- (Z.add_0_r p) at 1. rewrite <- (Z.add_0_r (ph i)) at 1. by rewrite !(copied_load _ _ _ _ _ _ _ Hh) by lia.
Qed.

(** One segment. *)
Lemma load_segment_spec s p i :
  header_at p i s -> loads i -> (forall a, seg i a -> free (e_fw s) a) ->
  runs (load_elf_segment_by_p_hdr (file_of name) p) s (fun st s' => st = EFI_SUCCESS /\ grows nowhere s s' /\
    (forall a, free (e_fw s') a <-> free (e_fw s) a /\ ~ seg i a) /\ budget (e_fw s') = budget (e_fw s) /\ loaded i s').
Proof.
  intros Hh Hi Hfree. destruct (header_fields p i _ Hh) as (_ & Eo & Ea & Ez).
  destruct (lo_seg Hlo i Hi) as (L1 & L2 & L3). pose proof (seg_size_range i) as Hz.
  pose proof (read64_range fm (ph i + 8)) as Ho. fold (p_offset fm (ph i)) in Ho.
  unfold load_elf_segment_by_p_hdr. apply runs_bind, runs_gets. cbv zeta. rewrite Eo, Ea, Ez.
  assert (Hp : 0 < seg_pages i) by (unfold seg_pages, PAGE_SZ; zdm).
  fold (seg_pages i). rewrite u16_small by lia.
  destruct (fw_pages (seg_pages i) (seg_start i) (e_fw s) Hp L3) as (f1 & E1 & F1 & P1 & B1).
  { intros b Hb. split; [by apply Hfree|by apply (lo_pool Hlo i)]. }
  apply runs_bind. eapply call_spec; [exact E1|]. cbn [negb].
  pose proof (lo_header Hlo) as Hlen.
  destruct (fw_setpos (file_of name) (p_offset fm (ph i)) f1) as (f2 & E2 & P2 & S2); [lia|].
  apply runs_bind. eapply call_spec; [exact E2|]. cbn [negb e_mem e_fw e_out e_jump].
  set (s2 := mkE (e_mem s) f2 (e_out s) (e_jump s)).
  assert (F2 : forall a, free (e_fw s2) a <-> free (e_fw s) a /\ ~ seg i a).
  { intros a. etransitivity; [apply (proj1 S2 a)|apply F1]. }
  apply runs_bind, (read_spec name (seg_size i) (seg_start i) s2 (seg i)); cbn [s2 e_fw]; rewrite ?P2; try lia.
  { intros a Ha _. unfold seg, region, seg_pages, PAGE_SZ in *. zdm. }
  intros s3 G3 (F3 & _ & _ & D3) _ B3. apply runs_bind, runs_ret, runs_ret.
  assert (Hfr : forall a, free (e_fw s3) a <-> free (e_fw s) a /\ ~ seg i a) by (intros a; by rewrite F3, <- F2).
  destruct S2 as (_ & _ & _ & D2). split_and!; [done| |done|congruence|].
  - eapply (grows_own nowhere (seg i) s s2 s3); [|eapply grows_weaken; [|exact G3]; auto|exact Hfree].
    split; [intros a; rewrite F2; tauto|done|done].
  - intros o Hoo. split; [by apply B3|]. rewrite Hfr. intros [_ Hn]. apply Hn.
    unfold seg, region, seg_pages, PAGE_SZ. zdm.
Qed.

(** The table of the program headers in memory, at [p]. *)
Definition hdrs_at (p : Z) s : Prop := 0 < p /\ p + entsize * phnum <= 2 ^ 64 /\
  copied fm p (e_phoff fm 0) (entsize * phnum) s.

Lemma hdrs_grows p s s' : hdrs_at p s -> grows nowhere s s' -> hdrs_at p s'.
Proof. intros (H1 & H2 & H3) Hg. split_and!; [done|done|]. by eapply copied_kept. Qed.

Lemma hdrs_header p s i : hdrs_at p s -> 0 <= i < phnum -> header_at (p + i * entsize) i s.
Proof.
  intros (_ & _ & H3) Hi o Ho. pose proof (lo_entsize Hlo). unfold ph. rewrite <- !Z.add_assoc. apply H3. nia.
Qed.

Lemma load_loop_spec p n i s :
  0 <= i -> i + Z.of_nat n = phnum -> hdrs_at p s -> (forall j a, i <= j -> loads j -> seg j a -> free (e_fw s) a) ->
  runs (load_loop n (file_of name) i (if 0 <? i then p + (i - 1) * entsize else p) entsize) s (fun ok s' =>
    ok = true /\ grows nowhere s s' /\ budget (e_fw s') = budget (e_fw s) /\ forall j, i <= j -> loads j -> loaded j s').
Proof.
  revert i s. induction n as [|n IH]; intros i s Hi Hn Hh Hf; cbn [load_loop].
  { apply runs_ret. split_and!; [done|reflexivity|done|]. intros j Hj [? _]. lia. }
  pose proof (lo_entsize Hlo) as (He & _). pose proof Hh as (Hp & Hend & _).
  assert (Hcur : (if 0 <? i then _get_next_p_hdr (if 0 <? i then p + (i - 1) * entsize else p) entsize
      else if 0 <? i then p + (i - 1) * entsize else p) = p + i * entsize).
  { destruct (Z.ltb_spec 0 i); [|replace i with 0 by lia; lia]. unfold _get_next_p_hdr. rewrite u64_small by nia. lia. }
  rewrite Hcur. pose proof (hdrs_header p s i Hh ltac:(lia)) as Hhd. destruct (header_fields _ _ _ Hhd) as (Et & _).
  apply runs_bind, non_null_spec; [nia|]. apply runs_bind, runs_gets. rewrite Et. apply runs_bind.
  assert (Hnext : forall s1, grows nowhere s s1 -> (forall j a, i + 1 <= j -> loads j -> seg j a -> free (e_fw s1) a) ->
    budget (e_fw s1) = budget (e_fw s) -> (loads i -> loaded i s1) ->
    runs (load_loop n (file_of name) (i + 1) (p + i * entsize) entsize) s1 (fun ok s' =>
      ok = true /\ grows nowhere s s' /\ budget (e_fw s') = budget (e_fw s) /\ forall j, i <= j -> loads j -> loaded j s')).
  { intros s1 G1 F1 D1 L1. pose proof (IH (i + 1) s1 ltac:(lia) ltac:(lia) (hdrs_grows _ _ _ Hh G1) F1) as Hr.
    rewrite (proj2 (Z.ltb_lt 0 (i + 1))) in Hr by lia. replace (i + 1 - 1) with i in Hr by lia.
    eapply runs_mono; [exact Hr|]. intros ok s2 (-> & G2 & D2 & L2). split_and!; [done|by etransitivity|congruence|].
    intros j Hj Hl. destruct (decide (j = i)) as [->|]; [|apply L2; [lia|done]].
    eapply copied_kept; [by apply L1|exact G2]. }
  destruct (Z.eqb_spec (p_type fm (ph i)) PT_LOAD) as [Ht|Ht].
  - assert (Hl : loads i) by (split; [lia|done]).
    apply runs_bind. eapply runs_mono; [apply (load_segment_spec s (p + i * entsize) i Hhd Hl)|].
    { intros a. by apply Hf. }
    intros st s1 (-> & G1 & F1 & D1 & L1). apply runs_ret. cbn. apply Hnext; [done| |done|done].
    intros j a Hj Hlj Ha. rewrite F1. split; [apply (Hf j); [lia|done..]|]. intros Hi'. apply (lo_apart Hlo i j a); try done. lia.
  - apply runs_ret. cbn. apply Hnext; [reflexivity|intros j a Hj; apply Hf; lia|done|intros [_ ?]; done].
Qed.

(** The header in the local variable at [h]. *)
Definition ehdr_at (h : Z) s : Prop := copied fm h 0 EHDR_SZ s.

(** The check of the header: whether the memory at the address that the first
    byte of the file names holds the magic number. *)
Record check_off (elfmag h : Z) s : Prop := {
  co_literal : get_bytes 4 (e_mem s) elfmag = ELFMAG /\ forall a, region elfmag 4 a -> ~ region h EHDR_SZ a;
  co_memory : get_bytes 4 (e_mem s) (mget fm 0) <> ELFMAG /\ forall a, region (mget fm 0) 4 a -> ~ region h EHDR_SZ a
}.

Lemma check_off_spec elfmag h s s' : check_off elfmag h s -> ehdr_at h s' ->
  (forall a, ~ region h EHDR_SZ a -> mget (e_mem s') a = mget (e_mem s) a) -> verify_kernel_elf_header (e_mem s') elfmag h = false.
Proof.
  intros [[C1 C2] [C3 C4]] Hh Hm. unfold verify_kernel_elf_header, memcmp. change (Z.to_nat SELFMAG) with 4%nat.
  assert (E : e_ident (e_mem s') h EI_MAG0 = mget fm 0).
  { unfold e_ident, read8, EI_MAG0. rewrite (copied_load _ _ _ _ _ 1 0 Hh) by done. apply (read8_mget fm 0). }
  rewrite E. destruct (Z.eqb_spec (memcmp_loop 4 (e_mem s') (mget fm 0) elfmag) 0) as [Hz|]; [|done].
  apply memcmp_zero in Hz. destruct C3. rewrite <- C1.
  rewrite (get_bytes_agree 4 (e_mem s) (e_mem s') (mget fm 0)), (get_bytes_agree 4 (e_mem s) (e_mem s') elfmag); [done|..];
    intros a Ha; symmetry; apply Hm; auto.
Qed.

Lemma ehdr_fields h s : ehdr_at h s -> e_phentsize (e_mem s) h = entsize /\ e_phnum (e_mem s) h = phnum /\
  e_phoff (e_mem s) h = e_phoff fm 0 /\ e_entry (e_mem s) h = e_entry fm 0.
Proof.
  intros Hh. unfold entsize, phnum, e_phentsize, e_phnum, e_phoff, e_entry, read16, read64.
  by rewrite !(copied_load _ _ _ _ _ _ _ Hh) by (done || unfold EHDR_SZ; lia).
Qed.

(** The table of the program headers. *)
Lemma get_elf_p_hdrs_spec h s : ehdr_at h s -> (0 < budget (e_fw s))%nat ->
  runs (get_elf_p_hdrs (file_of name) h 0) s (fun r s' => exists p, r = (EFI_SUCCESS, p) /\ grows nowhere s s' /\ hdrs_at p s' /\
    budget (e_fw s) = S (budget (e_fw s')) /\ forall a, free (e_fw s) a -> ~ pool_area a -> free (e_fw s') a).
Proof.
  intros Hh Hbu. destruct (ehdr_fields h s Hh) as (E1 & E2 & E3 & _). destruct (lo_entsize Hlo) as (L1 & L2 & L3).
  destruct (lo_phdrs Hlo) as [L4 L5]. pose proof (lo_header Hlo) as L6.
  assert (Hn : 0 <= phnum) by (unfold phnum, e_phnum, read16; apply load_range).
  assert (Hprod : int_product entsize phnum = entsize * phnum).
  { unfold int_product. rewrite (Z.mod_small (_ + _)) by nia. rewrite u64_small by nia. lia. }
  unfold get_elf_p_hdrs. apply runs_bind, runs_gets. rewrite E1, E2, E3, Hprod. cbv zeta.
  apply runs_bind, pool_spec; [nia|done|]. intros p s1 Hpool _. cbn [negb].
  destruct (fw_setpos (file_of name) (e_phoff fm 0) (e_fw s1)) as (f2 & F2 & P2 & S2); [lia|].
  apply runs_bind. eapply call_spec; [exact F2|]. cbn [negb]. set (s2 := mkE _ f2 _ _).
  assert (Hst : still s1 s2) by by split.
  apply runs_bind, (read_spec name (entsize * phnum) p s2 (region p (entsize * phnum))); cbn [s2 e_fw]; rewrite ?P2; try nia; [auto|].
  intros s3 G3 S3 _ B3. apply runs_bind, runs_ret, runs_ret. exists p.
  assert (Hfr : forall a, free (e_fw s3) a <-> free (e_fw s1) a).
  { intros a. rewrite (proj1 S3 a). apply (proj1 S2 a). }
  split_and!; [done| | | |].
  - eapply pool_fill; [exact Hpool|]. etransitivity; [by apply still_grows|exact G3].
  - split_and!; [apply Hpool|apply Hpool|]. intros o Ho. split; [by apply B3|]. rewrite Hfr.
    eapply pool_owned; [exact Hpool|unfold region; lia].
  - rewrite (po_budget _ _ _ _ Hpool). destruct S2 as (_ & _ & _ & D2), S3 as (_ & _ & _ & D3). congruence.
  - intros a Ha Hna. rewrite Hfr. by apply (po_else _ _ _ _ Hpool).
Qed.

Lemma get_elf_header_spec h s : EHDR_SZ <= file_size name < 2 ^ 63 -> (forall a, region h EHDR_SZ a -> ~ free (e_fw s) a) ->
  runs (get_elf_header (file_of name) h) s (fun st s' => st = EFI_SUCCESS /\ grows (region h EHDR_SZ) s s' /\ ehdr_at h s' /\
    (forall a, ~ region h EHDR_SZ a -> mget (e_mem s') a = mget (e_mem s) a) /\
    (forall a, free (e_fw s') a <-> free (e_fw s) a) /\ budget (e_fw s') = budget (e_fw s)).
Proof.
  intros L Hloc. unfold EHDR_SZ in L.
  destruct (fw_setpos (file_of name) 0 (e_fw s)) as (f1 & F1 & P1 & S1); [lia|].
  unfold get_elf_header. apply runs_bind. eapply call_spec; [exact F1|]. cbn [negb]. set (s1 := mkE _ f1 _ _).
  assert (Hst : still s s1) by by split.
  apply runs_bind, (read_spec name EHDR_SZ h s1 (region h EHDR_SZ)); cbn [s1 e_fw]; rewrite ?P1; try (unfold EHDR_SZ; lia); [auto|].
  intros s2 G2 S2 B2 C2. apply runs_bind, runs_ret, runs_ret.
  assert (Hfr : forall a, free (e_fw s2) a <-> free (e_fw s) a).
  { intros a. rewrite (proj1 S2 a). apply (proj1 S1 a). }
  split_and!; try done.
  - etransitivity; [by apply still_grows|exact G2].
  - intros o Ho. split; [by apply C2|]. rewrite Hfr. apply Hloc. unfold region. lia.
  - destruct S1 as (_ & _ & _ & D1), S2 as (_ & _ & _ & D2). congruence.
Qed.

Lemma load_kernel_spec elfmag h s : check_off elfmag h s -> (0 < budget (e_fw s))%nat ->
  (forall a, region h EHDR_SZ a -> ~ free (e_fw s) a) -> (forall j a, loads j -> seg j a -> free (e_fw s) a) ->
  runs (load_kernel_into_memory elfmag h (file_of name)) s (fun entry s' =>
    entry = e_entry fm 0 /\ grows (region h EHDR_SZ) s s' /\ budget (e_fw s) = S (budget (e_fw s')) /\
    forall j, loads j -> loaded j s').
Proof.
  intros Hco Hbu Hloc Hfree. unfold load_kernel_into_memory.
  apply runs_bind. eapply runs_mono; [by apply get_elf_header_spec, Hloc; apply (lo_header Hlo)|]. intros st s1 (-> & G1 & H1 & M1 & F1 & D1). cbn [negb].
  apply runs_bind, runs_gets. rewrite (check_off_spec elfmag h s s1) by done.
  apply runs_bind. eapply runs_mono; [apply get_elf_p_hdrs_spec; [done|lia]|].
  intros r s2 (p & -> & G2 & H2 & D2 & F2). cbn [negb].
  apply runs_bind, runs_gets. destruct (ehdr_fields h s2 (copied_kept _ _ _ _ _ _ H1 G2)) as (-> & -> & _).
  assert (Hn : 0 <= phnum) by (unfold phnum, e_phnum, read16; apply load_range).
  apply runs_bind. eapply runs_mono; [apply (load_loop_spec p (Z.to_nat phnum) 0 s2); [done|lia|done|]|].
  { intros j a _ Hj Ha. apply F2; [apply F1; by apply (Hfree j)|by apply (lo_pool Hlo j)]. }
  intros ok s3 (-> & G3 & D3 & L3). apply runs_bind, runs_gets, runs_ret.
  assert (G : grows nowhere s1 s3) by by etransitivity.
  split_and!; [by apply ehdr_fields, (copied_kept _ _ _ _ s1)| |congruence|intros j Hj; apply L3; [apply Hj|done]].
  etransitivity; [exact G1|]. eapply grows_weaken; [|exact G]. by intros a [].
Qed.
End Kernel.

(** ** Structures of the bootloader *)
Section Structures.
Context {F : Type} {image : Z} `{Hfw : Firmware F image}.
Implicit Types s : est F.
Import Utils File.

(** Pool memory that is not free. *)
Definition owned (p n : Z) s : Prop := 0 < p < 2 ^ 64 /\ p + n <= 2 ^ 64 /\ forall a, region p n a -> ~ free (e_fw s) a /\ pool_area a.

Lemma owned_grows W p n s s' : owned p n s -> grows W s s' -> owned p n s'.
Proof. intros (H1 & H2 & H3) [Hf _ _]. split; [done|]. split; [done|]. intros a Ha. destruct (H3 a Ha). auto. Qed.

Lemma pool_is_owned p n s s' : pool p n s s' -> owned p n s'.
Proof.
  intros Hp. split; [apply Hp|]. split; [apply Hp|]. intros a Ha. split; [by eapply pool_owned|].
  apply (po_was _ _ _ _ Hp a Ha).
Qed.

(** Writes elsewhere do not change it. *)
Section Outside.
Context (W : Z -> Prop).
Hypothesis HW : forall a, W a -> ~ pool_area a.

Lemma owned_load p n k o s s' : owned p n s -> grows W s s' ->
  0 <= o -> o + Z.of_nat k <= n -> load k (e_mem s') (p + o) = load k (e_mem s) (p + o).
Proof.
  intros (_ & _ & H3) [_ Hm _] H1 H2. apply load_agree. intros a Ha.
  destruct (H3 a) as [Hn Hp]; [unfold region; lia|]. apply Hm; [done|]. intros Hw. by apply (HW a Hw).
Qed.

Lemma owned_copied fm p src n s s' : owned p n s -> copied fm p src n s -> grows W s s' -> copied fm p src n s'.
Proof.
  intros Ho Hc Hg. eapply copied_grows; [done|exact Hg|]. intros a Hw Ha. apply (HW a Hw), Ho, Ha.
Qed.
End Outside.

(** The font. *)
Section Font.
Context (name : string).
Import Loader.Font.
Let fm : mem := file_mem name.

Definition glyph_bytes : Z := if psf_mode fm 0 =? PSF1_MODE512 then psf_charsize fm 0 * 512 else psf_charsize fm 0 * 256.

Record font_ok : Prop := {
  fo_size : PSF_HEADER_SZ + glyph_bytes <= file_size name < 2 ^ 63;
  fo_pool : PSF_FONT_SZ <= pool_limit /\ glyph_bytes <= pool_limit
}.

Definition font_at (p : Z) s : Prop := owned p PSF_FONT_SZ s /\ exists hdr glyphs,
  read_font (e_mem s) p = mkFont hdr GLYPH_HEIGHT GLYPH_WIDTH glyphs /\
  owned hdr PSF_HEADER_SZ s /\ copied fm hdr 0 PSF_HEADER_SZ s /\
  owned glyphs glyph_bytes s /\ copied fm glyphs PSF_HEADER_SZ glyph_bytes s.

Lemma font_grows W p s s' : (forall a, W a -> ~ pool_area a) -> font_at p s -> grows W s s' -> font_at p s'.
Proof.
  intros HW [Ho (hdr & glyphs & Hr & O1 & H1 & O2 & H2)] Hg.
  split; [by eapply owned_grows|]. exists hdr, glyphs.
  split_and!; [|by eapply owned_grows|by eapply owned_copied|by eapply owned_grows|by eapply owned_copied].
  rewrite <- Hr. unfold read_font, read64, read8. rewrite <- (Z.add_0_r p) at 1. rewrite <- (Z.add_0_r p) at 5.
  by rewrite !(owned_load W HW p PSF_FONT_SZ _ _ s s') by (done || unfold PSF_FONT_SZ; lia).
Qed.

Lemma set_font_spec p hdr glyphs m : 0 <= hdr < 2 ^ 64 -> 0 <= glyphs < 2 ^ 64 ->
  read_font (set_font p hdr glyphs m) p = mkFont hdr GLYPH_HEIGHT GLYPH_WIDTH glyphs /\
  forall a, ~ region p PSF_FONT_SZ a -> mget (set_font p hdr glyphs m) a = mget m a.
Proof.
  intros H1 H2. unfold set_font, read_font, write8, write64, read8, read64. split.
  - repeat first [rewrite load_store_same | rewrite load_store_out by lia]. rewrite !Z.mod_small by done. done.
  - intros a Ha. unfold region, PSF_FONT_SZ in Ha. by rewrite !mget_store_out by lia.
Qed.

Lemma glyph_bytes_range : 0 <= glyph_bytes.
Proof. unfold glyph_bytes, psf_charsize, read8. pose proof (load_range 1 fm (0 + 3)). case_match; lia. Qed.

(** A pool that a read fills. *)
Lemma fill_pool p n s1 s2 (Q : EFI_STATUS * Z -> est F -> Prop) :
  pool p n s1 s2 -> 0 <= n -> 0 <= position (file_of name) (e_fw s2) ->
  position (file_of name) (e_fw s2) + n <= file_size name ->
  (forall s3, grows nowhere s1 s3 -> owned p n s3 -> copied fm p (position (file_of name) (e_fw s2)) n s3 ->
     budget (e_fw s1) = S (budget (e_fw s3)) -> Q (EFI_SUCCESS, n) s3) ->
  runs (Read (file_of name) n p) s2 Q.
Proof.
  intros Hp Hn H0 Hs HQ. apply (read_spec name n p s2 (region p n)); try done.
  intros s3 G3 S3 _ B3. pose proof (pool_is_owned _ _ _ _ Hp) as Ho. apply HQ.
  - by eapply pool_fill.
  - by eapply owned_grows.
  - intros o Hoo. split; [by apply B3|]. rewrite (proj1 S3). apply Ho. unfold region. lia.
  - rewrite (po_budget _ _ _ _ Hp). destruct S3 as (_ & _ & _ & D3). congruence.
Qed.

Hypothesis Hfo : font_ok.

Lemma get_psf_header_spec s : position (file_of name) (e_fw s) = 0 -> (0 < budget (e_fw s))%nat ->
  runs (get_psf_header (file_of name) 0) s (fun r s' => exists p, r = (EFI_SUCCESS, p) /\ grows nowhere s s' /\
    owned p PSF_HEADER_SZ s' /\ copied fm p 0 PSF_HEADER_SZ s' /\ budget (e_fw s) = S (budget (e_fw s'))).
Proof.
  intros Hpos Hbu. destruct (fo_pool Hfo) as [L1 L2]. destruct (fo_size Hfo) as [L3 L4]. pose proof glyph_bytes_range.
  unfold PSF_FONT_SZ, PSF_HEADER_SZ in *. unfold get_psf_header.
  apply runs_bind, pool_spec; [unfold PSF_HEADER_SZ; lia|done|]. intros p s1 Hp _. cbn [negb].
  apply runs_bind, (fill_pool p _ s s1 _ Hp); rewrite ?(po_position _ _ _ _ Hp), ?Hpos; unfold PSF_HEADER_SZ in *; try lia.
  intros s2 G2 O2 C2 D2. apply runs_bind, runs_ret, runs_ret. by exists p.
Qed.

Lemma get_psf_glyphs_spec s : (0 < budget (e_fw s))%nat ->
  runs (get_psf_glyphs (file_of name) glyph_bytes 0) s (fun r s' => exists p, r = (EFI_SUCCESS, p) /\ grows nowhere s s' /\
    owned p glyph_bytes s' /\ copied fm p PSF_HEADER_SZ glyph_bytes s' /\ budget (e_fw s) = S (budget (e_fw s'))).
Proof.
  intros Hbu. destruct (fo_pool Hfo) as [L1 L2]. destruct (fo_size Hfo) as [L3 L4]. pose proof glyph_bytes_range.
  destruct (fw_setpos (file_of name) PSF_HEADER_SZ (e_fw s)) as (f1 & F1 & P1 & S1); [unfold PSF_HEADER_SZ in *; lia|].
  unfold get_psf_glyphs. apply runs_bind. eapply call_spec; [exact F1|]. cbn [negb]. set (s1 := mkE _ f1 _ _).
  assert (Hst : still s s1) by by split. pose proof (still_budget _ _ Hst) as Ds.
  apply runs_bind, pool_spec; [lia|lia|]. intros p s2 Hp _. cbn [negb].
  apply runs_bind, (fill_pool p _ s1 s2 _ Hp); rewrite ?(po_position _ _ _ _ Hp); cbn [s1 e_fw]; rewrite ?P1; try done.
  intros s3 G3 O3 C3 D3. apply runs_bind, runs_ret, runs_ret. exists p. split_and!; try done; [|cbn [s1 e_fw] in Ds, D3; congruence].
  etransitivity; [by apply still_grows|exact G3].
Qed.

(** The fields of the header in memory. *)
Lemma psf_fields p s : copied fm p 0 PSF_HEADER_SZ s ->
  psf_magic (e_mem s) p = psf_magic fm 0 /\ psf_mode (e_mem s) p = psf_mode fm 0 /\ psf_charsize (e_mem s) p = psf_charsize fm 0.
Proof.
  intros Hc. unfold psf_magic, psf_mode, psf_charsize, read8, read16.
  rewrite <- (Z.add_0_r p) at 1. change 0 with (0 + 0) at 3.
  by rewrite !(copied_load _ _ _ _ _ _ _ Hc) by (done || unfold PSF_HEADER_SZ; lia).
Qed.

Lemma load_psf_font_spec s : psf_magic fm 0 <> PSF1_MAGIC -> (3 <= budget (e_fw s))%nat ->
  runs (load_psf_font 0 name image) s (fun p s' => p <> 0 /\ grows nowhere s s' /\ font_at p s' /\
    budget (e_fw s) = (3 + budget (e_fw s'))%nat).
Proof.
  intros Hmag Hbu. destruct (fo_pool Hfo) as [L1 L2]. destruct (fo_size Hfo) as [L3 L4]. pose proof glyph_bytes_range.
  assert (Hc : contents name <> []).
  { intros E. unfold file_size, PSF_HEADER_SZ in L3. rewrite E in L3. cbn in L3. lia. }
  unfold load_psf_font. apply runs_bind. eapply runs_mono; [by apply load_file_spec|]. intros h s1 (-> & N1 & P1 & S1).
  rewrite (proj2 (Z.eqb_neq _ _) N1). pose proof (still_budget _ _ S1) as D1. apply runs_bind.
  eapply runs_mono; [apply get_psf_header_spec; [done|lia]|]. intros r s2 (hdr & -> & G2 & O2 & C2 & D2). cbn [negb].
  destruct (psf_fields hdr s2 C2) as (E1 & E2 & E3). pose proof (proj1 O2) as Hh0.
  apply runs_bind, non_null_spec; [lia|]. apply runs_bind, runs_gets. unfold verify_psf_header. rewrite E1, E2, E3.
  rewrite (proj2 (Z.eqb_neq _ _) Hmag). fold glyph_bytes.
  apply runs_bind. eapply runs_mono; [apply get_psf_glyphs_spec; lia|]. intros r s3 (gl & -> & G3 & O3 & C3 & D3). cbn [negb].
  apply runs_bind, pool_spec; [unfold PSF_FONT_SZ in *; lia|lia|]. intros p s4 Hp _. cbn [negb].
  pose proof (po_pos _ _ _ _ Hp). apply runs_bind, non_null_spec; [lia|].
  destruct (set_font_spec p hdr gl (e_mem s4) ltac:(lia) ltac:(pose proof (proj1 O3); lia)) as [R HWr].
  apply runs_bind, (write_spec _ (region p PSF_FONT_SZ)); [exact HWr|]. intros s5 G5 M5 F5. apply runs_ret.
  assert (G : grows nowhere s3 s5) by by eapply pool_fill.
  split; [lia|]. split.
  { etransitivity; [by apply still_grows|]. etransitivity; [exact G2|]. by etransitivity. }
  pose proof (po_budget _ _ _ _ Hp) as D4. rewrite F5. split; [|lia].
  split; [eapply owned_grows; [by eapply pool_is_owned|exact G5]|]. exists hdr, gl. rewrite M5. split; [exact R|].
  assert (HW : forall a, nowhere a -> ~ pool_area a) by by intros a [].
  split_and!; [| |by eapply owned_grows|by eapply owned_copied].
  - eapply owned_grows; [by eapply owned_grows|exact G].
  - eapply copied_kept; [|exact G]. by eapply copied_kept.
Qed.

(** The first two bytes decide. *)
Lemma psf_magic_bytes : psf_magic fm 0 = PSF1_MAGIC <-> mget fm 0 = 0x04 /\ mget fm 1 = 0x36.
Proof.
  unfold psf_magic, read16, PSF1_MAGIC. cbn [load]. change (0 + 1) with 1. pose proof (mget_range fm 0). pose proof (mget_range fm 1). lia.
Qed.

Lemma load_psf_font_refuses s : psf_magic fm 0 = PSF1_MAGIC -> (0 < budget (e_fw s))%nat ->
  runs (load_psf_font 0 name image) s (fun p s' => p = 0 /\ grows nowhere s s' /\
    ("[!] Error: %s \n\r", ["Invalid PSF file header"])%string ∈ e_out s').
Proof.
  intros Hmag Hbu. destruct (fo_size Hfo) as [L3 L4]. pose proof glyph_bytes_range.
  assert (Hc : contents name <> []).
  { intros E. unfold file_size, PSF_HEADER_SZ in L3. rewrite E in L3. cbn in L3. lia. }
  unfold load_psf_font. apply runs_bind. eapply runs_mono; [by apply load_file_spec|]. intros h s1 (-> & N1 & P1 & S1).
  rewrite (proj2 (Z.eqb_neq _ _) N1). pose proof (still_budget _ _ S1) as D1. apply runs_bind.
  eapply runs_mono; [apply get_psf_header_spec; [done|lia]|]. intros r s2 (hdr & -> & G2 & O2 & C2 & D2). cbn [negb].
  destruct (psf_fields hdr s2 C2) as (E1 & _). pose proof (proj1 O2) as Hh0.
  apply runs_bind, non_null_spec; [lia|]. apply runs_bind, runs_gets. unfold verify_psf_header. rewrite E1, Hmag. cbn [Z.eqb].
  rewrite Z.eqb_refl. apply runs_bind, print_out_spec. intros s3 S3 Eo. apply runs_ret. rewrite Eo.
  split_and!; [done| |apply elem_of_app; right; by apply list_elem_of_singleton].
  etransitivity; [by apply still_grows|]. etransitivity; [exact G2|by apply still_grows].
Qed.
End Font.

(** The framebuffer. *)
Section Framebuffer.
Import Loader.Gop.

Definition fb_mode (db : Z) : FramebufferData :=
  mkFbData (u64 (gm_base mode)) db (u64 (gm_size mode)) (u16 (gm_width mode)) (u16 (gm_height mode)) (u16 (gm_scan mode))
    BYTES_PER_PIXEL.
Definition fb_at (p db : Z) s : Prop := owned p FRAMEBUFFER_SZ s /\ read_fb_data (e_mem s) p = fb_mode db.

Lemma fb_grows W p db s s' : (forall a, W a -> ~ pool_area a) -> fb_at p db s -> grows W s s' -> fb_at p db s'.
Proof.
  intros HW [Ho Hr] Hg. split; [by eapply owned_grows|]. rewrite <- Hr. unfold read_fb_data, read64, read16, read8.
  rewrite <- (Z.add_0_r p) at 1. rewrite <- (Z.add_0_r p) at 8.
  by rewrite !(owned_load W HW p FRAMEBUFFER_SZ _ _ s s') by (done || unfold FRAMEBUFFER_SZ; lia).
Qed.

Lemma set_framebuffer_spec p base size w h sc m :
  let m' := set_framebuffer p base size w h sc m in
  read_fb_data m' p = mkFbData (u64 base) (read64 m (p + 8)) (u64 size) (u16 w) (u16 h) (u16 sc) BYTES_PER_PIXEL /\
  forall a, ~ region p FRAMEBUFFER_SZ a -> mget m' a = mget m a.
Proof.
  unfold set_framebuffer, read_fb_data, write8, write16, write64, read8, read16, read64. split.
  - repeat first [rewrite load_store_same | rewrite load_store_out by lia]. done.
  - intros a Ha. unfold region, FRAMEBUFFER_SZ in Ha. by rewrite !mget_store_out by lia.
Qed.

Lemma get_framebuffer_spec s : FRAMEBUFFER_SZ <= pool_limit -> (0 < budget (e_fw s))%nat ->
  runs get_framebuffer s (fun p s' => p <> 0 /\ grows nowhere s s' /\ (exists db, fb_at p db s') /\
    (forall a, region p FRAMEBUFFER_SZ a -> free (e_fw s) a) /\ budget (e_fw s) = S (budget (e_fw s'))).
Proof.
  intros Hl Hbu. unfold get_framebuffer, locate_gop. destruct (fw_gop 0 (e_fw s)) as (g & f1 & E1 & N1 & S1).
  apply runs_bind, runs_bind. eapply call_spec; [exact E1|]. apply runs_bind, runs_ret, runs_ret. cbn [negb].
  set (s1 := mkE _ f1 _ _). assert (Hst : still s s1) by by split. pose proof (still_budget _ _ Hst) as Ds.
  apply runs_bind, pool_spec; [unfold FRAMEBUFFER_SZ in *; lia|lia|]. intros p s2 Hp _. cbn [negb].
  pose proof (po_pos _ _ _ _ Hp). apply runs_bind, non_null_spec; [done|]. apply runs_bind, non_null_spec; [lia|].
  apply runs_bind, runs_gets. pose proof (fw_mode g (e_fw s2)) as Em.
  destruct (set_framebuffer_spec p (FrameBufferBase g (e_fw s2)) (FrameBufferSize g (e_fw s2)) (HorizontalResolution g (e_fw s2))
    (VerticalResolution g (e_fw s2)) (PixelsPerScanLine g (e_fw s2)) (e_mem s2)) as [R HWr].
  apply runs_bind, (write_spec _ (region p FRAMEBUFFER_SZ)); [exact HWr|]. intros s3 G3 M3 F3. apply runs_ret.
  split; [lia|]. split; [etransitivity; [by apply still_grows|]; by eapply pool_fill|].
  pose proof (po_budget _ _ _ _ Hp) as Dp. rewrite F3.
  split; [|split; [intros a Ha; apply (proj1 S1), (po_was _ _ _ _ Hp a Ha)|congruence]].
  exists (read64 (e_mem s2) (p + 8)). split; [eapply owned_grows; [by eapply pool_is_owned|exact G3]|].
  rewrite M3, R. unfold fb_mode. by rewrite <- Em.
Qed.
End Framebuffer.
End Structures.
