(* ===== verification/Handover.v ===== *)
(** * Handover: from the firmware to the kernel

    What [efi_main] leaves in memory for [_start], read with the readers of the
    kernel's model. *)
From Stdlib Require Import String.
From S2P Require Import Prelude Memory Bitmap Libc Framebuffer Console MMap PMem Machine Keyboard Boot BootDev BootProps Efi Loader Bootloader Firmware LoaderProps.

Section MemoryData.
Context {F : Type} {image : Z} `{Hfw : Firmware F image}.
Implicit Types s : est F.
Import Utils Starter.

(** The memory data: a copy of a memory map of the firmware. *)
Definition memory_at (p : Z) (map : list Z) s : Prop := owned p MEMORY_DATA_SZ s /\ exists mmap,
  let n := Z.of_nat (length map) in
  read_memory_data (e_mem s) p = mkMemoryData mmap n desc_size (n / desc_size) /\
  owned mmap n s /\ copied (put_bytes ∅ 0 map) mmap 0 n s /\ exists k, 0 < k /\ n = k * desc_size.

Lemma memory_grows W p map s s' : (forall a, W a -> ~ pool_area a) -> memory_at p map s -> grows W s s' -> memory_at p map s'.
Proof.
  intros HW [Ho (mmap & Hr & O1 & H1 & Hk)] Hg. split; [by eapply owned_grows|]. exists mmap.
  split_and!; [|by eapply owned_grows|by eapply owned_copied|done].
  rewrite <- Hr. unfold read_memory_data, read64. rewrite <- (Z.add_0_r p) at 1. rewrite <- (Z.add_0_r p) at 5.
  by rewrite !(owned_load W HW p MEMORY_DATA_SZ _ _ s s') by (done || unfold MEMORY_DATA_SZ; lia).
Qed.

Lemma set_memory_data_spec p mmap n dsz m : 0 <= mmap < 2 ^ 64 -> 0 <= n < 2 ^ 64 -> 0 < dsz < 2 ^ 64 ->
  read_memory_data (set_memory_data p mmap n dsz m) p = mkMemoryData mmap n dsz (n / dsz) /\
  forall a, ~ region p MEMORY_DATA_SZ a -> mget (set_memory_data p mmap n dsz m) a = mget m a.
Proof.
  intros H1 H2 H3. assert (H4 : 0 <= n / dsz < 2 ^ 64).
  { split; [apply Z.div_pos; lia|]. apply Z.le_lt_trans with n; [apply Z.div_le_upper_bound; nia|lia]. }
  unfold set_memory_data, read_memory_data, write64, read64. split.
  - repeat first [rewrite load_store_same | rewrite load_store_out by lia]. rewrite !Z.mod_small by (change (256 ^ Z.of_nat 8) with (2 ^ 64); lia). done.
  - intros a Ha. unfold region, MEMORY_DATA_SZ in Ha. by rewrite !mget_store_out by lia.
Qed.

(** The size of the map: the first call of [GetMemoryMap] reports it. *)
Lemma first_call_spec s (Q : EFI_STATUS * (Z * Z * Z) -> est F -> Prop) :
  (forall s', still s s' -> Q (EFI_BUFFER_TOO_SMALL, (Z.of_nat (length (map_of (e_fw s))), 0, desc_size)) s') ->
  runs (GetMap 0 0 0 0) s Q.
Proof.
  intros HQ. destruct (fw_map (e_fw s)) as [_ (k & Hk & Hl)]. pose proof fw_desc.
  destruct (fw_map_short 0 0 0 (e_fw s)) as (f1 & E1 & S1); [nia|].
  unfold GetMap. apply runs_bind. eapply call_spec; [exact E1|]. apply runs_bind, runs_modify, runs_ret. apply HQ. by split.
Qed.

(** The second call copies it. *)
Lemma second_call_spec n p s1 s2 (Q : EFI_STATUS * (Z * Z * Z) -> est F -> Prop) :
  pool p n s1 s2 -> Z.of_nat (length (map_of (e_fw s2))) <= n ->
  (forall s3, let map := map_of (e_fw s2) in grows nowhere s1 s3 -> owned p (Z.of_nat (length map)) s3 ->
     copied (put_bytes ∅ 0 map) p 0 (Z.of_nat (length map)) s3 -> same_memory (e_fw s2) (e_fw s3) ->
     Q (EFI_SUCCESS, (Z.of_nat (length map), key_of (e_fw s2), desc_size)) s3) ->
  runs (GetMap n p 0 desc_size) s2 Q.
Proof.
  intros Hp Hn HQ. destruct (fw_map (e_fw s2)) as [Hb _]. destruct (fw_map_fits n 0 desc_size (e_fw s2) Hn) as (f1 & E1 & S1).
  unfold GetMap. apply runs_bind. eapply call_spec; [exact E1|]. apply runs_bind, runs_modify, runs_ret. cbn [e_mem e_fw e_out e_jump].
  set (map := map_of (e_fw s2)) in *. set (s3 := mkE _ _ _ _).
  assert (G3 : grows (region p n) s2 s3).
  { split; cbn [s3 e_fw e_mem e_jump]; [intros a; apply S1| |done].
    intros a _ Ha. apply mget_put_bytes_out. unfold region in Ha. lia. }
  destruct (pool_is_owned _ _ _ _ Hp) as (O1 & O2 & O3). cbv zeta. apply HQ.
  - by eapply pool_fill.
  - split; [done|]. split; [lia|]. intros a Ha. destruct (O3 a) as [Hf Hpa]; [unfold region in *; lia|].
    split; [|done]. by intros Hn'%S1.
  - intros o Ho. split; [|intros Hn'%S1; apply (O3 (p + o)); [unfold region; lia|done]].
    destruct (lookup_lt_is_Some_2 map (Z.to_nat o)) as [x Hx]; [lia|].
    replace (p + o) with (p + Z.of_nat (Z.to_nat o)) by lia. replace (0 + o) with (0 + Z.of_nat (Z.to_nat o)) by lia.
    cbn [s3 e_mem]. by rewrite !(mget_put_bytes _ _ map _ x).
  - exact S1.
Qed.

(** The firmware's map does not grow when a pool is allocated, and fits a pool. *)
Record map_steady : Prop := {
  ms_steady n old f : 0 <= n <= pool_limit -> (length (map_of (AllocatePool n old f).2) <= length (map_of f))%nat;
  ms_fits f : Z.of_nat (length (map_of f)) <= pool_limit;
  ms_limit : KERNEL_STACK_SIZE <= pool_limit < 2 ^ 64
}.

Lemma get_memory_map_spec s : map_steady -> (0 < budget (e_fw s))%nat ->
  runs (get_memory_map 0 0 0 0) s (fun r s' => exists mmap, let map := map_of (e_fw s') in let n := Z.of_nat (length map) in
    r = (EFI_SUCCESS, (n, mmap, key_of (e_fw s'), desc_size)) /\ n <= pool_limit /\
    grows nowhere s s' /\ owned mmap n s' /\ copied (put_bytes ∅ 0 map) mmap 0 n s' /\
    (forall a, region mmap n a -> free (e_fw s) a) /\ exists k, 0 < k /\ n = k * desc_size).
Proof.
  intros [M1 M2 M3] Hbu. unfold get_memory_map. apply runs_bind, first_call_spec. intros s1 S1. cbn [negb Z.eqb].
  change (negb (EFI_BUFFER_TOO_SMALL =? EFI_BUFFER_TOO_SMALL)) with false. cbn iota.
  pose proof (st_fw _ _ S1) as (_ & Em & _ & Eb). apply runs_bind, pool_spec; [split; [lia|apply M2]|lia|]. intros p s2 Hp E2. cbn [negb Z.eqb].
  apply runs_bind, (second_call_spec _ p s1 s2 _ Hp).
  { rewrite E2. cbn [e_fw]. rewrite <- Em. apply inj_le, M1. split; [lia|rewrite Em; apply M2]. }
  intros s3 map G3 O3 C3 (_ & Em3 & S3 & _). cbn iota. apply runs_bind, runs_ret, runs_ret. exists p. rewrite Em3. fold map.
  cbv zeta. split_and!; [by rewrite S3|apply M2| |done|done| |apply fw_map].
  - etransitivity; [by apply still_grows|exact G3].
  - intros a Ha. apply (still_free _ _ a S1), (po_was _ _ _ _ Hp). unfold region in *.
    assert (length map <= length (map_of (e_fw s)))%nat; [|lia].
    unfold map. rewrite E2. cbn [e_fw]. rewrite <- Em. apply M1. split; [lia|rewrite Em; apply M2].
Qed.

Lemma get_memory_data_spec s : map_steady -> (2 <= budget (e_fw s))%nat ->
  runs (get_memory_data 0) s (fun r s' => exists p, r = (p, key_of (e_fw s')) /\ p <> 0 /\ grows nowhere s s' /\
    memory_at p (map_of (e_fw s')) s').
Proof.
  intros Hms Hbu. pose proof Hms as [_ _ M3]. unfold KERNEL_STACK_SIZE in M3. unfold get_memory_data.
  apply runs_bind, pool_spec; [unfold MEMORY_DATA_SZ; lia|lia|]. intros p s1 Hp _. apply runs_bind, runs_ret.
  apply runs_bind. eapply runs_mono; [apply get_memory_map_spec; [done|pose proof (po_budget _ _ _ _ Hp); lia]|]. intros r s2 (mmap & -> & Hl & G2 & O2 & C2 & W2 & K2).
  set (map := map_of (e_fw s2)) in *.
  cbn [negb Z.eqb]. pose proof (po_pos _ _ _ _ Hp). pose proof fw_desc as Hd. cbn iota.
  apply runs_bind, non_null_spec; [lia|]. rewrite (proj2 (Z.eqb_neq desc_size 0)) by lia. apply runs_bind, runs_ret.
  destruct (set_memory_data_spec p mmap (Z.of_nat (length map)) desc_size (e_mem s2)) as [R HWr]; [|lia|done|].
  { pose proof (proj1 O2). lia. }
  apply runs_bind, (write_spec _ (region p MEMORY_DATA_SZ)); [exact HWr|]. intros s3 G3 M3' F3. apply runs_ret.
  exists p. rewrite F3. split_and!; [done|lia| |fold map].
  - eapply pool_fill; [exact Hp|]. etransitivity; [|exact G3]. eapply grows_weaken; [|exact G2]. by intros a [].
  - split; [eapply owned_grows; [eapply owned_grows; [by eapply pool_is_owned|exact G2]|exact G3]|].
    exists mmap. cbv zeta. rewrite M3'. split_and!; [exact R|by eapply owned_grows| |done].
    eapply copied_grows; [exact C2|exact G3|]. intros a Ha Hm.
    by apply W2, (pool_owned _ _ _ _ _ Hp) in Hm.
Qed.
End MemoryData.

(** ** The hand-over *)
Section Handover.
Context {F : Type} {image : Z} `{Hfw : Firmware F image}.
Context (fr : bl_frame) (s0 : est F).
Implicit Types s : est F.
Import Utils File Elf KernelLoader Loader.Font Loader.Gop Rsdp Starter Main.

Definition KERNEL : string := "kernel.elf".
Definition FONT : string := "zap-light16.psf".
Definition rsdp : Z := rsdp_loop tables_of.
Definition local (a : Z) : Prop := region (fr_e_hdr fr) EHDR_SZ a \/ region (fr_bd fr) 32 a.

(** The files can be loaded, the header of the kernel passes the check, there is
    an ACPI table, and the local variables and the segments of the kernel are apart
    from each other and from the pools. *)
Record handover_pre : Prop := {
  hp_kernel : loadable KERNEL;
  hp_entry : e_entry (file_mem KERNEL) 0 <> 0;
  hp_check : check_off KERNEL (fr_elfmag fr) (fr_e_hdr fr) s0;
  hp_font : font_ok FONT;
  hp_magic : psf_magic (file_mem FONT) 0 <> PSF1_MAGIC;
  hp_map : map_steady;
  hp_budget : (9 <= budget (e_fw s0))%nat;
  hp_fb : u64 (gm_size mode) <= pool_limit;
  hp_rsdp : 0 < rsdp < 2 ^ 64;
  hp_local : forall a, local a -> ~ free (e_fw s0) a /\ ~ pool_area a;
  hp_segs : forall j a, loads KERNEL j -> seg KERNEL j a -> free (e_fw s0) a
}.

(** What the kernel finds. *)
Record handed_over s : Prop := {
  ho_jump : e_jump s = Some (e_entry (file_mem KERNEL) 0, fr_bd fr);
  ho_segments : forall j, loads KERNEL j -> loaded KERNEL j s;
  ho_fb : exists db, owned db (u64 (gm_size mode)) s /\ fb_at (bd_framebuffer (e_mem s) (fr_bd fr)) db s;
  ho_font : font_at FONT (bd_font (e_mem s) (fr_bd fr)) s;
  ho_memory : memory_at (bd_memory (e_mem s) (fr_bd fr)) (map_of (e_fw s)) s;
  ho_rsdp : bd_acpi_rsdp (e_mem s) (fr_bd fr) = rsdp
}.

Lemma set_bootloader_data_spec fb font md r m :
  0 <= fb < 2 ^ 64 -> 0 <= font < 2 ^ 64 -> 0 <= md < 2 ^ 64 -> 0 <= r < 2 ^ 64 ->
  let m' := set_bootloader_data fr fb font md r m in
  bd_framebuffer m' (fr_bd fr) = fb /\ bd_font m' (fr_bd fr) = font /\ bd_memory m' (fr_bd fr) = md /\
  bd_acpi_rsdp m' (fr_bd fr) = r /\ forall a, ~ region (fr_bd fr) 32 a -> mget m' a = mget m a.
Proof.
  intros H1 H2 H3 H4. unfold set_bootloader_data, bd_framebuffer, bd_font, bd_memory, bd_acpi_rsdp, write64, read64. cbv zeta.
  split_and!; [repeat first [rewrite load_store_same | rewrite load_store_out by lia]; apply Z.mod_small;
    change (256 ^ Z.of_nat 8) with (2 ^ 64); lia..|].
  intros a Ha. unfold region in Ha. by rewrite !mget_store_out by lia.
Qed.

Hypothesis Hpre : handover_pre.

(** The state after everything is loaded. *)
Record prepared (fb font : Z) s : Prop := {
  pr_grows : grows (region (fr_e_hdr fr) EHDR_SZ) s0 s;
  pr_segments : forall j, loads KERNEL j -> loaded KERNEL j s;
  pr_fb : exists db, owned db (u64 (gm_size mode)) s /\ fb_at fb db s;
  pr_font : font_at FONT font s
}.

(** What is loaded stays as it is. *)
Lemma prepared_grows W fb font s s' : (forall a, W a -> local a) -> grows W s s' -> prepared fb font s ->
  (forall j, loads KERNEL j -> loaded KERNEL j s') /\ (exists db, owned db (u64 (gm_size mode)) s' /\ fb_at fb db s') /\
  font_at FONT font s'.
Proof.
  intros HW Hg [_ Hs (db & Hdb & Hfb) Hfo].
  assert (HWp : forall a, W a -> ~ pool_area a) by (intros a Ha; by apply (hp_local Hpre), HW).
  split_and!; [|exists db; split; [by eapply owned_grows|by eapply fb_grows]|by eapply font_grows].
  intros j Hj. eapply copied_grows; [by apply Hs|exact Hg|]. intros a Ha Hr.
  apply HW, (hp_local Hpre) in Ha as [Ha _]. apply Ha, (hp_segs Hpre j a Hj). pose proof (seg_size_range KERNEL j).
  unfold seg, seg_pages, region, PAGE_SZ in *. zdm.
Qed.

Lemma start_kernel_spec fb font s : prepared fb font s -> (3 <= budget (e_fw s))%nat ->
  runs (start_kernel fr image fb font (e_entry (file_mem KERNEL) 0) rsdp) s (fun _ s' => handed_over s').
Proof.
  intros Hp Hbu. pose proof (hp_map Hpre) as Hms. pose proof Hms as [_ _ M3]. pose proof (hp_rsdp Hpre) as Hr.
  unfold start_kernel, allocate_memory_for_kernel_stack.
  apply runs_bind, runs_bind, pool_spec; [unfold KERNEL_STACK_SIZE in *; lia|lia|]. intros st s1 Hst _. apply runs_bind, runs_ret, runs_ret.
  pose proof (po_pos _ _ _ _ Hst). rewrite (proj2 (Z.eqb_neq st 0)) by lia.
  apply runs_bind. eapply runs_mono; [apply get_memory_data_spec; [done|pose proof (po_budget _ _ _ _ Hst); lia]|]. intros r s2 (md & -> & Nmd & G2 & M2). cbn iota. set (map := map_of (e_fw s2)) in *.
  rewrite (proj2 (Z.eqb_neq md 0)) by done.
  destruct (fw_exit (e_fw s2)) as (f3 & E3 & S3). apply runs_bind. eapply call_spec; [exact E3|]. cbn [negb Z.eqb].
  set (s3 := mkE _ f3 _ _). assert (Hs3 : still s2 s3) by by split.
  assert (G : grows nowhere s s3).
  { etransitivity; [by eapply pool_grows|]. etransitivity; [exact G2|by apply still_grows]. }
  assert (Hn : forall a, nowhere a -> local a) by by intros a [].
  assert (Hnp : forall a, nowhere a -> ~ pool_area a) by by intros a [].
  destruct (prepared_grows nowhere fb font s s3 Hn G Hp) as (A1 & (db & A2 & A3) & A4).
  assert (A5 : memory_at md map s3) by (eapply memory_grows; [exact Hnp|exact M2|by apply still_grows]).
  destruct (set_bootloader_data_spec fb font md rsdp (e_mem s3)) as (B1 & B2 & B3 & B4 & HWr);
    [pose proof (proj1 (proj1 A3)); lia|pose proof (proj1 (proj1 A4)); lia|pose proof (proj1 (proj1 A5)); lia|lia|].
  apply runs_bind, (write_spec _ (region (fr_bd fr) 32)); [exact HWr|]. intros s4 G4 M4 F4. apply runs_modify.
  set (s5 := mkE (e_mem s4) (e_fw s4) (e_out s4) _).
  assert (Hw : forall a, region (fr_bd fr) 32 a -> local a) by by right.
  assert (Hwp : forall a, region (fr_bd fr) 32 a -> ~ pool_area a) by (intros a Ha; by apply (hp_local Hpre), Hw).
  assert (Hp3 : prepared fb font s3).
  { split; [|done|by exists db|done]. etransitivity; [apply Hp|]. eapply grows_weaken; [|exact G]. by intros a []. }
  destruct (prepared_grows _ fb font s3 s4 Hw G4 Hp3) as (C1 & (db' & C2 & C3) & C4).
  split; cbn [s5 e_jump e_mem]; rewrite ?M4, ?B1, ?B2, ?B3, ?B4; try done.
  - by exists db'.
  - change (memory_at md (map_of (e_fw s4)) s4). rewrite F4. cbn [s3 e_fw].
    replace (map_of f3) with map by (symmetry; apply S3). eapply memory_grows; [exact Hwp|exact A5|done].
Qed.

(** The second buffer. *)
Lemma double_buffer_spec fb db buf s (Q : unit -> est F -> Prop) : fb_at fb db s -> 0 <= buf < 2 ^ 64 ->
  (forall s', grows (region fb FRAMEBUFFER_SZ) s s' -> e_fw s' = e_fw s -> fb_at fb buf s' -> Q tt s') ->
  runs (write (set_double_buffer fb buf)) s Q.
Proof.
  intros [Ho Hr] Hs HQ. apply (write_spec _ (region fb FRAMEBUFFER_SZ)).
  { intros a Ha. unfold region, FRAMEBUFFER_SZ in Ha. unfold set_double_buffer. apply mget_write64_out. lia. }
  intros s2 G2 M2 F2. apply HQ; [done|done|]. split; [by eapply owned_grows|]. rewrite M2.
  assert (E : forall d m, read_fb_data m fb = d -> read_fb_data (set_double_buffer fb buf m) fb =
    mkFbData (fd_base_addr d) buf (fd_b_size d) (fd_width d) (fd_height d) (fd_px_per_scan d) (fd_b_per_px d)).
  { intros d m <-. unfold set_double_buffer, read_fb_data, read8, read16, read64, write64. cbn [fd_base_addr fd_b_size fd_width
      fd_height fd_px_per_scan fd_b_per_px].
    repeat first [rewrite load_store_same | rewrite load_store_out by lia]. by rewrite Z.mod_small. }
  by rewrite (E _ _ Hr).
Qed.

Lemma allocate_double_spec n s (Q : Z -> est F -> Prop) : 0 <= n <= pool_limit -> (0 < budget (e_fw s))%nat ->
  (forall p s', pool p n s s' -> Q p s') -> runs (allocate_double_framebuffer n) s Q.
Proof.
  intros Hn Hb HQ. unfold allocate_double_framebuffer. apply runs_bind, pool_spec; [done|done|]. intros p s1 Hp _. by apply runs_ret, HQ.
Qed.

Lemma non_zero (p : Z) : p <> 0 -> (p =? 0) = false.
Proof. apply Z.eqb_neq. Qed.

(** The framebuffer and its second buffer, and what follows. *)
Lemma framebuffer_stage (k : Z -> M (est F) EFI_STATUS) s (Q : EFI_STATUS -> est F -> Prop) :
  (2 <= budget (e_fw s))%nat ->
  (forall fb db s', grows nowhere s s' -> owned db (u64 (gm_size mode)) s' -> fb_at fb db s' ->
     budget (e_fw s) = (2 + budget (e_fw s'))%nat -> runs (k fb) s' Q) ->
  runs (framebuffer ← get_framebuffer;
    if framebuffer =? 0 then print_err "Framebuffer initialization error";; mret EFI_LOAD_ERROR else
    Print "[+] Framebuffer initialized successfully \n\r" [];;
    m ← memory;
    double_buffer ← allocate_double_framebuffer (read64 m (framebuffer + 16));
    write (set_double_buffer framebuffer double_buffer);;
    if double_buffer =? 0 then print_err "Double framebuffer allocation error";; mret EFI_LOAD_ERROR else
    Print "[+] Double framebuffer allocated successfully \n\r" [];; k framebuffer) s Q.
Proof.
  intros Hbu HQ. pose proof (ms_limit (hp_map Hpre)) as Hl. unfold KERNEL_STACK_SIZE in Hl.
  apply runs_bind. eapply runs_mono; [apply get_framebuffer_spec; [unfold FRAMEBUFFER_SZ; lia|lia]|].
  intros fb s1 (N1 & G1 & (db0 & D1) & W1 & B1). rewrite (non_zero _ N1). apply runs_bind, print_spec. intros s2 S2 _.
  assert (D2 : fb_at fb db0 s2) by (eapply (fb_grows nowhere); [by intros a []|exact D1|by apply still_grows]).
  apply runs_bind, runs_gets. assert (Esz : read64 (e_mem s2) (fb + 16) = u64 (gm_size mode)).
  { destruct D2 as [_ Hr]. change (read64 _ _) with (fd_b_size (read_fb_data (e_mem s2) fb)). by rewrite Hr. }
  rewrite Esz. pose proof (u64_range (gm_size mode)). apply runs_bind, allocate_double_spec.
  { split; [lia|apply (hp_fb Hpre)]. }
  { rewrite (still_budget _ _ S2). lia. }
  intros db s3 P3. pose proof (po_pos _ _ _ _ P3). pose proof (po_budget _ _ _ _ P3) as B3.
  apply runs_bind, (double_buffer_spec fb db0 db s3); [|lia|].
  { eapply (fb_grows nowhere); [by intros a []|exact D2|by eapply pool_grows]. }
  intros s4 G4 F4 D4. rewrite (non_zero db) by lia. apply runs_bind, print_spec. intros s5 S5 _.
  apply (HQ fb db).
  - etransitivity; [eapply (grows_own nowhere (region fb FRAMEBUFFER_SZ) s s3 s4)|by apply still_grows].
    + etransitivity; [exact G1|]. etransitivity; [by apply still_grows|by eapply pool_grows].
    + eapply grows_weaken; [|exact G4]. auto.
    + exact W1.
  - eapply owned_grows; [eapply owned_grows; [by eapply pool_is_owned|exact G4]|by apply (still_grows nowhere)].
  - eapply (fb_grows nowhere); [by intros a []|exact D4|by apply still_grows].
  - rewrite (still_budget _ _ S5), F4. rewrite (still_budget _ _ S2) in B3. lia.
Qed.

(** Everything up to the start of the kernel. *)
Lemma efi_main_runs : runs (efi_main fr image) s0 (fun st s => st = EFI_SUCCESS /\ handed_over s).
Proof.
  pose proof (hp_kernel Hpre) as Hk. assert (Hc : contents KERNEL <> []).
  { intros E. pose proof (lo_header _ Hk) as H1. unfold file_size in H1. rewrite E in H1. unfold EHDR_SZ in H1. cbn in H1. lia. }
  unfold efi_main. apply runs_bind, print_spec. intros s1 S1 _.
  apply runs_bind. eapply runs_mono; [by apply (load_file_spec KERNEL)|]. intros h s2 (-> & N2 & _ & S2). rewrite (non_zero _ N2).
  apply runs_bind, print_spec. intros s3 S3 _.
  assert (S03 : still s0 s3) by (etransitivity; [exact S1|]; by etransitivity).
  pose proof (still_budget _ _ S03) as B3. pose proof (hp_budget Hpre) as B0.
  apply runs_bind. eapply runs_mono.
  { apply (load_kernel_spec KERNEL Hk (fr_elfmag fr) (fr_e_hdr fr) s3); [|lia|..].
    - destruct (hp_check Hpre) as [H1 H2]. split; by rewrite (st_mem _ _ S03).
    - intros a Ha. rewrite (still_free _ _ a S03). apply (hp_local Hpre). by left.
    - intros j a Hj Ha. rewrite (still_free _ _ a S03). by apply (hp_segs Hpre j). }
  intros entry s4 (-> & G4 & B4 & L4). rewrite (non_zero _ (hp_entry Hpre)). apply runs_bind, print_spec. intros s5 S5 _.
  pose proof (still_budget _ _ S5) as B5.
  apply runs_bind. eapply runs_mono; [apply (load_psf_font_spec FONT (hp_font Hpre)); [apply (hp_magic Hpre)|lia]|].
  intros font s6 (N6 & G6 & F6 & B6). rewrite (non_zero _ N6). apply runs_bind, print_spec. intros s7 S7 _.
  pose proof (still_budget _ _ S7) as B7. apply framebuffer_stage; [lia|]. intros fb db s8 G8 O8 D8 B8.
  apply runs_bind, runs_gets. rewrite fw_tables. fold rsdp. rewrite (non_zero rsdp) by (pose proof (hp_rsdp Hpre); lia).
  apply runs_bind, print_spec. intros s9 S9 _. apply runs_bind, print_spec. intros s10 S10 _.
  apply runs_bind. eapply runs_mono; [apply (start_kernel_spec fb font s10)|intros [] s11 Hho; by apply runs_ret];
    [|rewrite (still_budget _ _ S10), (still_budget _ _ S9); lia].
  assert (G10 : grows nowhere s8 s10) by (etransitivity; by apply still_grows).
  assert (G610 : grows nowhere s6 s10) by (etransitivity; [by apply still_grows|]; by etransitivity).
  assert (G46 : grows nowhere s4 s6) by (etransitivity; [by apply still_grows|exact G6]).
  split.
  - etransitivity; [by apply still_grows|]. etransitivity; [exact G4|].
    eapply grows_weaken; [|etransitivity; [exact G46|exact G610]]. by intros a [].
  - intros j Hj. eapply copied_kept; [by apply L4|]. by etransitivity.
  - exists db. split; [by eapply owned_grows|eapply (fb_grows nowhere); [by intros a []|exact D8|exact G10]].
  - eapply (font_grows FONT nowhere); [by intros a []|exact F6|exact G610].
Qed.

(** C7: the bootloader hands over to the kernel.  On a firmware that serves its
    requests and whose memory map fits a pool and does not grow when a pool is allocated
    ([map_steady]; the UEFI specification does not promise it, and on a firmware whose map
    grows the kernel is not started, see [map_growth_stops_kernel]), with a kernel whose
    header passes the check and whose segments lie in free memory outside the pools, and a
    font, [efi_main] calls the entry point of the kernel with a [BootloaderData] in which the
    kernel reads the video mode and a second buffer of its size, the font's header and
    glyphs, a byte for byte copy of the memory map that the firmware has at that point with
    its size and the number of its descriptors, and the RSDP; and all the segments of the
    file are in memory at their physical addresses, undisturbed by what was loaded after
    them. *)
Theorem bootloader_hands_over : runs (efi_main fr image) s0 (fun st s => st = EFI_SUCCESS /\ handed_over s).
Proof. exact efi_main_runs. Qed.

(** C13: the kernel starts on what the bootloader leaves.  On the memory of a
    complete hand-over, [_start] gets past its first objects: its memory map has as many
    entries as the firmware's map has descriptors, each of the size the firmware says, and
    lies at an address where the bytes of the firmware's map are; the framebuffer is
    the video mode, with a second buffer at the address that the bootloader stored, which
    is memory of the bootloader as large as the first; and the RSDP is the one of the
    firmware. *)
Theorem handover_starts_console {D} `{Machine D} im (k0 : bst D) s :
  handed_over s -> k_mem (b_k k0) = e_mem s -> fr_bd fr <> 0 -> u64 (gm_base mode) <> 0 ->
  let map := map_of (e_fw s) in
  let n := Z.of_nat (length map) in
  let entries := n / desc_size in
  exists db mmap, 0 < entries /\ n = entries * desc_size /\ owned mmap n s /\ copied (put_bytes ∅ 0 map) mmap 0 n s /\
    fb_at (bd_framebuffer (e_mem s) (fr_bd fr)) db s /\ owned db (u64 (gm_size mode)) s /\
    runs (Boot.start_console im (fr_bd fr)) k0 (fun '(e, fb, r) k1 =>
      e_mmap e = mkMemoryMap n desc_size entries mmap /\ e_entries e = entries /\
      fb = mkFb (u64 (gm_size mode)) (u16 (gm_width mode)) (u16 (gm_height mode)) (u16 (gm_scan mode)) BYTES_PER_PIXEL
             (u64 (gm_base mode)) db /\
      r = rsdp /\ k_mem (b_k k1) = e_mem s /\ b_kbd k1 = Kb.make).
Proof.
  intros [_ _ (db & Hdb & Hfa & Hfb) _ (_ & mmap & Hmd & Ho & Hc & k & Hk & Hn) Hr] Hm Hbd Hbase map n entries.
  pose proof fw_desc as Hd. cbv zeta in Hmd. fold map n in Hmd, Ho, Hc, Hn. fold entries in Hmd.
  assert (He : entries = k) by (unfold entries; rewrite Hn; apply Z.div_mul; lia).
  exists db, mmap. rewrite He in *. split_and!; [done|done|done|done|by split|done|]. set (m := e_mem s) in *.
  eapply runs_mono; [eapply (start_console_spec im (fr_bd fr) k0)|].
  - done.
  - rewrite Hm, Hmd. exact Hk.
  - rewrite Hm, Hfb. unfold Fb.make, fb_mode. cbn [fd_base_addr]. by rewrite (proj2 (Z.eqb_neq _ _) Hbase).
  - intros r k1 (-> & M1 & K1 & _). rewrite Hm in M1 |- *. rewrite Hmd. by split_and!.
Qed.
End Handover.
