(* ===== verification/EfiSim.v ===== *)
(** * EfiSim: a simulated firmware

    A small firmware that keeps the laws of [Firmware]: pools of up to 64 KiB from
    sixteen slots, 64 pages for segments, two files, one memory map. *)
From Stdlib Require Import String.
From S2P Require Import Prelude Memory Bitmap Libc Efi Loader Bootloader Firmware.

(** With [g] the memory map has one more entry for every pool. *)
Record simfw (g : bool) : Type := mkFw {
  fs_used : nat;         (** the pools handed out *)
  fs_taken : list Z;     (** the pages handed out *)
  fs_pos : Zmap Z;       (** the positions of the files *)
  fs_lines : nat         (** the messages printed *)
}.
Arguments mkFw {_}. Arguments fs_used {_}. Arguments fs_taken {_}. Arguments fs_pos {_}. Arguments fs_lines {_}.

Definition POOL : Z := 0x1000000.
Definition SLOT : Z := 0x10000.
Definition PAGES_LO : Z := 0x200.
Definition PAGES_HI : Z := 0x240.

Definition page_free {g} (f : simfw g) (k : Z) : bool :=
  (PAGES_LO <=? k) && (k <? PAGES_HI) && negb (bool_decide (k ∈ fs_taken f)).

(** A kernel with one segment of eight bytes for address 0x200000, and a font
    of one byte per glyph. *)
Definition kernel_image : mem :=
  let m := put_bytes ∅ 0 [0x7f; 0x45; 0x4c; 0x46; 2; 1; 1] in
  let m := write32 (write16 (write16 m 16 2) 18 62) 20 1 in
  let m := write16 (write16 (write64 (write64 m 24 0x200000) 32 64) 54 56) 56 1 in
  let m := write64 (write64 (write64 (write32 m 64 1) 72 120) 88 0x200000) 96 8 in
  put_bytes m 120 [0xf4; 0xeb; 0xfd; 1; 2; 3; 4; 5].
Definition sim_kernel : list Z := get_bytes 128 kernel_image 0.
Definition sim_font : list Z := [0x36; 0x04; 0; 1] ++ replicate 256 0x5a.

Definition sim_file_of (name : string) : Z :=
  if String.eqb name "kernel.elf" then 1 else if String.eqb name "zap-light16.psf" then 2 else 3.
Definition sim_contents (name : string) : list Z :=
  if String.eqb name "kernel.elf" then sim_kernel else if String.eqb name "zap-light16.psf" then sim_font else [].
Definition handle_contents (h : Z) : list Z := if h =? 1 then sim_kernel else if h =? 2 then sim_font else [].
Definition sim_position {g} (h : Z) (f : simfw g) : Z := default 0 (fs_pos f !! h).
Definition set_position {g} (h pos : Z) (f : simfw g) : simfw g := mkFw (fs_used f) (fs_taken f) (<[h := pos]> (fs_pos f)) (fs_lines f).

Definition sim_entry : list Z := get_bytes 48 (write64 (write64 (write32 ∅ 0 7) 8 0x200000) 24 64) 0.
Definition sim_entries {g} (f : simfw g) : nat := if g then S (fs_used f) else 1.
Definition sim_map {g} (f : simfw g) : list Z := concat (replicate (sim_entries f) sim_entry).
Lemma sim_map_length {g} (f : simfw g) : length (sim_map f) = (48 * sim_entries f)%nat.
Proof.
  unfold sim_map. induction (sim_entries f) as [|n IH]; [done|]. cbn [replicate concat]. rewrite length_app, IH.
  change (length sim_entry) with 48%nat. lia.
Qed.
Lemma sim_map_bytes {g} (f : simfw g) : Forall is_byte (sim_map f).
Proof.
  unfold sim_map. induction (sim_entries f) as [|n IH]; [constructor|]. cbn [replicate concat]. apply Forall_app. split; [|done].
  apply (bool_decide_unpack _). by vm_compute.
Qed.
Definition sim_tables : list (Z * Z) := [(5, 0x7000); (1, 0x1000)].

Global Instance simfw_efi g : Efi (simfw g) := {|
  AllocatePool n old f :=
    if (n <=? SLOT) && bool_decide (fs_used f < 16)%nat then
      (EFI_SUCCESS, POOL + Z.of_nat (fs_used f) * SLOT, mkFw (S (fs_used f)) (fs_taken f) (fs_pos f) (fs_lines f))
    else (EFI_ERR 9, old, f);
  AllocatePages n a f :=
    if (0 <? n) && forallb (page_free f) (seqZ (a / 4096) n) then
      (EFI_SUCCESS, a, mkFw (fs_used f) (seqZ (a / 4096) n ++ fs_taken f) (fs_pos f) (fs_lines f))
    else (EFI_ERR 14, a, f);
  OpenProtocol _ _ _ _ f := (EFI_SUCCESS, 0x50, f);
  LocateProtocol _ _ f := (EFI_SUCCESS, 0x60, f);
  OpenVolume _ _ f := (EFI_SUCCESS, 0x70, f);
  FileOpen _ name _ f := (EFI_SUCCESS, sim_file_of name, set_position (sim_file_of name) 0 f);
  FileSetPosition h pos f := (EFI_SUCCESS, set_position h pos f);
  FileRead h n f :=
    let bytes := take (Z.to_nat n) (drop (Z.to_nat (sim_position h f)) (handle_contents h)) in
    (EFI_SUCCESS, Z.of_nat (length bytes), bytes, set_position h (sim_position h f + Z.of_nat (length bytes)) f);
  FileGetInfo _ n f := (EFI_ERR 3, n, [], f);
  GetMemoryMap sz key _ f :=
    let need := Z.of_nat (length (sim_map f)) in
    if sz <? need then (EFI_BUFFER_TOO_SMALL, (need, key, 48), [], f) else (EFI_SUCCESS, (need, 7, 48), sim_map f, f);
  ExitBootServices _ key f := (if key =? 7 then EFI_SUCCESS else EFI_ERR 2, f);
  OutputString fmt _ f := mkFw (fs_used f) (fs_taken f) (fs_pos f) (S (fs_lines f));
  DeviceHandle _ _ := 0x55;
  FrameBufferBase _ _ := 0xfd000000;
  FrameBufferSize _ _ := 256;
  HorizontalResolution _ _ := 8;
  VerticalResolution _ _ := 8;
  PixelsPerScanLine _ _ := 8;
  ConfigurationTable _ := sim_tables;
  ACPI_TABLE_GUID := 1;
  CompareGuid a b := if a =? b then 0 else 1
|}.

Definition sim_free {g} (f : simfw g) (a : Z) : Prop :=
  POOL + Z.of_nat (fs_used f) * SLOT <= a < POOL + 16 * SLOT \/ page_free f (a / 4096) = true.
Definition sim_pool_area (a : Z) : Prop := POOL <= a < POOL + 16 * SLOT.

Lemma page_free_range {g} (f : simfw g) a : page_free f (a / 4096) = true -> 0x200000 <= a < 0x240000.
Proof.
  unfold page_free, PAGES_LO, PAGES_HI. intros [[H1%Z.leb_le H2%Z.ltb_lt]%andb_true_iff _]%andb_true_iff. zdm.
Qed.

Lemma sim_pool_law {g} n old (f : simfw g) : 0 <= n <= SLOT -> (0 < 16 - fs_used f)%nat -> exists p f',
  AllocatePool n old f = (EFI_SUCCESS, p, f') /\ 0 < p < 2 ^ 64 /\ p + n <= 2 ^ 64 /\
  (forall a, p <= a < p + n -> sim_free f a /\ sim_pool_area a) /\ (forall a, sim_free f' a -> sim_free f a /\ ~ (p <= a < p + n)) /\
  (forall a, sim_free f a -> ~ sim_pool_area a -> sim_free f' a) /\
  (forall h, sim_position h f' = sim_position h f) /\ (16 - fs_used f)%nat = S (16 - fs_used f').
Proof.
  intros Hn Hb. eexists _, _. split.
  { cbn. rewrite (proj2 (Z.leb_le n SLOT)) by lia. by rewrite bool_decide_eq_true_2 by lia. }
  cbn [fs_used fs_taken fs_pos]. unfold SLOT, POOL, sim_free, sim_pool_area in *. cbn [fs_used].
  split_and!; try lia; try done.
  - intros a Ha. unfold POOL, SLOT. lia.
  - intros a [Ha|Ha]; [unfold POOL, SLOT in *; lia|].
    change (page_free f (a / 4096) = true) in Ha. pose proof (page_free_range f a Ha). split; [by right|]. unfold POOL, SLOT. lia.
  - intros a [Ha|Ha] Hp; [unfold POOL, SLOT in *; lia|]. by right.
Qed.

Lemma sim_pages_law {g} n a (f : simfw g) : 0 < n -> a mod 4096 = 0 -> (forall b, a <= b < a + 4096 * n -> sim_free f b /\ ~ sim_pool_area b) ->
  exists f', AllocatePages n a f = (EFI_SUCCESS, a, f') /\
    (forall b, sim_free f' b <-> sim_free f b /\ ~ (a <= b < a + 4096 * n)) /\
    (forall h, sim_position h f' = sim_position h f) /\ (16 - fs_used f')%nat = (16 - fs_used f)%nat.
Proof.
  intros Hn Ha Hfree.
  assert (Hpage : forall b, a <= b < a + 4096 * n <-> b / 4096 ∈ seqZ (a / 4096) n).
  { intros b. rewrite elem_of_seqZ. zdm. }
  assert (Hb : forall b, a <= b < a + 4096 * n -> page_free f (b / 4096) = true).
  { intros b Hb. destruct (Hfree b Hb) as [[?|?] Hp]; [|done]. destruct Hp. unfold sim_pool_area, SLOT in *. lia. }
  assert (Hall : forallb (page_free f) (seqZ (a / 4096) n) = true).
  { apply forallb_forall. intros k Hk%list_elem_of_In. assert (E : k = (k * 4096) / 4096) by (by rewrite Z.div_mul).
    rewrite E in Hk |- *. by apply Hb, Hpage. }
  eexists. split; [cbn; by rewrite Hall, (proj2 (Z.ltb_lt 0 n) Hn)|]. split; [|done]. intros b. unfold sim_free. cbn [fs_used].
  assert (Hpf : page_free (g := g) (mkFw (fs_used f) (seqZ (a / 4096) n ++ fs_taken f) (fs_pos f) (fs_lines f)) (b / 4096) = true <->
    page_free f (b / 4096) = true /\ ~ (a <= b < a + 4096 * n)).
  { unfold page_free. cbn [fs_taken]. rewrite Hpage, !andb_true_iff, !negb_true_iff, !bool_decide_eq_false, elem_of_app. tauto. }
  rewrite Hpf. split; [|tauto]. intros [Hp|?]; [|tauto]. split; [by left|]. intros Hin.
  destruct (Hfree b Hin) as [_ Hq]. apply Hq. unfold sim_pool_area, SLOT in *. lia.
Qed.

Lemma sim_bytes name : Forall is_byte (sim_contents name).
Proof.
  unfold sim_contents. repeat case_match; [apply (bool_decide_unpack _); by vm_compute..|constructor].
Qed.

Lemma sim_handle name : handle_contents (sim_file_of name) = sim_contents name.
Proof. unfold handle_contents, sim_file_of, sim_contents. by repeat case_match. Qed.

Lemma sim_file_nonzero name : sim_file_of name <> 0.
Proof. unfold sim_file_of. by repeat case_match. Qed.

Lemma set_position_eq {g} h pos (f : simfw g) : sim_position h (set_position h pos f) = pos.
Proof. unfold sim_position, set_position. cbn [fs_pos]. by rewrite lookup_insert_eq. Qed.

Global Instance simfw_firmware g : Firmware (simfw g) 0x40.
Proof.
  refine {|
    free := sim_free;
    pool_area := sim_pool_area;
    pool_limit := SLOT;
    file_of := sim_file_of;
    contents := sim_contents;
    position := sim_position;
    mode := mkMode 0xfd000000 256 8 8 8;
    tables_of := sim_tables;
    desc_size := 48;
    map_of := sim_map;
    key_of _ := 7;
    budget f := (16 - fs_used f)%nat;
    fw_pool := sim_pool_law;
    fw_pages := sim_pages_law;
    fw_bytes := sim_bytes
  |}.
  - intros h p agent old f. by exists 0x50, f.
  - intros fs old f. by exists 0x70, f.
  - intros dir name old f _. eexists. split; [reflexivity|]. by split; [apply sim_file_nonzero|split; [apply set_position_eq|]].
  - intros h pos f _. eexists. split; [reflexivity|]. by split; [apply set_position_eq|].
  - intros name n f _. eexists. cbn. rewrite sim_handle. by split; [reflexivity|].
  - intros old f. by exists 0x60, f.
  - done.
  - done.
  - intros gd. cbn. destruct (Z.eqb_spec gd 1); split; lia.
  - done.
  - intros f. split; [apply sim_map_bytes|]. exists (Z.of_nat (sim_entries f)). rewrite sim_map_length.
    unfold sim_entries. case_match; lia.
  - intros sz key dsz f Hsz. cbn. rewrite (proj2 (Z.ltb_lt _ _) Hsz). by eexists.
  - intros sz key dsz f Hsz. cbn. rewrite (proj2 (Z.ltb_ge _ _) Hsz). by eexists.
  - intros f. by eexists.
  - done.
Defined.
