(* ===== verification/BootloaderProps.v ===== *)
(** * BootloaderProps: the bootloader on the simulated firmware, and its failures *)
From Stdlib Require Import String.
From S2P Require Import Prelude Memory Bitmap Libc Framebuffer Console MMap PMem Machine Sim Keyboard Boot BootDev BootProps BootSample Efi Loader Bootloader Firmware LoaderProps Handover EfiSim.

(** ** The simulated firmware: the literal at 0x3000, the local variables at 0x4000
    and 0x5000 *)
Definition lsample_frame : bl_frame := mkFrame 0x3000 0x4000 0x5000.
Definition lsample : est (simfw false) := mkE (put_bytes ∅ 0x3000 Elf.ELFMAG) (mkFw 0 [] ∅ 0) [] None.

Lemma lsample_loads i : loads (F := simfw false) (image := 0x40) KERNEL i -> i = 0.
Proof. intros [Hi _]. change (0 <= i < 1) in Hi. lia. Qed.

Lemma lsample_seg a : seg (F := simfw false) (image := 0x40) KERNEL 0 a -> 0x200000 <= a < 0x201000.
Proof. intros Ha. change (0x200000 <= a < 0x200000 + 4096) in Ha. lia. Qed.

Lemma lsample_loadable : loadable (F := simfw false) (image := 0x40) KERNEL.
Proof.
  split.
  - by vm_compute.
  - by vm_compute.
  - by vm_compute.
  - intros i ->%lsample_loads. by vm_compute.
  - intros i j a ->%lsample_loads ->%lsample_loads. lia.
  - intros i a ->%lsample_loads Ha%lsample_seg. cbn. unfold sim_pool_area, POOL, SLOT. lia.
Qed.

Lemma lsample_font : font_ok (F := simfw false) (image := 0x40) FONT.
Proof. split; by vm_compute. Qed.

Lemma lsample_not_free a : 0 <= a < 0x200000 -> ~ sim_free (g := false) (mkFw 0 [] ∅ 0) a /\ ~ sim_pool_area a.
Proof.
  intros Ha. unfold sim_free, sim_pool_area, POOL, SLOT. cbn [fs_used]. split; [|lia]. intros [?|H%page_free_range]; lia.
Qed.

Lemma lsample_pre : handover_pre (F := simfw false) (image := 0x40) lsample_frame lsample.
Proof.
  split.
  - exact lsample_loadable.
  - by vm_compute.
  - split; (split; [by vm_compute|]); intros a Ha Hb; change (0x4000 <= a < 0x4000 + 64) in Hb.
    + change (0x3000 <= a < 0x3000 + 4) in Ha. lia.
    + assert (E : mget (file_mem (F := simfw false) (image := 0x40) KERNEL) 0 = 0x7f) by by vm_compute. unfold region in Ha. lia.
  - exact lsample_font.
  - by vm_compute.
  - split; [|by vm_compute|by vm_compute]. intros n old f _. reflexivity.
  - cbn. lia.
  - by vm_compute.
  - by vm_compute.
  - intros a Ha. apply lsample_not_free. destruct Ha as [Ha|Ha]; unfold region in Ha; cbn in Ha; unfold Elf.EHDR_SZ in Ha; lia.
  - intros j a ->%lsample_loads Ha%lsample_seg. right. unfold page_free, PAGES_LO, PAGES_HI. cbn.
    apply andb_true_iff. split; [apply andb_true_iff; split; [apply Z.leb_le|apply Z.ltb_lt]; zdm|done].
Qed.

Lemma bootloader_hands_over_witness :
  runs (Main.efi_main lsample_frame 0x40) lsample (fun st s => st = EFI_SUCCESS /\ handed_over (F := simfw false) (image := 0x40) lsample_frame s).
Proof. apply (bootloader_hands_over lsample_frame lsample lsample_pre). Defined.

(** A kernel that starts there. *)
Definition ksample : bst sim :=
  mkB (mkK (match Main.efi_main lsample_frame 0x40 lsample with Done (_, s) => e_mem s | Fail _ => ∅ end)
        (k_pmem (b_k bsample)) (k_con (b_k bsample))) Kb.make (b_cpu bsample) (b_regs bsample) (b_seg bsample) (b_idtr bsample)
    false sim0.

Lemma handover_starts_console_witness : exists db mmap,
  runs (Boot.start_console bsample_image 0x5000) ksample (fun '(e, fb, r) k1 =>
    e_mmap e = mkMemoryMap 48 48 1 mmap /\ fb = mkFb 256 8 8 8 4 0xfd000000 db /\ r = 0x1000).
Proof.
  destruct (efi_main_runs lsample_frame lsample lsample_pre) as (st & s & E & _ & Hs).
  destruct (handover_starts_console (F := simfw false) (image := 0x40) lsample_frame bsample_image ksample s Hs)
    as (db & mmap & _ & _ & _ & _ & _ & _ & Hr); [|done|done|].
  { unfold ksample. cbn [b_k k_mem]. by rewrite E. }
  exists db, mmap. eapply runs_mono; [exact Hr|].
  intros [[e fb] r] k1 (He & _ & Hfb & Hr' & _). split_and!; [exact He|exact Hfb|exact Hr'].
Defined.

(** ** Any firmware *)
Section AnyFirmware.
Context {F : Type} `{Efi F} (fr : bl_frame) (image : Z).
Implicit Types s : est F.
Import Utils File KernelLoader Loader.Font Loader.Gop Rsdp Starter Main.

Definition no_jump s : Prop := e_jump s = None.

(** Code that starts without a call of the kernel and ends in [Q]. *)
Definition ends {A} (f : M (est F) A) (Q : A -> est F -> Prop) : Prop :=
  forall s a s', no_jump s -> f s = Done (a, s') -> Q a s'.

Lemma ends_bind {A B} (f : M (est F) A) (g : A -> M (est F) B) Q :
  keeps no_jump f -> (forall a, ends (g a) Q) -> ends (mbind g f) Q.
Proof.
  intros Hf Hg s b s' Hs E. unfold mbind, M_bind in E. destruct (f s) as [[a s1]|] eqn:Ef; [|done].
  by eapply Hg, E; eapply Hf.
Qed.
Lemma ends_keeps {A} (f : M (est F) A) : ends f (fun _ => no_jump) <-> keeps no_jump f.
Proof. split; intros Hf s a s'; apply Hf. Qed.

Lemma keeps_ret {A} (a : A) : keeps no_jump (mret a).
Proof. intros s b s' Hs E. by injection E as <- <-. Qed.
Lemma keeps_fail {A} e : keeps no_jump (fail e : M (est F) A).
Proof. by intros s b s' Hs. Qed.
Lemma keeps_call {A} (f : F -> A * F) : keeps no_jump (call f).
Proof. intros s a s' Hs E. unfold call in E. destruct (f (e_fw s)). by injection E as <- <-. Qed.
Lemma keeps_write f : keeps no_jump (write f).
Proof. intros s a s' Hs E. by injection E as <- <-. Qed.
Lemma keeps_print fmt args : keeps no_jump (Print fmt args).
Proof. intros s a s' Hs E. by injection E as <- <-. Qed.
Lemma keeps_print_efi_err str st : keeps no_jump (print_efi_err str st).
Proof. intros s a s' Hs E. unfold print_efi_err in E. destruct (efi_status_str st); [by injection E as <- <-|done]. Qed.

(** Code without the call of the kernel. *)
Ltac quiet := repeat match goal with
  | |- keeps _ (mbind _ _) => apply keeps_bind; [|intros ?]
  | |- keeps _ (mret _) => apply keeps_ret
  | |- keeps _ (fail _) => apply keeps_fail
  | |- keeps _ (call _) => apply keeps_call
  | |- keeps _ (write _) => apply keeps_write
  | |- keeps _ (Print _ _) => apply keeps_print
  | |- keeps _ (print_err _) => apply keeps_print
  | |- keeps _ (print_efi_err _ _) => apply keeps_print_efi_err
  | |- keeps _ (gets _) => apply keeps_gets
  | |- keeps _ memory => apply keeps_gets
  | |- keeps _ (if ?b then _ else _) => destruct b
  | |- keeps _ (match ?p with pair _ _ => _ end) => destruct p
  | |- keeps _ (let _ := _ in _) => cbv zeta
  end.

Lemma load_file_quiet name : keeps no_jump (load_file 0 name image).
Proof. unfold load_file, get_image, get_root_fs, get_root_dir, get_file, non_null. quiet. Qed.

Lemma load_loop_quiet n file i p sz : keeps no_jump (load_loop n file i p sz).
Proof.
  revert i p. induction n as [|n IH]; intros i p; cbn [load_loop]; [apply keeps_ret|].
  unfold load_elf_segment_by_p_hdr, non_null, Read. quiet; apply IH.
Qed.

Lemma load_kernel_quiet elfmag h file : keeps no_jump (load_kernel_into_memory elfmag h file).
Proof. unfold load_kernel_into_memory, get_elf_header, get_elf_p_hdrs, Read. quiet. apply load_loop_quiet. Qed.

Lemma load_psf_font_quiet name : keeps no_jump (load_psf_font 0 name image).
Proof.
  unfold load_psf_font, get_psf_header, get_psf_glyphs, non_null, Read. quiet. apply load_file_quiet.
Qed.

Lemma get_framebuffer_quiet : keeps no_jump get_framebuffer.
Proof. unfold get_framebuffer, locate_gop, non_null. quiet. Qed.

Lemma get_memory_data_quiet key : keeps no_jump (get_memory_data key).
Proof. unfold get_memory_data, get_memory_map, GetMap, non_null. quiet. Qed.

(** The kernel was entered: the last service that was called is
    [ExitBootServices], which succeeded, and all the pointers are there. *)
Definition entered s : Prop := exists addr fb font md rsdp key fw m,
  e_jump s = Some (addr, fr_bd fr) /\ addr <> 0 /\ fb <> 0 /\ font <> 0 /\ md <> 0 /\ rsdp <> 0 /\
  ExitBootServices image key fw = (EFI_SUCCESS, e_fw s) /\ e_mem s = set_bootloader_data fr fb font md rsdp m.

Lemma start_kernel_ends fb font addr rsdp : addr <> 0 -> fb <> 0 -> font <> 0 -> rsdp <> 0 ->
  ends (start_kernel fr image fb font addr rsdp) (fun _ s => no_jump s \/ entered s).
Proof.
  intros Ha Hfb Hfo Hr. unfold start_kernel.
  apply ends_bind; [unfold allocate_memory_for_kernel_stack; quiet|]. intros stack.
  destruct (stack =? 0); [intros s a s' Hs E; left; by eapply keeps_print|].
  apply ends_bind; [apply get_memory_data_quiet|]. intros [md key].
  destruct (Z.eqb_spec md 0) as [|Hmd]; [intros s a s' Hs E; left; by eapply keeps_print|].
  intros s a s' Hs E. unfold mbind, M_bind, call in E. destruct (ExitBootServices image key (e_fw s)) as [st fw] eqn:Ex.
  destruct (Z.eqb_spec st EFI_SUCCESS) as [->|Hst]; cbn [negb] in E.
  - right. injection E as <- <-. exists addr, fb, font, md, rsdp, key, (e_fw s), (e_mem s). by split_and!.
  - left. eapply (keeps_print_efi_err "ExitBootServices() failed" st); [|exact E]. done.
Qed.

Lemma efi_main_ends : ends (efi_main fr image) (fun st s => no_jump s \/ st = EFI_SUCCESS /\ entered s).
Proof.
  assert (Hq : forall f : M (est F) EFI_STATUS, keeps no_jump f -> ends f (fun st s => no_jump s \/ st = EFI_SUCCESS /\ entered s)).
  { intros f Hf s a s' Hs E. left. by eapply Hf. }
  unfold efi_main. apply ends_bind; [quiet|intros _]. apply ends_bind; [apply load_file_quiet|intros file].
  destruct (file =? 0); [apply Hq; quiet|]. apply ends_bind; [quiet|intros _].
  apply ends_bind; [apply load_kernel_quiet|intros addr]. destruct (Z.eqb_spec addr 0); [apply Hq; quiet|].
  apply ends_bind; [quiet|intros _]. apply ends_bind; [apply load_psf_font_quiet|intros font].
  destruct (Z.eqb_spec font 0); [apply Hq; quiet|]. apply ends_bind; [quiet|intros _].
  apply ends_bind; [apply get_framebuffer_quiet|intros fb]. destruct (Z.eqb_spec fb 0); [apply Hq; quiet|].
  apply ends_bind; [quiet|intros _]. apply ends_bind; [quiet|intros m].
  apply ends_bind; [unfold allocate_double_framebuffer; quiet|intros db]. apply ends_bind; [quiet|intros _].
  destruct (Z.eqb_spec db 0); [apply Hq; quiet|]. apply ends_bind; [quiet|intros _].
  apply ends_bind; [apply keeps_gets|intros r]. destruct (Z.eqb_spec r 0); [apply Hq; quiet|].
  do 2 (apply ends_bind; [quiet|intros _]). intros s st s' Hs E. unfold mbind, M_bind in E.
  destruct (start_kernel _ _ _ _ _ _ s) as [[[] s1]|] eqn:Es; [|done]. injection E as <- <-.
  destruct (start_kernel_ends fb font addr r ltac:(done) ltac:(done) ltac:(done) ltac:(done) s tt s1 Hs Es); auto.
Qed.
End AnyFirmware.

(** C15: on any firmware, whatever its services answer, the kernel is entered only
    after everything was found: [efi_main] calls it only with the four pointers
    of the [BootloaderData] and the entry point not null, after [ExitBootServices]
    has succeeded and with no service called behind it: the state of the firmware is the one
    that call left.  Printing is a service, too. *)
Theorem kernel_entered_only_complete {F} `{Efi F} (fr : bl_frame) (image : Z) (s s' : est F) st :
  e_jump s = None -> Main.efi_main fr image s = Done (st, s') ->
  e_jump s' = None \/ (st = EFI_SUCCESS /\ entered fr image s').
Proof. intros Hs E. exact (efi_main_ends fr image s st s' Hs E). Qed.

(** The simulated firmware runs it. *)
Definition lsample_end : est (simfw false) :=
  match Main.efi_main lsample_frame 0x40 lsample with Done (_, s) => s | Fail _ => lsample end.
Lemma lsample_run : Main.efi_main lsample_frame 0x40 lsample = Done (EFI_SUCCESS, lsample_end).
Proof. vm_compute. reflexivity. Qed.

Lemma kernel_entered_only_complete_witness : e_jump lsample_end = None \/ (EFI_SUCCESS = EFI_SUCCESS /\ entered lsample_frame 0x40 lsample_end).
Proof. apply (kernel_entered_only_complete lsample_frame 0x40 lsample lsample_end EFI_SUCCESS); [reflexivity|exact lsample_run]. Defined.

(** ** Messages *)

(** Every status has a name.  [efi_status_str] stays inside its table
    for every status, and names the low byte of the status, or the last entry when
    that is larger than 32. *)
Theorem efi_status_str_total (status : EFI_STATUS) :
  exists name, Utils.efi_status_str status = Done name /\ Utils.STATUSES !! Z.to_nat (Z.min (u8 status) 32) = Some name.
Proof.
  unfold Utils.efi_status_str, Utils.statuses_at, Utils.STATUSES_COUNT. pose proof (u8_range status).
  assert (Hs : forall k, 0 <= k <= 32 -> exists name, Utils.STATUSES !! Z.to_nat k = Some name).
  { intros k Hk. apply lookup_lt_is_Some_2. change (length Utils.STATUSES) with 33%nat. lia. }
  destruct (Z.ltb_spec 32 (u8 status)).
  - destruct (Hs 32 ltac:(lia)) as [name E]. exists name. replace (Z.min (u8 status) 32) with 32 by lia.
    change (33 - 1) with 32. by rewrite E.
  - destruct (Hs (u8 status) ltac:(lia)) as [name E]. exists name. replace (Z.min (u8 status) 32) with (u8 status) by lia.
    by rewrite E.
Qed.

(** The codes 31 to 33 of the specification are named after their neighbours. *)
Lemma end_of_file_misnamed : Utils.efi_status_str (EFI_ERR 31) = Done "compromised data"%string /\
  Utils.efi_status_str (EFI_ERR 29) = Done "end of file"%string.
Proof. split; reflexivity. Qed.

(** ** Checks and failures *)
Section Checks.
Context {F : Type} {image : Z} `{Hfw : Firmware F image}.
Implicit Types s : est F.
Import Utils File Elf KernelLoader Loader.Font Starter.

(** C33: the check of the font.  [load_psf_font] refuses exactly the files that
    begin with the bytes 04 36; a PSF1 file begins with 36 04 and is accepted, as
    is any other file: the number it is compared with has its bytes swapped, and the
    answer is used the wrong way round. *)
Theorem psf_check_swapped (name : string) s :
  font_ok name -> (3 <= budget (e_fw s))%nat ->
  runs (load_psf_font 0 name image) s (fun p s' =>
    (p = 0 <-> mget (file_mem name) 0 = 0x04 /\ mget (file_mem name) 1 = 0x36) /\
    (p = 0 -> (("[!] Error: %s \n\r", ["Invalid PSF file header"])%string ∈ e_out s')) /\ (p <> 0 -> font_at name p s')).
Proof.
  intros Hfo Hb. pose proof (psf_magic_bytes name) as Hpm. destruct (decide (psf_magic (file_mem name) 0 = PSF1_MAGIC)) as [Hm|Hm].
  - eapply runs_mono; [apply (load_psf_font_refuses name Hfo s Hm); lia|]. intros p s' (-> & _ & Ho).
    split_and!; [tauto|done|done].
  - eapply runs_mono; [by apply (load_psf_font_spec name Hfo s Hm)|]. intros p s' (Hp & _ & Hf & _).
    split_and!; [tauto|done|done].
Qed.

(** C34: the check of the kernel's header.  A file that is a 64-bit little-endian
    executable for x86-64 is refused when the memory at the address that its first
    byte names holds the magic number of an ELF file, and only the fields behind the
    magic number are those of the file: nothing looks at the magic number of the file. *)
Theorem elf_check_inverted (name : string) (elfmag h : Z) s :
  EHDR_SZ <= file_size name < 2 ^ 63 -> (forall a, region h EHDR_SZ a -> ~ free (e_fw s) a) ->
  get_bytes 4 (e_mem s) elfmag = ELFMAG -> (forall a, region elfmag 4 a -> ~ region h EHDR_SZ a) ->
  get_bytes 4 (e_mem s) (mget (file_mem name) 0) = ELFMAG -> (forall a, region (mget (file_mem name) 0) 4 a -> ~ region h EHDR_SZ a) ->
  mget (file_mem name) EI_CLASS = ELFCLASS64 -> mget (file_mem name) EI_DATA = ELFDATA2LSB ->
  e_type (file_mem name) 0 = ET_EXEC -> e_machine (file_mem name) 0 = EM_X86_64 -> e_version (file_mem name) 0 = EV_CURRENT ->
  runs (load_kernel_into_memory elfmag h (file_of name)) s (fun entry s' =>
    entry = 0 /\ ("[!] Error: %s \n\r", ["Kernel ELF format is bad"])%string ∈ e_out s').
Proof.
  intros L Hloc C1 C2 C3 C4 Hcl Hda Hty Hma Hve. unfold load_kernel_into_memory.
  apply runs_bind. eapply runs_mono; [by apply get_elf_header_spec|]. intros st s1 (-> & _ & H1 & M1 & _ & _). cbn [negb].
  apply runs_bind, runs_gets.
  assert (Ev : verify_kernel_elf_header (e_mem s1) elfmag h = true).
  { assert (Ei : forall i, 0 <= i < 64 -> e_ident (e_mem s1) h i = mget (file_mem name) i).
    { intros i Hi. unfold e_ident, read8. rewrite (copied_load _ _ _ _ _ 1 i H1); [apply read8_mget|lia|unfold EHDR_SZ; lia]. }
    unfold verify_kernel_elf_header, memcmp, EI_MAG0. rewrite !Ei by (unfold EI_CLASS, EI_DATA; lia).
    assert (Hc : memcmp_loop (Z.to_nat SELFMAG) (e_mem s1) (mget (file_mem name) 0) elfmag = 0).
    { apply memcmp_zero. change (Z.to_nat SELFMAG) with 4%nat.
      rewrite (get_bytes_agree 4 (e_mem s1) (e_mem s) (mget (file_mem name) 0)), (get_bytes_agree 4 (e_mem s1) (e_mem s) elfmag);
        [congruence|intros a Ha; apply M1; auto..]. }
    rewrite Hc, Hcl, Hda. unfold e_type, e_machine, e_version, read16, read32 in *.
    rewrite !(copied_load _ _ _ _ _ _ _ H1) by (lia || unfold EHDR_SZ; lia). by rewrite Hty, Hma, Hve. }
  rewrite Ev. apply runs_bind, runs_modify, runs_ret. split; [done|]. apply elem_of_app. right. by apply list_elem_of_singleton.
Qed.

Lemma print_efi_err_spec str st s (Q : unit -> est F -> Prop) :
  (forall s', still s s' -> (forall h, position h (e_fw s') = position h (e_fw s)) -> Q tt s') -> runs (print_efi_err str st) s Q.
Proof.
  intros HQ. unfold print_efi_err, runs. destruct (efi_status_str_total st) as (name & -> & _).
  by apply print_spec.
Qed.

(** The second call finds the map larger than the first one said. *)
Lemma get_memory_map_grown s : (0 < budget (e_fw s))%nat -> Z.of_nat (length (map_of (e_fw s))) <= pool_limit ->
  (forall n old f, 0 <= n <= pool_limit -> (0 < budget f)%nat -> (length (map_of f) < length (map_of (AllocatePool n old f).2))%nat) ->
  runs (get_memory_map 0 0 0 0) s (fun r s' => fst r <> EFI_SUCCESS /\ e_jump s' = e_jump s).
Proof.
  intros Hb Hl Hg. unfold get_memory_map. apply runs_bind, first_call_spec. intros s1 S1.
  change (negb (EFI_BUFFER_TOO_SMALL =? EFI_BUFFER_TOO_SMALL)) with false. cbn iota.
  pose proof (st_fw _ _ S1) as (_ & Em & _ & Eb).
  apply runs_bind, pool_spec; [lia|lia|]. intros p s2 Hp E2. cbn [negb Z.eqb].
  destruct (fw_map_short (Z.of_nat (length (map_of (e_fw s)))) 0 desc_size (e_fw s2)) as (f3 & E3 & S3).
  { rewrite E2. cbn [e_fw]. rewrite <- Em. apply inj_lt, Hg; [|lia]. rewrite Em. lia. }
  unfold GetMap. apply runs_bind, runs_bind. eapply call_spec; [exact E3|]. apply runs_bind, runs_modify, runs_ret. cbn iota.
  apply runs_bind, print_efi_err_spec. intros s4 S4 _. apply runs_ret. split; [done|].
  rewrite (st_jump _ _ S4). cbn [e_jump]. rewrite (po_jump _ _ _ _ Hp). apply (st_jump _ _ S1).
Qed.

(** C35: the memory map that grows.  The buffer for the memory map is as large
    as the map was before the buffer was allocated; on a firmware whose map grows with
    an allocation the second call fails, [start_kernel] reports it and returns without
    entering the kernel. *)
Theorem map_growth_stops_kernel (fr : bl_frame) (fb font addr rsdp : Z) s :
  (3 <= budget (e_fw s))%nat -> KERNEL_STACK_SIZE <= pool_limit ->
  (forall f, (0 < budget f)%nat -> Z.of_nat (length (map_of f)) <= pool_limit) ->
  (forall n old f, 0 <= n <= pool_limit -> (0 < budget f)%nat -> (length (map_of f) < length (map_of (AllocatePool n old f).2))%nat) ->
  runs (start_kernel fr image fb font addr rsdp) s (fun _ s' => e_jump s' = e_jump s /\
    ("[!] Error: %s \n\r", ["Memory data gathering failed"])%string ∈ e_out s').
Proof.
  intros Hb Hl Hm Hg. unfold KERNEL_STACK_SIZE in Hl. unfold start_kernel, allocate_memory_for_kernel_stack, get_memory_data.
  apply runs_bind, runs_bind, pool_spec; [unfold KERNEL_STACK_SIZE; lia|lia|]. intros st s1 P1 _. apply runs_bind, runs_ret, runs_ret.
  pose proof (po_pos _ _ _ _ P1). pose proof (po_budget _ _ _ _ P1). rewrite (proj2 (Z.eqb_neq st 0)) by lia.
  apply runs_bind, runs_bind, pool_spec; [unfold MEMORY_DATA_SZ; lia|lia|]. intros md s2 P2 _. apply runs_bind, runs_ret.
  pose proof (po_budget _ _ _ _ P2).
  apply runs_bind. eapply runs_mono; [apply get_memory_map_grown; [lia|apply Hm; lia|done]|].
  intros [st' [[[n mmap] key] dsz]] s3 [Hst J3]. cbn [fst] in Hst. rewrite (proj2 (Z.eqb_neq _ _) Hst). cbn [negb].
  apply runs_ret. cbn iota. rewrite Z.eqb_refl. apply runs_modify. cbn [e_jump e_out].
  split; [by rewrite J3, (po_jump _ _ _ _ P2), (po_jump _ _ _ _ P1)|]. apply elem_of_app. right. by apply list_elem_of_singleton.
Qed.

(** C36: the number of pages of a segment.  It is kept in 16 bits: for a segment of
    more than 65535 pages whose number of pages is not a multiple of 65536 the bootloader
    reserves too few pages, [pages] instead of [size / 4096 + 1], and does not notice; the
    memory behind them stays free although the bytes of the file are read into it.  (When
    the number is a multiple of 65536, no pages at all are asked for, which a firmware may
    refuse.) *)
Theorem segment_pages_truncated (name : string) (p : Z) s :
  let size := p_filesz (e_mem s) p in
  let start := p_paddr (e_mem s) p in
  let pages := u16 (size / PAGE_SZ + 1) in
  65535 < size / PAGE_SZ + 1 -> 0 < pages -> start mod 4096 = 0 -> p_offset (e_mem s) p < 2 ^ 64 - 1 ->
  (forall a, region start (4096 * pages) a -> free (e_fw s) a /\ ~ pool_area a) ->
  runs (load_elf_segment_by_p_hdr (file_of name) p) s (fun st s' => st = EFI_SUCCESS /\ 4096 * pages < size /\
    (forall a, start + 4096 * pages <= a < start + size -> free (e_fw s) a -> free (e_fw s') a) /\
    (forall o, 0 <= o < size -> p_offset (e_mem s) p + o < file_size name ->
       mget (e_mem s') (start + o) = mget (file_mem name) (p_offset (e_mem s) p + o))).
Proof.
  intros size start pages Hsz Hpages Hal Ho Hf. unfold PAGE_SZ in Hsz. assert (65536 * 4096 <= size) by (unfold pages, u16, PAGE_SZ in Hpages; zdm). unfold load_elf_segment_by_p_hdr. apply runs_bind, runs_gets. cbv zeta.
  fold size start pages. assert (Hpos : 0 <= p_offset (e_mem s) p) by apply read64_range.
  destruct (fw_pages pages start (e_fw s) Hpages Hal Hf) as (f1 & E1 & F1 & _).
  apply runs_bind. eapply call_spec; [exact E1|]. cbn [negb e_mem e_fw e_out e_jump].
  destruct (fw_setpos (file_of name) (p_offset (e_mem s) p) f1) as (f2 & E2 & P2 & S2); [lia|].
  apply runs_bind. eapply call_spec; [exact E2|]. cbn [negb e_mem e_fw e_out e_jump].
  destruct (fw_read name size f2 ltac:(lia)) as (f3 & E3 & S3). rewrite P2 in E3.
  unfold Read. apply runs_bind, runs_bind. eapply call_spec; [exact E3|]. cbn iota. apply runs_bind, runs_modify, runs_ret.
  apply runs_bind, runs_ret, runs_ret. cbn [e_fw e_mem]. split_and!; [done| | |].
  - unfold pages, u16, PAGE_SZ. zdm.
  - intros a Ha Hfr. apply (proj1 S3), (proj1 S2), F1. split; [done|lia].
  - intros o Hoo Hlt. unfold file_size in Hlt.
    destruct (lookup_lt_is_Some_2 (contents name) (Z.to_nat (p_offset (e_mem s) p + o))) as [x Hx]; [lia|].
    replace (start + o) with (start + Z.of_nat (Z.to_nat o)) by lia. rewrite (mget_put_bytes _ _ _ (Z.to_nat o) x).
    + unfold file_mem. replace (p_offset (e_mem s) p + o) with (0 + Z.of_nat (Z.to_nat (p_offset (e_mem s) p + o))) by lia.
      symmetry. apply mget_put_bytes; [apply fw_bytes|done].
    + apply Forall_take, Forall_drop, fw_bytes.
    + rewrite lookup_take_lt by lia. rewrite lookup_drop. rewrite <- Hx. f_equal. lia.
Qed.
End Checks.

(** ** The failures on the simulated firmware *)
Lemma psf_check_swapped_witness :
  runs (Loader.Font.load_psf_font 0 FONT 0x40) lsample (fun p s' =>
    (p = 0 <-> mget (file_mem (F := simfw false) (image := 0x40) FONT) 0 = 0x04 /\
               mget (file_mem (F := simfw false) (image := 0x40) FONT) 1 = 0x36) /\
    (p = 0 -> (("[!] Error: %s \n\r", ["Invalid PSF file header"])%string ∈ e_out s')) /\
    (p <> 0 -> font_at (F := simfw false) (image := 0x40) FONT p s')).
Proof. apply (psf_check_swapped FONT lsample lsample_font). cbn. lia. Defined.

(** The same memory with the magic number at 0x7f, too. *)
Definition lsample_magic : est (simfw false) :=
  mkE (put_bytes (put_bytes ∅ 0x3000 Elf.ELFMAG) 0x7f Elf.ELFMAG) (mkFw 0 [] ∅ 0) [] None.

Lemma elf_check_inverted_witness :
  runs (KernelLoader.load_kernel_into_memory 0x3000 0x4000 (file_of (F := simfw false) (image := 0x40) KERNEL)) lsample_magic (fun entry s' =>
    entry = 0 /\ ("[!] Error: %s \n\r", ["Kernel ELF format is bad"])%string ∈ e_out s').
Proof.
  assert (E : mget (file_mem (F := simfw false) (image := 0x40) KERNEL) 0 = 0x7f) by by vm_compute.
  apply (elf_check_inverted (F := simfw false) (image := 0x40) KERNEL 0x3000 0x4000 lsample_magic).
  - by vm_compute.
  - intros a Ha. apply lsample_not_free. change (0x4000 <= a < 0x4000 + 64) in Ha. lia.
  - by vm_compute.
  - intros a Ha Hb. change (0x4000 <= a < 0x4000 + 64) in Hb. change (0x3000 <= a < 0x3000 + 4) in Ha. lia.
  - rewrite E. clear E. by vm_compute.
  - intros a Ha Hb. change (0x4000 <= a < 0x4000 + 64) in Hb. unfold region in Ha. lia.
  - clear E. by vm_compute.
  - clear E. by vm_compute.
  - clear E. by vm_compute.
  - clear E. by vm_compute.
  - clear E. by vm_compute.
Defined.

(** A firmware whose map grows. *)
Definition lsample_growing : est (simfw true) := mkE ∅ (mkFw 0 [] ∅ 0) [] None.

Lemma map_growth_stops_kernel_witness :
  runs (Starter.start_kernel lsample_frame 0x40 1 2 3 4) lsample_growing (fun _ s' => e_jump s' = None /\
    ("[!] Error: %s \n\r", ["Memory data gathering failed"])%string ∈ e_out s').
Proof.
  apply (map_growth_stops_kernel (F := simfw true) (image := 0x40) lsample_frame 1 2 3 4 lsample_growing).
  - cbn. lia.
  - by vm_compute.
  - intros f Hf. cbn in Hf. change (Z.of_nat (length (sim_map f)) <= SLOT). rewrite sim_map_length. unfold sim_entries, SLOT. lia.
  - intros n old f Hn Hf. cbn in Hn, Hf. change (length (sim_map f) < length (sim_map (AllocatePool n old f).2))%nat.
    rewrite !sim_map_length. unfold sim_entries. cbn. rewrite (proj2 (Z.leb_le n SLOT)) by lia.
    rewrite bool_decide_eq_true_2 by lia. cbn [andb fs_used snd]. lia.
Defined.

(** A program header at 0x6000 with a segment of 256 MiB at 0x200000. *)
Definition lsample_big : est (simfw false) :=
  mkE (write64 (write64 (write64 (write32 ∅ 0x6000 1) 0x6008 0) 0x6018 0x200000) 0x6020 0x10000000) (mkFw 0 [] ∅ 0) [] None.

Lemma segment_pages_truncated_witness :
  runs (KernelLoader.load_elf_segment_by_p_hdr (file_of (F := simfw false) (image := 0x40) KERNEL) 0x6000) lsample_big (fun st s' => st = EFI_SUCCESS /\
    free (F := simfw false) (image := 0x40) (e_fw s') 0x201000 /\ mget (e_mem s') 0x200000 = 0x7f).
Proof.
  assert (Ez : Elf.p_filesz (e_mem lsample_big) 0x6000 = 0x10000000) by by vm_compute.
  assert (Ea : Elf.p_paddr (e_mem lsample_big) 0x6000 = 0x200000) by by vm_compute.
  assert (Eo : Elf.p_offset (e_mem lsample_big) 0x6000 = 0) by by vm_compute.
  assert (Hf : forall a, 0x200000 <= a < 0x202000 -> sim_free (e_fw lsample_big) a).
  { intros a Ha. right. unfold page_free, PAGES_LO, PAGES_HI. cbn.
    apply andb_true_iff. split; [apply andb_true_iff; split; [apply Z.leb_le|apply Z.ltb_lt]; zdm|done]. }
  pose proof (segment_pages_truncated (F := simfw false) (image := 0x40) KERNEL 0x6000 lsample_big) as Ht. cbv zeta in Ht.
  rewrite Ez, Ea, Eo in Ht. change (u16 (0x10000000 / KernelLoader.PAGE_SZ + 1)) with 1 in Ht.
  eapply runs_mono; [apply Ht; [done|done|done|done|]|].
  - intros a Ha. unfold region in Ha. split; [apply Hf; lia|]. cbn. unfold sim_pool_area, POOL, SLOT. lia.
  - intros st s' (-> & _ & Hfr & Hb). split_and!; [done|apply Hfr; [lia|apply Hf; lia]|].
    change 0x200000 with (0x200000 + 0). rewrite Hb; [by vm_compute|done|by vm_compute].
Defined.
